(** * waitless-market: order and ticket lifecycle engine

    A shallow embedding of the order engine ([core/orders.ts] and the
    [app/api/orders/create] route), of the lifecycle state machine
    ([updateOrderStatus], in both revisions of [core/orders.ts]), of the
    standalone ticket allocation route ([app/api/sessions/start]) and of the
    daily aggregation ([lib/adminDashboard.ts]).

    Conventions of the embedding.
    - A JavaScript [number] is the rational a finite binary64 float stands
      for ([Qc]); columns that hold whole cents and quantities are integers
      ([Z]).  Where a source divides, multiplies or adds fractional numbers
      and goes on computing with the result (the net amount of an order,
      the draw of a code, the mean preparation time and the tax of the
      daily summary) the operation is the exact one followed by [fl], the
      rounding to the nearest binary64 float.  The kwacha amounts of the
      daily summary (cents over 100, and their sums by vendor) are kept as
      the exact rationals.  [Double] is the same arithmetic on the
      specification floats of the standard library, for comparison.
    - A timestamp column is an instant, written as the number of
      milliseconds [Date.prototype.getTime] returns for it.
    - A table with a primary key is a finite map from the key to the other
      columns; [order_items] and [order_events], which the code never reads
      by key, are lists in insertion order.
    - A JavaScript [Map] is an association list in insertion order.
    - [throw] is the [Throw] result; the store is threaded explicitly, and
      a write that happened before a [throw] stays written. *)

From Stdlib Require Import ZArith QArith Qcanon Qround Qabs Qpower SpecFloat Lqa.
From stdpp Require Import base decidable option list gmap strings numbers pretty sorting.

Local Open Scope string_scope.
Local Open Scope Z_scope.

(** ** JavaScript primitives used by the sources *)

Module Js.

Abbreviation number := Qc (only parsing).

Definition of_int (z : Z) : number := Qc_of_Z z.

Definition Math_floor (x : number) : Z := Qfloor x.

(** [Math.round]: the nearest integer, a tie going up. *)
Definition Math_round (x : number) : Z := Qfloor (x + Q2Qc (1 # 2))%Qc.

(** *** binary64

    The numbers of the sources are IEEE 754 binary64 floats: 53 binary
    digits of precision, the last place of the smallest numbers at
    [2^-1074].  [Binary64.round x] is the float nearest to the rational [x],
    a tie going to the even significand, which is what every arithmetic
    operation of the sources applies to its exact result.  The model has no
    infinity and no NaN: a result of [2^1024] or more stands for itself and
    a division by 0 gives 0; the computations embedded here reach neither
    (their divisors are at least 1, or a positive length). *)
Module Binary64.

Definition prec : Z := 53.
Definition emin : Z := -1074.

Definition pow2 (e : Z) : Q := Qpower (2 # 1) e.

(** The integer [k] with [2^k <= x < 2^(k+1)], for [0 < x]. *)
Definition ilog2 (x : Q) : Z :=
  let k := Z.log2 (Qnum x) - Z.log2 (Zpos (Qden x)) in
  if Qle_bool (pow2 k) x then k else k - 1.

(** The nearest integer, a tie going to the even one. *)
Definition rne (y : Q) : Z :=
  let f := Qfloor y in
  match Qcompare (y - inject_Z f) (1 # 2) with
  | Lt => f
  | Gt => f + 1
  | Eq => if Z.even f then f else f + 1
  end.

(** The exponent of the last place of the floats around [x]: 52 binary
    places below the leading digit of [x], and not below [emin]. *)
Definition exponent (x : Q) : Z := Z.max emin (ilog2 (Qabs x) - (prec - 1)).

Definition round (x : Q) : Q :=
  let e := exponent x in
  (inject_Z (rne (x / pow2 e)) * pow2 e)%Q.

End Binary64.

(** The float nearest to [x]; [x] is a float when [fl x = x]. *)
Definition fl (x : number) : number := Q2Qc (Binary64.round x).

(** [a + b], [a - b], [a * b] and [a / b] on floats. *)
Definition fadd (a b : number) : number := fl (a + b)%Qc.
Definition fsub (a b : number) : number := fl (a - b)%Qc.
Definition fmul (a b : number) : number := fl (a * b)%Qc.
Definition fdiv (a b : number) : number := fl (a / b)%Qc.

(** The unit roundoff [2^-53], [Number.EPSILON = 2^-52] and the smallest
    normal float [2^-1022]: from there on a rounding moves a number by at
    most the unit roundoff of itself. *)
Definition eps : number := Q2Qc (1 # 9007199254740992).
Definition Number_EPSILON : number := Q2Qc (1 # 4503599627370496).
Definition min_normal : number := Q2Qc (Binary64.pow2 (-1022)).

(** Truthiness of a string (the empty string is falsy) and of a nullable
    string. *)
Definition truthy_string (s : string) : bool := negb (String.eqb s EmptyString).

Definition truthy (o : option string) : bool :=
  match o with
  | Some s => truthy_string s
  | None => false
  end.

(** [a ?? b] *)
Definition nullish {A : Type} (a : option A) (b : A) : A := default b a.

(** [a || b] on nullable strings. *)
Definition or_else (a : option string) (b : string) : string :=
  match a with
  | Some s => if truthy_string s then s else b
  | None => b
  end.

(** Template-literal rendering of an integer. *)
Definition show_int (z : Z) : string := pretty z.

Inductive Exn : Type :=
| Error (message : string)
| TypeError (message : string).

Inductive Result (A : Type) : Type :=
| Ok (a : A)
| Throw (e : Exn).
Arguments Ok {A} a.
Arguments Throw {A} e.

#[global] Instance Exn_eq_dec : EqDecision Exn.
Proof. solve_decision. Defined.

#[global] Instance Result_eq_dec {A : Type} `{EqDecision A} :
  EqDecision (Result A).
Proof. solve_decision. Defined.

Definition is_Ok {A : Type} (r : Result A) : bool :=
  match r with
  | Ok _ => true
  | Throw _ => false
  end.

End Js.
Export Js.

(** ** IEEE doubles *)

(** [Double] is binary64 arithmetic, precision 53 and maximal exponent
    1024, on the specification floats of the standard library.  The programs
    are embedded over [number] with [fl]; [Double] serves to compare the two
    on the inputs looked at below. *)
Module Double.

Definition prec : Z := 53.
Definition emax : Z := 1024.

Definition of_int (z : Z) : spec_float :=
  match z with
  | Z0 => S754_zero false
  | Zpos _ => binary_normalize prec emax z 0 false
  | Zneg _ => binary_normalize prec emax z 0 true
  end.

Definition add : spec_float → spec_float → spec_float := SFadd prec emax.
Definition sub : spec_float → spec_float → spec_float := SFsub prec emax.
Definition mul : spec_float → spec_float → spec_float := SFmul prec emax.
Definition div : spec_float → spec_float → spec_float := SFdiv prec emax.

(** The rational a finite double stands for. *)
Definition to_Q (x : spec_float) : option Q :=
  match x with
  | S754_zero _ => Some (inject_Z 0)
  | S754_finite s m e =>
      let v := (inject_Z (Zpos m) * Qpower (inject_Z 2) e)%Q in
      Some (if s then Qopp v else v)
  | S754_infinity _ => None
  | S754_nan => None
  end.

(** [Math.round] of a finite double: exact on the value of the double. *)
Definition Math_round (x : spec_float) : option Z :=
  (λ q, Qfloor (q + (1 # 2))%Q) <$> to_Q x.

End Double.

(** ** core/types.ts *)

Inductive OrderStatus : Type := preparing | ready | collected.

Inductive PaymentMethod : Type := cash | card | momo | other.

Module Actor.
Inductive t : Type := vendor | cashier | system.
End Actor.

Module SessionStatus.
Inductive t : Type := open | paid | closed | cancelled.
End SessionStatus.

#[global] Instance OrderStatus_eq_dec : EqDecision OrderStatus.
Proof. solve_decision. Defined.
#[global] Instance PaymentMethod_eq_dec : EqDecision PaymentMethod.
Proof. solve_decision. Defined.
#[global] Instance Actor_eq_dec : EqDecision Actor.t.
Proof. solve_decision. Defined.
#[global] Instance SessionStatus_eq_dec : EqDecision SessionStatus.t.
Proof. solve_decision. Defined.

Definition show_status (s : OrderStatus) : string :=
  match s with
  | preparing => "preparing"
  | ready => "ready"
  | collected => "collected"
  end.

Definition show_payment (p : PaymentMethod) : string :=
  match p with
  | cash => "cash"
  | card => "card"
  | momo => "momo"
  | other => "other"
  end.

Module CreateOrderItemInput.
Record t : Type := mk {
  menuItemId : string;
  quantity : Z;
  notes : option string
}.
End CreateOrderItemInput.

(** [CreateOrderInput], with the optional [sessionId] of the extended
    shape [createOrder] casts its argument to. *)
Module CreateOrderInput.
Record t : Type := mk {
  vendorId : string;
  items : list CreateOrderItemInput.t;
  paymentMethod : PaymentMethod;
  taxRate : option number;
  sessionId : option string
}.
End CreateOrderInput.

(** [CreatedOrderResult] with the extra fields [createOrder] returns. *)
Module CreatedOrderResult.
Record t : Type := mk {
  orderId : string;
  orderCode : string;
  vendorId : option string;
  totalCents : option Z;
  sessionId : option string;
  ticketCode : string
}.
End CreatedOrderResult.

(** ** The durable store *)

(** Modelled from the spec: the schema of the store is not under src/.
    The tables and columns are those the sources read and write; a column
    is nullable where a source guards it against [null]. *)

Module Session.
Record row : Type := mk {
  ticket_code : string;
  status : SessionStatus.t;
  created_at : Z;
  total_cents : option Z
}.
End Session.

Module Vendor.
Record row : Type := mk {
  name : string;
  is_active : bool
}.
End Vendor.

Module MenuItem.
Record row : Type := mk {
  name : string;
  price_cents : Z;
  is_active : bool;
  is_available : bool
}.
End MenuItem.

Module Order.
Record row : Type := mk {
  order_code : string;
  vendor_id : option string;
  session_id : option string;
  total_cents : option Z;
  net_cents : option Z;
  tax_cents : option Z;
  tax_rate : option number;
  payment_method : option string;
  status : OrderStatus;
  created_at : option Z;
  preparing_at : option Z;
  ready_at : option Z;
  collected_at : option Z
}.

Definition set_status (s : OrderStatus) (r : row) : row :=
  mk (order_code r) (vendor_id r) (session_id r) (total_cents r)
     (net_cents r) (tax_cents r) (tax_rate r) (payment_method r)
     s (created_at r) (preparing_at r) (ready_at r) (collected_at r).
End Order.

Module OrderItem.
Record row : Type := mk {
  order_id : string;
  name_snapshot : option string;
  unit_price_cents : Z;
  quantity : option Z;
  notes : option string
}.
End OrderItem.

Module OrderEvent.
Record row : Type := mk {
  order_id : string;
  from_status : option OrderStatus;
  to_status : OrderStatus;
  actor : Actor.t
}.
End OrderEvent.

#[global] Instance Session_row_eq_dec : EqDecision Session.row.
Proof. solve_decision. Defined.
#[global] Instance Vendor_row_eq_dec : EqDecision Vendor.row.
Proof. solve_decision. Defined.
#[global] Instance MenuItem_row_eq_dec : EqDecision MenuItem.row.
Proof. solve_decision. Defined.
#[global] Instance Order_row_eq_dec : EqDecision Order.row.
Proof. solve_decision. Defined.
#[global] Instance OrderItem_row_eq_dec : EqDecision OrderItem.row.
Proof. solve_decision. Defined.
#[global] Instance OrderEvent_row_eq_dec : EqDecision OrderEvent.row.
Proof. solve_decision. Defined.

Record Store : Type := mkStore {
  order_sessions : gmap string Session.row;
  vendors : gmap string Vendor.row;
  menu_items : gmap string MenuItem.row;
  orders : gmap string Order.row;
  order_items : list OrderItem.row;
  order_events : list OrderEvent.row
}.

#[global] Instance Store_eq_dec : EqDecision Store.
Proof. solve_decision. Defined.

(** ** Calls to the store *)

(** A computation over the store that may throw. *)
Definition M (A : Type) : Type := Store → Result A * Store.

#[global] Instance M_ret : MRet M := λ A (a : A) st, (Ok a, st).

#[global] Instance M_bind : MBind M := λ A B (k : A → M B) (m : M A) st,
  match m st with
  | (Ok a, st') => k a st'
  | (Throw e, st') => (Throw e, st')
  end.

Definition throw {A : Type} (e : Exn) : M A := λ st, (Throw e, st).

(** [console.error]: no effect on the store or on the result. *)
Definition console_error : M unit := mret tt.

(** A read of the store. *)
Definition query {A : Type} (q : Store → A) : M A := λ st, (Ok (q st), st).

(** A write to the store that reports its outcome. *)
Definition command {A : Type} (c : Store → A * Store) : M A := λ st,
  let '(a, st') := c st in (Ok a, st').

(** The projections the sources select. *)
Module DbOrderSession.
Record t : Type := mk {
  id : string;
  ticket_code : string;
  status : SessionStatus.t;
  created_at : Z
}.
End DbOrderSession.

Module DbVendor.
Record t : Type := mk {
  id : string;
  is_active : bool
}.
End DbVendor.

Module DbMenuItem.
Record t : Type := mk {
  id : string;
  name : string;
  price_cents : Z;
  is_active : bool;
  is_available : bool
}.
End DbMenuItem.

Module DbOrderMinimal.
Record t : Type := mk {
  id : string;
  status : OrderStatus
}.
End DbOrderMinimal.

Module DbOrderStatusRow.
Record t : Type := mk {
  id : string;
  status : OrderStatus;
  preparing_at : option Z;
  ready_at : option Z;
  collected_at : option Z
}.
End DbOrderStatusRow.

#[global] Instance DbOrderSession_eq_dec : EqDecision DbOrderSession.t.
Proof. solve_decision. Defined.
#[global] Instance DbMenuItem_eq_dec : EqDecision DbMenuItem.t.
Proof. solve_decision. Defined.
#[global] Instance DbOrderMinimal_eq_dec : EqDecision DbOrderMinimal.t.
Proof. solve_decision. Defined.
#[global] Instance CreatedOrderResult_eq_dec : EqDecision CreatedOrderResult.t.
Proof. solve_decision. Defined.

(** A stable sort: [x] is put in front of the first [y] with [before x y].
    Both [Array.prototype.sort] with a consistent comparator and the
    [order by] of the store are this function. *)
Fixpoint insert_sorted {A : Type} (before : A → A → bool) (x : A) (l : list A)
  : list A :=
  match l with
  | [] => [x]
  | y :: l' => if before x y then x :: l else y :: insert_sorted before x l'
  end.

Definition stable_sort {A : Type} (before : A → A → bool) (l : list A) : list A :=
  foldr (insert_sorted before) [] l.

(** [xs.sort(compare)]: [a] stays in front of [b] unless [compare(a, b) > 0]. *)
Definition Array_sort {A : Type} (compare : A → A → number) (xs : list A)
  : list A :=
  stable_sort (λ a b, bool_decide (compare a b ≤ 0)%Qc) xs.

(** Modelled from the spec: the store client ([supabaseAdmin]) is not under
    src/.  Section 6 of the spec gives its contract: create, read and update
    of each table, with uniqueness constraints on [ticket_code] and
    [order_code].  Every call answers [{data, error}]; [fails] is an
    unexpected failure of that call, and a violated constraint is an error
    too.  The key and [created_at] of a new row are generated by the store:
    they are the [new_id] and [now] arguments of an insert. *)
Module Db.

Definition session_of (id : string) (r : Session.row) : DbOrderSession.t :=
  DbOrderSession.mk id (Session.ticket_code r) (Session.status r)
                    (Session.created_at r).

(** [from("order_sessions").select(..).eq("id", id).single()] *)
Definition select_session (fails : bool) (id : string) (st : Store)
  : option DbOrderSession.t :=
  if fails then None else session_of id <$> order_sessions st !! id.

Definition ticket_code_taken (code : string) (st : Store) : bool :=
  bool_decide
    (map_Exists (λ _ r, Session.ticket_code r = code) (order_sessions st)).

(** [from("order_sessions").insert({ticket_code, status}).select(..).single()];
    a row written without a status gets the column default, [open]. *)
Definition insert_session (fails : bool) (new_id : string) (now : Z)
    (code : string) (status : option SessionStatus.t) (st : Store)
  : option DbOrderSession.t * Store :=
  if fails || bool_decide (is_Some (order_sessions st !! new_id))
     || ticket_code_taken code st
  then (None, st)
  else
    let r := Session.mk code (default SessionStatus.open status) now None in
    (Some (session_of new_id r),
     mkStore (<[new_id := r]> (order_sessions st)) (vendors st)
             (menu_items st) (orders st) (order_items st)
             (order_events st)).

(** [from("vendors").select("id, is_active").eq("id", id).single()] *)
Definition select_vendor (fails : bool) (id : string) (st : Store)
  : option DbVendor.t :=
  if fails then None
  else (λ r, DbVendor.mk id (Vendor.is_active r)) <$> vendors st !! id.

Definition menu_item_of (id : string) (r : MenuItem.row) : DbMenuItem.t :=
  DbMenuItem.mk id (MenuItem.name r) (MenuItem.price_cents r)
                (MenuItem.is_active r) (MenuItem.is_available r).

(** [from("menu_items").select(..).in("id", ids)]: one row for each
    distinct requested id that the table holds; [None] is [error]. *)
Definition select_menu_items (fails : bool) (ids : list string) (st : Store)
  : option (list DbMenuItem.t) :=
  if fails then None
  else Some (omap (λ id, menu_item_of id <$> menu_items st !! id)
                  (remove_dups ids)).

Definition order_code_taken (code : string) (st : Store) : bool :=
  bool_decide (map_Exists (λ _ r, Order.order_code r = code) (orders st)).

(** [created_at] has the insertion time as its column default. *)
Definition with_created_at (now : Z) (r : Order.row) : Order.row :=
  Order.mk (Order.order_code r) (Order.vendor_id r) (Order.session_id r)
           (Order.total_cents r) (Order.net_cents r) (Order.tax_cents r)
           (Order.tax_rate r) (Order.payment_method r) (Order.status r)
           (Some (default now (Order.created_at r)))
           (Order.preparing_at r) (Order.ready_at r) (Order.collected_at r).

(** [from("orders").insert(r).select(..).single()]: the stored row and
    its key, or [None] on [error]. *)
Definition insert_order (fails : bool) (new_id : string) (now : Z)
    (r : Order.row) (st : Store) : option (string * Order.row) * Store :=
  if fails || bool_decide (is_Some (orders st !! new_id))
     || order_code_taken (Order.order_code r) st
  then (None, st)
  else
    let r' := with_created_at now r in
    (Some (new_id, r'),
     mkStore (order_sessions st) (vendors st) (menu_items st)
             (<[new_id := r']> (orders st)) (order_items st)
             (order_events st)).

(** [from("order_items").insert(rows)]; [true] is [error]. *)
Definition insert_order_items (fails : bool) (rows : list OrderItem.row)
    (st : Store) : bool * Store :=
  if fails then (true, st)
  else (false,
        mkStore (order_sessions st) (vendors st) (menu_items st)
                (orders st) (order_items st ++ rows) (order_events st)).

(** [from("order_events").insert(row)]; [true] is [error]. *)
Definition insert_order_event (fails : bool) (row : OrderEvent.row)
    (st : Store) : bool * Store :=
  if fails then (true, st)
  else (false,
        mkStore (order_sessions st) (vendors st) (menu_items st)
                (orders st) (order_items st) (order_events st ++ [row])).

(** [from("orders").select(..).limit(1).eq("id", id)] *)
Definition select_order_by_id (fails : bool) (id : string) (st : Store)
  : option (string * Order.row) :=
  if fails then None else (λ r, (id, r)) <$> orders st !! id.

(** [from("orders").select(..).limit(1).eq("order_code", code)] *)
Definition select_order_by_code (fails : bool) (code : string) (st : Store)
  : option (string * Order.row) :=
  if fails then None
  else
    snd <$> list_find (λ kr, Order.order_code kr.2 = code)
                      (map_to_list (orders st)).

(** [from("orders").update(u).eq("id", id)]; [true] is [error]. *)
Definition update_order (fails : bool) (id : string)
    (u : Order.row → Order.row) (st : Store) : bool * Store :=
  if fails then (true, st)
  else (false,
        mkStore (order_sessions st) (vendors st) (menu_items st)
                (alter u id (orders st)) (order_items st)
                (order_events st)).

(** [created_at >= start and created_at <= end_]; a null never matches. *)
Definition created_between (start end_ : Z) (r : Order.row) : bool :=
  match Order.created_at r with
  | Some t => bool_decide (start ≤ t) && bool_decide (t ≤ end_)
  | None => false
  end.

Definition created_desc (a b : string * Order.row) : bool :=
  bool_decide (default 0 (Order.created_at b.2) ≤ default 0 (Order.created_at a.2)).

(** [from("orders").select(..).gte("created_at", start).lte("created_at", end_)
    .order("created_at", {ascending: false})]; [None] is [error]. *)
Definition select_orders_created_between (fails : bool) (start end_ : Z)
    (st : Store) : option (list (string * Order.row)) :=
  if fails then None
  else Some (stable_sort created_desc
               (filter (λ kr, created_between start end_ kr.2 = true)
                       (map_to_list (orders st)))).

(** [from("vendors").select("id, name").in("id", ids)] *)
Definition select_vendor_names (fails : bool) (ids : list string) (st : Store)
  : option (list (string * string)) :=
  if fails then None
  else Some (omap (λ id, (λ r, (id, Vendor.name r)) <$> vendors st !! id)
                  (remove_dups ids)).

(** [from("order_items").select(..).in("order_id", ids)] *)
Definition select_order_items (fails : bool) (ids : list string) (st : Store)
  : option (list OrderItem.row) :=
  if fails then None
  else Some (filter (λ it, OrderItem.order_id it ∈ ids) (order_items st)).

End Db.

(** ** core/orders.ts *)

(** What the world supplies to one call of [createOrder]: the results of
    [Math.random()], the keys and the clock of the store, and which calls
    to the store fail unexpectedly. *)
Module CreateEnv.
Record t : Type := mk {
  random_ticket : number;
  random_order : number;
  new_session_id : string;
  new_order_id : string;
  now : Z;
  session_fails : bool;
  vendor_fails : bool;
  menu_fails : bool;
  order_fails : bool;
  items_fails : bool;
  event_fails : bool
}.
End CreateEnv.

(** What the world supplies to one call of [updateOrderStatus]. *)
Module UpdateEnv.
Record t : Type := mk {
  now : Z;
  select_fails : bool;
  update_fails : bool;
  event_fails : bool
}.
End UpdateEnv.

(** [UpdateOrderStatusInput]; [at] is a field of the later revision only,
    and only that revision reads it. *)
Module UpdateOrderStatusInput.
Record t : Type := mk {
  orderId : option string;
  orderCode : option string;
  toStatus : OrderStatus;
  actor : Actor.t;
  at_ : option Z
}.
End UpdateOrderStatusInput.

(** The object literal [createOrder] builds for each cart line. *)
Module OrderItemToInsert.
Record t : Type := mk {
  name_snapshot : string;
  unit_price_cents : Z;
  quantity : Z;
  notes : option string
}.
End OrderItemToInsert.

Module Orders.
Import CreateOrderInput.

Definition generateSimpleCode (random01 : number) (prefix : string) : string :=
  let random := Math_floor (fadd (of_int 1000) (fmul random01 (of_int 9000))) in
  prefix +:+ "-" +:+ show_int random.

Definition canTransition (from to : OrderStatus) : bool :=
  if bool_decide (from = preparing) && bool_decide (to = ready) then true
  else if bool_decide (from = ready) && bool_decide (to = collected) then true
  else false.

(** The second half of [ensureSession]: a new ticket with a fresh code. *)
Definition create_session (env : CreateEnv.t) : M DbOrderSession.t :=
  let ticket_code := generateSimpleCode (CreateEnv.random_ticket env) "WL" in
  data ← command (Db.insert_session (CreateEnv.session_fails env)
                    (CreateEnv.new_session_id env) (CreateEnv.now env)
                    ticket_code (Some SessionStatus.open));
  match data with
  | None => _ ← console_error; throw (Error "Failed to create order session.")
  | Some data => mret data
  end.

Definition ensureSession (env : CreateEnv.t) (sessionId : option string)
  : M DbOrderSession.t :=
  match sessionId with
  | Some sid =>
      if truthy_string sid then
        data ← query (Db.select_session (CreateEnv.session_fails env) sid);
        match data with
        | None => _ ← console_error; throw (Error "Session not found.")
        | Some data => mret data
        end
      else create_session env
  | None => create_session env
  end.

(** The loop over [menuItems] that rejects the first item that is not
    active or not available. *)
Fixpoint validate_available (menuItems : list DbMenuItem.t) : M unit :=
  match menuItems with
  | [] => mret tt
  | item :: rest =>
      if negb (DbMenuItem.is_active item) || negb (DbMenuItem.is_available item)
      then throw (Error ("Item '" +:+ DbMenuItem.name item +:+ "' is not available."))
      else validate_available rest
  end.

(** [menuItems.find((m) => m.id === id)] *)
Definition find_menu_item (menuItems : list DbMenuItem.t) (id : string)
  : option DbMenuItem.t :=
  snd <$> list_find (λ m, DbMenuItem.id m = id) menuItems.

(** The callback of [input.items.map], with [totalCents] threaded
    through; reading [price_cents] of [undefined] is a [TypeError]. *)
Fixpoint price_lines (menuItems : list DbMenuItem.t)
    (lines : list CreateOrderItemInput.t) (totalCents : Z)
  : Result (Z * list OrderItemToInsert.t) :=
  match lines with
  | [] => Ok (totalCents, [])
  | line :: rest =>
      match find_menu_item menuItems (CreateOrderItemInput.menuItemId line) with
      | None =>
          Throw (TypeError "Cannot read properties of undefined (reading 'price_cents')")
      | Some menuItem =>
          let lineTotal :=
            DbMenuItem.price_cents menuItem * CreateOrderItemInput.quantity line in
          match price_lines menuItems rest (totalCents + lineTotal) with
          | Ok (total, out) =>
              Ok (total,
                  OrderItemToInsert.mk (DbMenuItem.name menuItem)
                    (DbMenuItem.price_cents menuItem)
                    (CreateOrderItemInput.quantity line)
                    (CreateOrderItemInput.notes line) :: out)
          | Throw e => Throw e
          end
      end
  end.

Definition lift {A : Type} (r : Result A) : M A := λ st, (r, st).

Definition net_of (totalCents : Z) (taxRate : number) : Z :=
  if bool_decide (0 < taxRate)%Qc
  then Math_round (fdiv (of_int totalCents) (fadd 1 (fdiv taxRate (of_int 100))))
  else totalCents.

Definition with_order_id (order_id : string) (oi : OrderItemToInsert.t)
  : OrderItem.row :=
  OrderItem.mk order_id (Some (OrderItemToInsert.name_snapshot oi))
               (OrderItemToInsert.unit_price_cents oi)
               (Some (OrderItemToInsert.quantity oi))
               (OrderItemToInsert.notes oi).

Definition createOrder (env : CreateEnv.t) (input : CreateOrderInput.t)
  : M CreatedOrderResult.t :=
  if bool_decide (length (items input) = 0%nat)
  then throw (Error "Order must contain at least one item.")
  else
    let requestedSessionId := sessionId input in
    session ← ensureSession env requestedSessionId;
    vendor ← query (Db.select_vendor (CreateEnv.vendor_fails env) (vendorId input));
    match vendor with
    | None => _ ← console_error; throw (Error "Vendor not found.")
    | Some vendor =>
        if negb (DbVendor.is_active vendor)
        then throw (Error "Vendor is not active.")
        else
          let menuItemIds := map CreateOrderItemInput.menuItemId (items input) in
          menuData ← query (Db.select_menu_items (CreateEnv.menu_fails env) menuItemIds);
          match menuData with
          | None => _ ← console_error; throw (Error "Failed to fetch menu items.")
          | Some menuItems =>
              if negb (bool_decide (length menuItems = length menuItemIds))
              then throw (Error "Some menu items could not be found.")
              else
                _ ← validate_available menuItems;
                '(totalCents, orderItemsToInsert) ←
                  lift (price_lines menuItems (items input) 0);
                let taxRate := nullish (taxRate input) (of_int 0) in
                let netCents := net_of totalCents taxRate in
                let taxCents := totalCents - netCents in
                let orderCode := generateSimpleCode (CreateEnv.random_order env) "MS" in
                order ← command
                  (Db.insert_order (CreateEnv.order_fails env)
                     (CreateEnv.new_order_id env) (CreateEnv.now env)
                     (Order.mk orderCode (Some (vendorId input))
                        (Some (DbOrderSession.id session))
                        (Some totalCents) (Some netCents) (Some taxCents)
                        (Some taxRate)
                        (Some (show_payment (paymentMethod input)))
                        preparing None None None None));
                match order with
                | None => _ ← console_error; throw (Error "Failed to create order.")
                | Some (order_id, order) =>
                    let orderItemsPayload :=
                      map (with_order_id order_id) orderItemsToInsert in
                    itemsError ← command
                      (Db.insert_order_items (CreateEnv.items_fails env)
                         orderItemsPayload);
                    if (itemsError : bool)
                    then _ ← console_error; throw (Error "Failed to create order items.")
                    else
                      eventError ← command
                        (Db.insert_order_event (CreateEnv.event_fails env)
                           (OrderEvent.mk order_id None preparing Actor.cashier));
                      _ ← (if (eventError : bool) then console_error else mret tt);
                      mret (CreatedOrderResult.mk order_id
                              (Order.order_code order) (Order.vendor_id order)
                              (Order.total_cents order) (Order.session_id order)
                              (DbOrderSession.ticket_code session))
                end
          end
    end.

(** The query of step 1: [data[0]] with the selected columns, or [None]
    when [error || !data || !data[0]]. *)
Definition load_current (env : UpdateEnv.t) (input : UpdateOrderStatusInput.t)
    (st : Store) : option DbOrderMinimal.t :=
  (λ kr : string * Order.row, DbOrderMinimal.mk kr.1 (Order.status kr.2)) <$>
  (if truthy (UpdateOrderStatusInput.orderId input)
   then Db.select_order_by_id (UpdateEnv.select_fails env)
          (default EmptyString (UpdateOrderStatusInput.orderId input)) st
   else Db.select_order_by_code (UpdateEnv.select_fails env)
          (default EmptyString (UpdateOrderStatusInput.orderCode input)) st).

Definition invalid_transition (from to : OrderStatus) : Exn :=
  Error ("Invalid status transition " +:+ show_status from +:+ " → "
         +:+ show_status to).

Definition updateOrderStatus (env : UpdateEnv.t)
    (input : UpdateOrderStatusInput.t) : M DbOrderMinimal.t :=
  if negb (truthy (UpdateOrderStatusInput.orderId input))
     && negb (truthy (UpdateOrderStatusInput.orderCode input))
  then throw (Error "orderId or orderCode is required.")
  else
    data ← query (load_current env input);
    match data with
    | None => _ ← console_error; throw (Error "Order not found.")
    | Some current =>
        let toStatus := UpdateOrderStatusInput.toStatus input in
        if bool_decide (DbOrderMinimal.status current = toStatus)
        then mret current
        else if negb (canTransition (DbOrderMinimal.status current) toStatus)
        then throw (invalid_transition (DbOrderMinimal.status current) toStatus)
        else
          updateError ← command
            (Db.update_order (UpdateEnv.update_fails env)
               (DbOrderMinimal.id current) (Order.set_status toStatus));
          if (updateError : bool)
          then _ ← console_error; throw (Error "Failed to update order status.")
          else
            eventError ← command
              (Db.insert_order_event (UpdateEnv.event_fails env)
                 (OrderEvent.mk (DbOrderMinimal.id current)
                    (Some (DbOrderMinimal.status current)) toStatus
                    (UpdateOrderStatusInput.actor input)));
            _ ← (if (eventError : bool) then console_error else mret tt);
            mret (DbOrderMinimal.mk (DbOrderMinimal.id current) toStatus)
    end.

End Orders.

(** ** core/orders.ts, the revision that stamps the lifecycle *)

(** [updates: Partial<DbOrderStatusRow>]: the columns one [update] sets. *)
Module Updates.
Record t : Type := mk {
  status : option OrderStatus;
  preparing_at : option Z;
  ready_at : option Z;
  collected_at : option Z
}.

(** A column absent from the object keeps its value. *)
Definition apply (u : t) (r : Order.row) : Order.row :=
  Order.mk (Order.order_code r) (Order.vendor_id r) (Order.session_id r)
           (Order.total_cents r) (Order.net_cents r) (Order.tax_cents r)
           (Order.tax_rate r) (Order.payment_method r)
           (default (Order.status r) (status u))
           (Order.created_at r)
           (match preparing_at u with Some t => Some t | None => Order.preparing_at r end)
           (match ready_at u with Some t => Some t | None => Order.ready_at r end)
           (match collected_at u with Some t => Some t | None => Order.collected_at r end).
End Updates.

Module OrdersWithTiming.

Definition canTransition (from to : OrderStatus) : bool :=
  if bool_decide (from = preparing) && bool_decide (to = ready) then true
  else if bool_decide (from = ready) && bool_decide (to = collected) then true
  else false.

(** The query of step 1, with the timing columns. *)
Definition load_current (env : UpdateEnv.t) (input : UpdateOrderStatusInput.t)
    (st : Store) : option DbOrderStatusRow.t :=
  (λ kr : string * Order.row,
     DbOrderStatusRow.mk kr.1 (Order.status kr.2) (Order.preparing_at kr.2)
                         (Order.ready_at kr.2) (Order.collected_at kr.2)) <$>
  (if truthy (UpdateOrderStatusInput.orderId input)
   then Db.select_order_by_id (UpdateEnv.select_fails env)
          (default EmptyString (UpdateOrderStatusInput.orderId input)) st
   else Db.select_order_by_code (UpdateEnv.select_fails env)
          (default EmptyString (UpdateOrderStatusInput.orderCode input)) st).

(** The three guarded assignments to [updates]; a timestamp is falsy when
    it is null. *)
Definition updates_for (current : DbOrderStatusRow.t) (toStatus : OrderStatus)
    (at_ : Z) : Updates.t :=
  Updates.mk (Some toStatus)
    (if bool_decide (toStatus = preparing)
        && bool_decide (DbOrderStatusRow.preparing_at current = None)
     then Some at_ else None)
    (if bool_decide (toStatus = ready)
        && bool_decide (DbOrderStatusRow.ready_at current = None)
     then Some at_ else None)
    (if bool_decide (toStatus = collected)
        && bool_decide (DbOrderStatusRow.collected_at current = None)
     then Some at_ else None).

Definition updateOrderStatus (env : UpdateEnv.t)
    (input : UpdateOrderStatusInput.t) : M DbOrderMinimal.t :=
  if negb (truthy (UpdateOrderStatusInput.orderId input))
     && negb (truthy (UpdateOrderStatusInput.orderCode input))
  then throw (Error "orderId or orderCode is required.")
  else
    let at_ := nullish (UpdateOrderStatusInput.at_ input) (UpdateEnv.now env) in
    data ← query (load_current env input);
    match data with
    | None => _ ← console_error; throw (Error "Order not found.")
    | Some current =>
        let toStatus := UpdateOrderStatusInput.toStatus input in
        if bool_decide (DbOrderStatusRow.status current = toStatus)
        then mret (DbOrderMinimal.mk (DbOrderStatusRow.id current)
                                     (DbOrderStatusRow.status current))
        else if negb (canTransition (DbOrderStatusRow.status current) toStatus)
        then throw (Orders.invalid_transition (DbOrderStatusRow.status current) toStatus)
        else
          let updates := updates_for current toStatus at_ in
          updateError ← command
            (Db.update_order (UpdateEnv.update_fails env)
               (DbOrderStatusRow.id current) (Updates.apply updates));
          if (updateError : bool)
          then _ ← console_error; throw (Error "Failed to update order status.")
          else
            eventError ← command
              (Db.insert_order_event (UpdateEnv.event_fails env)
                 (OrderEvent.mk (DbOrderStatusRow.id current)
                    (Some (DbOrderStatusRow.status current)) toStatus
                    (UpdateOrderStatusInput.actor input)));
            _ ← (if (eventError : bool) then console_error else mret tt);
            mret (DbOrderMinimal.mk (DbOrderStatusRow.id current) toStatus)
    end.

(** A history of calls, each with what the world supplied to it; the
    results are dropped, the store is kept. *)
Definition run_updates (calls : list (UpdateEnv.t * UpdateOrderStatusInput.t))
    (st : Store) : Store :=
  foldl (λ st c, (updateOrderStatus c.1 c.2 st).2) st calls.

End OrdersWithTiming.

(** ** app/api/sessions/start/route.ts *)

(** A JSON response: the HTTP status and the body. *)
Module Response.
Record t (A : Type) : Type := mk {
  http_status : Z;
  success : bool;
  error : option string;
  payload : option A
}.
Arguments mk {A} _ _ _ _.
Arguments http_status {A} _.
Arguments success {A} _.
Arguments error {A} _.
Arguments payload {A} _.

Definition ok {A : Type} (a : A) : t A := mk 200 true None (Some a).
Definition fail {A : Type} (status : Z) (msg : string) : t A :=
  mk status false (Some msg) None.
End Response.

Module SessionsStart.

(** What the world supplies to one request: for the [n]-th call of
    [Math.random()] its result, and for the [i]-th insert the key the
    store generates and whether the call fails unexpectedly. *)
Record Env : Type := mkEnv {
  random : nat → number;
  new_id : nat → string;
  now : Z;
  insert_fails : nat → bool
}.

Definition generateTicketCode (random01 : number) : string :=
  let n := Math_floor (fadd (of_int 1000) (fmul random01 (of_int 9000))) in
  "WL-" +:+ show_int n.

Module SessionJson.
Record t : Type := mk {
  id : string;
  ticket_code : string;
  created_at : Z;
  status : SessionStatus.t;
  total_cents : option Z
}.
End SessionJson.

(** The body of [for (let i = 0; i < 5; i++)], from iteration [i] on,
    with [left] iterations to go. *)
Fixpoint retry_loop (env : Env) (left : nat) (i : nat) (ticket_code : string)
  : M (Response.t SessionJson.t) :=
  match left with
  | O => mret (Response.fail 500 "Failed to create session after retries")
  | S left' =>
      data ← command (λ st,
        let '(d, st') := Db.insert_session (insert_fails env i) (new_id env i)
                           (now env) ticket_code None st in
        ((λ d, (d, order_sessions st' !! DbOrderSession.id d
                     ≫= Session.total_cents)) <$> d, st'));
      match data with
      | Some (data, total_cents) =>
          mret (Response.ok
                  (SessionJson.mk (DbOrderSession.id data)
                     (DbOrderSession.ticket_code data)
                     (DbOrderSession.created_at data)
                     (DbOrderSession.status data) total_cents))
      | None =>
          retry_loop env left' (S i) (generateTicketCode (random env (S i)))
      end
  end.

(** The body of the [try] block. *)
Definition handler (env : Env) : M (Response.t SessionJson.t) :=
  let ticket_code := generateTicketCode (random env 0%nat) in
  retry_loop env 5 0 ticket_code.

(** [try { .. } catch (e) { .. }]: whatever is thrown becomes a 500. *)
Definition POST (env : Env) (st : Store) : Response.t SessionJson.t * Store :=
  match handler env st with
  | (Ok response, st') => (response, st')
  | (Throw _, st') => (Response.fail 500 "Unexpected server error", st')
  end.

End SessionsStart.

(** ** app/api/orders/create/route.ts *)

Module IncomingBody.
Record t : Type := mk {
  vendorId : option string;
  paymentMethod : option string;
  taxRate : option number;
  items : option (list CreateOrderItemInput.t);
  sessionId : option string
}.
End IncomingBody.

Module CreateRoute.

Module DbSession.
Record t : Type := mk {
  id : string;
  ticket_code : string
}.
End DbSession.

Module OrderJson.
Record t : Type := mk {
  id : string;
  order_code : string;
  vendor_id : option string;
  total_cents : option Z
}.
End OrderJson.

(** The body of a successful response: [order] and [session]. *)
Module Created.
Record t : Type := mk {
  order : OrderJson.t;
  session : DbSession.t
}.
End Created.

Definition generateSimpleCode (random01 : number) (prefix : string) : string :=
  let random := Math_floor (fadd (of_int 1000) (fmul random01 (of_int 9000))) in
  prefix +:+ "-" +:+ show_int random.

Definition create_session (env : CreateEnv.t) : M DbSession.t :=
  let ticket_code := generateSimpleCode (CreateEnv.random_ticket env) "WL" in
  data ← command (Db.insert_session (CreateEnv.session_fails env)
                    (CreateEnv.new_session_id env) (CreateEnv.now env)
                    ticket_code (Some SessionStatus.open));
  match data with
  | None => _ ← console_error; throw (Error "Failed to create order session.")
  | Some data =>
      mret (DbSession.mk (DbOrderSession.id data) (DbOrderSession.ticket_code data))
  end.

Definition ensureSession (env : CreateEnv.t) (sessionId : option string)
  : M DbSession.t :=
  match sessionId with
  | Some sid =>
      if truthy_string sid then
        data ← query (Db.select_session (CreateEnv.session_fails env) sid);
        match data with
        | None => _ ← console_error; throw (Error "Session not found.")
        | Some data =>
            mret (DbSession.mk (DbOrderSession.id data)
                               (DbOrderSession.ticket_code data))
        end
      else create_session env
  | None => create_session env
  end.

(** The first item of [menuItems] that is not active or not available. *)
Fixpoint first_unavailable (menuItems : list DbMenuItem.t) : option DbMenuItem.t :=
  match menuItems with
  | [] => None
  | item :: rest =>
      if negb (DbMenuItem.is_active item) || negb (DbMenuItem.is_available item)
      then Some item
      else first_unavailable rest
  end.

Definition find_menu (menuItems : list DbMenuItem.t) (id : string)
  : option DbMenuItem.t :=
  snd <$> list_find (λ m, DbMenuItem.id m = id) menuItems.

(** The callback of [items.map], with [totalCents] threaded through. *)
Fixpoint price_lines (menuItems : list DbMenuItem.t)
    (lines : list CreateOrderItemInput.t) (totalCents : Z)
  : Result (Z * list OrderItemToInsert.t) :=
  match lines with
  | [] => Ok (totalCents, [])
  | line :: rest =>
      match find_menu menuItems (CreateOrderItemInput.menuItemId line) with
      | None =>
          Throw (TypeError "Cannot read properties of undefined (reading 'price_cents')")
      | Some menu =>
          let lineTotal :=
            DbMenuItem.price_cents menu * CreateOrderItemInput.quantity line in
          match price_lines menuItems rest (totalCents + lineTotal) with
          | Ok (total, out) =>
              Ok (total,
                  OrderItemToInsert.mk (DbMenuItem.name menu)
                    (DbMenuItem.price_cents menu)
                    (CreateOrderItemInput.quantity line)
                    (CreateOrderItemInput.notes line) :: out)
          | Throw e => Throw e
          end
      end
  end.

Definition net_of (totalCents : Z) (appliedTaxRate : number) : Z :=
  if bool_decide (0 < appliedTaxRate)%Qc
  then Math_round (fdiv (of_int totalCents)
                        (fadd 1 (fdiv appliedTaxRate (of_int 100))))
  else totalCents.

(** The body of the [try] block. *)
Definition handler (env : CreateEnv.t) (body : IncomingBody.t)
  : M (Response.t Created.t) :=
  match IncomingBody.vendorId body, IncomingBody.items body with
  | Some vendorId, Some items =>
      if negb (truthy_string vendorId) || bool_decide (length items = 0%nat)
      then mret (Response.fail 400 "Missing vendor or items")
      else
        session ← ensureSession env (IncomingBody.sessionId body);
        vendor ← query (Db.select_vendor (CreateEnv.vendor_fails env) vendorId);
        match vendor with
        | None => _ ← console_error; mret (Response.fail 400 "Vendor not found.")
        | Some vendor =>
            if negb (DbVendor.is_active vendor)
            then mret (Response.fail 400 "Vendor is not active.")
            else
              let menuItemIds := map CreateOrderItemInput.menuItemId items in
              menuData ← query (Db.select_menu_items (CreateEnv.menu_fails env) menuItemIds);
              match menuData with
              | None => _ ← console_error; mret (Response.fail 500 "Failed to fetch menu items.")
              | Some menuItems =>
                  if negb (bool_decide (length menuItems = length menuItemIds))
                  then mret (Response.fail 400 "Some menu items could not be found.")
                  else
                    match first_unavailable menuItems with
                    | Some item =>
                        mret (Response.fail 400
                                ("Item '" +:+ DbMenuItem.name item +:+ "' is not available."))
                    | None =>
                        '(totalCents, orderItemsToInsert) ←
                          Orders.lift (price_lines menuItems items 0);
                        let appliedTaxRate := nullish (IncomingBody.taxRate body) (of_int 0) in
                        let netCents := net_of totalCents appliedTaxRate in
                        let taxCents := totalCents - netCents in
                        let orderCode := generateSimpleCode (CreateEnv.random_order env) "WL" in
                        order ← command
                          (Db.insert_order (CreateEnv.order_fails env)
                             (CreateEnv.new_order_id env) (CreateEnv.now env)
                             (Order.mk orderCode (Some vendorId)
                                (Some (DbSession.id session))
                                (Some totalCents) (Some netCents) (Some taxCents)
                                (Some appliedTaxRate)
                                (IncomingBody.paymentMethod body)
                                preparing None None None None));
                        match order with
                        | None => _ ← console_error; mret (Response.fail 500 "Failed to create order.")
                        | Some (order_id, order) =>
                            let orderItemsPayload :=
                              map (Orders.with_order_id order_id) orderItemsToInsert in
                            itemsError ← command
                              (Db.insert_order_items (CreateEnv.items_fails env)
                                 orderItemsPayload);
                            if (itemsError : bool)
                            then _ ← console_error;
                                 mret (Response.fail 500 "Failed to create order items.")
                            else
                              eventError ← command
                                (Db.insert_order_event (CreateEnv.event_fails env)
                                   (OrderEvent.mk order_id None preparing Actor.cashier));
                              _ ← (if (eventError : bool) then console_error else mret tt);
                              mret (Response.ok
                                      (Created.mk
                                         (OrderJson.mk order_id (Order.order_code order)
                                            (Order.vendor_id order) (Order.total_cents order))
                                         session))
                        end
                    end
              end
        end
  | _, _ => mret (Response.fail 400 "Missing vendor or items")
  end.

(** [try { .. } catch (e) { .. }]: whatever is thrown becomes a 500. *)
Definition POST (env : CreateEnv.t) (body : IncomingBody.t) (st : Store)
  : Response.t Created.t * Store :=
  match handler env body st with
  | (Ok response, st') => (response, st')
  | (Throw _, st') => (Response.fail 500 "Unexpected server error", st')
  end.

End CreateRoute.

(** ** lib/adminDashboard.ts *)

(** A [Map<string, V>] that is iterated: the entries in insertion order. *)
Module JsMap.

Definition t (V : Type) : Type := list (string * V).

Definition get {V : Type} (m : list (string * V)) (k : string) : option V :=
  (λ e : nat * (string * V), e.2.2) <$> list_find (λ kv, kv.1 = k) m.

(** [m.set(k, v)]: an existing key keeps its place. *)
Fixpoint set {V : Type} (m : list (string * V)) (k : string) (v : V)
  : list (string * V) :=
  match m with
  | [] => [(k, v)]
  | (k', v') :: m' =>
      if decide (k' = k) then (k, v) :: m' else (k', v') :: set m' k v
  end.

Definition values {V : Type} (m : list (string * V)) : list V := m.*2.

End JsMap.

Module VendorSale.
Record t : Type := mk {
  vendorId : string;
  vendorName : string;
  total : number
}.
End VendorSale.

Module TopItem.
Record t : Type := mk {
  name : string;
  quantity : Z
}.
End TopItem.

Module LatestOrder.
Record t : Type := mk {
  id : string;
  code : string;
  tableNumber : option string;
  status : string;
  totalAmount : number;
  createdAt : option Z
}.
End LatestOrder.

Module AdminSummary.
Record t : Type := mk {
  ordersToday : Z;
  revenueToday : number;
  taxToday : number;
  activeOrders : Z;
  avgPrepMinutesToday : option number;
  vendorSalesToday : list VendorSale.t;
  topVendor : option VendorSale.t;
  topItem : option TopItem.t;
  latestOrders : list LatestOrder.t
}.
End AdminSummary.

#[global] Instance VendorSale_eq_dec : EqDecision VendorSale.t.
Proof. solve_decision. Defined.
#[global] Instance TopItem_eq_dec : EqDecision TopItem.t.
Proof. solve_decision. Defined.
#[global] Instance LatestOrder_eq_dec : EqDecision LatestOrder.t.
Proof. solve_decision. Defined.
#[global] Instance AdminSummary_eq_dec : EqDecision AdminSummary.t.
Proof. solve_decision. Defined.

Module AdminDashboard.

(** What the world supplies to one call: the start of the caller's current
    local day, and which loads fail. *)
Record Env : Type := mkEnv {
  today : Z;
  orders_fails : bool;
  vendors_fails : bool;
  items_fails : bool
}.

Definition DEFAULT_VAT_RATE : number := of_int 16.

(** A date is given by the instant of its [00:00:00]; [23:59:59.999] of the
    same day is 86399999 ms later. *)
Definition getDayBounds (env : Env) (date : option Z) : Z * Z :=
  match date with
  | Some d => (d, d + 86399999)
  | None => (today env, today env + 86399999)
  end.

(** The variables of the loop of step 3. *)
Record Totals : Type := mkTotals {
  totalCents : Z;
  taxCentsFromDb : Z;
  anyNonZeroTax : bool;
  activeOrders : Z;
  prepDurationsMinutes : list number
}.

(** One iteration of [for (const o of safeOrders)] in step 3. *)
Definition totals_step (acc : Totals) (o : string * Order.row) : Totals :=
  let t := nullish (Order.total_cents o.2) 0 in
  let tax := nullish (Order.tax_cents o.2) 0 in
  mkTotals
    (totalCents acc + t)
    (taxCentsFromDb acc + tax)
    (if bool_decide (0 < tax) then true else anyNonZeroTax acc)
    (if bool_decide (Order.status o.2 ≠ collected)
     then activeOrders acc + 1 else activeOrders acc)
    (match Order.created_at o.2, Order.ready_at o.2 with
     | Some created, Some ready_ =>
         if bool_decide (created < ready_)
         then prepDurationsMinutes acc
              ++ [fdiv (of_int (ready_ - created)) (of_int (1000 * 60))]
         else prepDurationsMinutes acc
     | _, _ => prepDurationsMinutes acc
     end).

(** The values of [vendorSalesMap]. *)
Module VendorAgg.
Record t : Type := mk {
  vendorId : string;
  vendorName : string;
  totalKw : number
}.
End VendorAgg.

(** One iteration of [for (const o of safeOrders)] in step 4. *)
Definition vendor_step (vendorNameById : gmap string string)
    (vendorSalesMap : JsMap.t VendorAgg.t) (o : string * Order.row)
  : JsMap.t VendorAgg.t :=
  match Order.vendor_id o.2 with
  | Some vid =>
      if negb (truthy_string vid) then vendorSalesMap
      else
        let existing := JsMap.get vendorSalesMap vid in
        let name := nullish (vendorNameById !! vid) "Unknown vendor" in
        let incKw := (of_int (nullish (Order.total_cents o.2) 0%Z) / of_int 100)%Qc in
        match existing with
        | Some existing =>
            JsMap.set vendorSalesMap vid
              (VendorAgg.mk (VendorAgg.vendorId existing)
                            (VendorAgg.vendorName existing)
                            (VendorAgg.totalKw existing + incKw)%Qc)
        | None => JsMap.set vendorSalesMap vid (VendorAgg.mk vid name incKw)
        end
  | None => vendorSalesMap
  end.

(** [Array.from(new Set(xs))]: the first occurrence of each element. *)
Fixpoint Array_from_Set (xs : list string) (seen : list string) : list string :=
  match xs with
  | [] => []
  | x :: xs' =>
      if bool_decide (x ∈ seen) then Array_from_Set xs' seen
      else x :: Array_from_Set xs' (x :: seen)
  end.

(** One iteration of [for (const it of items ?? [])]. *)
Definition item_step (itemTotals : JsMap.t Z) (it : OrderItem.row) : JsMap.t Z :=
  let name := or_else (OrderItem.name_snapshot it) "Unknown item" in
  let qty := nullish (OrderItem.quantity it) 0 in
  JsMap.set itemTotals name (nullish (JsMap.get itemTotals name) 0 + qty).

(** One iteration of [for (const [name, qty] of itemTotals.entries())]. *)
Definition best_step (best : option string * Z) (e : string * Z)
  : option string * Z :=
  if bool_decide (best.2 < e.2) then (Some e.1, e.2) else best.

Definition to_sale (v : VendorAgg.t) : VendorSale.t :=
  VendorSale.mk (VendorAgg.vendorId v) (VendorAgg.vendorName v) (VendorAgg.totalKw v).

Definition to_latest (o : string * Order.row) : LatestOrder.t :=
  LatestOrder.mk o.1 (Order.order_code o.2) None (show_status (Order.status o.2))
    (of_int (nullish (Order.total_cents o.2) 0%Z) / of_int 100)%Qc
    (Order.created_at o.2).

Definition getAdminSummary (env : Env) (date : option Z) (st : Store)
  : Result AdminSummary.t :=
  let '(start, end_) := getDayBounds env date in
  match Db.select_orders_created_between (orders_fails env) start end_ st with
  | None => Throw (Error "Failed to load orders for admin summary.")
  | Some safeOrders =>
      let vendorIds :=
        Array_from_Set
          (omap (λ o : string * Order.row,
                   match Order.vendor_id o.2 with
                   | Some vid => if truthy_string vid then Some vid else None
                   | None => None
                   end) safeOrders) [] in
      let vendorNameById : gmap string string :=
        if bool_decide (0 < length vendorIds)%nat then
          match Db.select_vendor_names (vendors_fails env) vendorIds st with
          | None => ∅
          | Some vendors => foldl (λ m v, <[v.1 := v.2]> m) ∅ vendors
          end
        else ∅ in
      let acc := foldl totals_step (mkTotals 0 0 false 0 []) safeOrders in
      let ordersToday := Z.of_nat (length safeOrders) in
      let revenueToday := (of_int (totalCents acc) / of_int 100)%Qc in
      (* [revenueToday] keeps the exact amount; the float the source goes on
         computing with is [fl revenueToday]. *)
      let taxToday :=
        if anyNonZeroTax acc && bool_decide (0 < taxCentsFromDb acc)
        then fdiv (of_int (taxCentsFromDb acc)) (of_int 100)
        else
          let divisor := fadd 1 (fdiv DEFAULT_VAT_RATE (of_int 100)) in
          let net := fdiv (fl revenueToday) divisor in
          fsub (fl revenueToday) net in
      let avgPrepMinutesToday :=
        if bool_decide (0 < length (prepDurationsMinutes acc))%nat
        then Some (fdiv (foldl fadd (of_int 0%Z) (prepDurationsMinutes acc))
                        (of_int (Z.of_nat (length (prepDurationsMinutes acc)))))
        else None in
      let vendorSalesMap := foldl (vendor_step vendorNameById) [] safeOrders in
      let vendorSalesToday :=
        Array_sort (λ a b, VendorAgg.totalKw b - VendorAgg.totalKw a)%Qc
                   (JsMap.values vendorSalesMap) in
      let topVendor := to_sale <$> head vendorSalesToday in
      let orderIds := map fst safeOrders in
      let topItem :=
        if bool_decide (0 < length orderIds)%nat then
          match Db.select_order_items (items_fails env) orderIds st with
          | None => None
          | Some items =>
              let itemTotals := foldl item_step [] items in
              let '(bestName, bestQty) := foldl best_step (None, 0) itemTotals in
              if truthy bestName
              then Some (TopItem.mk (default EmptyString bestName) bestQty)
              else None
          end
        else None in
      let latestOrders := map to_latest (take 40 safeOrders) in
      Ok (AdminSummary.mk ordersToday revenueToday taxToday (activeOrders acc)
            avgPrepMinutesToday (map to_sale vendorSalesToday) topVendor
            topItem latestOrders)
  end.

End AdminDashboard.

(** ** Vocabulary of the statements *)

(** The line items of an order: the rows of [order_items] that carry its key. *)
Definition items_of (st : Store) (order_id : string) : list OrderItem.row :=
  filter (λ it, OrderItem.order_id it = order_id) (order_items st).

Definition line_total (it : OrderItem.row) : Z :=
  default 0 (OrderItem.quantity it) * OrderItem.unit_price_cents it.

Definition lines_total (rows : list OrderItem.row) : Z :=
  foldr (λ it acc, line_total it + acc) 0 rows.

(** The foreign key of [order_items]: every line item belongs to an order. *)
Definition references_ok (st : Store) : Prop :=
  ∀ it, it ∈ order_items st → is_Some (orders st !! OrderItem.order_id it).

(** The line items of order [id] are the cart lines, in order: each has
    the quantity of its line and the name and price the catalog had. *)
Definition snapshot_of (catalog : gmap string MenuItem.row)
    (line : CreateOrderItemInput.t) (it : OrderItem.row) : Prop :=
  OrderItem.quantity it = Some (CreateOrderItemInput.quantity line)
  ∧ OrderItem.notes it = CreateOrderItemInput.notes line
  ∧ ∃ m, catalog !! CreateOrderItemInput.menuItemId line = Some m
         ∧ OrderItem.unit_price_cents it = MenuItem.price_cents m
         ∧ OrderItem.name_snapshot it = Some (MenuItem.name m).

(** What the catalog asks for each line of a cart, next to the quantity of
    the line. *)
Definition cart_prices (catalog : gmap string MenuItem.row)
    (lines : list CreateOrderItemInput.t) : list (option Z * Z) :=
  map (λ l, (MenuItem.price_cents <$> catalog !! CreateOrderItemInput.menuItemId l,
             CreateOrderItemInput.quantity l)) lines.

(** The order [id] of [st] carries the amounts the order engine promises
    for the cart [lines], priced from [catalog] at [taxRate].  The net
    amount is [Math.round] of the quotient as binary64 arithmetic gives it;
    that is the rounding of the exact quotient or an integer next to it. *)
Definition amounts_ok (catalog : gmap string MenuItem.row)
    (lines : list CreateOrderItemInput.t) (taxRate : option number)
    (st : Store) (id : string) : Prop :=
  ∃ o total net tax,
    orders st !! id = Some o
    ∧ Order.total_cents o = Some total
    ∧ Order.net_cents o = Some net
    ∧ Order.tax_cents o = Some tax
    ∧ Forall2 (snapshot_of catalog) lines (items_of st id)
    ∧ total = lines_total (items_of st id)
    ∧ net + tax = total
    ∧ (taxRate = None ∨ taxRate = Some (of_int 0) → net = total ∧ tax = 0)
    ∧ (∀ r, taxRate = Some r → (0 < r)%Qc →
         net = Math_round (fdiv (of_int total) (fadd 1 (fdiv r (of_int 100))))
         ∧ (0 ≤ total < 2 ^ 50 →
            Z.abs (net - Math_round (of_int total / (1 + r / of_int 100))%Qc) ≤ 1))
    ∧ (cart_prices catalog lines = [(Some 1000, 2); (Some 500, 1)] →
       taxRate = Some (of_int 16) →
       total = 2500 ∧ net = 2155 ∧ tax = 345).

Definition positive_quantity (it : OrderItem.row) : Prop :=
  ∃ q, OrderItem.quantity it = Some q ∧ 0 < q.

(** The two legal moves of the lifecycle. *)
Definition legal (from to : OrderStatus) : Prop :=
  (from = preparing ∧ to = ready) ∨ (from = ready ∧ to = collected).

(** The request names an order, by key or by code. *)
Definition identifies (input : UpdateOrderStatusInput.t) : Prop :=
  truthy (UpdateOrderStatusInput.orderId input) = true
  ∨ truthy (UpdateOrderStatusInput.orderCode input) = true.

(** A timestamp that [o] has is the same in [o']. *)
Definition keeps_stamps (o o' : Order.row) : Prop :=
  (∀ t, Order.preparing_at o = Some t → Order.preparing_at o' = Some t)
  ∧ (∀ t, Order.ready_at o = Some t → Order.ready_at o' = Some t)
  ∧ (∀ t, Order.collected_at o = Some t → Order.collected_at o' = Some t).

(** Two stores that differ at most in [order_sessions]. *)
Definition same_orders (st st1 : Store) : Prop :=
  vendors st1 = vendors st ∧ menu_items st1 = menu_items st
  ∧ orders st1 = orders st ∧ order_items st1 = order_items st
  ∧ order_events st1 = order_events st.

(** The row [createOrder] writes for a cart that totals [totalCents]. *)
Definition new_order (orderCode : string) (vendorId : string)
    (taxRate : option number) (payment : option string)
    (now : Z) (session_id : string) (totalCents : Z) : Order.row :=
  let taxRate := nullish taxRate (of_int 0) in
  let netCents := Orders.net_of totalCents taxRate in
  Order.mk orderCode (Some vendorId) (Some session_id)
    (Some totalCents) (Some netCents) (Some (totalCents - netCents))
    (Some taxRate) payment preparing (Some now) None None None.

(** The running totals of the pricing loop, on the objects it builds. *)
Definition drafts_total (out : list OrderItemToInsert.t) : Z :=
  foldr (λ o acc, OrderItemToInsert.quantity o * OrderItemToInsert.unit_price_cents o + acc)
        0 out.

Definition draft_of (menuItems : list DbMenuItem.t)
    (line : CreateOrderItemInput.t) (o : OrderItemToInsert.t) : Prop :=
  OrderItemToInsert.quantity o = CreateOrderItemInput.quantity line
  ∧ OrderItemToInsert.notes o = CreateOrderItemInput.notes line
  ∧ ∃ m, m ∈ menuItems
         ∧ DbMenuItem.id m = CreateOrderItemInput.menuItemId line
         ∧ OrderItemToInsert.unit_price_cents o = DbMenuItem.price_cents m
         ∧ OrderItemToInsert.name_snapshot o = DbMenuItem.name m.

(** The orders created in the day window, as the store holds them. *)
Definition day_orders (env : AdminDashboard.Env) (date : option Z) (st : Store)
  : list (string * Order.row) :=
  filter (λ kr, Db.created_between (AdminDashboard.getDayBounds env date).1
                  (AdminDashboard.getDayBounds env date).2 kr.2 = true)
         (map_to_list (orders st)).

(** The time from [from_] to [ready_at], in ms, when both are there and
    [ready_at] is the later one. *)
Definition span (from_ : Order.row → option Z) (o : Order.row) : option Z :=
  match from_ o, Order.ready_at o with
  | Some a, Some b => if bool_decide (a < b) then Some (b - a) else None
  | _, _ => None
  end.

Definition sum_Z (l : list Z) : Z := foldr Z.add 0 l.

(** The arithmetic mean, in minutes, of spans given in ms. *)
Definition mean_minutes (spans : list Z) : option number :=
  match spans with
  | [] => None
  | _ => Some (of_int (sum_Z spans) / of_int 60000
               / of_int (Z.of_nat (length spans)))%Qc
  end.

Definition mean_prep_minutes (from_ : Order.row → option Z)
    (os : list (string * Order.row)) : option number :=
  mean_minutes (omap (λ kr : string * Order.row, span from_ kr.2) os).

(** The mean as binary64 arithmetic gives it: each span divided by 60000,
    the quotients added from the left starting at 0, the sum divided by
    their number. *)
Definition fmean_minutes (spans : list Z) : option number :=
  match spans with
  | [] => None
  | _ => Some (fdiv (foldl fadd (of_int 0)
                       (map (λ d, fdiv (of_int d) (of_int 60000)) spans))
                    (of_int (Z.of_nat (length spans))))
  end.

Definition fmean_prep_minutes (from_ : Order.row → option Z)
    (os : list (string * Order.row)) : option number :=
  fmean_minutes (omap (λ kr : string * Order.row, span from_ kr.2) os).

(** The number of orders of [os] that have a preparation time. *)
Definition timed (from_ : Order.row → option Z) (os : list (string * Order.row)) : Z :=
  Z.of_nat (length (omap (λ kr : string * Order.row, span from_ kr.2) os)).

Definition cents_total (os : list (string * Order.row)) : Z :=
  sum_Z (map (λ kr : string * Order.row, default 0 (Order.total_cents kr.2)) os).




Definition zero_summary : AdminSummary.t :=
  AdminSummary.mk 0 (of_int 0) (of_int 0) 0 None [] None None [].

Definition unnamed (v : VendorSale.t) : VendorSale.t :=
  VendorSale.mk (VendorSale.vendorId v) "Unknown vendor" (VendorSale.total v).

(** [s] with every vendor name replaced by the fallback. *)
Definition without_names (s : AdminSummary.t) : AdminSummary.t :=
  AdminSummary.mk (AdminSummary.ordersToday s) (AdminSummary.revenueToday s)
    (AdminSummary.taxToday s) (AdminSummary.activeOrders s)
    (AdminSummary.avgPrepMinutesToday s)
    (map unnamed (AdminSummary.vendorSalesToday s))
    (unnamed <$> AdminSummary.topVendor s)
    (AdminSummary.topItem s) (AdminSummary.latestOrders s).

Definition without_top_item (s : AdminSummary.t) : AdminSummary.t :=
  AdminSummary.mk (AdminSummary.ordersToday s) (AdminSummary.revenueToday s)
    (AdminSummary.taxToday s) (AdminSummary.activeOrders s)
    (AdminSummary.avgPrepMinutesToday s) (AdminSummary.vendorSalesToday s)
    (AdminSummary.topVendor s) None (AdminSummary.latestOrders s).


(** A value, and an entry, of [vendorSalesMap] with the fallback name. *)
Definition forget_agg (v : AdminDashboard.VendorAgg.t) : AdminDashboard.VendorAgg.t :=
  AdminDashboard.VendorAgg.mk (AdminDashboard.VendorAgg.vendorId v)
    "Unknown vendor" (AdminDashboard.VendorAgg.totalKw v).

Definition forget_name (kv : string * AdminDashboard.VendorAgg.t)
  : string * AdminDashboard.VendorAgg.t :=
  (kv.1, forget_agg kv.2).


(** ** Concrete stores, carts and calls *)

Module Scenario.

(** A catalog with one active vendor and two items on sale; nothing has been
    ordered yet. *)
Definition store : Store :=
  mkStore ∅ {[ "v1" := Vendor.mk "Grill" true ]}
    {[ "A" := MenuItem.mk "Burger" 1000 true true;
       "B" := MenuItem.mk "Fries" 500 true true ]}
    ∅ [] [].

(** [Math.random()] gives 0.5 for the ticket code (WL-5500) and 0.25 for
    the order code (MS-3250); no call to the store fails. *)
Definition env : CreateEnv.t :=
  CreateEnv.mk (Q2Qc (1 # 2)) (Q2Qc (1 # 4)) "s1" "o1" 1000
               false false false false false false.

Definition line (menuItemId : string) (quantity : Z) : CreateOrderItemInput.t :=
  CreateOrderItemInput.mk menuItemId quantity None.

(** Two of item A at 1000 and one of item B at 500, at 16 percent. *)
Definition cart : CreateOrderInput.t :=
  CreateOrderInput.mk "v1" [line "A" 2; line "B" 1] cash (Some (of_int 16)) None.

Definition body : IncomingBody.t :=
  IncomingBody.mk (Some "v1") (Some "cash") (Some (of_int 16))
                  (Some [line "A" 2; line "B" 1]) None.

Definition created : CreatedOrderResult.t :=
  CreatedOrderResult.mk "o1" "MS-3250" (Some "v1") (Some 2500) (Some "s1") "WL-5500".

(** One platter at 1050, at 12 percent: 1050 / 1.12 is 937.5, and the
    binary64 quotient is the float just below it. *)
Definition platter_store : Store :=
  mkStore ∅ (vendors store) {[ "P" := MenuItem.mk "Platter" 1050 true true ]} ∅ [] [].

Definition platter_cart : CreateOrderInput.t :=
  CreateOrderInput.mk "v1" [line "P" 1] cash (Some (of_int 12)) None.

Definition platter_created : CreatedOrderResult.t :=
  CreatedOrderResult.mk "o1" "MS-3250" (Some "v1") (Some 1050) (Some "s1") "WL-5500".

(** Item A on two lines, the second with a note. *)
Definition duplicate_cart : CreateOrderInput.t :=
  CreateOrderInput.mk "v1"
    [line "A" 2; CreateOrderItemInput.mk "A" 1 (Some "Option: Beef")]
    cash None None.

Definition duplicate_body : IncomingBody.t :=
  IncomingBody.mk (Some "v1") (Some "cash") None
    (Some [line "A" 2; CreateOrderItemInput.mk "A" 1 (Some "Option: Beef")]) None.

(** A line with quantity 0 and a line with quantity -3. *)
Definition nonpositive_cart : CreateOrderInput.t :=
  CreateOrderInput.mk "v1" [line "A" 0; line "B" (-3)] cash None None.

Definition order (code : string) (vendor_id : option string) (total : Z)
    (status : OrderStatus) (created_at : Z)
    (preparing_at ready_at collected_at : option Z) : Order.row :=
  Order.mk code vendor_id (Some "s1") (Some total) (Some total) (Some 0)
           (Some (of_int 0)) (Some "cash") status (Some created_at)
           preparing_at ready_at collected_at.

(** The store after an order took the code MS-3250 and a ticket the code
    WL-5500. *)
Definition taken_store : Store :=
  mkStore {[ "s0" := Session.mk "WL-5500" SessionStatus.open 0 None ]}
    (vendors store) (menu_items store)
    {[ "o0" := order "MS-3250" (Some "v1") 1000 preparing 0 None None None ]}
    [OrderItem.mk "o0" (Some "Burger") 1000 (Some 1) None] [].

(** The same call attached to the ticket that exists. *)
Definition cart_on_ticket : CreateOrderInput.t :=
  CreateOrderInput.mk "v1" [line "A" 2; line "B" 1] cash (Some (of_int 16))
                      (Some "s0").

(** A request to the ticket route: the first draw gives WL-5500, the
    second WL-7750. *)
Definition start_env : SessionsStart.Env :=
  SessionsStart.mkEnv (λ n, match n with O => Q2Qc (1 # 2) | _ => Q2Qc (3 # 4) end)
    (λ _, "s9") 2000 (λ _, false).

(** One order in each status. *)
Definition lifecycle_store : Store :=
  mkStore ∅ (vendors store) (menu_items store)
    {[ "o1" := order "MS-1111" (Some "v1") 1000 preparing 0 None None None;
       "o2" := order "MS-2222" (Some "v1") 1000 ready 0 None (Some 50) None;
       "o3" := order "MS-3333" (Some "v1") 1000 collected 0 None (Some 50) (Some 90) ]}
    [] [].

Definition update_env : UpdateEnv.t := UpdateEnv.mk 7000 false false false.

Definition update (id : string) (to : OrderStatus) (at_ : option Z)
  : UpdateOrderStatusInput.t :=
  UpdateOrderStatusInput.mk (Some id) None to Actor.vendor at_.

(** Orders of the day that starts at 0: the first was created at 0,
    started at minute 1 and was ready at minute 2; the second has no vendor. *)
Definition day_store : Store :=
  mkStore ∅ (vendors store) (menu_items store)
    {[ "o1" := order "MS-1111" (Some "v1") 1000 ready 0 (Some 60000) (Some 120000) None;
       "o2" := order "MS-2222" None 500 preparing 1000 (Some 1000) None None ]}
    [OrderItem.mk "o1" (Some "Burger") 1000 (Some 1) None;
     OrderItem.mk "o2" (Some "Fries") 500 (Some 1) None] [].

Definition day_env (orders_fail vendors_fail items_fail : bool)
  : AdminDashboard.Env :=
  AdminDashboard.mkEnv 0 orders_fail vendors_fail items_fail.

(** Two orders of that day, ready 1 s and 5 s after their creation. *)
Definition seconds_store : Store :=
  mkStore ∅ (vendors store) (menu_items store)
    {[ "o1" := order "MS-1111" (Some "v1") 1000 ready 0 None (Some 1000) None;
       "o2" := order "MS-2222" (Some "v1") 500 ready 0 None (Some 5000) None ]}
    [] [].

End Scenario.

(** The [i]-th insert of the ticket route, on the store [st]. *)
Definition ticket_attempt (env : SessionsStart.Env) (i : nat) (st : Store)
  : option DbOrderSession.t * Store :=
  Db.insert_session (SessionsStart.insert_fails env i) (SessionsStart.new_id env i)
    (SessionsStart.now env)
    (SessionsStart.generateTicketCode (SessionsStart.random env i)) None st.

(** ** core/orders.ts: the readers *)

(** An embedded [order_items ( .. )] row; [unit_price_cents] is there when
    the select lists it. *)
Module ItemJson.
Record t : Type := mk {
  name_snapshot : option string;
  unit_price_cents : option Z;
  quantity : option Z;
  notes : option string
}.
End ItemJson.

(** An order with its embedded [vendors ( name )] and [order_items ( .. )]. *)
Module OrderDetail.
Record t : Type := mk {
  id : string;
  order_code : string;
  status : OrderStatus;
  total_cents : option Z;
  vendor_id : option string;
  vendors : option string;
  order_items : list ItemJson.t
}.
End OrderDetail.

(** A ticket with its embedded [orders ( .. )]. *)
Module SessionDetail.
Record t : Type := mk {
  id : string;
  ticket_code : string;
  status : SessionStatus.t;
  created_at : Z;
  orders : list OrderDetail.t
}.
End SessionDetail.

(** A row of [listVendorActiveOrders]. *)
Module VendorOrder.
Record t : Type := mk {
  id : string;
  order_code : string;
  status : OrderStatus;
  created_at : option Z;
  total_cents : option Z;
  order_items : list ItemJson.t
}.
End VendorOrder.

#[global] Instance ItemJson_eq_dec : EqDecision ItemJson.t.
Proof. solve_decision. Defined.
#[global] Instance OrderDetail_eq_dec : EqDecision OrderDetail.t.
Proof. solve_decision. Defined.
#[global] Instance SessionDetail_eq_dec : EqDecision SessionDetail.t.
Proof. solve_decision. Defined.
#[global] Instance VendorOrder_eq_dec : EqDecision VendorOrder.t.
Proof. solve_decision. Defined.

(** Modelled from the spec: the selects with embedded resources of the store
    client, which is not under src/.  An embedded to-one resource is the row
    the foreign key points to, or null; an embedded to-many resource is the
    list of the rows that point to this one. *)
Module DbJoin.

(** [.single()]: the row when the query has exactly one, an error otherwise. *)
Definition single {A : Type} (rows : list A) : option A :=
  match rows with
  | [x] => Some x
  | _ => None
  end.

Definition item_json (with_price : bool) (it : OrderItem.row) : ItemJson.t :=
  ItemJson.mk (OrderItem.name_snapshot it)
    (if with_price then Some (OrderItem.unit_price_cents it) else None)
    (OrderItem.quantity it) (OrderItem.notes it).

Definition items_json (with_price : bool) (st : Store) (order_id : string)
  : list ItemJson.t :=
  map (item_json with_price)
      (filter (λ it, OrderItem.order_id it = order_id) (order_items st)).

Definition vendor_name (st : Store) (vendor_id : option string) : option string :=
  vendor_id ≫= λ v, Vendor.name <$> vendors st !! v.

Definition order_detail (with_price : bool) (st : Store) (kr : string * Order.row)
  : OrderDetail.t :=
  OrderDetail.mk kr.1 (Order.order_code kr.2) (Order.status kr.2)
    (Order.total_cents kr.2) (Order.vendor_id kr.2)
    (vendor_name st (Order.vendor_id kr.2)) (items_json with_price st kr.1).

Definition orders_with_code (code : string) (st : Store) : list (string * Order.row) :=
  filter (λ kr, Order.order_code kr.2 = code) (map_to_list (orders st)).

(** [from("orders").select(.., vendors ( name ), order_items ( .. ))
    .eq("order_code", code).single()] *)
Definition select_order_detail (fails : bool) (code : string) (st : Store)
  : option OrderDetail.t :=
  if fails then None
  else order_detail true st <$> single (orders_with_code code st).

Definition orders_of_session (session_id : string) (st : Store)
  : list (string * Order.row) :=
  filter (λ kr, Order.session_id kr.2 = Some session_id) (map_to_list (orders st)).

Definition sessions_with_code (code : string) (st : Store)
  : list (string * Session.row) :=
  filter (λ ks, Session.ticket_code ks.2 = code) (map_to_list (order_sessions st)).

(** [from("order_sessions").select(.., orders ( .., order_items ( .. )))
    .eq("ticket_code", code).single()] *)
Definition select_session_detail (fails : bool) (with_price : bool)
    (code : string) (st : Store) : option SessionDetail.t :=
  if fails then None
  else
    (λ ks : string * Session.row,
       SessionDetail.mk ks.1 (Session.ticket_code ks.2) (Session.status ks.2)
         (Session.created_at ks.2)
         (map (order_detail with_price st) (orders_of_session ks.1 st))) <$>
    single (sessions_with_code code st).

(** Ascending [created_at], a null last. *)
Definition created_asc (a b : string * Order.row) : bool :=
  match Order.created_at a.2, Order.created_at b.2 with
  | Some x, Some y => bool_decide (x ≤ y)
  | Some _, None => true
  | None, Some _ => false
  | None, None => true
  end.

Definition vendor_order (st : Store) (kr : string * Order.row) : VendorOrder.t :=
  VendorOrder.mk kr.1 (Order.order_code kr.2) (Order.status kr.2)
    (Order.created_at kr.2) (Order.total_cents kr.2) (items_json false st kr.1).

Definition active_of_vendor (vendorId : string) (st : Store)
  : list (string * Order.row) :=
  filter (λ kr, Order.vendor_id kr.2 = Some vendorId
                ∧ Order.status kr.2 ∈ [preparing; ready])
         (map_to_list (orders st)).

(** [from("orders").select(..).eq("vendor_id", vendorId)
    .in("status", ["preparing", "ready"]).order("created_at", {ascending: true})] *)
Definition select_vendor_active (fails : bool) (vendorId : string) (st : Store)
  : option (list VendorOrder.t) :=
  if fails then None
  else Some (map (vendor_order st)
               (stable_sort created_asc (active_of_vendor vendorId st))).

End DbJoin.

Module OrdersRead.

Definition getOrderByCode (fails : bool) (orderCode : string) (st : Store)
  : Result OrderDetail.t :=
  match DbJoin.select_order_detail fails orderCode st with
  | None => Throw (Error "Order not found.")
  | Some order => Ok order
  end.

Definition getSessionByTicketCode (fails : bool) (ticketCode : string) (st : Store)
  : Result SessionDetail.t :=
  match DbJoin.select_session_detail fails true ticketCode st with
  | None => Throw (Error "Session / ticket not found.")
  | Some data => Ok data
  end.

Definition listVendorActiveOrders (fails : bool) (vendorId : string) (st : Store)
  : Result (list VendorOrder.t) :=
  match DbJoin.select_vendor_active fails vendorId st with
  | None => Throw (Error "Failed to load vendor orders.")
  | Some data => Ok data
  end.

End OrdersRead.

(** ** app/api/orders/by-code/route.ts *)

Module ByCodeRoute.

Definition GET (fails : bool) (code : option string) (st : Store)
  : Response.t OrderDetail.t :=
  if negb (truthy code) then Response.fail 400 "Missing order code"
  else
    match DbJoin.select_order_detail fails (default EmptyString code) st with
    | None => Response.fail 404 "Order not found"
    | Some data => Response.ok data
    end.

End ByCodeRoute.

(** ** app/api/status/by-code/route.ts *)

Module StatusByCodeRoute.

(** The body of a 200: [kind] with the ticket or the order. *)
Inductive Found : Type :=
| session (s : SessionDetail.t)
| order (o : OrderDetail.t).

Definition GET (session_fails order_fails : bool) (code : option string)
    (st : Store) : Response.t Found :=
  if negb (truthy code) then Response.fail 400 "Missing code"
  else
    let code := default EmptyString code in
    match DbJoin.select_session_detail session_fails false code st with
    | Some s => Response.ok (session s)
    | None =>
        match DbJoin.select_order_detail order_fails code st with
        | Some o => Response.ok (order o)
        | None => Response.fail 404 "No ticket or order found for this code."
        end
    end.

End StatusByCodeRoute.

(** ** app/api/orders/update-status/route.ts *)

Module UpdateStatusBody.
Record t : Type := mk {
  orderId : option string;
  orderCode : option string;
  toStatus : OrderStatus;
  actor : option Actor.t
}.
End UpdateStatusBody.

Module UpdateStatusRoute.

(** [err.message] *)
Definition message (e : Exn) : string :=
  match e with
  | Error m => m
  | TypeError m => m
  end.

Definition POST (env : UpdateEnv.t) (body : UpdateStatusBody.t) (st : Store)
  : Response.t DbOrderMinimal.t * Store :=
  if negb (truthy (UpdateStatusBody.orderId body))
     && negb (truthy (UpdateStatusBody.orderCode body))
  then (Response.fail 400 "orderId or orderCode is required", st)
  else
    match Orders.updateOrderStatus env
            (UpdateOrderStatusInput.mk (UpdateStatusBody.orderId body)
               (UpdateStatusBody.orderCode body) (UpdateStatusBody.toStatus body)
               (nullish (UpdateStatusBody.actor body) Actor.vendor) None) st with
    | (Ok result, st') => (Response.ok result, st')
    | (Throw err, st') => (Response.fail 500 (message err), st')
    end.

End UpdateStatusRoute.

(** ** app/api/orders/vendor-active/route.ts *)

Module VendorActiveRoute.

Definition GET (fails : bool) (vendorId : option string) (st : Store)
  : Response.t (list VendorOrder.t) :=
  if negb (truthy vendorId) then Response.fail 400 "Missing vendorId"
  else
    match OrdersRead.listVendorActiveOrders fails (default EmptyString vendorId) st with
    | Ok orders => Response.ok orders
    | Throw err => Response.fail 500 (UpdateStatusRoute.message err)
    end.

End VendorActiveRoute.

(** A history of calls of [updateOrderStatus], as [OrdersWithTiming.run_updates]
    for the revision without timestamps. *)
Definition run_status_updates
    (calls : list (UpdateEnv.t * UpdateOrderStatusInput.t)) (st : Store) : Store :=
  foldl (λ st c, (Orders.updateOrderStatus c.1 c.2 st).2) st calls.

(** How far an order is in its lifecycle. *)
Definition rank (s : OrderStatus) : Z :=
  match s with
  | preparing => 0
  | ready => 1
  | collected => 2
  end.

(** What a cart costs at the prices of the catalog; a line whose item the
    catalog does not hold costs nothing. *)
Definition cart_total (catalog : gmap string MenuItem.row)
    (lines : list CreateOrderItemInput.t) : Z :=
  sum_Z (map (λ l, default 0 (MenuItem.price_cents <$>
                                catalog !! CreateOrderItemInput.menuItemId l)
                   * CreateOrderItemInput.quantity l) lines).

(** The first event of an order, and the event of a move. *)
Definition initial_event (order_id : string) : OrderEvent.row :=
  OrderEvent.mk order_id None preparing Actor.cashier.

(** The foreign key of [orders]: an order with a ticket belongs to a ticket
    of the store. *)
Definition sessions_ok (st : Store) : Prop :=
  ∀ k r sid, orders st !! k = Some r → Order.session_id r = Some sid →
             is_Some (order_sessions st !! sid).

(** No two orders of the store carry the same code. *)
Definition order_codes_unique (st : Store) : Prop :=
  ∀ k1 k2 r1 r2, orders st !! k1 = Some r1 → orders st !! k2 = Some r2 →
                 Order.order_code r1 = Order.order_code r2 → k1 = k2.

(** No two tickets of the store carry the same code. *)
Definition ticket_codes_unique (st : Store) : Prop :=
  ∀ k1 k2 r1 r2, order_sessions st !! k1 = Some r1 → order_sessions st !! k2 = Some r2 →
                 Session.ticket_code r1 = Session.ticket_code r2 → k1 = k2.

(** An event of the log is the first event of an order or a legal move. *)
Definition legal_event (e : OrderEvent.row) : Prop :=
  match OrderEvent.from_status e with
  | None => OrderEvent.to_status e = preparing
  | Some from => legal from (OrderEvent.to_status e)
  end.

(** A response that reports a failure and is not the failure of the
    line-item insert. *)
Definition plain_failure {A : Type} (resp : Response.t A) : Prop :=
  Response.success resp = false
  ∧ Response.payload resp = None
  ∧ (Response.http_status resp = 400 ∨ Response.http_status resp = 500)
  ∧ Response.error resp ≠ Some "Failed to create order items.".

(** What was sold and when: every column of an order but its status and
    its lifecycle timestamps. *)
Definition same_sale (o o' : Order.row) : Prop :=
  Order.order_code o' = Order.order_code o
  ∧ Order.vendor_id o' = Order.vendor_id o
  ∧ Order.session_id o' = Order.session_id o
  ∧ Order.total_cents o' = Order.total_cents o
  ∧ Order.net_cents o' = Order.net_cents o
  ∧ Order.tax_cents o' = Order.tax_cents o
  ∧ Order.tax_rate o' = Order.tax_rate o
  ∧ Order.payment_method o' = Order.payment_method o
  ∧ Order.created_at o' = Order.created_at o.

(** [st'] has the orders of [st], each with the sale it had and a status
    that is the same or further in the lifecycle, and nothing else differs
    but the log. *)
Definition moved_forward (st st' : Store) : Prop :=
  order_sessions st' = order_sessions st
  ∧ vendors st' = vendors st
  ∧ menu_items st' = menu_items st
  ∧ order_items st' = order_items st
  ∧ ∀ id,
      match orders st !! id, orders st' !! id with
      | Some o, Some o' =>
          same_sale o o' ∧ keeps_stamps o o'
          ∧ rank (Order.status o) ≤ rank (Order.status o')
      | None, None => True
      | _, _ => False
      end.

(** The store respects its foreign keys and its uniqueness constraints, and
    its log holds first events and legal moves of orders it has. *)
Definition consistent (st : Store) : Prop :=
  references_ok st
  ∧ sessions_ok st
  ∧ order_codes_unique st
  ∧ ticket_codes_unique st
  ∧ Forall (λ e, legal_event e ∧ is_Some (orders st !! OrderEvent.order_id e))
           (order_events st).

(** [a] is not after [b] in an ascending order that puts a null last. *)
Definition oldest_first (a b : option Z) : Prop :=
  match a, b with
  | Some x, Some y => x ≤ y
  | _, None => True
  | None, Some _ => False
  end.

(** ** app/api/admin/summary/route.ts *)

Module AdminSummaryRoute.

Definition GET (env : AdminDashboard.Env) (date : option Z) (st : Store)
  : Response.t AdminSummary.t :=
  match AdminDashboard.getAdminSummary env date st with
  | Ok summary => Response.ok summary
  | Throw err => Response.fail 500 (UpdateStatusRoute.message err)
  end.

End AdminSummaryRoute.

(** The tax the orders carry, in cents; an order that carries tax; an order
    that is not collected. *)
Definition tax_total (os : list (string * Order.row)) : Z :=
  sum_Z (map (λ kr : string * Order.row, default 0 (Order.tax_cents kr.2)) os).

Definition taxed (kr : string * Order.row) : Prop :=
  0 < default 0 (Order.tax_cents kr.2).

Definition active (kr : string * Order.row) : Prop :=
  Order.status kr.2 ≠ collected.

(** The line items of the orders [os], and what they add up to by name. *)
Definition items_in (st : Store) (os : list (string * Order.row))
  : list OrderItem.row :=
  filter (λ it, OrderItem.order_id it ∈ map fst os) (order_items st).

Definition item_name (it : OrderItem.row) : string :=
  or_else (OrderItem.name_snapshot it) "Unknown item".

Definition sold (items : list OrderItem.row) (name : string) : Z :=
  sum_Z (map (λ it, default 0 (OrderItem.quantity it))
             (filter (λ it, item_name it = name) items)).

(** When an entry of the latest orders was created; 0 for a null. *)
Definition created_ms (o : LatestOrder.t) : Z := default 0 (LatestOrder.createdAt o).

(** ** app/cashier/page.tsx *)

(** The state of the cashier page and its handlers.  The calls to
    [/api/orders/create] are requests to [CreateRoute.POST] on the store. *)
Module Cashier.

Module Vendor.
Record t : Type := mk {
  id : string;
  name : string;
  slug : string
}.
End Vendor.

Module MenuItem.
Record t : Type := mk {
  id : string;
  name : string;
  description : option string;
  price_cents : Z
}.
End MenuItem.

Module CartItem.
Record t : Type := mk {
  vendorId : string;
  vendorName : string;
  menuItemId : string;
  name : string;
  quantity : Z;
  notes : string;
  price_cents : Z
}.

Definition set_quantity (q : Z) (c : t) : t :=
  mk (vendorId c) (vendorName c) (menuItemId c) (name c) q (notes c) (price_cents c).

Definition set_notes (n : string) (c : t) : t :=
  mk (vendorId c) (vendorName c) (menuItemId c) (name c) (quantity c) n (price_cents c).
End CartItem.

Module SessionInfo.
Record t : Type := mk {
  id : string;
  ticketCode : string
}.
End SessionInfo.

(** [vendorId] and [totalCents] are what the response carries. *)
Module SessionOrderSummary.
Record t : Type := mk {
  orderId : string;
  orderCode : string;
  vendorId : option string;
  vendorName : string;
  totalCents : option Z
}.
End SessionOrderSummary.

Module PrintTicketData.
Record t : Type := mk {
  ticketCode : string;
  orders : list SessionOrderSummary.t
}.
End PrintTicketData.

(** The state of the component that the handlers read and write. *)
Record State : Type := mkState {
  vendors : list Vendor.t;
  selectedVendorId : option string;
  error : option string;
  cart : list CartItem.t;
  paymentMethod : string;
  currentSession : option SessionInfo.t;
  sessionOrders : list SessionOrderSummary.t;
  optionModalOpen : bool;
  optionTargetItem : option MenuItem.t;
  printTicket : option PrintTicketData.t;
  printOpen : bool
}.

Definition setError (e : option string) (s : State) : State :=
  mkState (vendors s) (selectedVendorId s) e (cart s) (paymentMethod s)
    (currentSession s) (sessionOrders s) (optionModalOpen s) (optionTargetItem s)
    (printTicket s) (printOpen s).

Definition setCart (c : list CartItem.t) (s : State) : State :=
  mkState (vendors s) (selectedVendorId s) (error s) c (paymentMethod s)
    (currentSession s) (sessionOrders s) (optionModalOpen s) (optionTargetItem s)
    (printTicket s) (printOpen s).

Definition setSelectedVendorId (v : option string) (s : State) : State :=
  mkState (vendors s) v (error s) (cart s) (paymentMethod s)
    (currentSession s) (sessionOrders s) (optionModalOpen s) (optionTargetItem s)
    (printTicket s) (printOpen s).

Definition setPaymentMethod (p : string) (s : State) : State :=
  mkState (vendors s) (selectedVendorId s) (error s) (cart s) p
    (currentSession s) (sessionOrders s) (optionModalOpen s) (optionTargetItem s)
    (printTicket s) (printOpen s).

Definition setCurrentSession (c : option SessionInfo.t) (s : State) : State :=
  mkState (vendors s) (selectedVendorId s) (error s) (cart s) (paymentMethod s)
    c (sessionOrders s) (optionModalOpen s) (optionTargetItem s)
    (printTicket s) (printOpen s).

Definition setSessionOrders (o : list SessionOrderSummary.t) (s : State) : State :=
  mkState (vendors s) (selectedVendorId s) (error s) (cart s) (paymentMethod s)
    (currentSession s) o (optionModalOpen s) (optionTargetItem s)
    (printTicket s) (printOpen s).

Definition setOptionModalOpen (b : bool) (s : State) : State :=
  mkState (vendors s) (selectedVendorId s) (error s) (cart s) (paymentMethod s)
    (currentSession s) (sessionOrders s) b (optionTargetItem s)
    (printTicket s) (printOpen s).

Definition setOptionTargetItem (i : option MenuItem.t) (s : State) : State :=
  mkState (vendors s) (selectedVendorId s) (error s) (cart s) (paymentMethod s)
    (currentSession s) (sessionOrders s) (optionModalOpen s) i
    (printTicket s) (printOpen s).

Definition setPrintTicket (p : option PrintTicketData.t) (s : State) : State :=
  mkState (vendors s) (selectedVendorId s) (error s) (cart s) (paymentMethod s)
    (currentSession s) (sessionOrders s) (optionModalOpen s) (optionTargetItem s)
    p (printOpen s).

Definition setPrintOpen (b : bool) (s : State) : State :=
  mkState (vendors s) (selectedVendorId s) (error s) (cart s) (paymentMethod s)
    (currentSession s) (sessionOrders s) (optionModalOpen s) (optionTargetItem s)
    (printTicket s) b.

(** The state of the first render. *)
Definition initial : State :=
  mkState [] None None [] "cash" None [] false None None false.

Definition findVendorName (vendors : list Vendor.t) (vendorId : string) : string :=
  nullish (Vendor.name <$> (snd <$> list_find (λ v, Vendor.id v = vendorId) vendors))
          "Unknown".

Definition cartTotalCents (cart : list CartItem.t) : Z :=
  foldl (λ sum item, sum + CartItem.quantity item * CartItem.price_cents item) 0 cart.

Definition handleStartNewTicket (s : State) : State :=
  setPrintOpen false
    (setPrintTicket None
       (setError None
          (setPaymentMethod "cash"
             (setCart [] (setSessionOrders [] (setCurrentSession None s)))))).

(** [s.includes(sub)] *)
Definition includes (s sub : string) : bool :=
  bool_decide (is_Some (String.index 0 sub s)).

(** A click on the tab of vendor [v]. *)
Definition toggleVendor (v : string) (s : State) : State :=
  setError None
    (setSelectedVendorId
       (if bool_decide (selectedVendorId s = Some v) then None else Some v) s).

Section handlers.

(** [String.prototype.toLowerCase], as the engine gives it. *)
Variable toLowerCase : string → string.

Definition shouldPromptForOption (item : MenuItem.t) : bool :=
  let name := toLowerCase (MenuItem.name item) in
  includes name "balsamic" || includes name "paprika"
  || includes name "korean" || includes name "stir fry".

(** The objects of a cart are distinct, each literal and each spread makes
    a new one: [c === existing] holds at the place where [find] stopped and
    nowhere else. *)
Definition addMenuItemToCart (item : MenuItem.t) (s : State) : State :=
  if negb (truthy (selectedVendorId s)) then s
  else
    let selectedVendorId := default EmptyString (selectedVendorId s) in
    let vendorName := findVendorName (vendors s) selectedVendorId in
    if shouldPromptForOption item
    then setOptionModalOpen true (setOptionTargetItem (Some item) s)
    else
      let prev := cart s in
      match list_find (λ c, CartItem.menuItemId c = MenuItem.id item
                            ∧ CartItem.vendorId c = selectedVendorId
                            ∧ CartItem.notes c = EmptyString) prev with
      | Some (i, existing) =>
          setCart (alter (λ c, CartItem.set_quantity (CartItem.quantity c + 1) c) i prev) s
      | None =>
          setCart (prev ++ [CartItem.mk selectedVendorId vendorName (MenuItem.id item)
                              (MenuItem.name item) 1 EmptyString
                              (MenuItem.price_cents item)])%list s
      end.

End handlers.

Definition handleOptionSelect (option : string) (s : State) : State :=
  match optionTargetItem s with
  | Some item =>
      if negb (truthy (selectedVendorId s))
      then setOptionTargetItem None (setOptionModalOpen false s)
      else
        let selectedVendorId := default EmptyString (selectedVendorId s) in
        let vendorName := findVendorName (vendors s) selectedVendorId in
        setOptionModalOpen false
          (setOptionTargetItem None
             (setCart (cart s
                       ++ [CartItem.mk selectedVendorId vendorName (MenuItem.id item)
                             (MenuItem.name item) 1 ("Option: " +:+ option)
                             (MenuItem.price_cents item)])%list s))
  | None => setOptionTargetItem None (setOptionModalOpen false s)
  end.

(** [next[index]]: [undefined] for an index that is not a place of the
    array. *)
Definition at_index {A : Type} (l : list A) (index : Z) : option A :=
  if bool_decide (0 ≤ index) then l !! Z.to_nat index else None.

Definition changeCartQuantity (index : Z) (delta : Z) (s : State) : State :=
  match at_index (cart s) index with
  | None => s
  | Some item =>
      let newQty := CartItem.quantity item + delta in
      if bool_decide (newQty ≤ 0)
      then setCart (delete (Z.to_nat index) (cart s)) s
      else setCart (<[Z.to_nat index := CartItem.set_quantity newQty item]> (cart s)) s
  end.

Definition updateCartNotes (index : Z) (notes : string) (s : State) : State :=
  match at_index (cart s) index with
  | None => s
  | Some item =>
      setCart (<[Z.to_nat index := CartItem.set_notes notes item]> (cart s)) s
  end.

(** What happens to one request on the way to the server and back. *)
Inductive Network : Type :=
| delivered
| request_lost
| response_lost.

(** What the world supplies to one request of a submit. *)
Record Exchange : Type := mkExchange {
  network : Network;
  server : CreateEnv.t
}.

(** One iteration of [for (const item of cart)]. *)
Definition group_step (byVendor : JsMap.t (list CartItem.t)) (item : CartItem.t)
  : JsMap.t (list CartItem.t) :=
  JsMap.set byVendor (CartItem.vendorId item)
    (default [] (JsMap.get byVendor (CartItem.vendorId item)) ++ [item])%list.

(** [byVendor]: the lines of the cart by vendor, the vendors in the order
    of their first line. *)
Definition group_by_vendor (cart : list CartItem.t) : JsMap.t (list CartItem.t) :=
  foldl group_step [] cart.

(** [c.notes || undefined]: an empty note is left out of the body. *)
Definition to_line (c : CartItem.t) : CreateOrderItemInput.t :=
  CreateOrderItemInput.mk (CartItem.menuItemId c) (CartItem.quantity c)
    (if truthy_string (CartItem.notes c) then Some (CartItem.notes c) else None).

Definition payload (paymentMethod : string) (sessionId : option string)
    (vendorId : string) (items : list CartItem.t) : IncomingBody.t :=
  IncomingBody.mk (Some vendorId) (Some paymentMethod) None
    (Some (map to_line items)) sessionId.

(** How the loop over the vendors ends. *)
Inductive Outcome : Type :=
| returned (error : string)
| thrown
| completed (sessionId ticketCode : option string)
            (newSessionOrders : list SessionOrderSummary.t).

(** [for (const [vendorId, items] of byVendor.entries())], from request [i]
    on. *)
Fixpoint request_loop (world : nat → Exchange) (vendors : list Vendor.t)
    (paymentMethod : string) (i : nat)
    (entries : list (string * list CartItem.t))
    (sessionId ticketCode : option string)
    (newSessionOrders : list SessionOrderSummary.t) (db : Store)
  : Outcome * Store :=
  match entries with
  | [] => (completed sessionId ticketCode newSessionOrders, db)
  | (vendorId, items) :: rest =>
      let body := payload paymentMethod sessionId vendorId items in
      match network (world i) with
      | request_lost => (thrown, db)
      | response_lost => (thrown, (CreateRoute.POST (server (world i)) body db).2)
      | delivered =>
          let '(json, db') := CreateRoute.POST (server (world i)) body db in
          match (if Response.success json then Response.payload json else None) with
          | None =>
              (returned (nullish (Response.error json)
                           "Failed to create one of the vendor orders."), db')
          | Some created =>
              let order := CreateRoute.Created.order created in
              let session := CreateRoute.Created.session created in
              let captured :=
                truthy_string (CreateRoute.DbSession.id session)
                && truthy_string (CreateRoute.DbSession.ticket_code session) in
              request_loop world vendors paymentMethod (S i) rest
                (if captured then Some (CreateRoute.DbSession.id session)
                 else sessionId)
                (if captured then Some (CreateRoute.DbSession.ticket_code session)
                 else ticketCode)
                (newSessionOrders
                 ++ [SessionOrderSummary.mk (CreateRoute.OrderJson.id order)
                       (CreateRoute.OrderJson.order_code order)
                       (CreateRoute.OrderJson.vendor_id order)
                       (match CreateRoute.OrderJson.vendor_id order with
                        | Some v => findVendorName vendors v
                        | None => "Unknown"
                        end)
                       (CreateRoute.OrderJson.total_cents order)])%list
                db'
          end
      end
  end.

Definition handleSubmitTicket (world : nat → Exchange) (s : State) (db : Store)
  : State * Store :=
  if bool_decide (length (cart s) = 0%nat)
  then (setError (Some "Basket is empty.") s, db)
  else
    let s0 := setError None s in
    let byVendor := group_by_vendor (cart s) in
    let sessionId := SessionInfo.id <$> currentSession s in
    let ticketCode := SessionInfo.ticketCode <$> currentSession s in
    match request_loop world (vendors s) (paymentMethod s) 0 byVendor
            sessionId ticketCode [] db with
    | (returned error, db') => (setError (Some error) s0, db')
    | (thrown, db') =>
        (setError (Some "Unexpected error submitting ticket.") s0, db')
    | (completed sessionId ticketCode newSessionOrders, db') =>
        let s1 :=
          if truthy sessionId && truthy ticketCode
          then setPrintOpen true
                 (setPrintTicket
                    (Some (PrintTicketData.mk (default EmptyString ticketCode)
                             newSessionOrders))
                    (setCurrentSession
                       (Some (SessionInfo.mk (default EmptyString sessionId)
                                (default EmptyString ticketCode))) s0))
          else s0 in
        (setCart [] (setSessionOrders (sessionOrders s ++ newSessionOrders)%list s1), db')
    end.

(** What the cashier does. *)
Inductive Action : Type :=
| tap_vendor (v : string)
| tap_item (item : MenuItem.t)
| tap_option (option : string)
| tap_quantity (index delta : Z)
| type_notes (index : Z) (notes : string)
| pick_payment (p : string)
| tap_new_ticket
| tap_submit (world : nat → Exchange).

Definition step (toLowerCase : string → string) (sd : State * Store) (a : Action)
  : State * Store :=
  match a with
  | tap_vendor v => (toggleVendor v sd.1, sd.2)
  | tap_item item => (addMenuItemToCart toLowerCase item sd.1, sd.2)
  | tap_option option => (handleOptionSelect option sd.1, sd.2)
  | tap_quantity index delta => (changeCartQuantity index delta sd.1, sd.2)
  | type_notes index notes => (updateCartNotes index notes sd.1, sd.2)
  | pick_payment p => (setPaymentMethod p sd.1, sd.2)
  | tap_new_ticket => (handleStartNewTicket sd.1, sd.2)
  | tap_submit world => handleSubmitTicket world sd.1 sd.2
  end.

Definition run (toLowerCase : string → string) (actions : list Action)
    (sd : State * Store) : State * Store :=
  foldl (step toLowerCase) sd actions.

End Cashier.

(** Every line of the cart has a quantity of at least 1. *)
Definition cart_ok (cart : list Cashier.CartItem.t) : Prop :=
  Forall (λ c, 1 ≤ Cashier.CartItem.quantity c) cart.

(** The lines of a cart that belong to a vendor. *)
Definition lines_of_vendor (v : string) (cart : list Cashier.CartItem.t)
  : list Cashier.CartItem.t :=
  filter (λ c, Cashier.CartItem.vendorId c = v) cart.

Definition nonempty {A : Type} (l : list A) : option (list A) :=
  match l with
  | [] => None
  | _ => Some l
  end.

(** What the lines of a cart cost at the prices the cart shows. *)
Definition lines_cents (items : list Cashier.CartItem.t) : Z :=
  sum_Z (map (λ c, Cashier.CartItem.quantity c * Cashier.CartItem.price_cents c) items).

(** The page shows the prices of the catalog. *)
Definition prices_agree (catalog : gmap string MenuItem.row)
    (cart : list Cashier.CartItem.t) : Prop :=
  Forall (λ c, ∃ m, catalog !! Cashier.CartItem.menuItemId c = Some m
                    ∧ MenuItem.price_cents m = Cashier.CartItem.price_cents c) cart.

(** The ticket of the page, when it has one, has a key and a code. *)
Definition page_session_ok (s : Cashier.State) : Prop :=
  match Cashier.currentSession s with
  | Some info =>
      truthy_string (Cashier.SessionInfo.id info) = true
      ∧ truthy_string (Cashier.SessionInfo.ticketCode info) = true
  | None => True
  end.

(** The order of a summary is new in [db'], on ticket [k] and preparing,
    with the code and the total the summary shows, and without tax. *)
Definition order_on_ticket (db db' : Store) (k : string)
    (o : Cashier.SessionOrderSummary.t) : Prop :=
  orders db !! Cashier.SessionOrderSummary.orderId o = None
  ∧ ∃ row, orders db' !! Cashier.SessionOrderSummary.orderId o = Some row
           ∧ Order.session_id row = Some k
           ∧ Order.status row = preparing
           ∧ Order.order_code row = Cashier.SessionOrderSummary.orderCode o
           ∧ Order.total_cents row = Cashier.SessionOrderSummary.totalCents o
           ∧ Order.net_cents row = Order.total_cents row
           ∧ Order.tax_cents row = Some 0.

(** The summary is the order of the lines of one vendor, priced by the
    catalog. *)
Definition order_of_group (catalog : gmap string MenuItem.row)
    (e : string * list Cashier.CartItem.t) (o : Cashier.SessionOrderSummary.t)
  : Prop :=
  Cashier.SessionOrderSummary.vendorId o = Some e.1
  ∧ Cashier.SessionOrderSummary.totalCents o
    = Some (cart_total catalog (map Cashier.to_line e.2))
  ∧ NoDup (map Cashier.CartItem.menuItemId e.2).

(** ** app/vendor/[slug]/page.tsx *)

(** The board of a vendor: the state of the component, [refreshOrders],
    [handleStatusChange] and the two columns of the render.  A request is a
    call of the route it names; the page interpolates the key of the vendor
    into the URL as it is, so the model is for keys without characters that
    a URL reserves. *)
Module VendorPage.

Module Vendor.
Record t : Type := mk {
  id : string;
  name : string;
  slug : string
}.
End Vendor.

Record State : Type := mkState {
  vendor : option Vendor.t;
  orders : list VendorOrder.t;
  updatingId : option string;
  error : option string
}.

Definition setOrders (v : list VendorOrder.t) (s : State) : State :=
  mkState (vendor s) v (updatingId s) (error s).
Definition setUpdatingId (v : option string) (s : State) : State :=
  mkState (vendor s) (orders s) v (error s).
Definition setError (v : option string) (s : State) : State :=
  mkState (vendor s) (orders s) (updatingId s) v.

(** What the world supplies to the request of [refreshOrders]. *)
Record Refresh : Type := mkRefresh {
  refresh_network : Cashier.Network;
  load_fails : bool
}.

(** What the world supplies to the request of [handleStatusChange]. *)
Record Update : Type := mkUpdate {
  update_network : Cashier.Network;
  update_server : UpdateEnv.t
}.

(** The request reads the store and writes nothing, so a lost request and
    a lost response are the same to the page: the [catch] logs. *)
Definition refreshOrders (w : Refresh) (s : State) (db : Store) : State :=
  match vendor s with
  | None => s
  | Some v =>
      match refresh_network w with
      | Cashier.delivered =>
          let json := VendorActiveRoute.GET (load_fails w) (Some (Vendor.id v)) db in
          match (if Response.success json then Response.payload json else None) with
          | Some orders => setOrders orders s
          | None => s
          end
      | _ => s
      end
  end.

Definition handleStatusChange (u : Update) (w : Refresh) (orderId : string)
    (nextStatus : OrderStatus) (s : State) (db : Store) : State * Store :=
  match vendor s with
  | None => (s, db)
  | Some _ =>
      let s0 := setError None (setUpdatingId (Some orderId) s) in
      let body :=
        UpdateStatusBody.mk (Some orderId) None nextStatus (Some Actor.vendor) in
      let '(s1, db1) :=
        match update_network u with
        | Cashier.request_lost =>
            (setError (Some "Unexpected error updating order") s0, db)
        | Cashier.response_lost =>
            (setError (Some "Unexpected error updating order") s0,
             (UpdateStatusRoute.POST (update_server u) body db).2)
        | Cashier.delivered =>
            let '(json, db') := UpdateStatusRoute.POST (update_server u) body db in
            if negb (Response.success json)
            then (setError (Some (nullish (Response.error json)
                                    "Failed to update order")) s0, db')
            else (refreshOrders w s0 db', db')
        end in
      (setUpdatingId None s1, db1)
  end.

(** [orders.filter((o) => o.status === "preparing")] and its twin. *)
Definition column (status : OrderStatus) (s : State) : list VendorOrder.t :=
  filter (λ o, VendorOrder.status o = status) (orders s).

End VendorPage.

(** ** More scenarios *)

Module Examples.

(** The calls of [Scenario.env], with the insert of the line items
    failing. *)
Definition items_fail_env : CreateEnv.t :=
  CreateEnv.mk (Q2Qc (1 # 2)) (Q2Qc (1 # 4)) "s1" "o1" 1000
               false false false false true false.

(** A cart for a vendor the store does not have. *)
Definition stranger_cart : CreateOrderInput.t :=
  CreateOrderInput.mk "v9" [Scenario.line "A" 1] cash None None.

(** The store after [Scenario.cart] was accepted. *)
Definition after_cart : Store :=
  (Orders.createOrder Scenario.env Scenario.cart Scenario.store).2.

(** A request to move an order by its key that names no actor. *)
Definition move (id : string) (to : OrderStatus) : UpdateStatusBody.t :=
  UpdateStatusBody.mk (Some id) None to None.

(** A market with two vendors. *)
Definition market : Store :=
  mkStore ∅
    {[ "v1" := Vendor.mk "Grill" true; "v2" := Vendor.mk "Bar" true ]}
    {[ "A" := MenuItem.mk "Burger" 1000 true true;
       "B" := MenuItem.mk "Fries" 500 true true;
       "C" := MenuItem.mk "Juice" 300 true true ]}
    ∅ [] [].

(** The cashier page with the two vendors loaded and a cart of two burgers
    and one portion of fries from the grill and one juice from the bar. *)
Definition page : Cashier.State :=
  Cashier.mkState
    [Cashier.Vendor.mk "v1" "Grill" "grill"; Cashier.Vendor.mk "v2" "Bar" "bar"]
    (Some "v2") None
    [Cashier.CartItem.mk "v1" "Grill" "A" "Burger" 2 EmptyString 1000;
     Cashier.CartItem.mk "v2" "Bar" "C" "Juice" 1 EmptyString 300;
     Cashier.CartItem.mk "v1" "Grill" "B" "Fries" 1 EmptyString 500]
    "cash" None [] false None None false.

(** The same page after a burger with an option joined the burgers in the
    cart. *)
Definition page_with_option : Cashier.State :=
  Cashier.setCart
    (Cashier.cart page
     ++ [Cashier.CartItem.mk "v1" "Grill" "A" "Burger" 1 "Option: Beef" 1000])%list
    page.

(** The server at the [j]-th request of a submit: it makes the ticket s1
    with the code WL-5500 and gives the orders the keys o1 and o2. *)
Definition server (j : nat) : CreateEnv.t :=
  match j with
  | O => CreateEnv.mk (Q2Qc (1 # 2)) (Q2Qc (1 # 4)) "s1" "o1" 1000
                      false false false false false false
  | _ => CreateEnv.mk (Q2Qc (1 # 2)) (Q2Qc (3 # 4)) "s2" "o2" 1000
                      false false false false false false
  end.

(** Every request is delivered and answered. *)
Definition calm (j : nat) : Cashier.Exchange :=
  Cashier.mkExchange Cashier.delivered (server j).

(** The first request is delivered and answered, the second is lost. *)
Definition stormy (j : nat) : Cashier.Exchange :=
  Cashier.mkExchange
    (match j with O => Cashier.delivered | _ => Cashier.request_lost end)
    (server j).

(** The board of the grill before its first load, on [Scenario.lifecycle_store]. *)
Definition board : VendorPage.State :=
  VendorPage.mkState (Some (VendorPage.Vendor.mk "v1" "Grill" "grill")) [] None None.

Definition press : VendorPage.Update :=
  VendorPage.mkUpdate Cashier.delivered Scenario.update_env.

Definition reload : VendorPage.Refresh :=
  VendorPage.mkRefresh Cashier.delivered false.

End Examples.

(** * Proofs *)

#[local] Arguments Qcplus : simpl never.
#[local] Arguments Qcmult : simpl never.
#[local] Arguments Qcopp : simpl never.
#[local] Arguments Qcminus : simpl never.
#[local] Arguments Qcdiv : simpl never.
#[local] Arguments Qcinv : simpl never.
#[local] Arguments Q2Qc : simpl never.
#[local] Arguments Qc_of_Z : simpl never.
#[local] Arguments of_int : simpl never.
#[local] Arguments Math_round : simpl never.
#[local] Arguments fl : simpl never.
#[local] Arguments fadd : simpl never.
#[local] Arguments fsub : simpl never.
#[local] Arguments fmul : simpl never.
#[local] Arguments fdiv : simpl never.

Ltac run :=
  unfold mbind, M_bind, mret, M_ret, throw, query, command, console_error,
    Orders.lift in *;
  simpl in *.

(** ** binary64 *)

Module Binary64_facts.
Import Binary64.

Lemma pow2_pos e : (0 < pow2 e)%Q.
Proof. apply Qpower_0_lt. reflexivity. Qed.

Lemma pow2_add a b : (pow2 (a + b) == pow2 a * pow2 b)%Q.
Proof. apply Qpower_plus. discriminate. Qed.

Lemma pow2_le a b : a ≤ b → (pow2 a <= pow2 b)%Q.
Proof. intros H. apply Qpower_le_compat_l; [exact H|discriminate]. Qed.

Lemma pow2_lt a b : a < b → (pow2 a < pow2 b)%Q.
Proof. intros H. apply Qpower_lt_compat_l; [exact H|reflexivity]. Qed.

Lemma pow2_lt_inv a b : (pow2 a < pow2 b)%Q → a < b.
Proof. intros H. apply (Qpower_lt_compat_l_inv (2 # 1)); [exact H|reflexivity]. Qed.

Lemma pow2_S a : (pow2 (a + 1) == 2 * pow2 a)%Q.
Proof. rewrite pow2_add. unfold pow2 at 2. simpl. ring. Qed.

Lemma pow2_Z n : 0 ≤ n → (pow2 n == inject_Z (2 ^ n))%Q.
Proof. intros H. unfold pow2. by rewrite Zpower_Qpower. Qed.

Lemma pow2_sub a b : (pow2 (a - b) == pow2 a / pow2 b)%Q.
Proof.
  assert (H := pow2_add (a - b) b). replace (a - b + b) with a in H by lia.
  pose proof (pow2_pos b). rewrite H. field. lra.
Qed.

(** [2^(log2 n) <= n < 2^(log2 n + 1)], in the rationals. *)
Lemma log2_bounds (n : Z) :
  0 < n → (pow2 (Z.log2 n) <= inject_Z n)%Q ∧ (inject_Z n < pow2 (Z.log2 n + 1))%Q.
Proof.
  intros Hn. destruct (Z.log2_spec n Hn) as [H1 H2].
  pose proof (Z.log2_nonneg n).
  rewrite !pow2_Z by lia. split.
  - rewrite <- Zle_Qle. exact H1.
  - rewrite <- Zlt_Qlt. replace (Z.log2 n + 1) with (Z.succ (Z.log2 n)) by lia. exact H2.
Qed.

Lemma ilog2_spec x :
  (0 < x)%Q → (pow2 (ilog2 x) <= x)%Q ∧ (x < pow2 (ilog2 x + 1))%Q.
Proof.
  intros Hx. unfold ilog2.
  set (a := Z.log2 (Qnum x)). set (b := Z.log2 (Z.pos (Qden x))).
  assert (Hn : 0 < Qnum x).
  { unfold Qlt in Hx. simpl in Hx. lia. }
  destruct (log2_bounds (Qnum x) Hn) as [Ha1 Ha2]. fold a in Ha1, Ha2.
  destruct (log2_bounds (Z.pos (Qden x))) as [Hb1 Hb2]; [lia|]. fold b in Hb1, Hb2.
  assert (Hx' : (x == inject_Z (Qnum x) / inject_Z (Z.pos (Qden x)))%Q).
  { clear. destruct x as [n d]. simpl. apply Qmake_Qdiv. }
  assert (Hd : (0 < inject_Z (Z.pos (Qden x)))%Q).
  { rewrite <- (Zlt_Qlt 0). lia. }
  set (n := inject_Z (Qnum x)) in *. set (d := inject_Z (Z.pos (Qden x))) in *.
  pose proof (pow2_pos a). pose proof (pow2_pos b). pose proof (pow2_pos (a - b)).
  assert (Hlow : (pow2 (a - b - 1) < x)%Q).
  { rewrite Hx'. replace (a - b - 1) with (a - (b + 1)) by lia.
    rewrite pow2_sub. pose proof (pow2_pos (b + 1)).
    apply Qlt_shift_div_l; [done|].
    set (c := (pow2 a / pow2 (b + 1))%Q).
    assert (Hc : (0 < c)%Q) by (apply Qlt_shift_div_l; [done|lra]).
    assert (c * d < c * pow2 (b + 1))%Q by (apply Qmult_lt_l; done).
    assert (c * pow2 (b + 1) == pow2 a)%Q by (unfold c; field; lra).
    lra. }
  assert (Hhigh : (x < pow2 (a - b + 1))%Q).
  { rewrite Hx'. replace (a - b + 1) with (a + 1 - b) by lia.
    rewrite pow2_sub. pose proof (pow2_pos (a + 1)).
    apply Qlt_shift_div_r; [done|].
    set (c := (pow2 (a + 1) / pow2 b)%Q).
    assert (Hc : (0 < c)%Q) by (apply Qlt_shift_div_l; [done|lra]).
    assert (c * pow2 b <= c * d)%Q by (apply Qmult_le_l; done).
    assert (c * pow2 b == pow2 (a + 1))%Q by (unfold c; field; lra).
    lra. }
  destruct (Qle_bool (pow2 (a - b)) x) eqn:E.
  - apply Qle_bool_iff in E. split; [done|done].
  - assert (¬ (pow2 (a - b) <= x)%Q) as Hnle.
    { intros Hle. apply Qle_bool_iff in Hle. congruence. }
    split; [lra|]. replace (a - b - 1 + 1) with (a - b) by lia. lra.
Qed.

Lemma ilog2_unique x k :
  (pow2 k <= x)%Q → (x < pow2 (k + 1))%Q → ilog2 x = k.
Proof.
  intros H1 H2. pose proof (pow2_pos k).
  destruct (ilog2_spec x) as [H3 H4]; [lra|].
  assert (ilog2 x < k + 1) by (apply pow2_lt_inv; lra).
  assert (k < ilog2 x + 1) by (apply pow2_lt_inv; lra).
  lia.
Qed.

Lemma ilog2_mono x y : (0 < x)%Q → (x <= y)%Q → ilog2 x ≤ ilog2 y.
Proof.
  intros Hx Hxy. destruct (ilog2_spec x Hx) as [H1 _].
  destruct (ilog2_spec y) as [_ H2]; [lra|].
  assert (ilog2 x < ilog2 y + 1) by (apply pow2_lt_inv; lra). lia.
Qed.

(** ** Rounding to the nearest integer *)

Lemma rne_cases y :
  let f := Qfloor y in
  (inject_Z f <= y)%Q ∧ (y < inject_Z f + 1)%Q
  ∧ ((rne y = f ∧ (y - inject_Z f <= 1 # 2)%Q
      ∧ ((y - inject_Z f == 1 # 2)%Q → Z.even f = true))
     ∨ (rne y = f + 1 ∧ (1 # 2 <= y - inject_Z f)%Q
        ∧ ((y - inject_Z f == 1 # 2)%Q → Z.even f = false))).
Proof.
  intros f. pose proof (Qfloor_le y) as H1. pose proof (Qlt_floor y) as H2.
  fold f in H1, H2. rewrite inject_Z_plus in H2.
  split; [done|]. split; [exact H2|]. unfold rne. fold f.
  destruct (Qcompare_spec (y - inject_Z f) (1 # 2)) as [E|E|E].
  - destruct (Z.even f) eqn:Ev; [left|right]; (split; [done|]; split; [lra|done]).
  - left. split; [done|]. split; [lra|]. intros E'. lra.
  - right. split; [done|]. split; [lra|]. intros E'. lra.
Qed.

Lemma rne_near y : (y - (1 # 2) <= inject_Z (rne y))%Q ∧ (inject_Z (rne y) <= y + (1 # 2))%Q.
Proof.
  destruct (rne_cases y) as (H1 & H2 & [(-> & H3 & _) | (-> & H3 & _)]).
  - lra.
  - rewrite inject_Z_plus. change (inject_Z 1) with 1%Q. split; lra.
Qed.

Lemma rne_Z n : rne (inject_Z n) = n.
Proof.
  destruct (rne_cases (inject_Z n)) as (H1 & H2 & [(-> & _) | (_ & H3 & _)]).
  - apply Qfloor_Z.
  - rewrite Qfloor_Z in H3. lra.
Qed.

Lemma rne_mono y z : (y <= z)%Q → rne y ≤ rne z.
Proof.
  intros Hyz. pose proof (Qfloor_resp_le y z Hyz) as Hf.
  destruct (rne_cases y) as (Hy1 & Hy2 & Hy). destruct (rne_cases z) as (Hz1 & Hz2 & Hz).
  destruct (decide (Qfloor y = Qfloor z)) as [E|E].
  - rewrite E in *.
    destruct Hy as [(-> & _) | (-> & Hy3 & Hy4)];
      destruct Hz as [(-> & Hz3 & Hz4) | (-> & _)]; try lia.
    assert (Ey : (y - inject_Z (Qfloor z) == 1 # 2)%Q) by lra.
    assert (Ez : (z - inject_Z (Qfloor z) == 1 # 2)%Q) by lra.
    specialize (Hy4 Ey). specialize (Hz4 Ez). congruence.
  - assert (Qfloor y + 1 ≤ Qfloor z) by lia.
    destruct Hy as [(-> & _) | (-> & _)]; destruct Hz as [(-> & _) | (-> & _)]; lia.
Qed.

Lemma rne_ge_Z y n : (inject_Z n <= y)%Q → n ≤ rne y.
Proof. intros H. rewrite <- (rne_Z n). by apply rne_mono. Qed.

Lemma rne_le_Z y n : (y <= inject_Z n)%Q → rne y ≤ n.
Proof. intros H. rewrite <- (rne_Z n). by apply rne_mono. Qed.


(** ** Rounding to binary64 *)

Lemma Qabs_pos_eq x : (0 <= x)%Q → Qabs x = x.
Proof.
  destruct x as [n d]. unfold Qle, Qabs. simpl. intros H.
  rewrite Z.abs_eq by lia. reflexivity.
Qed.

Lemma exponent_pos x : (0 <= x)%Q → exponent x = Z.max emin (ilog2 x - (prec - 1)).
Proof. intros H. unfold exponent. by rewrite Qabs_pos_eq. Qed.

Lemma exponent_mono x y : (0 < x)%Q → (x <= y)%Q → exponent x ≤ exponent y.
Proof.
  intros Hx Hxy. rewrite !exponent_pos by lra.
  pose proof (ilog2_mono x y Hx Hxy). lia.
Qed.

Lemma pow2_53 : (pow2 53 == inject_Z (2 ^ 53))%Q.
Proof. by apply pow2_Z. Qed.

Lemma pow2_52 : (pow2 52 == inject_Z (2 ^ 52))%Q.
Proof. by apply pow2_Z. Qed.

(** The significand of a positive number is below [2^53]. *)
Lemma scaled_lt x : (0 < x)%Q → (x / pow2 (exponent x) < pow2 53)%Q.
Proof.
  intros Hx. destruct (ilog2_spec x Hx) as [_ H2].
  pose proof (pow2_pos (exponent x)) as He.
  apply Qlt_shift_div_r; [done|].
  rewrite <- pow2_add.
  apply Qlt_le_trans with (pow2 (ilog2 x + 1)); [done|].
  apply pow2_le. rewrite exponent_pos by lra. unfold prec. lia.
Qed.

(** The significand of a normal positive number is at least [2^52]. *)
Lemma scaled_ge x :
  (0 < x)%Q → emin ≤ ilog2 x - (prec - 1) → (pow2 52 <= x / pow2 (exponent x))%Q.
Proof.
  intros Hx Hn. destruct (ilog2_spec x Hx) as [H1 _].
  pose proof (pow2_pos (exponent x)) as He.
  apply Qle_shift_div_l; [done|].
  rewrite <- pow2_add.
  apply Qle_trans with (pow2 (ilog2 x)); [|done].
  apply pow2_le. rewrite exponent_pos by lra. unfold prec in *. lia.
Qed.

Lemma round_le_top x : (0 < x)%Q → (round x <= pow2 (exponent x + 53))%Q.
Proof.
  intros Hx. unfold round. rewrite (Z.add_comm _ 53), pow2_add.
  pose proof (pow2_pos (exponent x)) as He.
  apply Qmult_le_compat_r; [|lra].
  rewrite pow2_53, <- Zle_Qle. apply rne_le_Z.
  rewrite <- pow2_53. pose proof (scaled_lt x Hx). lra.
Qed.

Lemma round_ge_bottom x :
  (0 < x)%Q → emin ≤ ilog2 x - (prec - 1) → (pow2 (exponent x + 52) <= round x)%Q.
Proof.
  intros Hx Hn. unfold round. rewrite (Z.add_comm _ 52), pow2_add.
  pose proof (pow2_pos (exponent x)) as He.
  apply Qmult_le_compat_r; [|lra].
  rewrite pow2_52, <- Zle_Qle. apply rne_ge_Z.
  rewrite <- pow2_52. by apply scaled_ge.
Qed.

Lemma round_nonneg x : (0 <= x)%Q → (0 <= round x)%Q.
Proof.
  intros Hx. unfold round. pose proof (pow2_pos (exponent x)) as He.
  apply Qmult_le_0_compat; [|lra].
  rewrite <- (Zle_Qle 0). apply rne_ge_Z. change (inject_Z 0) with 0%Q.
  apply Qle_shift_div_l; [done|]. rewrite Qmult_0_l. done.
Qed.

(** Rounding keeps the order of the numbers that are not negative. *)
Lemma round_mono x y : (0 <= x)%Q → (x <= y)%Q → (round x <= round y)%Q.
Proof.
  intros Hx Hxy.
  destruct (Qlt_le_dec 0 x) as [Hpos|Hzero].
  2: { assert (E : (x == 0)%Q) by lra.
       apply Qle_trans with 0%Q; [|apply round_nonneg; lra].
       unfold round. pose proof (pow2_pos (exponent x)) as He.
       assert (rne (x / pow2 (exponent x)) ≤ 0) as Hr.
       { apply rne_le_Z. change (inject_Z 0) with 0%Q.
         apply Qle_shift_div_r; [done|]. rewrite Qmult_0_l. lra. }
       rewrite Zle_Qle in Hr. change (inject_Z 0) with 0%Q in Hr.
       set (m := inject_Z (rne (x / pow2 (exponent x)))) in *. nra. }
  pose proof (exponent_mono x y Hpos Hxy) as He.
  pose proof (pow2_pos (exponent x)) as Hpx. pose proof (pow2_pos (exponent y)) as Hpy.
  destruct (decide (exponent x = exponent y)) as [E|E].
  - unfold round. rewrite E. apply Qmult_le_compat_r; [|lra].
    rewrite <- Zle_Qle. apply rne_mono.
    apply Qmult_le_compat_r; [done|]. apply Qlt_le_weak, Qinv_lt_0_compat. done.
  - assert (Hlt : exponent x + 1 ≤ exponent y) by lia.
    apply Qle_trans with (pow2 (exponent x + 53)); [by apply round_le_top|].
    apply Qle_trans with (pow2 (exponent y + 52)); [apply pow2_le; lia|].
    apply round_ge_bottom; [lra|].
    rewrite (exponent_pos y) in Hlt by lra.
    rewrite (exponent_pos x) in Hlt by lra. lia.
Qed.

(** The error of rounding is at most half a unit in the last place. *)
Lemma round_error x :
  (Qabs (round x - x) <= pow2 (exponent x) * (1 # 2))%Q.
Proof.
  unfold round. pose proof (pow2_pos (exponent x)) as He.
  set (p := pow2 (exponent x)) in *.
  destruct (rne_near (x / p)) as [H1 H2].
  set (m := inject_Z (rne (x / p))) in *.
  assert (Hx : (x == x / p * p)%Q) by (field; lra).
  apply Qabs_Qle_condition. split.
  - assert ((x / p - (1 # 2)) * p <= m * p)%Q by (apply Qmult_le_compat_r; lra).
    lra.
  - assert (m * p <= (x / p + (1 # 2)) * p)%Q by (apply Qmult_le_compat_r; lra).
    lra.
Qed.

(** For a number in the normal range the error is at most [2^-53] of it. *)
Lemma round_relative x :
  (pow2 (emin + (prec - 1)) <= Qabs x)%Q →
  (Qabs (round x - x) <= Qabs x * pow2 (-53))%Q.
Proof.
  intros Hn. pose proof (round_error x) as Herr.
  pose proof (pow2_pos (emin + (prec - 1))).
  destruct (ilog2_spec (Qabs x)) as [H1 H2]; [lra|].
  assert (Hlog : emin + (prec - 1) ≤ ilog2 (Qabs x)).
  { assert (emin + (prec - 1) < ilog2 (Qabs x) + 1) by (apply pow2_lt_inv; lra). lia. }
  assert (He : exponent x = ilog2 (Qabs x) - 52).
  { unfold exponent, prec in *. lia. }
  rewrite He in Herr.
  assert (Hp : (pow2 (ilog2 (Qabs x) - 52) * (1 # 2) == pow2 (ilog2 (Qabs x)) * pow2 (-53))%Q).
  { replace (ilog2 (Qabs x) - 52) with (ilog2 (Qabs x) + -53 + 1) by lia.
    rewrite pow2_S, pow2_add. ring. }
  rewrite Hp in Herr.
  pose proof (pow2_pos (-53)).
  apply Qle_trans with (pow2 (ilog2 (Qabs x)) * pow2 (-53))%Q; [done|].
  apply Qmult_le_compat_r; lra.
Qed.


(** Whatever the size of [x], the error is at most [2^-53] of it and half
    the last place of the subnormal numbers. *)
Lemma round_error_any x :
  (Qabs (round x - x) <= Qabs x * pow2 (-53) + pow2 (-1075))%Q.
Proof.
  pose proof (round_error x) as Herr.
  pose proof (pow2_pos (-53)) as Hp53. pose proof (pow2_pos (-1075)) as Hpη.
  pose proof (Qabs_nonneg x) as Hx0.
  assert (Hprod : (0 <= Qabs x * pow2 (-53))%Q) by (apply Qmult_le_0_compat; lra).
  destruct (Z.max_spec emin (ilog2 (Qabs x) - (prec - 1))) as [[Hlt E] | [Hle E]].
  - destruct (Qlt_le_dec 0 (Qabs x)) as [Hpos|Hzero].
    + destruct (ilog2_spec (Qabs x) Hpos) as [H1 _].
      unfold exponent in Herr. rewrite E in Herr.
      assert (Hp : (pow2 (ilog2 (Qabs x) - (prec - 1)) * (1 # 2)
                    == pow2 (ilog2 (Qabs x)) * pow2 (-53))%Q).
      { unfold prec. replace (ilog2 (Qabs x) - (53 - 1)) with (ilog2 (Qabs x) + -53 + 1) by lia.
        rewrite pow2_S, pow2_add. ring. }
      rewrite Hp in Herr.
      assert (pow2 (ilog2 (Qabs x)) * pow2 (-53) <= Qabs x * pow2 (-53))%Q
        by (apply Qmult_le_compat_r; lra).
      lra.
    + assert (Hx : (x == 0)%Q).
      { assert (Qabs x == 0)%Q as Ha by lra.
        destruct (Qabs_Qle_condition x 0) as [Hc _].
        destruct Hc as [Hc1 Hc2]; [lra|]. lra. }
      assert (Hr : (round x == 0)%Q).
      { unfold round. pose proof (pow2_pos (exponent x)) as He.
        assert (rne (x / pow2 (exponent x)) = 0) as ->; [|ring].
        assert (x / pow2 (exponent x) == 0)%Q as Hq.
        { set (p := pow2 (exponent x)) in *. rewrite Hx. field. lra. }
        apply Z.le_antisymm.
        - apply rne_le_Z. change (inject_Z 0) with 0%Q. lra.
        - apply rne_ge_Z. change (inject_Z 0) with 0%Q. lra. }
      assert (Qabs (round x - x) == 0)%Q as ->.
      { assert (round x - x == 0)%Q as -> by lra. reflexivity. }
      lra.
  - unfold exponent in Herr. rewrite E in Herr.
    assert (pow2 emin * (1 # 2) == pow2 (-1075))%Q as Hη by reflexivity.
    lra.
Qed.

End Binary64_facts.

(** ** Rounding on [number] *)

Lemma this_fl (x : Qc) : (this (fl x) == Binary64.round x)%Q.
Proof. unfold fl, Q2Qc. simpl. apply Qred_correct. Qed.

Lemma fl_mono (x y : Qc) : (0 <= x)%Qc → (x <= y)%Qc → (fl x <= fl y)%Qc.
Proof.
  intros Hx Hxy. unfold Qcle. rewrite !this_fl.
  apply Binary64_facts.round_mono; [exact Hx|exact Hxy].
Qed.

Lemma fl_nonneg (x : Qc) : (0 <= x)%Qc → (0 <= fl x)%Qc.
Proof.
  intros Hx. unfold Qcle. rewrite this_fl.
  apply Binary64_facts.round_nonneg. exact Hx.
Qed.

(** Half the distance from 1 to the next float, and the smallest normal
    float. *)
Lemma fl_relative (x : Qc) :
  (min_normal <= x)%Qc →
  (x * (1 - eps) <= fl x)%Qc ∧ (fl x <= x * (1 + eps))%Qc.
Proof.
  intros Hx.
  assert (Hx' : (Binary64.pow2 (-1022) <= x)%Q).
  { unfold Qcle, min_normal in Hx. unfold Q2Qc in Hx. simpl in Hx.
    by rewrite Qred_correct in Hx. }
  pose proof (Binary64_facts.pow2_pos (-1022)) as Hp.
  assert (Habs : Qabs x = x) by (apply Binary64_facts.Qabs_pos_eq; lra).
  pose proof (Binary64_facts.round_relative x) as Hrel.
  rewrite Habs in Hrel.
  assert (Hrel' : (Qabs (Binary64.round x - x) <= x * Binary64.pow2 (-53))%Q) by (by apply Hrel).
  apply Qabs_Qle_condition in Hrel' as [H1 H2].
  assert (He : (this eps == Binary64.pow2 (-53))%Q) by (by vm_compute).
  unfold Qcle, Qcmult, Qcminus, Qcplus, Qcopp, Q2Qc. cbn [this].
  rewrite !Qred_correct, !this_fl, He.
  split; lra.
Qed.

(** One rounded step of a sum: from a relative error [c] to [c + 2 eps]. *)
Lemma rounded_step (A x acc t y f c u : Q) :
  (0 <= A)%Q → (0 <= x)%Q → (0 <= u)%Q → (u <= c)%Q → (c <= 1)%Q →
  (A * (1 - c) <= acc)%Q → (acc <= A * (1 + c))%Q →
  (x * (1 - u) <= t)%Q → (t <= x * (1 + u))%Q →
  (y == acc + t)%Q →
  (y * (1 - u) <= f)%Q → (f <= y * (1 + u))%Q →
  ((A + x) * (1 - (c + 2 * u)) <= f)%Q ∧ (f <= (A + x) * (1 + (c + 2 * u)))%Q.
Proof.
  intros HA Hx Hu Huc Hc H1 H2 H3 H4 Hy H5 H6.
  assert (Hy1 : ((A + x) * (1 - c) <= y)%Q) by nra.
  assert (Hy2 : (y <= (A + x) * (1 + c))%Q) by nra.
  assert (Hu1 : (u <= 1)%Q) by lra.
  assert (HAx : (0 <= A + x)%Q) by lra.
  assert (Hcu : (0 <= c * u)%Q) by (apply Qmult_le_0_compat; lra).
  assert (P1 : (0 <= (A + x) * u)%Q) by (apply Qmult_le_0_compat; lra).
  assert (P2 : (0 <= (A + x) * (c * u))%Q) by (apply Qmult_le_0_compat; lra).
  assert (P3 : (0 <= (A + x) * (u * (1 - c)))%Q).
  { apply Qmult_le_0_compat; [lra|]. apply Qmult_le_0_compat; lra. }
  split.
  - apply Qle_trans with (y * (1 - u))%Q; [|done].
    apply Qle_trans with ((A + x) * (1 - c) * (1 - u))%Q.
    + assert ((A + x) * (1 - c) * (1 - u)
              == (A + x) * (1 - (c + 2 * u)) + (A + x) * u + (A + x) * (c * u))%Q by ring.
      lra.
    + apply Qmult_le_compat_r; [done|lra].
  - apply Qle_trans with (y * (1 + u))%Q; [done|].
    apply Qle_trans with ((A + x) * (1 + c) * (1 + u))%Q.
    + apply Qmult_le_compat_r; [done|lra].
    + assert ((A + x) * (1 + (c + 2 * u))
              == (A + x) * (1 + c) * (1 + u) + (A + x) * (u * (1 - c)))%Q by ring.
      lra.
Qed.

Lemma this_of_int z : (this (of_int z) == inject_Z z)%Q.
Proof. reflexivity. Qed.

Lemma eps_bounds : (0 < this eps)%Q ∧ (this eps <= 1 # 4)%Q.
Proof. split; by vm_compute. Qed.

Lemma min_normal_small : (this min_normal <= 1 # 240000000)%Q.
Proof. by vm_compute. Qed.

Lemma this_Qcplus (a b : Qc) : (this (a + b)%Qc == this a + this b)%Q.
Proof. unfold Qcplus, Q2Qc. cbn [this]. apply Qred_correct. Qed.

Lemma this_Qcminus (a b : Qc) : (this (a - b)%Qc == this a - this b)%Q.
Proof.
  unfold Qcminus, Qcplus, Qcopp, Q2Qc. cbn [this]. rewrite !Qred_correct. reflexivity.
Qed.

Lemma this_Qcmult (a b : Qc) : (this (a * b)%Qc == this a * this b)%Q.
Proof. unfold Qcmult, Q2Qc. cbn [this]. apply Qred_correct. Qed.

Lemma this_Qcdiv (a b : Qc) : (this (a / b)%Qc == this a / this b)%Q.
Proof.
  unfold Qcdiv, Qcmult, Qcinv, Q2Qc. cbn [this]. rewrite !Qred_correct. reflexivity.
Qed.

(** [this], pushed through the operations. *)
Ltac push_this :=
  repeat first [rewrite this_Qcmult | rewrite this_Qcplus | rewrite this_Qcminus
               | rewrite this_Qcdiv].
Tactic Notation "push_this" "in" hyp(H) :=
  repeat first [rewrite this_Qcmult in H | rewrite this_Qcplus in H
               | rewrite this_Qcminus in H | rewrite this_Qcdiv in H].

(** The rounded quotient of a whole number of milliseconds by the 60000 of
    a minute. *)
Lemma minutes_bounds (d : Z) :
  1 ≤ d →
  let x := (inject_Z d / inject_Z 60000)%Q in
  let t := fdiv (of_int d) (of_int 60000) in
  (1 # 60000 <= x)%Q
  ∧ (x * (1 - this eps) <= this t)%Q ∧ (this t <= x * (1 + this eps))%Q.
Proof.
  intros Hd x t.
  assert (Hx : (1 # 60000 <= x)%Q).
  { unfold x. apply Qle_shift_div_l; [reflexivity|].
    assert ((1 # 60000) * inject_Z 60000 == 1)%Q as -> by reflexivity.
    rewrite (Zle_Qle 1) in Hd. exact Hd. }
  split; [exact Hx|].
  assert (Ex : (this (of_int d / of_int 60000)%Qc == x)%Q).
  { unfold x, Qcdiv, Qcmult, Qcinv, Q2Qc. cbn [this].
    rewrite !Qred_correct, !this_of_int. reflexivity. }
  destruct (fl_relative (of_int d / of_int 60000)%Qc) as [H1 H2].
  { unfold Qcle. rewrite Ex. pose proof min_normal_small. lra. }
  fold (fdiv (of_int d) (of_int 60000)) in H1, H2. fold t in H1, H2.
  unfold Qcle, Qcmult, Qcminus, Qcplus, Qcopp, Q2Qc in H1, H2. cbn [this] in H1, H2.
  rewrite ?Qred_correct, ?Ex in H1, H2. rewrite ?Qred_correct in H1.
  split; lra.
Qed.

Section Rounded_sums.

#[local] Arguments sum_Z : simpl never.

Lemma sum_Z_cons' d ds : sum_Z (d :: ds) = d + sum_Z ds.
Proof. reflexivity. Qed.

(** The rounded sum of rounded minutes, against the exact sum: each of the
    [n] additions adds [2 eps] to the relative error. *)
Lemma fsum_minutes_bounds ds :
  Forall (λ d, 1 ≤ d) ds →
  ∀ (acc : Qc) (a : Z) (c : Q),
    0 ≤ a → (this eps <= c)%Q →
    (c + 2 * this eps * inject_Z (Z.of_nat (length ds)) <= 1)%Q →
    (0 <= this acc)%Q →
    (inject_Z a / inject_Z 60000 * (1 - c) <= this acc)%Q →
    (this acc <= inject_Z a / inject_Z 60000 * (1 + c))%Q →
    let S := foldl fadd acc (map (λ d, fdiv (of_int d) (of_int 60000)) ds) in
    let X := (inject_Z (a + sum_Z ds) / inject_Z 60000)%Q in
    let c' := (c + 2 * this eps * inject_Z (Z.of_nat (length ds)))%Q in
    (X * (1 - c') <= this S)%Q ∧ (this S <= X * (1 + c'))%Q
    ∧ (0 <= this S)%Q ∧ (ds ≠ [] → (1 # 240000 <= this S)%Q).
Proof.
  destruct eps_bounds as [He0 He1].
  induction 1 as [|d ds Hd Hds IH]; intros acc a c Ha Hc Hlen Hacc H1 H2.
  - cbn [foldl map length]. cbv zeta.
    change (sum_Z []) with 0. rewrite Z.add_0_r.
    change (inject_Z (Z.of_nat 0)) with 0%Q.
    assert (c + 2 * this eps * 0 == c)%Q as -> by ring.
    split; [done|]. split; [done|]. split; [done|]. by intros [].
  - cbn [foldl map]. cbv zeta.
    assert (Hn : (inject_Z (Z.of_nat (length (d :: ds)))
                  == inject_Z (Z.of_nat (length ds)) + 1)%Q).
    { cbn [length]. rewrite Nat2Z.inj_succ, <- Z.add_1_r, inject_Z_plus. reflexivity. }
    assert (Hn0 : (0 <= inject_Z (Z.of_nat (length ds)))%Q).
    { rewrite <- (Zle_Qle 0). lia. }
    rewrite Hn in Hlen.
    assert (P : (0 <= this eps * inject_Z (Z.of_nat (length ds)))%Q)
      by (apply Qmult_le_0_compat; lra).
    destruct (minutes_bounds d Hd) as (Hx & Ht1 & Ht2).
    set (x := (inject_Z d / inject_Z 60000)%Q) in *.
    set (t := fdiv (of_int d) (of_int 60000)) in *.
    set (A := (inject_Z a / inject_Z 60000)%Q) in *.
    assert (HA : (0 <= A)%Q).
    { unfold A. apply Qle_shift_div_l; [reflexivity|].
      rewrite Qmult_0_l. rewrite <- (Zle_Qle 0). exact Ha. }
    assert (Hy : (this (acc + t)%Qc == this acc + this t)%Q).
    { unfold Qcplus, Q2Qc. cbn [this]. apply Qred_correct. }
    assert (Ht34 : ((1 # 60000) * (3 # 4) <= this t)%Q) by nra.
    destruct (fl_relative (acc + t)%Qc) as [F1 F2].
    { unfold Qcle. rewrite Hy. pose proof min_normal_small. lra. }
    fold (fadd acc t) in F1, F2.
    unfold Qcle, Qcmult, Qcminus, Qcplus, Qcopp, Q2Qc in F1, F2. cbn [this] in F1, F2.
    rewrite ?Qred_correct in F1, F2. rewrite ?Qred_correct in F1.
    destruct (rounded_step A x (this acc) (this t) (this acc + this t)
                (this (fadd acc t)) c (this eps))
      as [G1 G2]; try done; try lra.
    assert (EA : (inject_Z (a + d) / inject_Z 60000 == A + x)%Q).
    { unfold A, x. rewrite inject_Z_plus. field. }
    destruct (IH (fadd acc t) (a + d) (c + 2 * this eps)%Q)
      as (I1 & I2 & I3 & I4).
    + lia.
    + lra.
    + lra.
    + assert (0 <= (this acc + this t) * (1 - this eps))%Q
        by (apply Qmult_le_0_compat; lra).
      lra.
    + rewrite EA. exact G1.
    + rewrite EA. exact G2.
    + cbv zeta in I1, I2, I3, I4.
      rewrite sum_Z_cons', Z.add_assoc.
      set (S := foldl fadd (fadd acc t) _) in *.
      set (X := (inject_Z (a + d + sum_Z ds) / inject_Z 60000)%Q) in *.
      rewrite Hn.
      assert (Ec : (c + 2 * this eps * (inject_Z (Z.of_nat (length ds)) + 1)
                    == c + 2 * this eps + 2 * this eps * inject_Z (Z.of_nat (length ds)))%Q)
        by ring.
      rewrite Ec.
      split; [exact I1|]. split; [exact I2|]. split; [exact I3|].
      intros _. destruct ds as [|d' ds'].
      * subst S. cbn [foldl map]. nra.
      * apply I4. done.
Qed.

(** The mean the code computes is the exact mean up to a relative error of
    [n + 2] times [Number.EPSILON], for [n] spans. *)
Lemma fmean_minutes_bounds ds :
  Forall (λ d, 1 ≤ d) ds → ds ≠ [] → Z.of_nat (length ds) < 2 ^ 32 →
  ∃ a m,
    fmean_minutes ds = Some a ∧ mean_minutes ds = Some m
    ∧ (m * (1 - of_int (Z.of_nat (length ds) + 2) * Number_EPSILON) <= a)%Qc
    ∧ (a <= m * (1 + of_int (Z.of_nat (length ds) + 2) * Number_EPSILON))%Qc.
Proof.
  intros Hds Hne Hlen. destruct eps_bounds as [He0 He1].
  set (n := inject_Z (Z.of_nat (length ds))).
  assert (Hn1 : (1 <= n)%Q).
  { unfold n. rewrite <- (Zle_Qle 1). destruct ds; [done|]. simpl. lia. }
  assert (Hn2 : (n <= 4294967296)%Q).
  { unfold n. change 4294967296%Q with (inject_Z (2 ^ 32)). rewrite <- Zle_Qle. lia. }
  assert (Hen : (this eps * n <= 1 # 1000)%Q).
  { apply Qle_trans with (this eps * 4294967296)%Q; [|by vm_compute].
    apply Qmult_le_l; [done|exact Hn2]. }
  destruct (fsum_minutes_bounds ds Hds (of_int 0) 0 (this eps))
    as (S1 & S2 & S3 & S4); try done.
  { fold n. lra. }
  cbv zeta in S1, S2, S3, S4. rewrite Z.add_0_l in S1, S2. fold n in S1, S2.
  specialize (S4 Hne).
  set (S := foldl fadd (of_int 0) _) in *.
  set (X := (inject_Z (sum_Z ds) / inject_Z 60000)%Q) in *.
  exists (fdiv S (of_int (Z.of_nat (length ds)))),
         (of_int (sum_Z ds) / of_int 60000 / of_int (Z.of_nat (length ds)))%Qc.
  split; [by destruct ds|]. split; [by destruct ds|].
  assert (Hq : (this (S / of_int (Z.of_nat (length ds)))%Qc == this S / n)%Q)
    by apply this_Qcdiv.
  assert (Hm : (this (of_int (sum_Z ds) / of_int 60000
                      / of_int (Z.of_nat (length ds)))%Qc == X / n)%Q).
  { rewrite !this_Qcdiv. reflexivity. }
  assert (Hinv : (0 < / n)%Q) by (apply Qinv_lt_0_compat; lra).
  assert (Hen0 : (0 <= this eps * n)%Q) by (apply Qmult_le_0_compat; lra).
  assert (HX : (0 <= X)%Q).
  { unfold X. apply Qle_shift_div_l; [reflexivity|]. rewrite Qmult_0_l.
    rewrite <- (Zle_Qle 0). clear -Hds.
    induction Hds as [|d ds Hd _ IH]; [done|]. rewrite sum_Z_cons'. lia. }
  destruct (fl_relative (S / of_int (Z.of_nat (length ds)))%Qc) as [F1 F2].
  { unfold Qcle. rewrite Hq.
    apply Qle_trans with ((1 # 240000) * (1 # 4294967296))%Q; [by vm_compute|].
    unfold Qdiv. apply Qle_trans with ((1 # 240000) * / n)%Q.
    - apply Qmult_le_l; [reflexivity|].
      apply Qle_shift_inv_l; [lra|]. lra.
    - apply Qmult_le_compat_r; lra. }
  fold (fdiv S (of_int (Z.of_nat (length ds)))) in F1, F2.
  set (a := fdiv S (of_int (Z.of_nat (length ds)))) in *.
  unfold Qcle, Qcmult, Qcminus, Qcplus, Qcopp, Q2Qc in F1, F2. cbn [this] in F1, F2.
  rewrite ?Qred_correct, ?Hq in F1, F2. rewrite ?Qred_correct in F1.
  destruct (rounded_step (X / n) 0 (this S / n) 0 (this S / n) (this a)
              (this eps + 2 * this eps * n) (this eps))
    as [G1 G2]; try lra.
  { apply Qle_shift_div_l; [lra|]. rewrite Qmult_0_l. done. }
  { unfold Qdiv. rewrite <- Qmult_assoc, (Qmult_comm (/ n)), Qmult_assoc.
    apply Qmult_le_compat_r; lra. }
  { unfold Qdiv. rewrite <- Qmult_assoc, (Qmult_comm (/ n)), Qmult_assoc.
    apply Qmult_le_compat_r; lra. }
  assert (HXn : (0 <= X / n)%Q).
  { apply Qle_shift_div_l; [lra|]. rewrite Qmult_0_l. done. }
  assert (Hul : (this (of_int (Z.of_nat (length ds) + 2)) * this Number_EPSILON
                 == (n + 2) * (2 * this eps))%Q).
  { change (this (of_int (Z.of_nat (length ds) + 2)))
      with (inject_Z (Z.of_nat (length ds) + 2)).
    rewrite inject_Z_plus. fold n.
    assert (this Number_EPSILON == 2 * this eps)%Q as -> by (by vm_compute).
    reflexivity. }
  unfold Qcle, Qcmult, Qcminus, Qcplus, Qcopp, Q2Qc. cbn [this].
  rewrite ?Qred_correct, ?Hm, ?Hul. rewrite ?Qred_correct, ?Hul.
  set (M := (X / n)%Q) in *.
  assert (P : (0 <= M * this eps)%Q) by (apply Qmult_le_0_compat; lra).
  split.
  - apply Qle_trans with ((M + 0) * (1 - (this eps + 2 * this eps * n + 2 * this eps)))%Q;
      [|done].
    assert (E : (M * (1 + - ((n + 2) * (2 * this eps)))
                 == (M + 0) * (1 - (this eps + 2 * this eps * n + 2 * this eps))
                    - M * this eps)%Q) by ring.
    lra.
  - apply Qle_trans with ((M + 0) * (1 + (this eps + 2 * this eps * n + 2 * this eps)))%Q;
      [done|].
    assert (E : (M * (1 + (n + 2) * (2 * this eps))
                 == (M + 0) * (1 + (this eps + 2 * this eps * n + 2 * this eps))
                    + M * this eps)%Q) by ring.
    lra.
Qed.

End Rounded_sums.

(** A float below 1 is at most [1 - 2^-53]. *)
Lemma float_below_1 (u : Q) :
  (Binary64.round u == u)%Q → (0 <= u)%Q → (u < 1)%Q →
  (u <= 1 - Binary64.pow2 (-53))%Q.
Proof.
  intros Hfl H0 H1.
  pose proof (Binary64_facts.pow2_pos (-53)) as Hp53.
  assert (Hp53' : (Binary64.pow2 (-53) <= 1 # 2)%Q) by (by vm_compute).
  destruct (Qlt_le_dec 0 u) as [Hpos|Hz]; [|lra].
  destruct (Binary64_facts.ilog2_spec u Hpos) as [L1 L2].
  assert (HL : Binary64.ilog2 u < 0).
  { apply Binary64_facts.pow2_lt_inv. change (Binary64.pow2 0) with 1%Q. lra. }
  destruct (decide (Binary64.ilog2 u = -1)) as [E|E].
  2: { assert (Binary64.pow2 (Binary64.ilog2 u + 1) <= Binary64.pow2 (-1))%Q
         by (apply Binary64_facts.pow2_le; lia).
       assert (Binary64.pow2 (-1) == 1 # 2)%Q by reflexivity. lra. }
  assert (He : Binary64.exponent u = -53).
  { rewrite Binary64_facts.exponent_pos by lra. rewrite E. reflexivity. }
  unfold Binary64.round in Hfl. rewrite He in Hfl.
  set (m := Binary64.rne (u / Binary64.pow2 (-53))) in *.
  assert (Hp : (Binary64.pow2 (-53) == 1 # 9007199254740992)%Q) by reflexivity.
  rewrite Hp in *.
  assert (Hm : (inject_Z m < inject_Z 9007199254740992)%Q).
  { destruct (Qlt_le_dec (inject_Z m) (inject_Z 9007199254740992)) as [|Hge]; [done|].
    exfalso.
    assert (inject_Z 9007199254740992 * (1 # 9007199254740992)
            <= inject_Z m * (1 # 9007199254740992))%Q
      by (apply Qmult_le_compat_r; [done|discriminate]).
    assert (inject_Z 9007199254740992 * (1 # 9007199254740992) == 1)%Q by reflexivity.
    lra. }
  rewrite <- Zlt_Qlt in Hm.
  assert (Hm' : (inject_Z m <= inject_Z 9007199254740991)%Q)
    by (rewrite <- Zle_Qle; lia).
  assert (inject_Z m * (1 # 9007199254740992)
          <= inject_Z 9007199254740991 * (1 # 9007199254740992))%Q
    by (apply Qmult_le_compat_r; [done|discriminate]).
  assert (inject_Z 9007199254740991 * (1 # 9007199254740992)
          == 1 - (1 # 9007199254740992))%Q by reflexivity.
  lra.
Qed.

(** The integer of a code lies from 1000 to 9999, for a draw that is a float
    at least 0 and below 1. *)
Lemma floor_of_draw (u : Qc) :
  fl u = u → (0 <= u)%Qc → (u < 1)%Qc →
  1000 ≤ Math_floor (fadd (of_int 1000) (fmul u (of_int 9000))) ≤ 9999.
Proof.
  intros Hfl H0 H1.
  assert (Hu : (u <= Q2Qc (1 - Binary64.pow2 (-53)))%Qc).
  { unfold Qcle, Q2Qc. cbn [this]. rewrite Qred_correct.
    apply float_below_1; [|exact H0|exact H1].
    rewrite <- this_fl. by rewrite Hfl. }
  set (top := Q2Qc (1 - Binary64.pow2 (-53))) in *.
  assert (Ha0 : (0 <= u * of_int 9000)%Qc).
  { unfold Qcle. rewrite this_Qcmult. apply Qmult_le_0_compat; [exact H0|discriminate]. }
  assert (Ha1 : (u * of_int 9000 <= top * of_int 9000)%Qc).
  { unfold Qcle. rewrite !this_Qcmult. apply Qmult_le_compat_r; [exact Hu|discriminate]. }
  pose proof (fl_mono _ _ Ha0 Ha1) as Hm. fold (fmul u (of_int 9000)) in Hm.
  fold (fmul top (of_int 9000)) in Hm.
  pose proof (fl_nonneg _ Ha0) as Hn. fold (fmul u (of_int 9000)) in Hn.
  set (a := fmul u (of_int 9000)) in *.
  assert (Hn' : (0 <= this a)%Q) by exact Hn.
  assert (Hm' : (this a <= this (fmul top (of_int 9000)))%Q) by exact Hm.
  assert (Hb0 : (of_int 1000 <= of_int 1000 + a)%Qc).
  { unfold Qcle. rewrite this_Qcplus. lra. }
  assert (Hb1 : (of_int 1000 + a <= of_int 1000 + fmul top (of_int 9000))%Qc).
  { unfold Qcle. rewrite !this_Qcplus. lra. }
  assert (H1000 : (0 <= of_int 1000)%Qc) by (by vm_compute).
  pose proof (fl_mono _ _ H1000 Hb0) as Hlow.
  assert (Hpos : (0 <= of_int 1000 + a)%Qc).
  { unfold Qcle. rewrite this_Qcplus. change (this 0%Qc) with 0%Q.
    change (this (of_int 1000)) with (inject_Z 1000).
    assert (0 <= inject_Z 1000)%Q by discriminate. lra. }
  pose proof (fl_mono _ _ Hpos Hb1) as Hhigh.
  fold (fadd (of_int 1000) a) in Hlow, Hhigh.
  fold (fadd (of_int 1000) (fmul top (of_int 9000))) in Hhigh.
  assert (E1 : fl (of_int 1000) = of_int 1000) by (apply Qc_is_canon; by vm_compute).
  assert (E2 : (fadd (of_int 1000) (fmul top (of_int 9000)) < of_int 10000)%Qc)
    by (by vm_compute).
  rewrite E1 in Hlow.
  set (b := fadd (of_int 1000) a) in *.
  unfold Math_floor. split.
  - change 1000 with (Qfloor (inject_Z 1000)). apply Qfloor_resp_le. exact Hlow.
  - assert (Hlt : (this b < inject_Z 10000)%Q).
    { unfold Qcle, Qclt in *. change (this (of_int 10000)) with (inject_Z 10000) in E2. lra. }
    pose proof (Qfloor_le (this b)) as Hf.
    assert (Hz : (inject_Z (Qfloor b) < inject_Z 10000)%Q) by lra.
    rewrite <- Zlt_Qlt in Hz. lia.
Qed.

(** The VAT divisor of the summary, [1 + 16 / 100] in floats, and its
    inverse. *)
Lemma vat_divisor :
  (this (fadd 1 (fdiv (of_int 16) (of_int 100)))
   == 5224175567749775 # 4503599627370496)%Q.
Proof. by vm_compute. Qed.

(** The tax the summary falls back to, against [4/29] of the revenue. *)
Lemma vat_part_bounds (cents : Z) :
  1 ≤ cents →
  let rev := (of_int cents / of_int 100)%Qc in
  let divisor := fadd 1 (fdiv (of_int 16) (of_int 100)) in
  let tax := fsub (fl rev) (fdiv (fl rev) divisor) in
  (rev * (Q2Qc (4 # 29) - 2 * Number_EPSILON) <= tax)%Qc
  ∧ (tax <= rev * (Q2Qc (4 # 29) + 2 * Number_EPSILON))%Qc.
Proof.
  intros Hc rev divisor tax.
  assert (Hrev : (1 # 100 <= this rev)%Q).
  { unfold rev. rewrite this_Qcdiv.
    change (this (of_int cents)) with (inject_Z cents).
    change (this (of_int 100)) with (inject_Z 100).
    apply Qle_shift_div_l; [reflexivity|].
    assert ((1 # 100) * inject_Z 100 == 1)%Q as -> by reflexivity.
    rewrite (Zle_Qle 1) in Hc. exact Hc. }
  assert (Heps : (this eps == 1 # 9007199254740992)%Q) by reflexivity.
  pose proof min_normal_small as Hmin.
  destruct (fl_relative rev) as [A1 A2]; [unfold Qcle; lra|].
  set (R := fl rev) in *.
  unfold Qcle in A1, A2. push_this in A1. push_this in A2.
  change (this 1%Qc) with 1%Q in A1, A2. rewrite Heps in A1, A2.
  assert (Hq : (this (R / divisor)%Qc == this R * (4503599627370496 # 5224175567749775))%Q).
  { rewrite this_Qcdiv. unfold divisor. rewrite vat_divisor. reflexivity. }
  destruct (fl_relative (R / divisor)%Qc) as [B1 B2]; [unfold Qcle; rewrite Hq; lra|].
  fold (fdiv R divisor) in B1, B2. set (q := fdiv R divisor) in *.
  unfold Qcle in B1, B2. rewrite this_Qcmult, Hq in B1, B2.
  push_this in B1. push_this in B2.
  change (this 1%Qc) with 1%Q in B1, B2. rewrite Heps in B1, B2.
  destruct (fl_relative (R - q)%Qc) as [C1 C2].
  { unfold Qcle. rewrite this_Qcminus. lra. }
  fold (fsub R q) in C1, C2. fold tax in C1, C2.
  unfold Qcle in C1, C2. push_this in C1. push_this in C2.
  change (this 1%Qc) with 1%Q in C1, C2. rewrite Heps in C1, C2.
  unfold Qcle. push_this.
  assert (this (Q2Qc (4 # 29)) == 4 # 29)%Q as -> by reflexivity.
  assert (this Number_EPSILON == 1 # 4503599627370496)%Q as -> by reflexivity.
  assert (this 2%Qc == 2)%Q as -> by reflexivity.
  split; lra.
Qed.

(** The error of a rounding, for a number that is not negative and may be
    below the normal range. *)
Lemma fl_error (x : Qc) :
  (0 <= this x)%Q →
  (this x * (1 - this eps) - Binary64.pow2 (-1075) <= this (fl x))%Q
  ∧ (this (fl x) <= this x * (1 + this eps) + Binary64.pow2 (-1075))%Q.
Proof.
  intros Hx. pose proof (Binary64_facts.round_error_any x) as H.
  rewrite (Binary64_facts.Qabs_pos_eq x Hx) in H.
  apply Qabs_Qle_condition in H as [H1 H2].
  assert (He : (this eps == Binary64.pow2 (-53))%Q) by reflexivity.
  rewrite this_fl, He. split; lra.
Qed.

Lemma Qmult_le_l' (z x y : Q) : (0 <= z)%Q → (x <= y)%Q → (z * x <= z * y)%Q.
Proof. intros Hz Hxy. rewrite !(Qmult_comm z). by apply Qmult_le_compat_r. Qed.

(** The quotient [T / (1 + a)] with its three roundings, in the rationals:
    [rho] stands for the rounded [a], [sigma] for the rounded [1 + rho], [q]
    for the rounded [T / sigma]. *)
Lemma rounded_quotient (T a rho sigma y x q u eta : Q) :
  (0 <= T)%Q → (0 <= a)%Q → (0 <= u)%Q → (u <= 1 # 4)%Q →
  (0 <= eta)%Q → (eta <= u * (1 # 4))%Q →
  (a * (1 - u) - eta <= rho)%Q → (rho <= a * (1 + u) + eta)%Q →
  ((1 + rho) * (1 - u) <= sigma)%Q → (sigma <= (1 + rho) * (1 + u))%Q →
  (1 <= sigma)%Q →
  (y * sigma == T)%Q → (x * (1 + a) == T)%Q →
  (y * (1 - u) - eta <= q)%Q → (q <= y * (1 + u) + eta)%Q →
  (x - (4 * u * T + eta) <= q)%Q ∧ (q <= x + (4 * u * T + eta))%Q.
Proof.
  intros HT Ha Hu0 Hu1 He0 He1 R1 R2 S1 S2 Hs Hy Hx Q1 Q2.
  assert (Hau : (0 <= a * u)%Q) by (apply Qmult_le_0_compat; lra).
  assert (Hauu : (0 <= a * u * u)%Q) by (apply Qmult_le_0_compat; lra).
  assert (Hauu' : (a * u * u <= a * u * (1 # 4))%Q) by (apply Qmult_le_l'; lra).
  assert (Heu : (0 <= eta * u)%Q) by (apply Qmult_le_0_compat; lra).
  assert (Heu' : (eta * u <= eta * (1 # 4))%Q).
  { rewrite !(Qmult_comm eta). apply Qmult_le_compat_r; lra. }
  (* sigma against 1 + a *)
  assert (D1 : (sigma - (1 + a) <= 3 * u * (1 + a))%Q).
  { apply Qle_trans with ((1 + (a * (1 + u) + eta)) * (1 + u) - (1 + a))%Q.
    - assert ((1 + rho) * (1 + u) <= (1 + (a * (1 + u) + eta)) * (1 + u))%Q
        by (apply Qmult_le_compat_r; lra).
      lra.
    - assert ((1 + (a * (1 + u) + eta)) * (1 + u) - (1 + a)
              == u + 2 * (a * u) + a * u * u + eta + eta * u)%Q as -> by ring.
      lra. }
  assert (D2 : (- (3 * u * (1 + a)) <= sigma - (1 + a))%Q).
  { apply Qle_trans with ((1 + (a * (1 - u) - eta)) * (1 - u) - (1 + a))%Q.
    - assert ((1 + (a * (1 - u) - eta)) * (1 - u)
              == - u - 2 * (a * u) + a * u * u - eta + eta * u + (1 + a))%Q as E by ring.
      rewrite E. lra.
    - assert ((1 + (a * (1 - u) - eta)) * (1 - u) <= (1 + rho) * (1 - u))%Q
        by (apply Qmult_le_compat_r; lra).
      lra. }
  (* y against x *)
  assert (Hy0 : (0 <= y)%Q).
  { destruct (Qlt_le_dec y 0) as [Hneg|]; [|done]. exfalso.
    assert ((- y) * 1 <= (- y) * sigma)%Q by (apply Qmult_le_l'; lra).
    assert ((- y) * sigma == - (y * sigma))%Q by ring. lra. }
  assert (HyT : (y <= T)%Q).
  { assert (y * 1 <= y * sigma)%Q by (apply Qmult_le_l'; lra). lra. }
  assert (Hx0 : (0 <= x)%Q).
  { destruct (Qlt_le_dec x 0) as [Hneg|]; [|done]. exfalso.
    assert ((- x) * 1 <= (- x) * (1 + a))%Q by (apply Qmult_le_l'; lra).
    assert ((- x) * (1 + a) == - (x * (1 + a)))%Q by ring. lra. }
  assert (HxT : (x <= T)%Q).
  { assert (x * 1 <= x * (1 + a))%Q by (apply Qmult_le_l'; lra). lra. }
  (* y * (1 + a) - T = y * ((1 + a) - sigma) *)
  assert (E1 : (y * (1 + a) - T == y * ((1 + a) - sigma))%Q).
  { rewrite <- Hy. ring. }
  assert (E2 : ((y - x) * (1 + a) == y * ((1 + a) - sigma))%Q).
  { rewrite <- E1, <- Hx. ring. }
  assert (B1 : (y * ((1 + a) - sigma) <= y * (3 * u * (1 + a)))%Q)
    by (apply Qmult_le_l'; lra).
  assert (B2 : (y * (- (3 * u * (1 + a))) <= y * ((1 + a) - sigma))%Q)
    by (apply Qmult_le_l'; lra).
  assert (Huy : (0 <= u * y)%Q) by (apply Qmult_le_0_compat; lra).
  assert (HuT : (u * y <= u * T)%Q) by (apply Qmult_le_l'; lra).
  assert (Y1 : (y - x <= 3 * (u * y))%Q).
  { destruct (Qlt_le_dec (3 * (u * y)) (y - x)) as [Hgt|]; [|done]. exfalso.
    assert (3 * (u * y) * (1 + a) < (y - x) * (1 + a))%Q
      by (apply Qmult_lt_compat_r; lra).
    assert (y * (3 * u * (1 + a)) == 3 * (u * y) * (1 + a))%Q by ring.
    lra. }
  assert (Y2 : (- (3 * (u * y)) <= y - x)%Q).
  { destruct (Qlt_le_dec (y - x) (- (3 * (u * y)))) as [Hgt|]; [|done]. exfalso.
    assert ((y - x) * (1 + a) < - (3 * (u * y)) * (1 + a))%Q
      by (apply Qmult_lt_compat_r; lra).
    assert (y * (- (3 * u * (1 + a))) == - (3 * (u * y)) * (1 + a))%Q by ring.
    lra. }
  assert (y * (1 + u) == y + u * y)%Q by ring.
  assert (y * (1 - u) == y - u * y)%Q by ring.
  assert (4 * u * T == 4 * (u * T))%Q by ring.
  split; lra.
Qed.

Lemma Qdiv_cancel (t s : Q) : ¬ (s == 0)%Q → (t / s * s == t)%Q.
Proof. intros Hs. field. exact Hs. Qed.

Lemma fl_1 : fl 1 = 1%Qc.
Proof. apply Qc_is_canon. by vm_compute. Qed.

(** The net of an order in floats is the rounded exact quotient or a
    neighbour of it, for totals below [2^50]. *)
Lemma net_near (T : Z) (r : Qc) :
  0 ≤ T < 2 ^ 50 → (0 < r)%Qc →
  Z.abs (Math_round (fdiv (of_int T) (fadd 1 (fdiv r (of_int 100))))
         - Math_round (of_int T / (1 + r / of_int 100))%Qc) ≤ 1.
Proof.
  intros [HT0 HT1] Hr.
  assert (Heps : (this eps == 1 # 9007199254740992)%Q) by reflexivity.
  pose proof (Binary64_facts.pow2_pos (-1075)) as Heta0.
  assert (Heta1 : (Binary64.pow2 (-1075) <= (1 # 9007199254740992) * (1 # 4))%Q)
    by (by vm_compute).
  assert (Heta2 : (Binary64.pow2 (-1075) <= 1 # 9007199254740992)%Q) by (by vm_compute).
  set (eta := Binary64.pow2 (-1075)) in *.
  set (a := (this r / inject_Z 100)%Q).
  assert (Ha : (0 < a)%Q).
  { unfold a. apply Qlt_shift_div_l; [reflexivity|]. rewrite Qmult_0_l. exact Hr. }
  assert (Ea : (this (r / of_int 100)%Qc == a)%Q) by (rewrite this_Qcdiv; reflexivity).
  destruct (fl_error (r / of_int 100)%Qc) as [R1 R2]; [rewrite Ea; lra|].
  pose proof (fl_nonneg (r / of_int 100)%Qc) as Hrho0.
  fold (fdiv r (of_int 100)) in R1, R2, Hrho0. set (rho := fdiv r (of_int 100)) in *.
  assert (Hrho : (0 <= this rho)%Q).
  { apply Hrho0. unfold Qcle. rewrite Ea. change (this 0%Qc) with 0%Q. lra. }
  rewrite Ea, Heps in R1, R2. fold eta in R1, R2.
  assert (Es : (this (1 + rho)%Qc == 1 + this rho)%Q) by (rewrite this_Qcplus; reflexivity).
  destruct (fl_relative (1 + rho)%Qc) as [S1 S2].
  { unfold Qcle. rewrite Es. pose proof min_normal_small. lra. }
  assert (Hs1 : (1 <= fl (1 + rho))%Qc).
  { rewrite <- fl_1 at 1. apply fl_mono; [by vm_compute|].
    unfold Qcle. rewrite Es. change (this 1%Qc) with 1%Q. lra. }
  fold (fadd 1 rho) in S1, S2, Hs1. set (sigma := fadd 1 rho) in *.
  unfold Qcle in S1, S2, Hs1. push_this in S1. push_this in S2.
  change (this 1%Qc) with 1%Q in S1, S2, Hs1. rewrite Heps in S1, S2.
  set (t := inject_Z T).
  assert (Ht0 : (0 <= t)%Q) by (unfold t; rewrite <- (Zle_Qle 0); done).
  assert (Ht1 : (t <= inject_Z (2 ^ 50 - 1))%Q) by (unfold t; rewrite <- Zle_Qle; lia).
  assert (Ey : (this (of_int T / sigma)%Qc == t / this sigma)%Q)
    by (rewrite this_Qcdiv; reflexivity).
  assert (Hy0 : (0 <= t / this sigma)%Q).
  { apply Qle_shift_div_l; [lra|]. rewrite Qmult_0_l. done. }
  destruct (fl_error (of_int T / sigma)%Qc) as [Q1 Q2]; [rewrite Ey; done|].
  fold (fdiv (of_int T) sigma) in Q1, Q2. set (q := fdiv (of_int T) sigma) in *.
  rewrite Ey, Heps in Q1, Q2. fold eta in Q1, Q2.
  assert (Ex : (this (of_int T / (1 + r / of_int 100))%Qc == t / (1 + a))%Q).
  { rewrite this_Qcdiv, this_Qcplus, Ea. reflexivity. }
  destruct (rounded_quotient t a (this rho) (this sigma) (t / this sigma) (t / (1 + a))
              (this q) (1 # 9007199254740992) eta) as [G1 G2];
    try done; try lra.
  { apply Qdiv_cancel. lra. }
  { apply Qdiv_cancel. lra. }
  set (x := (t / (1 + a))%Q) in *.
  assert (Hb : (4 * (1 # 9007199254740992) * t + eta < 1 # 2)%Q).
  { assert (4 * (1 # 9007199254740992) * inject_Z (2 ^ 50 - 1) + (1 # 9007199254740992)
            < 1 # 2)%Q by (by vm_compute).
    lra. }
  unfold Math_round.
  pose proof (Qfloor_le (this (q + Q2Qc (1 # 2))%Qc)) as Fq1.
  pose proof (Qlt_floor (this (q + Q2Qc (1 # 2))%Qc)) as Fq2.
  set (x' := (of_int T / (1 + r / of_int 100))%Qc) in *.
  pose proof (Qfloor_le (this (x' + Q2Qc (1 # 2))%Qc)) as Fx1.
  pose proof (Qlt_floor (this (x' + Q2Qc (1 # 2))%Qc)) as Fx2.
  set (Fq := Qfloor (this (q + Q2Qc (1 # 2))%Qc)) in *.
  set (Fx := Qfloor (this (x' + Q2Qc (1 # 2))%Qc)) in *.
  clearbody Fq Fx.
  rewrite this_Qcplus in Fq1, Fq2, Fx1, Fx2.
  rewrite Ex in Fx1, Fx2.
  assert (this (Q2Qc (1 # 2)) == 1 # 2)%Q as Eh by reflexivity.
  rewrite Eh in Fq1, Fq2, Fx1, Fx2.
  rewrite inject_Z_plus in Fq2, Fx2. change (inject_Z 1) with 1%Q in Fq2, Fx2.
  assert (U : (inject_Z Fq < inject_Z (Fx + 2))%Q).
  { rewrite inject_Z_plus. change (inject_Z 2) with 2%Q. lra. }
  assert (L : (inject_Z Fx < inject_Z (Fq + 2))%Q).
  { rewrite inject_Z_plus. change (inject_Z 2) with 2%Q. lra. }
  rewrite <- Zlt_Qlt in U, L. lia.
Qed.

(** ** The order engine *)

Lemma insert_session_same fails id now code status st d st1 :
  Db.insert_session fails id now code status st = (d, st1) → same_orders st st1.
Proof.
  unfold Db.insert_session. destruct (_ || _); intros [= <- <-]; by repeat split.
Qed.

Lemma ensureSession_same env sid st r st1 :
  Orders.ensureSession env sid st = (r, st1) → same_orders st st1.
Proof.
  assert (Hc : ∀ r st1, Orders.create_session env st = (r, st1) →
                        same_orders st st1).
  { intros r' st'. unfold Orders.create_session. run.
    destruct (Db.insert_session _ _ _ _ _ _) as [d st2] eqn:E.
    apply insert_session_same in E. destruct d; by intros [= <- <-]. }
  unfold Orders.ensureSession. run.
  destruct sid as [sid|]; [destruct (truthy_string sid)|]; try apply Hc.
  destruct (Db.select_session _ _ _); intros [= <- <-]; by repeat split.
Qed.

Lemma route_ensureSession_same env sid st r st1 :
  CreateRoute.ensureSession env sid st = (r, st1) → same_orders st st1.
Proof.
  assert (Hc : ∀ r st1, CreateRoute.create_session env st = (r, st1) →
                        same_orders st st1).
  { intros r' st'. unfold CreateRoute.create_session. run.
    destruct (Db.insert_session _ _ _ _ _ _) as [d st2] eqn:E.
    apply insert_session_same in E. destruct d; by intros [= <- <-]. }
  unfold CreateRoute.ensureSession. run.
  destruct sid as [sid|]; [destruct (truthy_string sid)|]; try apply Hc.
  destruct (Db.select_session _ _ _); intros [= <- <-]; by repeat split.
Qed.

Lemma validate_available_store menuItems st r st' :
  Orders.validate_available menuItems st = (r, st') → st' = st.
Proof.
  induction menuItems as [|m l IH]; simpl; run; [by intros [= _ <-]|].
  destruct (_ || _); [by intros [= _ <-] | apply IH].
Qed.

(** What a successful [createOrder] did. *)
Lemma createOrder_Ok_inv env input st res st' :
  Orders.createOrder env input st = (Ok res, st') →
  ∃ session st1 menuItems totalCents lines,
    Orders.ensureSession env (CreateOrderInput.sessionId input) st = (Ok session, st1)
    ∧ Db.select_menu_items (CreateEnv.menu_fails env)
        (map CreateOrderItemInput.menuItemId (CreateOrderInput.items input)) st1
      = Some menuItems
    ∧ length menuItems = length (CreateOrderInput.items input)
    ∧ Orders.price_lines menuItems (CreateOrderInput.items input) 0
      = Ok (totalCents, lines)
    ∧ orders st1 !! CreateEnv.new_order_id env = None
    ∧ CreatedOrderResult.orderId res = CreateEnv.new_order_id env
    ∧ orders st'
      = <[CreateEnv.new_order_id env :=
            new_order (Orders.generateSimpleCode (CreateEnv.random_order env) "MS")
              (CreateOrderInput.vendorId input) (CreateOrderInput.taxRate input)
              (Some (show_payment (CreateOrderInput.paymentMethod input)))
              (CreateEnv.now env) (DbOrderSession.id session) totalCents]>
        (orders st1)
    ∧ order_items st'
      = (order_items st1
         ++ map (Orders.with_order_id (CreateEnv.new_order_id env)) lines)%list.
Proof.
  unfold Orders.createOrder. case_bool_decide; [done|]. run.
  destruct (Orders.ensureSession _ _ _) as [[session|e] st1] eqn:Hs; [|done].
  destruct (Db.select_vendor _ _ _) as [v|]; [|done].
  destruct (negb _); [done|].
  destruct (Db.select_menu_items _ _ _) as [menuItems|] eqn:Hm; [|done].
  case_bool_decide as Hlen; [|done]. simpl.
  destruct (Orders.validate_available menuItems st1) as [[[]|e] st2] eqn:Hv; [|done].
  apply validate_available_store in Hv as ->.
  destruct (Orders.price_lines _ _ _) as [[totalCents lines]|e] eqn:Hp; [|done].
  unfold Db.insert_order. simpl.
  destruct (orders st1 !! CreateEnv.new_order_id env) eqn:Hfresh.
  { rewrite bool_decide_eq_true_2 by eauto. by rewrite orb_true_r. }
  rewrite (bool_decide_eq_false_2 (is_Some None)) by (by intros [? ?]).
  destruct (CreateEnv.order_fails env); [done|]. simpl.
  destruct (Db.order_code_taken _ _); [done|]. simpl.
  unfold Db.insert_order_items. destruct (CreateEnv.items_fails env); [done|]. simpl.
  unfold Db.insert_order_event.
  rewrite length_map in Hlen.
  destruct (CreateEnv.event_fails env); simpl; intros [= <- <-]; simpl;
    exists session, st1, menuItems, totalCents, lines; done.
Qed.

(** What a successful [POST /api/orders/create] did. *)
Lemma POST_Ok_inv env body st resp st' created :
  CreateRoute.POST env body st = (resp, st') →
  Response.payload resp = Some created →
  ∃ vendorId items session st1 menuItems totalCents lines,
    IncomingBody.vendorId body = Some vendorId
    ∧ IncomingBody.items body = Some items
    ∧ CreateRoute.ensureSession env (IncomingBody.sessionId body) st = (Ok session, st1)
    ∧ Db.select_menu_items (CreateEnv.menu_fails env)
        (map CreateOrderItemInput.menuItemId items) st1 = Some menuItems
    ∧ length menuItems = length items
    ∧ CreateRoute.price_lines menuItems items 0 = Ok (totalCents, lines)
    ∧ orders st1 !! CreateEnv.new_order_id env = None
    ∧ CreateRoute.OrderJson.id (CreateRoute.Created.order created)
      = CreateEnv.new_order_id env
    ∧ orders st'
      = <[CreateEnv.new_order_id env :=
            new_order (CreateRoute.generateSimpleCode (CreateEnv.random_order env) "WL")
              vendorId (IncomingBody.taxRate body) (IncomingBody.paymentMethod body)
              (CreateEnv.now env) (CreateRoute.DbSession.id session) totalCents]>
        (orders st1)
    ∧ order_items st'
      = (order_items st1
         ++ map (Orders.with_order_id (CreateEnv.new_order_id env)) lines)%list.
Proof.
  unfold CreateRoute.POST, CreateRoute.handler.
  destruct (IncomingBody.vendorId body) as [vendorId|];
    [|by intros [= <- <-] [=]].
  destruct (IncomingBody.items body) as [items|]; [|by intros [= <- <-] [=]].
  destruct (negb _ || _); [by intros [= <- <-] [=]|]. run.
  destruct (CreateRoute.ensureSession _ _ _) as [[session|e] st1] eqn:Hs;
    [|by intros [= <- <-] [=]].
  destruct (Db.select_vendor _ _ _) as [v|]; [|by intros [= <- <-] [=]].
  destruct (negb _); [by intros [= <- <-] [=]|].
  destruct (Db.select_menu_items _ _ _) as [menuItems|] eqn:Hm;
    [|by intros [= <- <-] [=]].
  case_bool_decide as Hlen; [|by intros [= <- <-] [=]]. simpl.
  destruct (CreateRoute.first_unavailable menuItems); [by intros [= <- <-] [=]|].
  destruct (CreateRoute.price_lines _ _ _) as [[totalCents lines]|e] eqn:Hp;
    [|by intros [= <- <-] [=]].
  unfold Db.insert_order. simpl.
  destruct (orders st1 !! CreateEnv.new_order_id env) eqn:Hfresh.
  { rewrite bool_decide_eq_true_2 by eauto. rewrite orb_true_r.
    by intros [= <- <-] [=]. }
  rewrite (bool_decide_eq_false_2 (is_Some None)) by (by intros [? ?]).
  destruct (CreateEnv.order_fails env); [by intros [= <- <-] [=]|]. simpl.
  destruct (Db.order_code_taken _ _); [by intros [= <- <-] [=]|]. simpl.
  unfold Db.insert_order_items.
  destruct (CreateEnv.items_fails env); [by intros [= <- <-] [=]|]. simpl.
  unfold Db.insert_order_event.
  rewrite length_map in Hlen.
  destruct (CreateEnv.event_fails env); simpl; intros [= <- <-] [= <-]; simpl;
    exists vendorId, items, session, st1, menuItems, totalCents, lines; done.
Qed.

(** The route carries its own copy of the pricing code. *)
Lemma route_price_lines_eq : CreateRoute.price_lines = Orders.price_lines.
Proof. reflexivity. Qed.

Lemma route_net_of_eq : CreateRoute.net_of = Orders.net_of.
Proof. reflexivity. Qed.

Lemma find_menu_item_Some menuItems id m :
  Orders.find_menu_item menuItems id = Some m →
  m ∈ menuItems ∧ DbMenuItem.id m = id.
Proof.
  unfold Orders.find_menu_item.
  destruct (list_find _ _) as [[i x]|] eqn:E; simpl; [|done].
  intros [= ->]. apply list_find_Some in E as (Hi & Hid & _).
  split; [by eapply list_elem_of_lookup_2 | done].
Qed.

Lemma select_menu_items_elem fails ids st menuItems m :
  Db.select_menu_items fails ids st = Some menuItems →
  m ∈ menuItems →
  ∃ row, menu_items st !! DbMenuItem.id m = Some row
         ∧ m = Db.menu_item_of (DbMenuItem.id m) row.
Proof.
  unfold Db.select_menu_items. destruct fails; [done|]. intros [= <-].
  rewrite list_elem_of_omap. intros (id & _ & Hm).
  destruct (menu_items st !! id) as [row|] eqn:E; simpl in Hm; [|done].
  injection Hm as <-. simpl. eauto.
Qed.

Lemma price_lines_spec menuItems lines acc total out :
  Orders.price_lines menuItems lines acc = Ok (total, out) →
  total = acc + drafts_total out ∧ Forall2 (draft_of menuItems) lines out.
Proof.
  revert acc total out. induction lines as [|line lines IH]; intros acc total out; simpl.
  - intros [= <- <-]. simpl. split; [lia | constructor].
  - destruct (Orders.find_menu_item _ _) as [m|] eqn:Hf; [|done].
    destruct (Orders.price_lines _ _ _) as [[t o]|] eqn:Hp; [|done].
    intros [= <- <-]. apply IH in Hp as [-> Hall].
    apply find_menu_item_Some in Hf as [Hm Hid].
    split; [simpl; lia|].
    constructor; [|done]. repeat split; simpl; eauto 10.
Qed.

Lemma lines_total_with_order_id id out :
  lines_total (map (Orders.with_order_id id) out) = drafts_total out.
Proof.
  induction out as [|o out IH]; [done|].
  simpl. unfold line_total at 1. simpl. by rewrite IH.
Qed.

Lemma filter_none {A : Type} (P : A → Prop) `{∀ x, Decision (P x)} (l : list A) :
  (∀ x, x ∈ l → ¬ P x) → filter P l = [].
Proof.
  induction l as [|x l IH]; intros Hl; [done|].
  rewrite filter_cons_False by (apply Hl; left).
  apply IH. intros y Hy. apply Hl. by right.
Qed.

Lemma filter_all {A : Type} (P : A → Prop) `{∀ x, Decision (P x)} (l : list A) :
  Forall P l → filter P l = l.
Proof.
  induction 1 as [|x l Hx _ IH]; [done|].
  rewrite filter_cons_True by done. by rewrite IH.
Qed.

Lemma items_of_fresh st id rows :
  references_ok st → orders st !! id = None →
  Forall (λ it, OrderItem.order_id it = id) rows →
  filter (λ it, OrderItem.order_id it = id) (order_items st ++ rows)%list = rows.
Proof.
  intros Href Hfresh Hrows. rewrite filter_app.
  rewrite filter_none, filter_all; [done | done |].
  intros it Hin Hid. destruct (Href it Hin) as [o Ho]. congruence.
Qed.

Lemma with_order_id_rows id out :
  Forall (λ it, OrderItem.order_id it = id) (map (Orders.with_order_id id) out).
Proof. apply Forall_forall. intros it. rewrite list_elem_of_fmap. by intros (o & -> & _). Qed.

(** The amounts of the row [new_order] builds. *)
Lemma net_of_nonpositive total r : ¬ (0 < r)%Qc → Orders.net_of total r = total.
Proof. intros H. unfold Orders.net_of. by rewrite bool_decide_eq_false_2. Qed.

Lemma net_of_positive total r :
  (0 < r)%Qc →
  Orders.net_of total r
  = Math_round (fdiv (of_int total) (fadd 1 (fdiv r (of_int 100)))).
Proof. intros H. unfold Orders.net_of. by rewrite bool_decide_eq_true_2. Qed.

Lemma drafts_are_snapshots fails ids st menuItems lines out :
  Db.select_menu_items fails ids st = Some menuItems →
  Forall2 (draft_of menuItems) lines out →
  ∀ id, Forall2 (snapshot_of (menu_items st)) lines (map (Orders.with_order_id id) out).
Proof.
  intros Hsel Hall id. induction Hall as [|line o lines out Hd _ IH]; [constructor|].
  simpl. constructor; [|done].
  destruct Hd as (Hq & Hn & m & Hin & Hid & Hp & Hname).
  destruct (select_menu_items_elem _ _ _ _ _ Hsel Hin) as (row & Hrow & Hm).
  unfold snapshot_of. simpl. rewrite Hq, Hn, <- Hid. repeat split.
  exists row. rewrite Hp, Hname, Hm. done.
Qed.

Lemma lines_total_scenario catalog lines rows :
  Forall2 (snapshot_of catalog) lines rows →
  cart_prices catalog lines = [(Some 1000, 2); (Some 500, 1)] →
  lines_total rows = 2500.
Proof.
  intros Hall Hc.
  destruct lines as [|l1 [|l2 [|l3 lines]]]; try done.
  apply Forall2_cons_inv_l in Hall as (r1 & rows1 & H1 & Hall & ->).
  apply Forall2_cons_inv_l in Hall as (r2 & rows2 & H2 & Hall & ->).
  apply Forall2_nil_inv_l in Hall as ->.
  destruct H1 as (Q1 & _ & m1 & M1 & P1 & _).
  destruct H2 as (Q2 & _ & m2 & M2 & P2 & _).
  unfold cart_prices in Hc. simpl in Hc. rewrite M1, M2 in Hc. simpl in Hc.
  injection Hc as E1 E2 E3 E4.
  unfold lines_total, line_total. simpl. rewrite Q1, Q2, P1, P2. simpl. lia.
Qed.

Lemma amounts_of_new_order catalog lines code vendorId taxRate payment now sid
    st st' id out :
  references_ok st → orders st !! id = None →
  orders st' = <[id := new_order code vendorId taxRate payment now sid (drafts_total out)]>
                 (orders st) →
  order_items st' = (order_items st ++ map (Orders.with_order_id id) out)%list →
  Forall2 (snapshot_of catalog) lines (map (Orders.with_order_id id) out) →
  amounts_ok catalog lines taxRate st' id.
Proof.
  intros Href Hfresh Ho Hi Hsnap.
  assert (Hitems : items_of st' id = map (Orders.with_order_id id) out).
  { unfold items_of. rewrite Hi.
    apply items_of_fresh; [done | done | apply with_order_id_rows]. }
  unfold amounts_ok. rewrite Ho, lookup_insert_eq, Hitems, lines_total_with_order_id.
  pose proof (lines_total_scenario _ _ _ Hsnap) as Hscenario.
  rewrite lines_total_with_order_id in Hscenario.
  set (total := drafts_total out) in *.
  set (r := nullish taxRate (of_int 0)).
  exists (new_order code vendorId taxRate payment now sid total), total,
         (Orders.net_of total r), (total - Orders.net_of total r).
  assert (Hzero : ¬ (0 < of_int 0)%Qc) by (by apply Qcle_not_lt).
  do 6 (split; [done|]).
  split; [lia|].
  split.
  { intros [E | E]; subst r; rewrite E; simpl;
      rewrite net_of_nonpositive by done; lia. }
  split.
  { intros r' E Hpos. subst r. rewrite E. simpl.
    rewrite net_of_positive by done. split; [done|].
    intros Ht. by apply net_near. }
  intros Hlines Hrate. subst r. rewrite Hrate, (Hscenario Hlines). simpl.
  by vm_compute.
Qed.

(** C1, as the code has it. For every cart that [createOrder], or the
    route that carries the same code, accepts: the line items of the
    persisted order are the lines of the cart at the prices of the catalog,
    and the total is the sum over them of quantity times the snapshotted
    unit price; net plus tax is the total; without a tax rate, or at rate 0,
    net is the total and tax is 0; at a rate [r > 0] net is [Math.round] of
    [total / (1 + r / 100)] as binary64 arithmetic evaluates it, which for
    a total below [2^50] is the rounding of the exact quotient or an integer
    next to it; and a cart of 2 at 1000 and 1 at 500 at rate 16 gives
    total 2500, net 2155 and tax 345. *)
Theorem createOrder_amounts :
  (∀ env input st res st',
     references_ok st →
     Orders.createOrder env input st = (Ok res, st') →
     amounts_ok (menu_items st) (CreateOrderInput.items input)
       (CreateOrderInput.taxRate input) st' (CreatedOrderResult.orderId res))
  ∧ (∀ env body st resp st' created,
       references_ok st →
       CreateRoute.POST env body st = (resp, st') →
       Response.payload resp = Some created →
       amounts_ok (menu_items st) (default [] (IncomingBody.items body))
         (IncomingBody.taxRate body) st'
         (CreateRoute.OrderJson.id (CreateRoute.Created.order created))).
Proof.
  split.
  - intros env input st res st' Href H.
    apply createOrder_Ok_inv in H
      as (session & st1 & ms & total & out & Hs & Hsel & _ & Hp & Hfresh & -> & Ho & Hi).
    apply ensureSession_same in Hs as (_ & Em & Eo & Ei & _).
    apply price_lines_spec in Hp as [-> Hall]. rewrite Eo in Hfresh, Ho. rewrite Ei in Hi.
    eapply amounts_of_new_order; [done..|].
    rewrite <- Em. by eapply drafts_are_snapshots.
  - intros env body st resp st' created Href H Hc.
    eapply POST_Ok_inv in H
      as (vid & items & session & st1 & ms & total & out & _ & Hitems & Hs & Hsel & _
          & Hp & Hfresh & -> & Ho & Hi); [|done].
    apply route_ensureSession_same in Hs as (_ & Em & Eo & Ei & _).
    rewrite route_price_lines_eq in Hp.
    apply price_lines_spec in Hp as [-> Hall]. rewrite Eo in Hfresh, Ho. rewrite Ei in Hi.
    rewrite Hitems. simpl.
    eapply amounts_of_new_order; [done..|].
    rewrite <- Em. by eapply drafts_are_snapshots.
Qed.

Lemma positive_quantities lines rows catalog :
  Forall2 (snapshot_of catalog) lines rows →
  Forall positive_quantity rows
  ↔ Forall (λ l, 0 < CreateOrderItemInput.quantity l) lines.
Proof.
  induction 1 as [|line it lines rows (Hq & _) _ IH]; [done|].
  rewrite !Forall_cons, IH. unfold positive_quantity. rewrite Hq.
  split; intros [Hh Ht]; (split; [|done]).
  - destruct Hh as (q & [= <-] & Hpos). done.
  - eauto.
Qed.

(** C9, as the code has it. Every line item persisted by [createOrder],
    or by the route that carries the same code, has the quantity of the cart
    line it was written for, whatever that is, next to the name and the unit
    price the catalog had; so the persisted quantities are all above 0
    exactly when the quantities of the cart are. *)
Theorem createOrder_keeps_quantities :
  (∀ env input st res st',
     references_ok st →
     Orders.createOrder env input st = (Ok res, st') →
     let rows := items_of st' (CreatedOrderResult.orderId res) in
     Forall2 (snapshot_of (menu_items st)) (CreateOrderInput.items input) rows
     ∧ (Forall positive_quantity rows
        ↔ Forall (λ l, 0 < CreateOrderItemInput.quantity l)
                 (CreateOrderInput.items input)))
  ∧ (∀ env body st resp st' created,
       references_ok st →
       CreateRoute.POST env body st = (resp, st') →
       Response.payload resp = Some created →
       let rows :=
         items_of st' (CreateRoute.OrderJson.id (CreateRoute.Created.order created)) in
       let lines := default [] (IncomingBody.items body) in
       Forall2 (snapshot_of (menu_items st)) lines rows
       ∧ (Forall positive_quantity rows
          ↔ Forall (λ l, 0 < CreateOrderItemInput.quantity l) lines)).
Proof.
  split.
  - intros env input st res st' Href H rows.
    apply createOrder_Ok_inv in H
      as (session & st1 & ms & total & out & Hs & Hsel & _ & Hp & Hfresh & Hid & _ & Hi).
    apply ensureSession_same in Hs as (_ & Em & Eo & Ei & _).
    apply price_lines_spec in Hp as [_ Hall].
    assert (Hsnap : Forall2 (snapshot_of (menu_items st))
                      (CreateOrderInput.items input) rows).
    { subst rows. unfold items_of. rewrite Hi, Ei, Hid, items_of_fresh.
      - rewrite <- Em. by eapply drafts_are_snapshots.
      - done.
      - by rewrite <- Eo.
      - apply with_order_id_rows. }
    split; [done | by eapply positive_quantities].
  - intros env body st resp st' created Href H Hc rows lines.
    eapply POST_Ok_inv in H
      as (vid & items & session & st1 & ms & total & out & _ & Hitems & Hs & Hsel & _
          & Hp & Hfresh & Hid & _ & Hi); [|done].
    apply route_ensureSession_same in Hs as (_ & Em & Eo & Ei & _).
    rewrite route_price_lines_eq in Hp.
    apply price_lines_spec in Hp as [_ Hall].
    assert (Hsnap : Forall2 (snapshot_of (menu_items st)) lines rows).
    { subst rows lines. rewrite Hitems. simpl.
      unfold items_of. rewrite Hi, Ei, Hid, items_of_fresh.
      - rewrite <- Em. by eapply drafts_are_snapshots.
      - done.
      - by rewrite <- Eo.
      - apply with_order_id_rows. }
    split; [done | by eapply positive_quantities].
Qed.

(** A cart that names a menu item twice gets fewer rows than lines. *)
Lemma length_omap_le {A B : Type} (f : A → option B) (l : list A) :
  (length (omap f l) ≤ length l)%nat.
Proof. induction l as [|x l IH]; csimpl; [done|]. destruct (f x); csimpl; lia. Qed.

Lemma length_remove_dups_le {A : Type} `{EqDecision A} (l : list A) :
  (length (remove_dups l) ≤ length l)%nat.
Proof. induction l as [|x l IH]; simpl; [done|]. case_decide; simpl; lia. Qed.

Lemma length_remove_dups_lt {A : Type} `{EqDecision A} (l : list A) :
  ¬ NoDup l → (length (remove_dups l) < length l)%nat.
Proof.
  induction l as [|x l IH]; intros Hdup; [by destruct Hdup; constructor|].
  simpl. pose proof (length_remove_dups_le l). case_decide as Hin; simpl; [lia|].
  assert (¬ NoDup l) by (intros Hl; apply Hdup; by constructor).
  specialize (IH ltac:(done)). lia.
Qed.

Lemma select_menu_items_duplicate fails ids st menuItems :
  ¬ NoDup ids →
  Db.select_menu_items fails ids st = Some menuItems →
  length menuItems ≠ length ids.
Proof.
  intros Hdup. unfold Db.select_menu_items. destruct fails; [done|]. intros [= <-].
  pose proof (length_omap_le (λ id, Db.menu_item_of id <$> menu_items st !! id)
                (remove_dups ids)).
  pose proof (length_remove_dups_lt ids Hdup). lia.
Qed.

Lemma select_vendor_same fails id st st1 :
  same_orders st st1 → Db.select_vendor fails id st1 = Db.select_vendor fails id st.
Proof. intros (Ev & _). unfold Db.select_vendor. by rewrite Ev. Qed.

(** C10. A cart that names the same menu item on two or more lines is
    never accepted; when the ticket resolves, the vendor exists and is
    active and the batch fetch answers, [createOrder] throws
    "Some menu items could not be found." and the route answers 400 with
    that message, whatever the catalog says about the item. *)
Theorem duplicate_menu_item_rejected :
  (∀ env input st session st1 v,
     ¬ NoDup (map CreateOrderItemInput.menuItemId (CreateOrderInput.items input)) →
     Orders.ensureSession env (CreateOrderInput.sessionId input) st = (Ok session, st1) →
     vendors st !! CreateOrderInput.vendorId input = Some v →
     Vendor.is_active v = true →
     CreateEnv.vendor_fails env = false →
     CreateEnv.menu_fails env = false →
     Orders.createOrder env input st
     = (Throw (Error "Some menu items could not be found."), st1))
  ∧ (∀ env input st,
       ¬ NoDup (map CreateOrderItemInput.menuItemId (CreateOrderInput.items input)) →
       is_Ok (Orders.createOrder env input st).1 = false)
  ∧ (∀ env body st vendorId items session st1 v,
       IncomingBody.vendorId body = Some vendorId →
       IncomingBody.items body = Some items →
       truthy_string vendorId = true →
       ¬ NoDup (map CreateOrderItemInput.menuItemId items) →
       CreateRoute.ensureSession env (IncomingBody.sessionId body) st = (Ok session, st1) →
       vendors st !! vendorId = Some v →
       Vendor.is_active v = true →
       CreateEnv.vendor_fails env = false →
       CreateEnv.menu_fails env = false →
       CreateRoute.POST env body st
       = (Response.fail 400 "Some menu items could not be found.", st1)).
Proof.
  split; [|split].
  - intros env input st session st1 v Hdup Hs Hv Hact Hvf Hmf.
    assert (Hne : CreateOrderInput.items input ≠ []).
    { intros E. rewrite E in Hdup. apply Hdup. constructor. }
    unfold Orders.createOrder.
    rewrite bool_decide_eq_false_2 by (by destruct (CreateOrderInput.items input)).
    run. rewrite Hs.
    rewrite (select_vendor_same _ _ st st1) by (by eapply ensureSession_same).
    unfold Db.select_vendor. rewrite Hvf, Hv. simpl. rewrite Hact. simpl.
    destruct (Db.select_menu_items _ _ _) as [ms|] eqn:Hsel.
    2:{ unfold Db.select_menu_items in Hsel. by rewrite Hmf in Hsel. }
    apply select_menu_items_duplicate in Hsel; [|done].
    by rewrite bool_decide_eq_false_2.
  - intros env input st Hdup.
    destruct (Orders.createOrder env input st) as [[res|e] st'] eqn:H; [|done].
    apply createOrder_Ok_inv in H
      as (session & st1 & ms & total & out & _ & Hsel & Hlen & _).
    apply select_menu_items_duplicate in Hsel; [|done].
    by rewrite length_map in Hsel.
  - intros env body st vendorId items session st1 v Hvid Hitems Htruthy Hdup Hs Hv
           Hact Hvf Hmf.
    assert (Hne : items ≠ []).
    { intros E. rewrite E in Hdup. apply Hdup. constructor. }
    unfold CreateRoute.POST, CreateRoute.handler. rewrite Hvid, Hitems, Htruthy.
    rewrite bool_decide_eq_false_2 by (by destruct items).
    run. rewrite Hs.
    rewrite (select_vendor_same _ _ st st1) by (by eapply route_ensureSession_same).
    unfold Db.select_vendor. rewrite Hvf, Hv. simpl. rewrite Hact. simpl.
    destruct (Db.select_menu_items _ _ _) as [ms|] eqn:Hsel.
    2:{ unfold Db.select_menu_items in Hsel. by rewrite Hmf in Hsel. }
    apply select_menu_items_duplicate in Hsel; [|done].
    by rewrite bool_decide_eq_false_2.
Qed.

(** ** The foreign key is kept *)

Lemma references_ok_same st st1 :
  same_orders st st1 → references_ok st → references_ok st1.
Proof. intros (_ & _ & Eo & Ei & _) H it. rewrite Eo, Ei. apply H. Qed.

Lemma references_ok_insert_order fails id now r st d st' :
  Db.insert_order fails id now r st = (d, st') →
  references_ok st → references_ok st'.
Proof.
  unfold Db.insert_order. destruct (_ || _); intros [= <- <-] H; [done|].
  intros it Hin. simpl in *. destruct (H it Hin) as [o Ho].
  destruct (decide (id = OrderItem.order_id it)) as [E | Hne].
  - rewrite <- E. rewrite lookup_insert_eq. eauto.
  - rewrite lookup_insert_ne by done. eauto.
Qed.

Lemma references_ok_insert_items fails rows st e st' :
  Db.insert_order_items fails rows st = (e, st') →
  Forall (λ it, is_Some (orders st !! OrderItem.order_id it)) rows →
  references_ok st → references_ok st'.
Proof.
  unfold Db.insert_order_items. destruct fails; intros [= <- <-] Hrows H; [done|].
  intros it. simpl. rewrite elem_of_app. intros [Hin | Hin]; [by apply H|].
  rewrite Forall_forall in Hrows. by apply Hrows.
Qed.

Lemma references_ok_insert_event fails row st e st' :
  Db.insert_order_event fails row st = (e, st') →
  references_ok st → references_ok st'.
Proof. unfold Db.insert_order_event. by destruct fails; intros [= <- <-]. Qed.

Lemma references_ok_update_order fails id u st e st' :
  Db.update_order fails id u st = (e, st') →
  references_ok st → references_ok st'.
Proof.
  unfold Db.update_order. destruct fails; intros [= <- <-] H; [done|].
  intros it Hin. simpl in *. destruct (H it Hin) as [o Ho].
  destruct (decide (id = OrderItem.order_id it)) as [E | Hne].
  - rewrite <- E in *. rewrite lookup_alter_eq, Ho. simpl. eauto.
  - rewrite lookup_alter_ne by done. eauto.
Qed.

Lemma insert_order_Some fails id now r st k r' st' :
  Db.insert_order fails id now r st = (Some (k, r'), st') →
  orders st' !! k = Some r'.
Proof.
  unfold Db.insert_order. destruct (_ || _); [done|].
  intros [= <- <- <-]. simpl. apply lookup_insert_eq.
Qed.

(** However [createOrder] ends, with an order and its items written, with
    an order left without its items, or with nothing written, every line
    item of the store still belongs to an order. *)
Lemma createOrder_references_ok env input st r st' :
  references_ok st →
  Orders.createOrder env input st = (r, st') →
  references_ok st'.
Proof.
  intros Href. unfold Orders.createOrder.
  case_bool_decide as Hempty; [by intros [= <- <-]|]. run.
  destruct (Orders.ensureSession _ _ _) as [[session|e] st1] eqn:Hs;
    apply ensureSession_same in Hs;
    apply (references_ok_same _ _ Hs) in Href; [|by intros [= <- <-]].
  destruct (Db.select_vendor _ _ _) as [v|]; [|by intros [= <- <-]].
  destruct (negb _); [by intros [= <- <-]|].
  destruct (Db.select_menu_items _ _ _) as [menuItems|]; [|by intros [= <- <-]].
  case_bool_decide as Hlen; [|by intros [= <- <-]]. simpl.
  destruct (Orders.validate_available menuItems st1) as [[[]|e] st2] eqn:Hv;
    apply validate_available_store in Hv as ->; [|by intros [= <- <-]].
  destruct (Orders.price_lines _ _ _) as [[totalCents lines]|e];
    [|by intros [= <- <-]].
  destruct (Db.insert_order _ _ _ _ _) as [[[k r']|] st2] eqn:Ho.
  2:{ apply references_ok_insert_order in Ho; [|done]. by intros [= <- <-]. }
  pose proof (insert_order_Some _ _ _ _ _ _ _ _ Ho) as Hk.
  apply references_ok_insert_order in Ho; [|done].
  destruct (Db.insert_order_items _ _ _) as [e st3] eqn:Hi.
  apply references_ok_insert_items in Hi; [| |done].
  2:{ apply Forall_forall. intros it. rewrite list_elem_of_fmap.
      intros (o & -> & _). simpl. eauto. }
  destruct e; [by intros [= <- <-]|].
  destruct (Db.insert_order_event _ _ _) as [e st4] eqn:He.
  apply references_ok_insert_event in He; [|done].
  destruct e; by intros [= <- <-].
Qed.

Lemma updateOrderStatus_references_ok env input st r st' :
  references_ok st →
  Orders.updateOrderStatus env input st = (r, st') →
  references_ok st'.
Proof.
  intros Href. unfold Orders.updateOrderStatus.
  destruct (negb _ && negb _); [by intros [= <- <-]|]. run.
  destruct (Orders.load_current env input st) as [cur|]; [|by intros [= <- <-]].
  case_bool_decide as Hsame; [by intros [= <- <-]|].
  destruct (negb _); [by intros [= <- <-]|]. simpl.
  destruct (Db.update_order _ _ _ _) as [e st1] eqn:Hu.
  apply references_ok_update_order in Hu; [|done].
  destruct e; [by intros [= <- <-]|].
  destruct (Db.insert_order_event _ _ _) as [e st2] eqn:He.
  apply references_ok_insert_event in He; [|done].
  destruct e; by intros [= <- <-].
Qed.

(** ** The stable sort *)

Lemma insert_sorted_Permutation {A : Type} (before : A → A → bool) x (l : list A) :
  insert_sorted before x l ≡ₚ x :: l.
Proof.
  induction l as [|y l IH]; simpl; [done|].
  destruct (before x y); [done|]. rewrite IH. apply Permutation_swap.
Qed.

Lemma stable_sort_Permutation {A : Type} (before : A → A → bool) (l : list A) :
  stable_sort before l ≡ₚ l.
Proof.
  induction l as [|x l IH]; simpl; [done|].
  unfold stable_sort in *. simpl. by rewrite insert_sorted_Permutation, IH.
Qed.

Section sorted.
Context {A : Type} (before : A → A → bool).
Hypothesis before_total : ∀ a b, before a b = true ∨ before b a = true.
Hypothesis before_trans :
  ∀ a b c, before a b = true → before b c = true → before a c = true.

Lemma insert_sorted_sorted x l :
  StronglySorted (λ a b, before a b = true) l →
  StronglySorted (λ a b, before a b = true) (insert_sorted before x l).
Proof.
  induction 1 as [|y l Hl IH Hy]; simpl.
  - repeat constructor.
  - destruct (before x y) eqn:E.
    + constructor; [by constructor|].
      constructor; [done|]. eapply Forall_impl; [exact Hy|].
      intros z Hz. by eapply before_trans.
    + constructor; [done|].
      rewrite insert_sorted_Permutation. constructor; [|done].
      destruct (before_total x y); congruence.
Qed.

Lemma stable_sort_sorted l :
  StronglySorted (λ a b, before a b = true) (stable_sort before l).
Proof.
  induction l as [|x l IH]; [constructor|].
  unfold stable_sort in *. simpl. by apply insert_sorted_sorted.
Qed.
End sorted.

Lemma stable_sort_map {A B : Type} (f : A → B) (before : A → A → bool)
    (before' : B → B → bool) (l : list A) :
  (∀ a b, before' (f a) (f b) = before a b) →
  stable_sort before' (map f l) = map f (stable_sort before l).
Proof.
  intros Hf. induction l as [|x l IH]; [done|].
  unfold stable_sort in *. simpl. rewrite IH.
  generalize (foldr (insert_sorted before) [] l). intros s.
  induction s as [|y s IHs]; simpl; [done|].
  rewrite Hf. destruct (before x y); simpl; [done|]. by rewrite IHs.
Qed.

(** ** Sums *)

Lemma sum_Z_app l1 l2 : sum_Z (l1 ++ l2) = sum_Z l1 + sum_Z l2.
Proof. induction l1 as [|x l1 IH]; simpl; [done|]. rewrite IH. lia. Qed.

Lemma sum_Z_Permutation l1 l2 : l1 ≡ₚ l2 → sum_Z l1 = sum_Z l2.
Proof. induction 1; simpl; lia. Qed.

Lemma of_int_0 : of_int 0 = 0%Qc.
Proof. apply Z2Qc_inj_0. Qed.




(** ** Step 3 of [getAdminSummary] *)

Lemma totals_prepDurations acc os :
  AdminDashboard.prepDurationsMinutes (foldl AdminDashboard.totals_step acc os)
  = (AdminDashboard.prepDurationsMinutes acc
     ++ map (λ d, fdiv (of_int d) (of_int 60000))
            (omap (λ kr : string * Order.row, span Order.created_at kr.2) os))%list.
Proof.
  revert acc. induction os as [|o os IH]; intros acc; csimpl.
  - by rewrite app_nil_r.
  - rewrite IH. unfold AdminDashboard.totals_step at 1, span at 2. simpl.
    destruct (Order.created_at o.2) as [c|]; [|done].
    destruct (Order.ready_at o.2) as [r|]; [|done].
    case_bool_decide; [|done]. csimpl. by rewrite <- app_assoc.
Qed.

Lemma totals_totalCents acc os :
  AdminDashboard.totalCents (foldl AdminDashboard.totals_step acc os)
  = AdminDashboard.totalCents acc + cents_total os.
Proof.
  revert acc. induction os as [|o os IH]; intros acc; simpl.
  - unfold cents_total. simpl. lia.
  - rewrite IH. unfold cents_total. simpl. unfold nullish. lia.
Qed.

Lemma select_orders_day env date st :
  AdminDashboard.orders_fails env = false →
  Db.select_orders_created_between (AdminDashboard.orders_fails env)
    (AdminDashboard.getDayBounds env date).1 (AdminDashboard.getDayBounds env date).2 st
  = Some (stable_sort Db.created_desc (day_orders env date st)).
Proof. intros H. unfold Db.select_orders_created_between. by rewrite H. Qed.

(** The summary, once the orders are loaded. *)
Lemma getAdminSummary_Ok_inv env date st s :
  AdminDashboard.getAdminSummary env date st = Ok s →
  AdminDashboard.orders_fails env = false
  ∧ ∃ safeOrders, safeOrders = stable_sort Db.created_desc (day_orders env date st)
    ∧ AdminSummary.ordersToday s = Z.of_nat (length safeOrders)
    ∧ AdminSummary.revenueToday s
      = (of_int (AdminDashboard.totalCents
                   (foldl AdminDashboard.totals_step
                      (AdminDashboard.mkTotals 0 0 false 0 []) safeOrders))
         / of_int 100)%Qc
    ∧ AdminSummary.avgPrepMinutesToday s
      = (let ds := AdminDashboard.prepDurationsMinutes
                     (foldl AdminDashboard.totals_step
                        (AdminDashboard.mkTotals 0 0 false 0 []) safeOrders) in
         if bool_decide (0 < length ds)%nat
         then Some (fdiv (foldl fadd (of_int 0) ds) (of_int (Z.of_nat (length ds))))
         else None)
    ∧ (∃ names,
         AdminSummary.vendorSalesToday s
         = map AdminDashboard.to_sale
             (Array_sort (λ a b, AdminDashboard.VendorAgg.totalKw b
                                 - AdminDashboard.VendorAgg.totalKw a)%Qc
                (JsMap.values (foldl (AdminDashboard.vendor_step names) [] safeOrders))))
    ∧ AdminSummary.topVendor s = head (AdminSummary.vendorSalesToday s).
Proof.
  unfold AdminDashboard.getAdminSummary.
  destruct (AdminDashboard.getDayBounds env date) as [start end_] eqn:Hb.
  destruct (AdminDashboard.orders_fails env) eqn:Hf.
  { unfold Db.select_orders_created_between. done. }
  pose proof (select_orders_day env date st Hf) as Hsel.
  unfold day_orders in Hsel. rewrite Hb, Hf in Hsel. cbn [fst snd] in Hsel.
  rewrite Hsel.
  intros [= <-]. split; [done|]. eexists.
  split; [unfold day_orders; by rewrite Hb|]. simpl.
  repeat split; try done.
  - eexists. done.
  - by destruct (Array_sort _ _).
Qed.

Lemma fmean_of_durations (spans : list Z) :
  (let ds := map (λ d, fdiv (of_int d) (of_int 60000)) spans in
   if bool_decide (0 < length ds)%nat
   then Some (fdiv (foldl fadd (of_int 0) ds) (of_int (Z.of_nat (length ds))))
   else None)
  = fmean_minutes spans.
Proof.
  destruct spans as [|d spans]; [done|].
  cbv zeta. rewrite length_map, bool_decide_eq_true_2 by (simpl; lia). done.
Qed.

Lemma span_positive from_ (os : list (string * Order.row)) :
  Forall (λ d, 1 ≤ d) (omap (λ kr : string * Order.row, span from_ kr.2) os).
Proof.
  apply Forall_forall. intros d Hd.
  apply list_elem_of_omap in Hd as (kr & _ & Hd).
  unfold span in Hd. destruct (from_ kr.2); [|done].
  destruct (Order.ready_at kr.2); [|done].
  case_bool_decide; [|done]. injection Hd as <-. lia.
Qed.

Lemma mean_minutes_Permutation l1 l2 : l1 ≡ₚ l2 → mean_minutes l1 = mean_minutes l2.
Proof.
  intros Hp. unfold mean_minutes.
  rewrite (sum_Z_Permutation _ _ Hp), (Permutation_length Hp).
  destruct l1, l2; try done.
  - by apply Permutation_nil_cons in Hp.
  - symmetry in Hp. by apply Permutation_nil_cons in Hp.
Qed.

(** C6, as the code has it. The average preparation time of the summary is
    the mean, in minutes, of [ready_at - created_at] over the orders of the
    day window that have both timestamps with [ready_at] the later, taken
    newest order first in binary64 arithmetic; it is null exactly when there
    is no such order; and for [n] such orders, fewer than [2^32] as the
    array holds them, it is the arithmetic mean up to a relative error of
    [(n + 2) * Number.EPSILON].  The preparation is timed from the creation
    of the order; [preparing_at] is not read. *)
Theorem avgPrepMinutes_from_created_at env date st s :
  AdminDashboard.getAdminSummary env date st = Ok s →
  let os := day_orders env date st in
  let n := timed Order.created_at os in
  AdminSummary.avgPrepMinutesToday s
  = fmean_prep_minutes Order.created_at (stable_sort Db.created_desc os)
  ∧ (AdminSummary.avgPrepMinutesToday s = None
     ↔ mean_prep_minutes Order.created_at os = None)
  ∧ (n < 2 ^ 32 →
     ∀ m, mean_prep_minutes Order.created_at os = Some m →
     ∃ a, AdminSummary.avgPrepMinutesToday s = Some a
       ∧ (m * (1 - of_int (n + 2) * Number_EPSILON) <= a)%Qc
       ∧ (a <= m * (1 + of_int (n + 2) * Number_EPSILON))%Qc).
Proof.
  intros H os n. apply getAdminSummary_Ok_inv in H as (_ & so & Hos & _ & _ & -> & _).
  rewrite totals_prepDurations. cbn [AdminDashboard.prepDurationsMinutes app].
  rewrite fmean_of_durations. subst so. fold os.
  unfold fmean_prep_minutes, mean_prep_minutes, timed in *.
  assert (Hperm : omap (λ kr : string * Order.row, span Order.created_at kr.2)
                    (stable_sort Db.created_desc os)
                  ≡ₚ omap (λ kr : string * Order.row, span Order.created_at kr.2) os).
  { by rewrite stable_sort_Permutation. }
  pose proof (span_positive Order.created_at (stable_sort Db.created_desc os)) as Hpos.
  set (sorted := omap _ (stable_sort Db.created_desc os)) in *.
  set (spans := omap _ os) in *.
  rewrite <- (mean_minutes_Permutation _ _ Hperm).
  split; [done|]. split.
  - unfold fmean_minutes, mean_minutes. by destruct sorted.
  - intros Hn m Hm.
    destruct (fmean_minutes_bounds sorted) as (a & m' & Ha & Hm' & Hlo & Hhi).
    + done.
    + intros E. by rewrite E in Hm.
    + subst n. by rewrite (Permutation_length Hperm).
    + rewrite Hm in Hm'. injection Hm' as <-.
      subst n. rewrite <- (Permutation_length Hperm).
      exists a. done.
Qed.

(** ** Step 4 of [getAdminSummary] *)

Lemma JsMap_get_cons {V : Type} k' (v' : V) m k :
  JsMap.get ((k', v') :: m) k
  = if decide (k' = k) then Some v' else JsMap.get m k.
Proof.
  unfold JsMap.get. simpl. case_decide; simpl; [done|].
  by destruct (list_find _ m) as [[i [k0 v0]]|].
Qed.







Lemma cents_total_Permutation os1 os2 :
  os1 ≡ₚ os2 → cents_total os1 = cents_total os2.
Proof. intros H. unfold cents_total. apply sum_Z_Permutation. by rewrite H. Qed.




(** ** Failed loads *)

Lemma JsMap_get_forget m k :
  JsMap.get (map forget_name m) k = forget_agg <$> JsMap.get m k.
Proof.
  induction m as [|[k' v'] m IH]; [done|].
  simpl. change (forget_name (k', v')) with (k', forget_agg v').
  rewrite !JsMap_get_cons. case_decide; [done | exact IH].
Qed.

Lemma JsMap_set_forget m k v :
  JsMap.set (map forget_name m) k (forget_agg v) = map forget_name (JsMap.set m k v).
Proof.
  induction m as [|[k' v'] m IH]; [done|].
  simpl. change (forget_name (k', v')) with (k', forget_agg v').
  case_decide; simpl; [done|]. by rewrite IH.
Qed.

Lemma vendor_step_forget names m o :
  AdminDashboard.vendor_step ∅ (map forget_name m) o
  = map forget_name (AdminDashboard.vendor_step names m o).
Proof.
  unfold AdminDashboard.vendor_step.
  destruct (Order.vendor_id o.2) as [vid|]; [|done].
  destruct (truthy_string vid); simpl; [|done].
  rewrite JsMap_get_forget, lookup_empty.
  destruct (JsMap.get m vid) as [old|]; simpl; by rewrite <- JsMap_set_forget.
Qed.

Lemma vendor_fold_forget names m os :
  foldl (AdminDashboard.vendor_step ∅) (map forget_name m) os
  = map forget_name (foldl (AdminDashboard.vendor_step names) m os).
Proof.
  revert m. induction os as [|o os IH]; intros m; [done|].
  simpl. by rewrite (vendor_step_forget names), IH.
Qed.

Lemma sales_without_names names os :
  map AdminDashboard.to_sale
    (Array_sort (λ a b, AdminDashboard.VendorAgg.totalKw b
                        - AdminDashboard.VendorAgg.totalKw a)%Qc
       (JsMap.values (foldl (AdminDashboard.vendor_step ∅) [] os)))
  = map unnamed
      (map AdminDashboard.to_sale
         (Array_sort (λ a b, AdminDashboard.VendorAgg.totalKw b
                             - AdminDashboard.VendorAgg.totalKw a)%Qc
            (JsMap.values (foldl (AdminDashboard.vendor_step names) [] os)))).
Proof.
  change (@nil (string * AdminDashboard.VendorAgg.t)) with (map forget_name []) at 1.
  rewrite (vendor_fold_forget names).
  unfold JsMap.values, Array_sort.
  rewrite <- list_fmap_compose.
  change (snd ∘ forget_name) with
    (forget_agg ∘ (snd : string * AdminDashboard.VendorAgg.t → _)).
  rewrite list_fmap_compose.
  rewrite (stable_sort_map forget_agg
             (λ a b, bool_decide (AdminDashboard.VendorAgg.totalKw b
                                  - AdminDashboard.VendorAgg.totalKw a ≤ 0)%Qc)).
  2:{ done. }
  by rewrite <- !list_fmap_compose.
Qed.

Lemma head_map {A B : Type} (f : A → B) (l : list A) :
  head (map f l) = f <$> head l.
Proof. by destruct l. Qed.

Lemma top_without_names names os :
  AdminDashboard.to_sale <$>
    head (Array_sort (λ a b, AdminDashboard.VendorAgg.totalKw b
                             - AdminDashboard.VendorAgg.totalKw a)%Qc
            (JsMap.values (foldl (AdminDashboard.vendor_step ∅) [] os)))
  = unnamed <$>
      (AdminDashboard.to_sale <$>
         head (Array_sort (λ a b, AdminDashboard.VendorAgg.totalKw b
                                  - AdminDashboard.VendorAgg.totalKw a)%Qc
                 (JsMap.values (foldl (AdminDashboard.vendor_step names) [] os)))).
Proof.
  pose proof (f_equal head (sales_without_names names os)) as H.
  by rewrite !head_map in H.
Qed.

(** C5, as the code has it. When the load of the orders of the day fails,
    [getAdminSummary] throws "Failed to load orders for admin summary.";
    when only the load of the vendor names fails, the summary is the one of
    the run without the failure with every vendor name replaced by
    "Unknown vendor", the vendor sales and the top vendor keeping their
    ids and totals; when only the load of the line items fails, the summary
    is the one of the run without the failure with a null top item. *)
Theorem load_failures today date st vendors_fail items_fail :
  AdminDashboard.getAdminSummary
    (AdminDashboard.mkEnv today true vendors_fail items_fail) date st
  = Throw (Error "Failed to load orders for admin summary.")
  ∧ (∀ s,
       AdminDashboard.getAdminSummary
         (AdminDashboard.mkEnv today false false items_fail) date st = Ok s →
       AdminDashboard.getAdminSummary
         (AdminDashboard.mkEnv today false true items_fail) date st
       = Ok (without_names s))
  ∧ (∀ s,
       AdminDashboard.getAdminSummary
         (AdminDashboard.mkEnv today false vendors_fail false) date st = Ok s →
       AdminDashboard.getAdminSummary
         (AdminDashboard.mkEnv today false vendors_fail true) date st
       = Ok (without_top_item s)).
Proof.
  split; [|split].
  - unfold AdminDashboard.getAdminSummary.
    by destruct (AdminDashboard.getDayBounds _ date).
  - intros s. unfold AdminDashboard.getAdminSummary.
    replace (AdminDashboard.getDayBounds
               (AdminDashboard.mkEnv today false true items_fail) date)
      with (AdminDashboard.getDayBounds
              (AdminDashboard.mkEnv today false false items_fail) date)
      by (by destruct date).
    destruct (AdminDashboard.getDayBounds _ date) as [start end_].
    destruct (Db.select_orders_created_between _ _ _ _) as [os|]; [|done].
    simpl. intros [= <-]. unfold without_names. simpl.
    repeat match goal with
    | |- context [AdminDashboard.vendor_step (if ?b then ∅ else ∅)] =>
        replace (if b then (∅ : gmap string string) else ∅)
          with (∅ : gmap string string) by (by destruct b)
    end.
    match goal with
    | |- context [map unnamed
                    (map AdminDashboard.to_sale
                       (Array_sort _
                          (JsMap.values
                             (foldl (AdminDashboard.vendor_step ?n) [] os))))] =>
        set (names := n)
    end.
    by rewrite (sales_without_names names), (top_without_names names).
  - intros s. unfold AdminDashboard.getAdminSummary.
    replace (AdminDashboard.getDayBounds
               (AdminDashboard.mkEnv today false vendors_fail true) date)
      with (AdminDashboard.getDayBounds
              (AdminDashboard.mkEnv today false vendors_fail false) date)
      by (by destruct date).
    destruct (AdminDashboard.getDayBounds _ date) as [start end_].
    destruct (Db.select_orders_created_between _ _ _ _) as [os|]; [|done].
    simpl. intros [= <-]. unfold without_top_item. simpl.
    do 2 f_equal. by case_bool_decide.
Qed.

(** C8. For a day without orders the summary is the one with every count
    0, every list empty and every optional null. *)
Theorem zero_orders_summary env date st :
  AdminDashboard.orders_fails env = false →
  day_orders env date st = [] →
  AdminDashboard.getAdminSummary env date st = Ok zero_summary.
Proof.
  intros Hf Hday. pose proof (select_orders_day env date st Hf) as Hsel.
  rewrite Hday in Hsel. unfold AdminDashboard.getAdminSummary.
  destruct (AdminDashboard.getDayBounds env date) as [start end_].
  simpl in Hsel. rewrite Hsel. simpl. unfold zero_summary.
  do 2 f_equal; by apply Qc_is_canon.
Qed.

(** ** The lifecycle state machine *)

Lemma select_order_by_code_lookup fails code st k r :
  Db.select_order_by_code fails code st = Some (k, r) → orders st !! k = Some r.
Proof.
  unfold Db.select_order_by_code. destruct fails; [done|].
  destruct (list_find _ _) as [[i kr]|] eqn:E; simpl; [|done].
  intros [= ->]. apply list_find_Some in E as (Hi & _ & _).
  apply list_elem_of_lookup_2 in Hi. by apply elem_of_map_to_list in Hi.
Qed.

Lemma select_order_by_id_lookup fails id st k r :
  Db.select_order_by_id fails id st = Some (k, r) → orders st !! k = Some r.
Proof.
  unfold Db.select_order_by_id. destruct fails; [done|].
  destruct (orders st !! id) eqn:E; simpl; [|done]. by intros [= <- <-].
Qed.

(** The row a call works on is a row of the store. *)
Lemma load_current_row env input st cur :
  Orders.load_current env input st = Some cur →
  ∃ r, orders st !! DbOrderMinimal.id cur = Some r
       ∧ DbOrderMinimal.status cur = Order.status r.
Proof.
  unfold Orders.load_current.
  destruct (truthy _).
  - destruct (Db.select_order_by_id _ _ _) as [[k r]|] eqn:E; simpl; [|done].
    intros [= <-]. simpl. apply select_order_by_id_lookup in E. eauto.
  - destruct (Db.select_order_by_code _ _ _) as [[k r]|] eqn:E; simpl; [|done].
    intros [= <-]. simpl. apply select_order_by_code_lookup in E. eauto.
Qed.

(** Every order of the store can be named by its key. *)
Lemma load_current_by_id env id toStatus actor at_ st r :
  orders st !! id = Some r →
  truthy_string id = true →
  UpdateEnv.select_fails env = false →
  Orders.load_current env
    (UpdateOrderStatusInput.mk (Some id) None toStatus actor at_) st
  = Some (DbOrderMinimal.mk id (Order.status r)).
Proof.
  intros Hr Hid Hf. unfold Orders.load_current, Db.select_order_by_id. simpl.
  by rewrite Hid, Hf, Hr.
Qed.

Lemma canTransition_legal from to :
  Orders.canTransition from to = true ↔ legal from to.
Proof. unfold legal. destruct from, to; vm_compute; intuition congruence. Qed.

Lemma identifies_guard input :
  identifies input →
  negb (truthy (UpdateOrderStatusInput.orderId input))
  && negb (truthy (UpdateOrderStatusInput.orderCode input)) = false.
Proof. intros [-> | ->]; simpl; [done | by rewrite andb_false_r]. Qed.

(** C2. For every request that names an order: when the order already has
    the target status the call returns it and writes nothing; when the move
    is preparing to ready or ready to collected the call succeeds (the
    update reaching the store) and the order has the target status; every
    other move, a reverse one included, throws "Invalid status transition"
    and writes nothing.  So the call succeeds exactly in the first two
    cases. *)
Theorem updateOrderStatus_state_machine env input st cur :
  identifies input →
  Orders.load_current env input st = Some cur →
  let from := DbOrderMinimal.status cur in
  let to := UpdateOrderStatusInput.toStatus input in
  (from = to → Orders.updateOrderStatus env input st = (Ok cur, st))
  ∧ (legal from to → UpdateEnv.update_fails env = false →
     ∃ st', Orders.updateOrderStatus env input st
            = (Ok (DbOrderMinimal.mk (DbOrderMinimal.id cur) to), st')
        ∧ orders st'
          = alter (Order.set_status to) (DbOrderMinimal.id cur) (orders st)
        ∧ order_items st' = order_items st)
  ∧ (from ≠ to → ¬ legal from to →
     Orders.updateOrderStatus env input st
     = (Throw (Orders.invalid_transition from to), st))
  ∧ (UpdateEnv.update_fails env = false →
     is_Ok (Orders.updateOrderStatus env input st).1 = true
     ↔ from = to ∨ legal from to).
Proof.
  intros Hid Hload from to.
  assert (Hsame : from = to → Orders.updateOrderStatus env input st = (Ok cur, st)).
  { intros E. unfold Orders.updateOrderStatus. rewrite identifies_guard by done.
    run. rewrite Hload. fold from to. by rewrite bool_decide_eq_true_2. }
  assert (Hlegal : legal from to → UpdateEnv.update_fails env = false →
     ∃ st', Orders.updateOrderStatus env input st
            = (Ok (DbOrderMinimal.mk (DbOrderMinimal.id cur) to), st')
        ∧ orders st'
          = alter (Order.set_status to) (DbOrderMinimal.id cur) (orders st)
        ∧ order_items st' = order_items st).
  { intros Hl Hf. unfold Orders.updateOrderStatus. rewrite identifies_guard by done.
    run. rewrite Hload. fold from to.
    rewrite bool_decide_eq_false_2
      by (destruct Hl as [[-> ->] | [-> ->]]; done).
    apply canTransition_legal in Hl. rewrite Hl. simpl.
    unfold Db.update_order. rewrite Hf. simpl.
    unfold Db.insert_order_event.
    destruct (UpdateEnv.event_fails env); simpl; eauto. }
  assert (Hother : from ≠ to → ¬ legal from to →
     Orders.updateOrderStatus env input st
     = (Throw (Orders.invalid_transition from to), st)).
  { intros Hne Hl. unfold Orders.updateOrderStatus. rewrite identifies_guard by done.
    run. rewrite Hload. fold from to.
    rewrite bool_decide_eq_false_2 by done.
    destruct (Orders.canTransition from to) eqn:E; [|done].
    by apply canTransition_legal in E. }
  split; [done|]. split; [done|]. split; [done|].
  intros Hf. split.
  - intros Hok. destruct (decide (from = to)) as [|Hne]; [by left|]. right.
    destruct (Orders.canTransition from to) eqn:E; [by apply canTransition_legal|].
    rewrite Hother in Hok; [done | done |].
    intros Hl. apply canTransition_legal in Hl. congruence.
  - intros [E | Hl].
    + by rewrite Hsame.
    + destruct (Hlegal Hl Hf) as (st' & -> & _). done.
Qed.

(** This revision writes the status only: no call changes a timestamp. *)
Lemma updateOrderStatus_keeps_stamps env input st id o :
  orders st !! id = Some o →
  ∃ o', orders (Orders.updateOrderStatus env input st).2 !! id = Some o'
        ∧ Order.preparing_at o' = Order.preparing_at o
        ∧ Order.ready_at o' = Order.ready_at o
        ∧ Order.collected_at o' = Order.collected_at o.
Proof.
  intros Ho. unfold Orders.updateOrderStatus.
  destruct (negb _ && negb _); [by exists o|]. run.
  destruct (Orders.load_current env input st) as [cur|]; [|by exists o].
  case_bool_decide as Hsame; [by exists o|].
  destruct (negb _); [by exists o|]. simpl.
  unfold Db.update_order. destruct (UpdateEnv.update_fails env); [by exists o|].
  simpl. unfold Db.insert_order_event.
  destruct (UpdateEnv.event_fails env); simpl;
    (destruct (decide (DbOrderMinimal.id cur = id)) as [<- | Hne];
     [rewrite lookup_alter_eq, Ho; simpl; by eexists
     |rewrite lookup_alter_ne by done; by exists o]).
Qed.

(** *** The revision with timestamps *)

Lemma timed_load_current_row env input st cur :
  OrdersWithTiming.load_current env input st = Some cur →
  ∃ r, orders st !! DbOrderStatusRow.id cur = Some r
       ∧ DbOrderStatusRow.status cur = Order.status r
       ∧ DbOrderStatusRow.preparing_at cur = Order.preparing_at r
       ∧ DbOrderStatusRow.ready_at cur = Order.ready_at r
       ∧ DbOrderStatusRow.collected_at cur = Order.collected_at r.
Proof.
  unfold OrdersWithTiming.load_current.
  destruct (truthy _).
  - destruct (Db.select_order_by_id _ _ _) as [[k r]|] eqn:E; simpl; [|done].
    intros [= <-]. simpl. apply select_order_by_id_lookup in E. eauto 10.
  - destruct (Db.select_order_by_code _ _ _) as [[k r]|] eqn:E; simpl; [|done].
    intros [= <-]. simpl. apply select_order_by_code_lookup in E. eauto 10.
Qed.

(** What one call may do to the [orders] table. *)
Lemma timed_update_orders env input st :
  orders (OrdersWithTiming.updateOrderStatus env input st).2 = orders st
  ∨ ∃ cur, OrdersWithTiming.load_current env input st = Some cur
      ∧ orders (OrdersWithTiming.updateOrderStatus env input st).2
        = alter (Updates.apply
                   (OrdersWithTiming.updates_for cur
                      (UpdateOrderStatusInput.toStatus input)
                      (nullish (UpdateOrderStatusInput.at_ input) (UpdateEnv.now env))))
                (DbOrderStatusRow.id cur) (orders st).
Proof.
  unfold OrdersWithTiming.updateOrderStatus.
  destruct (negb _ && negb _); [by left|]. run.
  destruct (OrdersWithTiming.load_current env input st) as [cur|] eqn:E; [|by left].
  case_bool_decide; [by left|].
  destruct (negb _); [by left|]. simpl.
  unfold Db.update_order. destruct (UpdateEnv.update_fails env); [by left|]. simpl.
  right. exists cur. split; [done|].
  unfold Db.insert_order_event. by destruct (UpdateEnv.event_fails env).
Qed.

(** The first move into a status stamps it: a legal move that reaches the
    store sets the timestamp of the target status to the time of the call
    when the order has none. *)
Lemma timed_transition_stamps env input st cur :
  identifies input →
  OrdersWithTiming.load_current env input st = Some cur →
  legal (DbOrderStatusRow.status cur) (UpdateOrderStatusInput.toStatus input) →
  UpdateEnv.update_fails env = false →
  ∃ r, orders st !! DbOrderStatusRow.id cur = Some r
    ∧ orders (OrdersWithTiming.updateOrderStatus env input st).2
        !! DbOrderStatusRow.id cur
      = Some (Updates.apply
                (OrdersWithTiming.updates_for cur
                   (UpdateOrderStatusInput.toStatus input)
                   (nullish (UpdateOrderStatusInput.at_ input) (UpdateEnv.now env)))
                r)
    ∧ (UpdateOrderStatusInput.toStatus input = ready →
       Order.ready_at r = None →
       Order.ready_at
         (Updates.apply
            (OrdersWithTiming.updates_for cur
               (UpdateOrderStatusInput.toStatus input)
               (nullish (UpdateOrderStatusInput.at_ input) (UpdateEnv.now env)))
            r)
       = Some (nullish (UpdateOrderStatusInput.at_ input) (UpdateEnv.now env)))
    ∧ (UpdateOrderStatusInput.toStatus input = collected →
       Order.collected_at r = None →
       Order.collected_at
         (Updates.apply
            (OrdersWithTiming.updates_for cur
               (UpdateOrderStatusInput.toStatus input)
               (nullish (UpdateOrderStatusInput.at_ input) (UpdateEnv.now env)))
            r)
       = Some (nullish (UpdateOrderStatusInput.at_ input) (UpdateEnv.now env))).
Proof.
  intros Hid Hload Hlegal Hf.
  destruct (timed_load_current_row _ _ _ _ Hload) as (r & Hr & Hst & _ & Hrd & Hc).
  exists r. split; [done|]. split.
  - unfold OrdersWithTiming.updateOrderStatus. rewrite identifies_guard by done.
    run. rewrite Hload.
    rewrite bool_decide_eq_false_2
      by (destruct Hlegal as [[-> ->] | [-> ->]]; done).
    assert (Hcan : OrdersWithTiming.canTransition (DbOrderStatusRow.status cur)
                     (UpdateOrderStatusInput.toStatus input) = true)
      by (by apply canTransition_legal).
    rewrite Hcan. simpl. unfold Db.update_order. rewrite Hf. simpl.
    unfold Db.insert_order_event.
    destruct (UpdateEnv.event_fails env); simpl; by rewrite lookup_alter_eq, Hr.
  - split; intros Hto Hnone; unfold OrdersWithTiming.updates_for; simpl.
    + by rewrite Hto, Hrd, Hnone.
    + by rewrite Hto, Hc, Hnone.
Qed.

Lemma keeps_stamps_refl o : keeps_stamps o o.
Proof. by repeat split. Qed.

Lemma keeps_stamps_trans o1 o2 o3 :
  keeps_stamps o1 o2 → keeps_stamps o2 o3 → keeps_stamps o1 o3.
Proof. intros (A1 & B1 & C1) (A2 & B2 & C2). repeat split; eauto. Qed.

Lemma timed_update_keeps_stamps env input st id o :
  orders st !! id = Some o →
  ∃ o', orders (OrdersWithTiming.updateOrderStatus env input st).2 !! id = Some o'
        ∧ keeps_stamps o o'.
Proof.
  intros Ho.
  destruct (timed_update_orders env input st) as [-> | (cur & Hcur & ->)].
  { exists o. split; [done | apply keeps_stamps_refl]. }
  destruct (decide (DbOrderStatusRow.id cur = id)) as [<- | Hne].
  - rewrite lookup_alter_eq, Ho. simpl. eexists; split; [done|].
    apply timed_load_current_row in Hcur as (r & Hr & _ & Hp & Hrd & Hc).
    rewrite Ho in Hr. injection Hr as <-.
    unfold keeps_stamps, OrdersWithTiming.updates_for. simpl.
    rewrite Hp, Hrd, Hc.
    repeat split; intros t Ht; rewrite Ht;
      rewrite (bool_decide_eq_false_2 (Some t = None)) by done;
      by rewrite andb_false_r.
  - rewrite lookup_alter_ne by done. exists o. split; [done | apply keeps_stamps_refl].
Qed.

(** C3. A timestamp that an order has, [ready_at] or [collected_at] (or
    [preparing_at]), written by a first transition or otherwise, is the
    same after any further calls of [updateOrderStatus], whatever they
    ask, whenever they are made and however they end. *)
Theorem timestamps_first_write_wins calls st id o :
  orders st !! id = Some o →
  ∃ o', orders (OrdersWithTiming.run_updates calls st) !! id = Some o'
        ∧ keeps_stamps o o'.
Proof.
  revert st o. induction calls as [|[env input] calls IH]; intros st o Ho.
  - exists o. split; [done | apply keeps_stamps_refl].
  - simpl. destruct (timed_update_keeps_stamps env input st id o Ho) as (o1 & H1 & K1).
    destruct (IH _ _ H1) as (o2 & H2 & K2).
    exists o2. split; [done | by eapply keeps_stamps_trans].
Qed.

(** ** Allocation of codes *)

Lemma insert_session_None fails id now code status st st' :
  Db.insert_session fails id now code status st = (None, st') → st' = st.
Proof. unfold Db.insert_session. destruct (_ || _); by intros [= <-]. Qed.

Lemma retry_loop_step env left i st :
  (ticket_attempt env i st).1 = None →
  SessionsStart.retry_loop env (S left) i
    (SessionsStart.generateTicketCode (SessionsStart.random env i)) st
  = SessionsStart.retry_loop env left (S i)
      (SessionsStart.generateTicketCode (SessionsStart.random env (S i))) st.
Proof.
  unfold ticket_attempt. intros H. simpl. run.
  destruct (Db.insert_session _ _ _ _ _ _) as [d st'] eqn:E. simpl in H. subst d.
  apply insert_session_None in E as ->. done.
Qed.

Lemma retry_loop_skip env k left i st :
  (∀ j, (j < k)%nat → (ticket_attempt env (i + j) st).1 = None) →
  SessionsStart.retry_loop env (k + left) i
    (SessionsStart.generateTicketCode (SessionsStart.random env i)) st
  = SessionsStart.retry_loop env left (i + k)
      (SessionsStart.generateTicketCode (SessionsStart.random env (i + k))) st.
Proof.
  revert i. induction k as [|k IH]; intros i Hfail.
  - by rewrite Nat.add_0_r.
  - change (S k + left)%nat with (S (k + left)).
    rewrite retry_loop_step.
    2:{ specialize (Hfail 0%nat). rewrite Nat.add_0_r in Hfail. apply Hfail. lia. }
    rewrite IH.
    + by replace (S i + k)%nat with (i + S k)%nat by lia.
    + intros j Hj. replace (S i + j)%nat with (i + S j)%nat by lia.
      apply Hfail. lia.
Qed.

(** The ticket route retries: an insert that fails is followed by a fresh
    code, up to five inserts; the first that succeeds ends the request, and
    five failures end it with a 500. *)
Lemma sessions_start_retries env st :
  (∀ k d, (k < 5)%nat →
     (∀ i, (i < k)%nat → (ticket_attempt env i st).1 = None) →
     (ticket_attempt env k st).1 = Some d →
     ∃ json, SessionsStart.POST env st = (Response.ok json, (ticket_attempt env k st).2)
       ∧ SessionsStart.SessionJson.ticket_code json
         = SessionsStart.generateTicketCode (SessionsStart.random env k))
  ∧ ((∀ i, (i < 5)%nat → (ticket_attempt env i st).1 = None) →
     SessionsStart.POST env st
     = (Response.fail 500 "Failed to create session after retries", st)).
Proof.
  split.
  - intros k d Hk Hfail Hok. unfold SessionsStart.POST, SessionsStart.handler.
    replace 5%nat with (k + S (4 - k))%nat by lia.
    rewrite retry_loop_skip by (intros j Hj; by apply Hfail).
    simpl. run. unfold ticket_attempt in Hok |- *.
    destruct (Db.insert_session _ _ _ _ _ _) as [d' st'] eqn:E.
    simpl in Hok. subst d'. simpl. eexists. split; [done|]. simpl.
    unfold Db.insert_session in E. destruct (_ || _); [done|].
    by injection E as <- _.
  - intros Hfail. unfold SessionsStart.POST, SessionsStart.handler.
    change 5%nat with (5 + 0)%nat.
    rewrite retry_loop_skip by (intros j Hj; by apply Hfail). done.
Qed.

Lemma order_code_taken_same code st st1 :
  same_orders st st1 → Db.order_code_taken code st1 = Db.order_code_taken code st.
Proof. intros (_ & _ & Eo & _). unfold Db.order_code_taken. by rewrite Eo. Qed.

(** [createOrder] inserts the order once: when the code it drew is taken,
    the cart is not accepted. *)
Lemma createOrder_order_code_taken env input st :
  Db.order_code_taken
    (Orders.generateSimpleCode (CreateEnv.random_order env) "MS") st = true →
  is_Ok (Orders.createOrder env input st).1 = false.
Proof.
  intros Htaken. unfold Orders.createOrder. case_bool_decide; [done|]. run.
  destruct (Orders.ensureSession _ _ _) as [[session|e] st1] eqn:Hs; [|done].
  apply ensureSession_same in Hs.
  destruct (Db.select_vendor _ _ _) as [v|]; [|done].
  destruct (negb _); [done|].
  destruct (Db.select_menu_items _ _ _) as [menuItems|]; [|done].
  case_bool_decide; [|done]. simpl.
  destruct (Orders.validate_available menuItems st1) as [[[]|e] st2] eqn:Hv; [|done].
  apply validate_available_store in Hv as ->.
  destruct (Orders.price_lines _ _ _) as [[totalCents lines]|e]; [|done].
  unfold Db.insert_order. simpl.
  rewrite (order_code_taken_same _ st st1), Htaken by done.
  by rewrite orb_true_r.
Qed.

(** C4, where the code departs from it. The ticket route regenerates the
    code and inserts again, up to five times; [createOrder] does not: with
    the order code it draws taken, or with the ticket code it draws taken,
    it inserts once and throws, and the route that carries the same code
    answers 500, on a store where the ticket route, given the same first
    draw, succeeds with its second code. *)
Theorem createOrder_does_not_retry :
  Orders.createOrder Scenario.env Scenario.cart_on_ticket Scenario.taken_store
  = (Throw (Error "Failed to create order."), Scenario.taken_store)
  ∧ Orders.createOrder Scenario.env Scenario.cart Scenario.taken_store
    = (Throw (Error "Failed to create order session."), Scenario.taken_store)
  ∧ CreateRoute.POST Scenario.env Scenario.body Scenario.taken_store
    = (Response.fail 500 "Unexpected server error", Scenario.taken_store)
  ∧ ∃ json,
      (SessionsStart.POST Scenario.start_env Scenario.taken_store).1 = Response.ok json
      ∧ SessionsStart.SessionJson.ticket_code json = "WL-7750".
Proof.
  split; [by vm_compute|]. split; [by vm_compute|]. split; [by vm_compute|].
  eexists. split; by vm_compute.
Qed.

(** ** The embedding against the specification floats *)

(** [fl] against [binary_normalize], the rounding of the specification
    floats, on integers times powers of 2: floats, numbers between two
    floats, ties that go down and ties that go up to the even significand, a
    number below half the smallest float and ties among the smallest
    floats. *)
Lemma fl_agrees_with_binary_normalize :
  Forall (λ me : Z * Z,
            Qred <$> Double.to_Q
                       (binary_normalize Double.prec Double.emax me.1 me.2 false)
            = Some (this (fl (Q2Qc (inject_Z me.1 * Binary64.pow2 me.2)))))
    [(1, 0); (3602879701896397, -55); (7205759403792794, -56);
     (9007199254740993, 0); (9007199254740995, 0); (18014398509481985, -3);
     (12345678901234567890123, -40); (1, -1074); (1, -1075); (3, -1075);
     (1, -1076); (5, -1076); (7, -1076)].
Proof. repeat constructor; by vm_compute. Qed.

(** On the specification floats too, 2500 at 16 percent has the net 2155,
    and the quotient is the one of the embedding. *)
Lemma double_scenario_net :
  Double.Math_round
    (Double.div (Double.of_int 2500)
       (Double.add (Double.of_int 1)
          (Double.div (Double.of_int 16) (Double.of_int 100))))
  = Some 2155
  ∧ Qred <$> Double.to_Q
               (Double.div (Double.of_int 2500)
                  (Double.add (Double.of_int 1)
                     (Double.div (Double.of_int 16) (Double.of_int 100))))
    = Some (this (fdiv (of_int 2500) (fadd 1 (fdiv (of_int 16) (of_int 100)))))
  ∧ Math_round (of_int 2500 / (1 + of_int 16 / of_int 100))%Qc = 2155.
Proof. split; [by vm_compute|]. split; by vm_compute. Qed.

(** 1050 at 12 percent: the exact quotient is 937.5, which rounds to 938;
    the binary64 quotient is the float below 937.5, on the specification
    floats as in the embedding, and rounds to 937. *)
Lemma double_platter_net :
  Double.Math_round
    (Double.div (Double.of_int 1050)
       (Double.add (Double.of_int 1)
          (Double.div (Double.of_int 12) (Double.of_int 100))))
  = Some 937
  ∧ Qred <$> Double.to_Q
               (Double.div (Double.of_int 1050)
                  (Double.add (Double.of_int 1)
                     (Double.div (Double.of_int 12) (Double.of_int 100))))
    = Some (this (fdiv (of_int 1050) (fadd 1 (fdiv (of_int 12) (of_int 100)))))
  ∧ Orders.net_of 1050 (of_int 12) = 937
  ∧ (of_int 1050 / (1 + of_int 12 / of_int 100))%Qc = Q2Qc (1875 # 2)
  ∧ Math_round (of_int 1050 / (1 + of_int 12 / of_int 100))%Qc = 938.
Proof.
  split; [by vm_compute|]. split; [by vm_compute|]. split; [by vm_compute|].
  split; [apply (bool_decide_unpack _); by vm_compute|by vm_compute].
Qed.

(** The draw [12509998964918 / 2^52]: 1000 plus 9000 times the draw is
    below 1025 by less than half the distance between the floats there, so
    the rounded sum is 1025 and the code ends in 1025, where the exact sum
    has the floor 1024. *)
Lemma double_code_of_draw :
  let u := Q2Qc (12509998964918 # 4503599627370496) in
  fl u = u
  ∧ Qred <$> Double.to_Q
               (Double.add (Double.of_int 1000)
                  (Double.mul (binary_normalize Double.prec Double.emax
                                 12509998964918 (-52) false)
                              (Double.of_int 9000)))
    = Some (this (fadd (of_int 1000) (fmul u (of_int 9000))))
  ∧ Orders.generateSimpleCode u "MS" = "MS-1025"
  ∧ Math_floor (of_int 1000 + u * of_int 9000)%Qc = 1024.
Proof.
  cbv zeta. split; [apply (bool_decide_unpack _); by vm_compute|].
  split; [by vm_compute|]. split; by vm_compute.
Qed.

(** Two orders ready 1 s and 5 s after their creation: the exact mean is
    1/20 of a minute, the binary64 mean is the float below it,
    0.049999999999999996. *)
Lemma double_mean_of_seconds :
  fmean_minutes [1000; 5000] = Some (Q2Qc (7205759403792793 # 144115188075855872))
  ∧ mean_minutes [1000; 5000] = Some (Q2Qc (1 # 20))
  ∧ Qred <$> Double.to_Q
               (Double.div
                  (Double.add
                     (Double.add (Double.of_int 0)
                        (Double.div (Double.of_int 1000) (Double.of_int 60000)))
                     (Double.div (Double.of_int 5000) (Double.of_int 60000)))
                  (Double.of_int 2))
    = this <$> fmean_minutes [1000; 5000].
Proof.
  split; [apply (bool_decide_unpack _); by vm_compute|].
  split; [apply (bool_decide_unpack _); by vm_compute|by vm_compute].
Qed.

(** The summary of a day with these two orders has the binary64 mean,
    which is not the exact one. *)
Lemma avgPrepMinutes_rounding :
  ∃ s, AdminDashboard.getAdminSummary (Scenario.day_env false false false) None
         Scenario.seconds_store = Ok s
       ∧ AdminSummary.avgPrepMinutesToday s
         = Some (Q2Qc (7205759403792793 # 144115188075855872))
       ∧ mean_prep_minutes Order.created_at
           (day_orders (Scenario.day_env false false false) None Scenario.seconds_store)
         = Some (Q2Qc (1 # 20))
       ∧ AdminSummary.avgPrepMinutesToday s
         ≠ mean_prep_minutes Order.created_at
             (day_orders (Scenario.day_env false false false) None
                Scenario.seconds_store).
Proof.
  eexists. split; [reflexivity|].
  split; [apply (bool_decide_unpack _); by vm_compute|].
  split; [apply (bool_decide_unpack _); by vm_compute|].
  apply (bool_decide_unpack _). by vm_compute.
Qed.

(** A revenue of 15 without stored tax: the tax of the summary is
    2.068965517241379, the float [1164724041561335 / 2^49], which is not
    the float nearest to 60/29. *)
Lemma double_tax_of_revenue :
  let tax := fsub (fl (of_int 15))
               (fdiv (fl (of_int 15))
                     (fadd 1 (fdiv AdminDashboard.DEFAULT_VAT_RATE (of_int 100)))) in
  tax = Q2Qc (1164724041561335 # 562949953421312)
  ∧ Qred <$> Double.to_Q
               (Double.sub (Double.of_int 15)
                  (Double.div (Double.of_int 15)
                     (Double.add (Double.of_int 1)
                        (Double.div (Double.of_int 16) (Double.of_int 100)))))
    = Some (this tax)
  ∧ tax ≠ fl (of_int 15 * Q2Qc (4 # 29))%Qc.
Proof.
  cbv zeta. split; [apply (bool_decide_unpack _); by vm_compute|].
  split; [by vm_compute|]. apply (bool_decide_unpack _). by vm_compute.
Qed.

(** The amounts of the summary are cents divided by 100, added up order by
    order.  In doubles 10 cents and 20 cents of one vendor add up to
    0.30000000000000004, and the revenue of the two orders is 0.3: sums
    that the exact numbers make equal can differ in the last bit. *)
Lemma double_sum_of_tenths :
  Double.add (Double.div (Double.of_int 10) (Double.of_int 100))
             (Double.div (Double.of_int 20) (Double.of_int 100))
  = S754_finite false 5404319552844596 (-54)
  ∧ Double.div (Double.of_int (10 + 20)) (Double.of_int 100)
    = S754_finite false 5404319552844595 (-54)
  ∧ (of_int 10 / of_int 100 + of_int 20 / of_int 100
     = of_int (10 + 20) / of_int 100)%Qc.
Proof.
  split; [by vm_compute|]. split; [by vm_compute|].
  apply (bool_decide_unpack _). by vm_compute.
Qed.

(** ** The statements at concrete inputs *)

Lemma scenario_references_ok : references_ok Scenario.store.
Proof. intros it Hin. by apply elem_of_nil in Hin. Qed.

Lemma platter_references_ok : references_ok Scenario.platter_store.
Proof. intros it Hin. by apply elem_of_nil in Hin. Qed.

(** C1, as the spec has it, fails: one platter at 1050 at 12 percent is
    persisted with net 937 and tax 113, and the rounding of
    [1050 / (1 + 12 / 100)], which is 937.5, is 938. *)
Lemma createOrder_amounts_counterexample :
  ∃ o, orders (Orders.createOrder Scenario.env Scenario.platter_cart
                 Scenario.platter_store).2 !! "o1" = Some o
       ∧ (Orders.createOrder Scenario.env Scenario.platter_cart
            Scenario.platter_store).1 = Ok Scenario.platter_created
       ∧ Order.total_cents o = Some 1050
       ∧ Order.tax_rate o = Some (of_int 12)
       ∧ Order.net_cents o = Some 937
       ∧ Order.tax_cents o = Some 113
       ∧ Math_round (of_int 1050 / (1 + of_int 12 / of_int 100))%Qc = 938
       ∧ Order.net_cents o
         ≠ Some (Math_round (of_int 1050 / (1 + of_int 12 / of_int 100))%Qc).
Proof.
  eexists. split; [by vm_compute|]. split; [by vm_compute|].
  split; [by vm_compute|].
  split; [simpl; f_equal; apply (bool_decide_unpack _); by vm_compute|].
  split; [by vm_compute|]. split; [by vm_compute|]. split; [by vm_compute|].
  by vm_compute.
Qed.

(** The cart of two at 1000 and one at 500, at 16 percent: the order
    persisted by [createOrder], and the one persisted by the route, has
    total 2500, net 2155 and tax 345; the platter at 12 percent has the net
    937, one below the rounding of the exact quotient. *)
Lemma createOrder_amounts_witness :
  (∃ o, orders (Orders.createOrder Scenario.env Scenario.cart Scenario.store).2 !! "o1"
        = Some o
        ∧ Order.total_cents o = Some 2500
        ∧ Order.net_cents o = Some 2155
        ∧ Order.tax_cents o = Some 345)
  ∧ (∃ o, orders (CreateRoute.POST Scenario.env Scenario.body Scenario.store).2 !! "o1"
          = Some o
          ∧ Order.total_cents o = Some 2500
          ∧ Order.net_cents o = Some 2155
          ∧ Order.tax_cents o = Some 345)
  ∧ (∃ o net, orders (Orders.createOrder Scenario.env Scenario.platter_cart
                        Scenario.platter_store).2 !! "o1" = Some o
              ∧ Order.net_cents o = Some net
              ∧ net = 937
              ∧ Z.abs (net - Math_round (of_int 1050 / (1 + of_int 12 / of_int 100))%Qc)
                ≤ 1).
Proof.
  split; [|split].
  - destruct (proj1 createOrder_amounts Scenario.env Scenario.cart Scenario.store
                Scenario.created
                (Orders.createOrder Scenario.env Scenario.cart Scenario.store).2
                scenario_references_ok)
      as (o & total & net & tax & Ho & Ht & Hn & Hx & _ & _ & _ & _ & _ & Hscenario).
    + by vm_compute.
    + destruct Hscenario as (-> & -> & ->); [by vm_compute | done |].
      exists o. by repeat split.
  - destruct (Response.payload
                (CreateRoute.POST Scenario.env Scenario.body Scenario.store).1)
      as [created|] eqn:E; [|by vm_compute in E].
    destruct (proj2 createOrder_amounts Scenario.env Scenario.body Scenario.store
                (CreateRoute.POST Scenario.env Scenario.body Scenario.store).1
                (CreateRoute.POST Scenario.env Scenario.body Scenario.store).2
                created scenario_references_ok (surjective_pairing _) E)
      as (o & total & net & tax & Ho & Ht & Hn & Hx & _ & _ & _ & _ & _ & Hscenario).
    destruct Hscenario as (-> & -> & ->); [by vm_compute | done |].
    exists o. split; [|done].
    vm_compute in E. injection E as <-. exact Ho.
  - destruct (proj1 createOrder_amounts Scenario.env Scenario.platter_cart
                Scenario.platter_store Scenario.platter_created
                (Orders.createOrder Scenario.env Scenario.platter_cart
                   Scenario.platter_store).2
                platter_references_ok)
      as (o & total & net & tax & Ho & Ht & Hn & Hx & _ & Htotal & _ & _ & Hrate & _).
    + by vm_compute.
    + destruct (Hrate (of_int 12)) as [Hnet Hnear]; [done|done|].
      assert (total = 1050) as -> by (rewrite Htotal; by vm_compute).
      exists o, net. split; [exact Ho|]. split; [exact Hn|].
      split; [rewrite Hnet; by vm_compute|]. apply Hnear. lia.
Defined.

(** An order that is collected cannot go back to preparing. *)
Lemma updateOrderStatus_state_machine_witness :
  Orders.updateOrderStatus Scenario.update_env
    (Scenario.update "o3" preparing None) Scenario.lifecycle_store
  = (Throw (Orders.invalid_transition collected preparing), Scenario.lifecycle_store).
Proof.
  apply (updateOrderStatus_state_machine Scenario.update_env
           (Scenario.update "o3" preparing None) Scenario.lifecycle_store
           (DbOrderMinimal.mk "o3" collected)).
  - by left.
  - by vm_compute.
  - done.
  - by intros [[? ?] | [? ?]].
Defined.

(** The first call makes order o1 ready at 5000; a repeated call, a call
    back to preparing and the move to collected leave that time in place. *)
Lemma timestamps_first_write_wins_witness :
  ∃ o', orders
          (OrdersWithTiming.run_updates
             [(Scenario.update_env, Scenario.update "o1" ready (Some 9000));
              (Scenario.update_env, Scenario.update "o1" preparing (Some 9500));
              (Scenario.update_env, Scenario.update "o1" collected None)]
             (OrdersWithTiming.run_updates
                [(Scenario.update_env, Scenario.update "o1" ready (Some 5000))]
                Scenario.lifecycle_store)) !! "o1" = Some o'
        ∧ Order.ready_at o' = Some 5000.
Proof.
  destruct (timestamps_first_write_wins
              [(Scenario.update_env, Scenario.update "o1" ready (Some 9000));
               (Scenario.update_env, Scenario.update "o1" preparing (Some 9500));
               (Scenario.update_env, Scenario.update "o1" collected None)]
              (OrdersWithTiming.run_updates
                 [(Scenario.update_env, Scenario.update "o1" ready (Some 5000))]
                 Scenario.lifecycle_store)
              "o1"
              (Scenario.order "MS-1111" (Some "v1") 1000 ready 0 None (Some 5000) None))
    as (o' & Ho' & _ & Hready & _).
  - by vm_compute.
  - exists o'. split; [exact Ho' | by apply Hready].
Defined.

(** With the order code MS-3250 taken, [createOrder] gives up. *)
Lemma createOrder_order_code_taken_witness :
  is_Ok (Orders.createOrder Scenario.env Scenario.cart_on_ticket
           Scenario.taken_store).1 = false.
Proof.
  apply createOrder_order_code_taken. by vm_compute.
Defined.

(** C5, as the spec has it, fails: a failed load of the orders is thrown,
    not answered with a summary of zeros, and a failed load of the vendor
    names leaves the vendor sales and the top vendor in place. *)
Lemma load_failures_counterexample :
  AdminDashboard.getAdminSummary (Scenario.day_env true false false) None
    Scenario.day_store ≠ Ok zero_summary
  ∧ ∃ s, AdminDashboard.getAdminSummary (Scenario.day_env false true false) None
           Scenario.day_store = Ok s
         ∧ AdminSummary.vendorSalesToday s ≠ []
         ∧ AdminSummary.topVendor s ≠ None.
Proof.
  split; [by vm_compute|].
  eexists. split; [reflexivity|]. split; by vm_compute.
Qed.

(** On the same day: the failed load of the orders is thrown, and with the
    vendor load failed the one vendor of the day is still listed, under the
    fallback name. *)
Lemma load_failures_witness :
  AdminDashboard.getAdminSummary (Scenario.day_env true false false) None
    Scenario.day_store
  = Throw (Error "Failed to load orders for admin summary.")
  ∧ (VendorSale.vendorName <$>
       (match AdminDashboard.getAdminSummary (Scenario.day_env false true false)
                None Scenario.day_store with
        | Ok s => AdminSummary.vendorSalesToday s
        | Throw _ => []
        end)) = ["Unknown vendor"].
Proof.
  destruct (load_failures 0 None Scenario.day_store false false) as (H1 & H2 & _).
  split; [exact H1|].
  change (Scenario.day_env false true false)
    with (AdminDashboard.mkEnv 0 false true false).
  erewrite H2; [|reflexivity]. by vm_compute.
Defined.

(** C6, as the spec has it, fails: order o1 was created at 0, started at
    minute 1 and was ready at minute 2; the summary says 2 minutes, the
    mean from [preparing_at] is 1 minute. *)
Lemma avgPrepMinutes_counterexample :
  ∃ s, AdminDashboard.getAdminSummary (Scenario.day_env false false false) None
         Scenario.day_store = Ok s
       ∧ AdminSummary.avgPrepMinutesToday s = Some (of_int 2)
       ∧ mean_prep_minutes Order.preparing_at
           (day_orders (Scenario.day_env false false false) None Scenario.day_store)
         = Some (of_int 1)
       ∧ AdminSummary.avgPrepMinutesToday s
         ≠ mean_prep_minutes Order.preparing_at
             (day_orders (Scenario.day_env false false false) None Scenario.day_store).
Proof.
  eexists. split; [reflexivity|].
  split; [apply (bool_decide_unpack _); by vm_compute|].
  split; [apply (bool_decide_unpack _); by vm_compute|].
  apply (bool_decide_unpack _). by vm_compute.
Qed.

(** On the same day the summary has the mean from [created_at], which is
    within three [Number.EPSILON] of the 2 minutes of the exact mean. *)
Lemma avgPrepMinutes_from_created_at_witness :
  ∃ s a, AdminDashboard.getAdminSummary (Scenario.day_env false false false) None
           Scenario.day_store = Ok s
         ∧ AdminSummary.avgPrepMinutesToday s = Some a
         ∧ (of_int 2 * (1 - of_int 3 * Number_EPSILON) <= a)%Qc
         ∧ (a <= of_int 2 * (1 + of_int 3 * Number_EPSILON))%Qc.
Proof.
  destruct (avgPrepMinutes_from_created_at (Scenario.day_env false false false)
              None Scenario.day_store
              (match AdminDashboard.getAdminSummary
                       (Scenario.day_env false false false) None
                       Scenario.day_store with
               | Ok s => s
               | Throw _ => zero_summary
               end) eq_refl) as (_ & _ & Hbounds).
  destruct Hbounds with (m := of_int 2) as (a & Ha & Hlo & Hhi).
  - by vm_compute.
  - apply (bool_decide_unpack _). by vm_compute.
  - eexists _, a. split; [reflexivity|]. split; [exact Ha|].
    split; [exact Hlo|exact Hhi].
Defined.



(** The day that starts at 86400000 has no orders. *)
Lemma zero_orders_summary_witness :
  AdminDashboard.getAdminSummary (Scenario.day_env false false false)
    (Some 86400000) Scenario.day_store = Ok zero_summary.
Proof.
  apply zero_orders_summary; by vm_compute.
Defined.

(** C9, as the spec has it, fails: a cart with quantities 0 and -3 is
    accepted and persisted as it is. *)
Lemma createOrder_quantity_counterexample :
  ∃ res st',
    Orders.createOrder Scenario.env Scenario.nonpositive_cart Scenario.store
    = (Ok res, st')
    ∧ map OrderItem.quantity (items_of st' (CreatedOrderResult.orderId res))
      = [Some 0; Some (-3)]
    ∧ ¬ Forall positive_quantity (items_of st' (CreatedOrderResult.orderId res)).
Proof.
  eexists _, _. split; [by vm_compute|]. split; [by vm_compute|].
  intros H. apply Forall_cons in H as [(q & Hq & Hpos) _].
  vm_compute in Hq. injection Hq as <-. lia.
Qed.

(** The cart of two and one is persisted with the quantities 2 and 1. *)
Lemma createOrder_keeps_quantities_witness :
  map OrderItem.quantity
      (items_of (Orders.createOrder Scenario.env Scenario.cart Scenario.store).2 "o1")
  = [Some 2; Some 1].
Proof.
  destruct (proj1 createOrder_keeps_quantities Scenario.env Scenario.cart
              Scenario.store Scenario.created
              (Orders.createOrder Scenario.env Scenario.cart Scenario.store).2
              scenario_references_ok) as [Hsnap _].
  - by vm_compute.
  - simpl in Hsnap. apply Forall2_cons_inv_l in Hsnap as (r1 & rows & (Hq1 & _) & Hsnap & ->).
    apply Forall2_cons_inv_l in Hsnap as (r2 & rows' & (Hq2 & _) & Hsnap & ->).
    apply Forall2_nil_inv_l in Hsnap as ->. simpl. by rewrite Hq1, Hq2.
Defined.

(** Item A exists, is active and is available; the cart that names it on
    two lines is rejected all the same. *)
Lemma duplicate_menu_item_rejected_witness :
  Orders.createOrder Scenario.env Scenario.duplicate_cart Scenario.store
  = (Throw (Error "Some menu items could not be found."),
     (Orders.ensureSession Scenario.env None Scenario.store).2)
  ∧ menu_items Scenario.store !! "A" = Some (MenuItem.mk "Burger" 1000 true true).
Proof.
  split; [|by vm_compute].
  apply (proj1 duplicate_menu_item_rejected Scenario.env Scenario.duplicate_cart
           Scenario.store (DbOrderSession.mk "s1" "WL-5500" SessionStatus.open 1000)
           _ (Vendor.mk "Grill" true)).
  - intros H. apply NoDup_cons in H as [H _]. apply H. by left.
  - by vm_compute.
  - by vm_compute.
  - done.
  - done.
  - done.
Defined.

(** ** What a call of createOrder writes *)

Lemma ensureSession_throws env sid st e st1 :
  Orders.ensureSession env sid st = (Throw e, st1) →
  st1 = st
  ∧ (e = Error "Session not found." ∨ e = Error "Failed to create order session.").
Proof.
  unfold Orders.ensureSession, Orders.create_session.
  assert (Hnew : ∀ r,
    (let '(a, st') := Db.insert_session (CreateEnv.session_fails env)
                        (CreateEnv.new_session_id env) (CreateEnv.now env)
                        (Orders.generateSimpleCode (CreateEnv.random_ticket env) "WL")
                        (Some SessionStatus.open) st in
     match a with
     | Some d => (Ok d, st')
     | None => (Throw (Error "Failed to create order session."), st')
     end) = (r, st1) → r = Throw e → st1 = st ∧ (e = Error "Session not found."
        ∨ e = Error "Failed to create order session.")).
  { intros r. destruct (Db.insert_session _ _ _ _ _ _) as [[d|] st2] eqn:E.
    - intros [= <- <-]. done.
    - apply insert_session_None in E as ->. intros [= <- <-] [= <-]. auto. }
  destruct sid as [sid|]; [destruct (truthy_string sid)|]; run.
  - destruct (Db.select_session _ _ _); intros [= <- <-]; auto.
  - intros H. eapply Hnew; [|done]. run.
    destruct (Db.insert_session _ _ _ _ _ _) as [[d|] st2]; exact H.
  - intros H. eapply Hnew; [|done]. run.
    destruct (Db.insert_session _ _ _ _ _ _) as [[d|] st2]; exact H.
Qed.

Lemma validate_available_throws menuItems st e st' :
  Orders.validate_available menuItems st = (Throw e, st') →
  e ≠ Error "Failed to create order items.".
Proof.
  induction menuItems as [|m l IH]; simpl; [done|].
  destruct (_ || _); [|exact IH]. run. intros [= <- _]. discriminate.
Qed.

Lemma price_lines_throws menuItems lines acc e :
  Orders.price_lines menuItems lines acc = Throw e →
  e ≠ Error "Failed to create order items.".
Proof.
  revert acc. induction lines as [|l lines IH]; intros acc; simpl; [done|].
  destruct (Orders.find_menu_item _ _); [|intros [= <-]; discriminate].
  destruct (Orders.price_lines _ _ _) as [[t1 o1]|e1] eqn:E; [done|].
  intros [= <-]. by eapply IH.
Qed.

(** The three ways a call of [createOrder] ends: rejected before the order
    is written; the order written and its line items refused; accepted. *)
Lemma createOrder_trace env input st r st' :
  Orders.createOrder env input st = (r, st') →
  ∃ st1,
    same_orders st st1
    ∧ order_sessions st' = order_sessions st1
    ∧ ((CreateOrderInput.items input = [] ∧ st1 = st)
       ∨ (CreateOrderInput.items input ≠ []
          ∧ ∃ rs, Orders.ensureSession env (CreateOrderInput.sessionId input) st
                  = (rs, st1)))
    ∧ ((∃ e, r = Throw e ∧ e ≠ Error "Failed to create order items." ∧ st' = st1)
       ∨ ∃ session totalCents lines,
           Orders.ensureSession env (CreateOrderInput.sessionId input) st
           = (Ok session, st1)
           ∧ orders st1 !! CreateEnv.new_order_id env = None
           ∧ Db.order_code_taken
               (Orders.generateSimpleCode (CreateEnv.random_order env) "MS") st1 = false
           ∧ (∃ v, vendors st !! CreateOrderInput.vendorId input = Some v
                   ∧ Vendor.is_active v = true)
           ∧ totalCents = drafts_total lines
           ∧ Forall2 (snapshot_of (menu_items st)) (CreateOrderInput.items input)
               (map (Orders.with_order_id (CreateEnv.new_order_id env)) lines)
           ∧ let row :=
               new_order (Orders.generateSimpleCode (CreateEnv.random_order env) "MS")
                 (CreateOrderInput.vendorId input) (CreateOrderInput.taxRate input)
                 (Some (show_payment (CreateOrderInput.paymentMethod input)))
                 (CreateEnv.now env) (DbOrderSession.id session) totalCents in
             (r = Throw (Error "Failed to create order items.")
              ∧ CreateEnv.items_fails env = true
              ∧ st' = mkStore (order_sessions st1) (vendors st1) (menu_items st1)
                        (<[CreateEnv.new_order_id env := row]> (orders st1))
                        (order_items st1) (order_events st1))
             ∨ (r = Ok (CreatedOrderResult.mk (CreateEnv.new_order_id env)
                          (Orders.generateSimpleCode (CreateEnv.random_order env) "MS")
                          (Some (CreateOrderInput.vendorId input)) (Some totalCents)
                          (Some (DbOrderSession.id session))
                          (DbOrderSession.ticket_code session))
                ∧ CreateEnv.items_fails env = false
                ∧ st' = mkStore (order_sessions st1) (vendors st1) (menu_items st1)
                          (<[CreateEnv.new_order_id env := row]> (orders st1))
                          (order_items st1
                           ++ map (Orders.with_order_id (CreateEnv.new_order_id env)) lines)
                          (order_events st1
                           ++ (if CreateEnv.event_fails env then []
                               else [OrderEvent.mk (CreateEnv.new_order_id env) None
                                       preparing Actor.cashier])))).
Proof.
  unfold Orders.createOrder. case_bool_decide as Hlen.
  { run. intros [= <- <-]. exists st. split; [done|]. split; [done|].
    split; [left; split; [by apply nil_length_inv|done]|].
    left. eexists. by repeat split. }
  assert (CreateOrderInput.items input ≠ []) as Hne by (intros E; by rewrite E in Hlen).
  run.
  destruct (Orders.ensureSession _ _ _) as [[session|e] st1] eqn:Hs.
  2:{ intros [= <- <-]. pose proof (ensureSession_throws _ _ _ _ _ Hs) as [-> He].
      exists st. split; [done|]. split; [done|].
      split; [right; split; [done|by eexists]|]. left. exists e.
      destruct He as [-> | ->]; by repeat split. }
  pose proof (ensureSession_same _ _ _ _ _ Hs) as Hsame.
  intros H. exists st1. split; [done|].
  assert (order_sessions st' = order_sessions st1
          ∧ ((∃ e, r = Throw e ∧ e ≠ Error "Failed to create order items." ∧ st' = st1)
       ∨ ∃ session totalCents lines,
           Orders.ensureSession env (CreateOrderInput.sessionId input) st
           = (Ok session, st1)
           ∧ orders st1 !! CreateEnv.new_order_id env = None
           ∧ Db.order_code_taken
               (Orders.generateSimpleCode (CreateEnv.random_order env) "MS") st1 = false
           ∧ (∃ v, vendors st !! CreateOrderInput.vendorId input = Some v
                   ∧ Vendor.is_active v = true)
           ∧ totalCents = drafts_total lines
           ∧ Forall2 (snapshot_of (menu_items st)) (CreateOrderInput.items input)
               (map (Orders.with_order_id (CreateEnv.new_order_id env)) lines)
           ∧ let row :=
               new_order (Orders.generateSimpleCode (CreateEnv.random_order env) "MS")
                 (CreateOrderInput.vendorId input) (CreateOrderInput.taxRate input)
                 (Some (show_payment (CreateOrderInput.paymentMethod input)))
                 (CreateEnv.now env) (DbOrderSession.id session) totalCents in
             (r = Throw (Error "Failed to create order items.")
              ∧ CreateEnv.items_fails env = true
              ∧ st' = mkStore (order_sessions st1) (vendors st1) (menu_items st1)
                        (<[CreateEnv.new_order_id env := row]> (orders st1))
                        (order_items st1) (order_events st1))
             ∨ (r = Ok (CreatedOrderResult.mk (CreateEnv.new_order_id env)
                          (Orders.generateSimpleCode (CreateEnv.random_order env) "MS")
                          (Some (CreateOrderInput.vendorId input)) (Some totalCents)
                          (Some (DbOrderSession.id session))
                          (DbOrderSession.ticket_code session))
                ∧ CreateEnv.items_fails env = false
                ∧ st' = mkStore (order_sessions st1) (vendors st1) (menu_items st1)
                          (<[CreateEnv.new_order_id env := row]> (orders st1))
                          (order_items st1
                           ++ map (Orders.with_order_id (CreateEnv.new_order_id env)) lines)
                          (order_events st1
                           ++ (if CreateEnv.event_fails env then []
                               else [OrderEvent.mk (CreateEnv.new_order_id env) None
                                       preparing Actor.cashier]))))) as [H1 H2];
    [|split; [done|]; split; [right; split; [done|by eexists]|];
      destruct H2 as [H2 | (s & t & l & Hs' & H2)]; [by left|];
      right; exists s, t, l; split; [congruence|exact H2]].
  assert (∀ P : Prop, (P → order_sessions st' = order_sessions st1) → P →
            order_sessions st' = order_sessions st1 ∧ P) as Hand by tauto.
  apply Hand.
  { intros [(e' & _ & _ & ->) | (s & t & l & _ & _ & _ & _ & _ & _ & Hx)]; [done|].
    simpl in Hx. by destruct Hx as [(_ & _ & ->) | (_ & _ & ->)]. }
  clear Hand. revert H.
  destruct (Db.select_vendor _ _ _) as [v|] eqn:Hsel.
  2:{ intros [= <- <-]. left. eexists. by repeat split. }
  destruct (negb _) eqn:Hactive.
  { intros [= <- <-]. left. eexists. by repeat split. }
  assert (∃ v, vendors st !! CreateOrderInput.vendorId input = Some v
               ∧ Vendor.is_active v = true) as Hvendor.
  { rewrite (select_vendor_same _ _ st st1) in Hsel by done.
    unfold Db.select_vendor in Hsel. destruct (CreateEnv.vendor_fails env); [done|].
    destruct (vendors st !! _) as [row|]; [|done]. simplify_eq/=.
    exists row. split; [done|]. by destruct (Vendor.is_active row). }
  destruct (Db.select_menu_items _ _ _) as [menuItems|] eqn:Hm.
  2:{ intros [= <- <-]. left. eexists. by repeat split. }
  case_bool_decide as Hl; simpl.
  2:{ intros [= <- <-]. left. eexists. by repeat split. }
  destruct (Orders.validate_available menuItems st1) as [[[]|e] st2] eqn:Hv.
  2:{ intros [= <- <-]. pose proof (validate_available_throws _ _ _ _ Hv).
      apply validate_available_store in Hv as ->. left. eexists. by repeat split. }
  apply validate_available_store in Hv as ->.
  destruct (Orders.price_lines _ _ _) as [[totalCents lines]|e] eqn:Hp.
  2:{ intros [= <- <-]. left. exists e. split; [done|]. split; [|done].
      by eapply price_lines_throws. }
  apply price_lines_spec in Hp as [Ht Hf]. rewrite Z.add_0_l in Ht.
  assert (Forall2 (snapshot_of (menu_items st)) (CreateOrderInput.items input)
            (map (Orders.with_order_id (CreateEnv.new_order_id env)) lines)) as Hsnap.
  { destruct Hsame as (_ & <- & _). by eapply drafts_are_snapshots. }
  unfold Db.insert_order. simpl.
  destruct (CreateEnv.order_fails env); simpl.
  { intros [= <- <-]. left. eexists. by repeat split. }
  case_bool_decide as Hfresh; simpl.
  { intros [= <- <-]. left. eexists. by repeat split. }
  destruct (Db.order_code_taken _ _) eqn:Hcode; simpl.
  { intros [= <- <-]. left. eexists. by repeat split. }
  assert (orders st1 !! CreateEnv.new_order_id env = None) as Hnone.
  { destruct (orders st1 !! _) eqn:E; [|done]. destruct Hfresh. by eexists. }
  right. exists session, totalCents, lines. split; [done|]. split; [done|].
  split; [done|]. split; [done|]. split; [done|]. split; [done|]. simpl.
  unfold Db.insert_order_items in H. destruct (CreateEnv.items_fails env); simpl in H.
  { left. injection H as <- <-. by repeat split. }
  unfold Db.insert_order_event in H. right.
  destruct (CreateEnv.event_fails env); simpl in H; injection H as <- <-;
    repeat split; try done.
  by rewrite app_nil_r.
Qed.

Lemma ensureSession_cases env sid st r st1 :
  Orders.ensureSession env sid st = (r, st1) →
  if truthy sid then
    st1 = st
    ∧ r = match Db.select_session (CreateEnv.session_fails env)
                  (default EmptyString sid) st with
          | Some d => Ok d
          | None => Throw (Error "Session not found.")
          end
  else
    let code := Orders.generateSimpleCode (CreateEnv.random_ticket env) "WL" in
    let row := Session.mk code SessionStatus.open (CreateEnv.now env) None in
    if CreateEnv.session_fails env
       || bool_decide (is_Some (order_sessions st !! CreateEnv.new_session_id env))
       || Db.ticket_code_taken code st
    then st1 = st ∧ r = Throw (Error "Failed to create order session.")
    else r = Ok (Db.session_of (CreateEnv.new_session_id env) row)
         ∧ st1 = mkStore (<[CreateEnv.new_session_id env := row]> (order_sessions st))
                   (vendors st) (menu_items st) (orders st) (order_items st)
                   (order_events st).
Proof.
  assert (Hnew : Orders.create_session env st = (r, st1) →
    let code := Orders.generateSimpleCode (CreateEnv.random_ticket env) "WL" in
    let row := Session.mk code SessionStatus.open (CreateEnv.now env) None in
    if CreateEnv.session_fails env
       || bool_decide (is_Some (order_sessions st !! CreateEnv.new_session_id env))
       || Db.ticket_code_taken code st
    then st1 = st ∧ r = Throw (Error "Failed to create order session.")
    else r = Ok (Db.session_of (CreateEnv.new_session_id env) row)
         ∧ st1 = mkStore (<[CreateEnv.new_session_id env := row]> (order_sessions st))
                   (vendors st) (menu_items st) (orders st) (order_items st)
                   (order_events st)).
  { unfold Orders.create_session, Db.insert_session. run.
    destruct (_ || _ || _); simpl; by intros [= <- <-]. }
  unfold Orders.ensureSession. destruct sid as [sid|]; simpl; [|exact Hnew].
  destruct (truthy_string sid); [|exact Hnew]. run.
  destruct (Db.select_session _ _ _); by intros [= <- <-].
Qed.

Lemma ensureSession_Ok_ticket env sid st session st1 :
  Orders.ensureSession env sid st = (Ok session, st1) →
  ∃ s, order_sessions st1 !! DbOrderSession.id session = Some s
       ∧ Session.ticket_code s = DbOrderSession.ticket_code session.
Proof.
  intros H. apply ensureSession_cases in H. destruct (truthy sid).
  - destruct H as [-> H]. unfold Db.select_session in H.
    destruct (CreateEnv.session_fails env); [done|].
    destruct (order_sessions st !! _) as [s|] eqn:E; [|done].
    simplify_eq/=. by exists s.
  - simpl in H. destruct (_ || _ || _); [by destruct H|].
    destruct H as [[= ->] ->]. simpl. eexists. by rewrite lookup_insert_eq.
Qed.

Lemma ensureSession_sessions env sid st r st1 :
  Orders.ensureSession env sid st = (r, st1) →
  order_sessions st ⊆ order_sessions st1.
Proof.
  intros H. apply ensureSession_cases in H. destruct (truthy sid).
  - by destruct H as [-> _].
  - simpl in H. destruct (CreateEnv.session_fails env); simpl in H;
      [by destruct H as [-> _]|].
    case_bool_decide as Hf; simpl in H; [by destruct H as [-> _]|].
    destruct (Db.ticket_code_taken _ _); [by destruct H as [-> _]|].
    destruct H as [_ ->]. simpl. apply insert_subseteq.
    destruct (order_sessions st !! _) eqn:E; [|done]. destruct Hf. by eexists.
Qed.

Lemma snapshot_cart_total catalog lines rows :
  Forall2 (snapshot_of catalog) lines rows →
  lines_total rows = cart_total catalog lines.
Proof.
  unfold cart_total. induction 1 as [|l r lines rows (Hq & _ & m & Hm & Hp & _) _ IH];
    simpl; [done|].
  rewrite IH. unfold line_total. rewrite Hq, Hp, Hm. simpl. lia.
Qed.

Lemma order_code_taken_false code st k r :
  Db.order_code_taken code st = false →
  orders st !! k = Some r → Order.order_code r ≠ code.
Proof.
  unfold Db.order_code_taken. intros H Hk Hc.
  apply bool_decide_eq_false in H. apply H. by exists k, r.
Qed.

Lemma ticket_code_taken_false code st k r :
  Db.ticket_code_taken code st = false →
  order_sessions st !! k = Some r → Session.ticket_code r ≠ code.
Proof.
  unfold Db.ticket_code_taken. intros H Hk Hc.
  apply bool_decide_eq_false in H. apply H. by exists k, r.
Qed.

(** X1: a cart that is rejected writes no order. When [createOrder] throws
    anything but the failure of the line-item insert, the orders, the line
    items, the events and the catalog are what they were. *)
Theorem createOrder_rejected_writes_no_order env input st e st' :
  Orders.createOrder env input st = (Throw e, st') →
  e ≠ Error "Failed to create order items." →
  same_orders st st'.
Proof.
  intros H He. apply createOrder_trace in H as (st1 & Hsame & _ & _ & H).
  destruct H as [(e' & [= <-] & _ & ->) | (s & t & l & _ & _ & _ & _ & _ & _ & H)]; [done|].
  simpl in H. destruct H as [([= ->] & _) | (? & _)]; done.
Qed.

(** X2: the order and its line items are not written together. When the
    line-item insert fails, [createOrder] throws and the order it has just
    inserted stays: a preparing order with the total of the cart and no
    line items, and no event. *)
Theorem createOrder_items_failure_leaves_order env input st st' :
  references_ok st →
  Orders.createOrder env input st
  = (Throw (Error "Failed to create order items."), st') →
  ∃ row,
    orders st !! CreateEnv.new_order_id env = None
    ∧ orders st' = <[CreateEnv.new_order_id env := row]> (orders st)
    ∧ Order.status row = preparing
    ∧ Order.total_cents row
      = Some (cart_total (menu_items st) (CreateOrderInput.items input))
    ∧ items_of st' (CreateEnv.new_order_id env) = []
    ∧ order_items st' = order_items st
    ∧ order_events st' = order_events st.
Proof.
  intros Href H. apply createOrder_trace in H as (st1 & Hsame & _ & _ & H).
  destruct H as [(e' & [= <-] & He & _) | (s & t & l & _ & Hnone & _ & _ & Ht & Hsnap & H)];
    [done|].
  destruct Hsame as (_ & _ & Eo & Ei & Ee).
  simpl in H. destruct H as [(_ & _ & ->) | (? & _)]; [|done]. simpl.
  rewrite Eo in *. rewrite Ei, Ee. eexists. split; [done|]. split; [done|].
  split; [done|]. split.
  { simpl. f_equal. rewrite Ht, <- (lines_total_with_order_id (CreateEnv.new_order_id env)).
    by apply snapshot_cart_total. }
  split; [|done]. unfold items_of. simpl.
  apply filter_none. intros it Hin Hid. apply Href in Hin as [r Hr].
  rewrite Hid in Hr. congruence.
Qed.

(** X3: which calls write a ticket. With a session id [createOrder] writes
    no ticket; without one, and with a cart that is not empty, it writes a
    new open ticket before it looks at the cart, so the ticket is there
    also when the cart is then rejected. *)
Theorem createOrder_ticket env input st r st' :
  Orders.createOrder env input st = (r, st') →
  (truthy (CreateOrderInput.sessionId input) = true →
   order_sessions st' = order_sessions st)
  ∧ (truthy (CreateOrderInput.sessionId input) = false →
     CreateOrderInput.items input ≠ [] →
     let code := Orders.generateSimpleCode (CreateEnv.random_ticket env) "WL" in
     if CreateEnv.session_fails env
        || bool_decide (is_Some (order_sessions st !! CreateEnv.new_session_id env))
        || Db.ticket_code_taken code st
     then r = Throw (Error "Failed to create order session.") ∧ st' = st
     else order_sessions st'
          = <[CreateEnv.new_session_id env :=
                Session.mk code SessionStatus.open (CreateEnv.now env) None]>
              (order_sessions st)).
Proof.
  intros H. pose proof H as H0.
  apply createOrder_trace in H as (st1 & Hsame & -> & Hs & H). split.
  - intros Ht. destruct Hs as [[_ ->] | (_ & rs & Hs)]; [done|].
    apply ensureSession_cases in Hs. rewrite Ht in Hs. by destruct Hs as [-> _].
  - intros Ht Hne. destruct Hs as [[? _] | (_ & rs & Hs)]; [done|].
    pose proof (ensureSession_cases _ _ _ _ _ Hs) as Hc. rewrite Ht in Hc.
    simpl in Hc |- *. destruct (_ || _ || _).
    + destruct Hc as [-> ->]. revert H0. unfold Orders.createOrder.
      rewrite bool_decide_eq_false_2 by (by destruct (CreateOrderInput.items input)).
      run. rewrite Hs. by intros [= <- <-].
    + by destruct Hc as [_ ->].
Qed.

(** X4: [createOrder] only adds rows. Whatever the outcome of a call, the
    catalog is what it was, every ticket and every order of the store is
    still there unchanged, and the line items and the events are extended
    at the end. *)
Theorem createOrder_only_adds env input st :
  let st' := (Orders.createOrder env input st).2 in
  vendors st' = vendors st
  ∧ menu_items st' = menu_items st
  ∧ order_sessions st ⊆ order_sessions st'
  ∧ orders st ⊆ orders st'
  ∧ order_items st `prefix_of` order_items st'
  ∧ order_events st `prefix_of` order_events st'.
Proof.
  destruct (Orders.createOrder env input st) as [r st'] eqn:H. simpl.
  apply createOrder_trace in H as (st1 & (Ev & Em & Eo & Ei & Ee) & Es & Hs & H).
  assert (order_sessions st ⊆ order_sessions st') as Hsub.
  { rewrite Es. destruct Hs as [[_ ->] | (_ & rs & Hs)]; [done|].
    by eapply ensureSession_sessions. }
  destruct H as [(e' & _ & _ & ->) | (s & t & l & _ & Hnone & _ & _ & _ & _ & H)].
  { rewrite Ev, Em, Eo, Ei, Ee. by repeat split. }
  simpl in H. destruct H as [(_ & _ & ->) | (_ & _ & ->)]; simpl;
    rewrite Ev, Em, Ei, Ee; rewrite Eo in Hnone |- *.
  - repeat split; try done. by apply insert_subseteq.
  - repeat split; try done; [by apply insert_subseteq| |]; by eexists.
Qed.

(** X5: what an accepted cart leaves in the store. The new order is under a
    key that was free, in status preparing, created now and with no
    lifecycle timestamp, for the vendor of the cart, on the ticket the
    result names, with the code the result names and the total of the cart
    at the prices of the catalog; no other order carries its code; and the
    log gets the first event of the order, unless that insert fails. *)
Theorem createOrder_accepted env input st res st' :
  Orders.createOrder env input st = (Ok res, st') →
  ∃ row ticket sid,
    orders st !! CreatedOrderResult.orderId res = None
    ∧ orders st' !! CreatedOrderResult.orderId res = Some row
    ∧ CreatedOrderResult.sessionId res = Some sid
    ∧ Order.session_id row = Some sid
    ∧ order_sessions st' !! sid = Some ticket
    ∧ Session.ticket_code ticket = CreatedOrderResult.ticketCode res
    ∧ Order.vendor_id row = Some (CreateOrderInput.vendorId input)
    ∧ CreatedOrderResult.vendorId res = Some (CreateOrderInput.vendorId input)
    ∧ (∃ v, vendors st !! CreateOrderInput.vendorId input = Some v
            ∧ Vendor.is_active v = true)
    ∧ Order.order_code row = CreatedOrderResult.orderCode res
    ∧ (∀ k r, orders st' !! k = Some r →
         Order.order_code r = CreatedOrderResult.orderCode res →
         k = CreatedOrderResult.orderId res)
    ∧ Order.status row = preparing
    ∧ Order.created_at row = Some (CreateEnv.now env)
    ∧ Order.preparing_at row = None
    ∧ Order.ready_at row = None
    ∧ Order.collected_at row = None
    ∧ Order.total_cents row
      = Some (cart_total (menu_items st) (CreateOrderInput.items input))
    ∧ CreatedOrderResult.totalCents res = Order.total_cents row
    ∧ order_events st'
      = (order_events st
         ++ (if CreateEnv.event_fails env then []
             else [initial_event (CreatedOrderResult.orderId res)]))%list.
Proof.
  intros H. apply createOrder_trace in H as (st1 & (Ev & Em & Eo & Ei & Ee) & Es & Hs & H).
  destruct H as [(e' & ? & _) | (s & t & l & Hens & Hnone & Hcode & Hvendor & Ht & Hsnap & H)];
    [done|].
  simpl in H. destruct H as [(? & _) | ([= ->] & _ & ->)]; [done|]. simpl.
  destruct (ensureSession_Ok_ticket _ _ _ _ _ Hens) as (ticket & Hticket & Hcode').
  assert (t = cart_total (menu_items st) (CreateOrderInput.items input)) as Htot.
  { rewrite Ht, <- (lines_total_with_order_id (CreateEnv.new_order_id env)).
    by apply snapshot_cart_total. }
  eexists _, ticket, (DbOrderSession.id s). rewrite Eo in Hnone.
  split; [done|]. split; [by rewrite lookup_insert_eq|]. simpl.
  split; [done|]. split; [done|]. split; [done|]. split; [done|].
  split; [done|]. split; [done|]. split; [done|]. split; [done|]. split.
  { intros k r Hk Hc. destruct (decide (k = CreateEnv.new_order_id env)) as [|Hne]; [done|].
    rewrite lookup_insert_ne in Hk by done.
    by destruct (order_code_taken_false _ _ _ _ Hcode Hk). }
  split; [done|]. split; [done|]. split; [done|]. split; [done|]. split; [done|].
  split; [by rewrite Htot|]. split; [done|]. by rewrite Ee.
Qed.

(** ** What a request to the create route writes *)

Lemma route_ensureSession_cases env sid st r st1 :
  CreateRoute.ensureSession env sid st = (r, st1) →
  if truthy sid then
    st1 = st
    ∧ r = match Db.select_session (CreateEnv.session_fails env)
                  (default EmptyString sid) st with
          | Some d => Ok (CreateRoute.DbSession.mk (DbOrderSession.id d)
                            (DbOrderSession.ticket_code d))
          | None => Throw (Error "Session not found.")
          end
  else
    let code := CreateRoute.generateSimpleCode (CreateEnv.random_ticket env) "WL" in
    let row := Session.mk code SessionStatus.open (CreateEnv.now env) None in
    if CreateEnv.session_fails env
       || bool_decide (is_Some (order_sessions st !! CreateEnv.new_session_id env))
       || Db.ticket_code_taken code st
    then st1 = st ∧ r = Throw (Error "Failed to create order session.")
    else r = Ok (CreateRoute.DbSession.mk (CreateEnv.new_session_id env) code)
         ∧ st1 = mkStore (<[CreateEnv.new_session_id env := row]> (order_sessions st))
                   (vendors st) (menu_items st) (orders st) (order_items st)
                   (order_events st).
Proof.
  assert (Hnew : CreateRoute.create_session env st = (r, st1) →
    let code := CreateRoute.generateSimpleCode (CreateEnv.random_ticket env) "WL" in
    let row := Session.mk code SessionStatus.open (CreateEnv.now env) None in
    if CreateEnv.session_fails env
       || bool_decide (is_Some (order_sessions st !! CreateEnv.new_session_id env))
       || Db.ticket_code_taken code st
    then st1 = st ∧ r = Throw (Error "Failed to create order session.")
    else r = Ok (CreateRoute.DbSession.mk (CreateEnv.new_session_id env) code)
         ∧ st1 = mkStore (<[CreateEnv.new_session_id env := row]> (order_sessions st))
                   (vendors st) (menu_items st) (orders st) (order_items st)
                   (order_events st)).
  { unfold CreateRoute.create_session, Db.insert_session. run.
    destruct (_ || _ || _); simpl; by intros [= <- <-]. }
  unfold CreateRoute.ensureSession. destruct sid as [sid|]; simpl; [|exact Hnew].
  destruct (truthy_string sid); [|exact Hnew]. run.
  destruct (Db.select_session _ _ _); by intros [= <- <-].
Qed.

Lemma route_ensureSession_throws env sid st e st1 :
  CreateRoute.ensureSession env sid st = (Throw e, st1) → st1 = st.
Proof.
  intros H. apply route_ensureSession_cases in H. destruct (truthy sid).
  - by destruct H.
  - simpl in H. destruct (_ || _ || _); by destruct H.
Qed.

Lemma route_ensureSession_sessions env sid st r st1 :
  CreateRoute.ensureSession env sid st = (r, st1) →
  order_sessions st ⊆ order_sessions st1.
Proof.
  intros H. apply route_ensureSession_cases in H. destruct (truthy sid).
  - by destruct H as [-> _].
  - simpl in H. destruct (CreateEnv.session_fails env); simpl in H;
      [by destruct H as [-> _]|].
    case_bool_decide as Hf; simpl in H; [by destruct H as [-> _]|].
    destruct (Db.ticket_code_taken _ _); [by destruct H as [-> _]|].
    destruct H as [_ ->]. simpl. apply insert_subseteq.
    destruct (order_sessions st !! _) eqn:E; [|done]. destruct Hf. by eexists.
Qed.

Lemma route_ensureSession_Ok_ticket env sid st session st1 :
  CreateRoute.ensureSession env sid st = (Ok session, st1) →
  ∃ s, order_sessions st1 !! CreateRoute.DbSession.id session = Some s
       ∧ Session.ticket_code s = CreateRoute.DbSession.ticket_code session.
Proof.
  intros H. apply route_ensureSession_cases in H. destruct (truthy sid).
  - destruct H as [-> H]. unfold Db.select_session in H.
    destruct (CreateEnv.session_fails env); [done|].
    destruct (order_sessions st !! _) as [s|] eqn:E; [|done].
    simplify_eq/=. by exists s.
  - simpl in H. destruct (_ || _ || _); [by destruct H|].
    destruct H as [[= ->] ->]. simpl. eexists. by rewrite lookup_insert_eq.
Qed.

Lemma plain_failure_fail {A : Type} (status : Z) (msg : string) :
  status = 400 ∨ status = 500 →
  msg ≠ "Failed to create order items." →
  plain_failure (Response.fail (A := A) status msg).
Proof. intros Hs Hm. repeat split; [done|]. simpl. congruence. Qed.

(** The three ways a request ends, as for [createOrder]. *)
Lemma POST_trace env body st resp st' :
  CreateRoute.POST env body st = (resp, st') →
  ∃ st1,
    same_orders st st1
    ∧ order_sessions st' = order_sessions st1
    ∧ order_sessions st ⊆ order_sessions st1
    ∧ (st1 = st
       ∨ ∃ rs, CreateRoute.ensureSession env (IncomingBody.sessionId body) st = (rs, st1))
    ∧ ((plain_failure resp ∧ st' = st1)
       ∨ ∃ vendorId items session totalCents lines,
           IncomingBody.vendorId body = Some vendorId
           ∧ IncomingBody.items body = Some items
           ∧ CreateRoute.ensureSession env (IncomingBody.sessionId body) st
             = (Ok session, st1)
           ∧ orders st1 !! CreateEnv.new_order_id env = None
           ∧ Db.order_code_taken
               (CreateRoute.generateSimpleCode (CreateEnv.random_order env) "WL") st1
             = false
           ∧ totalCents = drafts_total lines
           ∧ Forall2 (snapshot_of (menu_items st)) items
               (map (Orders.with_order_id (CreateEnv.new_order_id env)) lines)
           ∧ let row :=
               new_order (CreateRoute.generateSimpleCode (CreateEnv.random_order env) "WL")
                 vendorId (IncomingBody.taxRate body) (IncomingBody.paymentMethod body)
                 (CreateEnv.now env) (CreateRoute.DbSession.id session) totalCents in
             (resp = Response.fail 500 "Failed to create order items."
              ∧ st' = mkStore (order_sessions st1) (vendors st1) (menu_items st1)
                        (<[CreateEnv.new_order_id env := row]> (orders st1))
                        (order_items st1) (order_events st1))
             ∨ (resp = Response.ok
                         (CreateRoute.Created.mk
                            (CreateRoute.OrderJson.mk (CreateEnv.new_order_id env)
                               (CreateRoute.generateSimpleCode
                                  (CreateEnv.random_order env) "WL")
                               (Some vendorId) (Some totalCents))
                            session)
                ∧ st' = mkStore (order_sessions st1) (vendors st1) (menu_items st1)
                          (<[CreateEnv.new_order_id env := row]> (orders st1))
                          (order_items st1
                           ++ map (Orders.with_order_id (CreateEnv.new_order_id env)) lines)
                          (order_events st1
                           ++ (if CreateEnv.event_fails env then []
                               else [OrderEvent.mk (CreateEnv.new_order_id env) None
                                       preparing Actor.cashier])))).
Proof.
  unfold CreateRoute.POST, CreateRoute.handler.
  assert (Hstop : ∀ (Q : Store → Prop) (status : Z) msg (s1 : Store),
            same_orders st s1 → order_sessions st ⊆ order_sessions s1 →
            (s1 = st
             ∨ ∃ rs, CreateRoute.ensureSession env (IncomingBody.sessionId body) st
                     = (rs, s1)) →
            status = 400 ∨ status = 500 →
            msg ≠ "Failed to create order items." →
            (Response.fail (A := CreateRoute.Created.t) status msg, s1) = (resp, st') →
            ∃ st1, same_orders st st1 ∧ order_sessions st' = order_sessions st1
              ∧ order_sessions st ⊆ order_sessions st1
              ∧ (st1 = st
                 ∨ ∃ rs, CreateRoute.ensureSession env (IncomingBody.sessionId body) st
                         = (rs, st1))
              ∧ ((plain_failure resp ∧ st' = st1) ∨ Q st1)).
  { intros Q status msg s1 Hsame Hsub Hens Hst Hmsg [= <- <-]. exists s1.
    repeat split; try apply Hsame; try done. left. split; [|done].
    by apply plain_failure_fail. }
  destruct (IncomingBody.vendorId body) as [vendorId|] eqn:Hvid;
    [|run; intros H; eapply Hstop; [| | | | |exact H]; (done || eauto)].
  destruct (IncomingBody.items body) as [items|] eqn:Hitems;
    [|run; intros H; eapply Hstop; [| | | | |exact H]; (done || eauto)].
  destruct (negb (truthy_string vendorId) || _);
    [run; intros H; eapply Hstop; [| | | | |exact H]; (done || eauto)|].
  run.
  destruct (CreateRoute.ensureSession _ _ _) as [[session|e] st1] eqn:Hs.
  2:{ pose proof (route_ensureSession_throws _ _ _ _ _ Hs) as ->.
      intros H; eapply Hstop; [| | | | |exact H]; (done || eauto). }
  pose proof (route_ensureSession_same _ _ _ _ _ Hs) as Hsame.
  pose proof (route_ensureSession_sessions _ _ _ _ _ Hs) as Hsub.
  destruct (Db.select_vendor _ _ _) as [v|];
    [|intros H; eapply Hstop; [| | | | |exact H]; (done || eauto)].
  destruct (negb _);
    [intros H; eapply Hstop; [| | | | |exact H]; (done || eauto)|].
  destruct (Db.select_menu_items _ _ _) as [menuItems|] eqn:Hm;
    [|intros H; eapply Hstop; [| | | | |exact H]; (done || eauto)].
  case_bool_decide as Hl; simpl;
    [|intros H; eapply Hstop; [| | | | |exact H]; (done || eauto)].
  destruct (CreateRoute.first_unavailable menuItems) as [item|];
    [intros H; eapply Hstop; [| | | | |exact H]; (done || eauto)|].
  rewrite route_price_lines_eq.
  destruct (Orders.price_lines _ _ _) as [[totalCents lines]|e] eqn:Hp;
    [|intros H; eapply Hstop; [| | | | |exact H]; (done || eauto)].
  apply price_lines_spec in Hp as [Ht Hf]. rewrite Z.add_0_l in Ht.
  assert (Forall2 (snapshot_of (menu_items st)) items
            (map (Orders.with_order_id (CreateEnv.new_order_id env)) lines)) as Hsnap.
  { destruct Hsame as (_ & <- & _). by eapply drafts_are_snapshots. }
  unfold Db.insert_order. simpl.
  destruct (CreateEnv.order_fails env); simpl;
    [intros H; eapply Hstop; [| | | | |exact H]; (done || eauto)|].
  case_bool_decide as Hfresh; simpl;
    [intros H; eapply Hstop; [| | | | |exact H]; (done || eauto)|].
  destruct (Db.order_code_taken _ _) eqn:Hcode; simpl;
    [intros H; eapply Hstop; [| | | | |exact H]; (done || eauto)|].
  assert (orders st1 !! CreateEnv.new_order_id env = None) as Hnone.
  { destruct (orders st1 !! _) eqn:E; [|done]. destruct Hfresh. by eexists. }
  clear Hstop. intros H. exists st1. split; [done|].
  assert (∀ P R Q : Prop, (Q → P) → R → Q →
            P ∧ order_sessions st ⊆ order_sessions st1 ∧ R ∧ Q)
    as Hand by tauto.
  apply Hand; clear Hand.
  { intros [[_ ->] | (? & ? & ? & ? & ? & _ & _ & _ & _ & _ & _ & _ & Hx)]; [done|].
    simpl in Hx. by destruct Hx as [(_ & ->) | (_ & ->)]. }
  { right. by eexists. }
  right. exists vendorId, items, session, totalCents, lines.
  split; [done|]. split; [done|]. split; [done|]. split; [done|]. split; [done|].
  split; [done|]. split; [done|]. simpl. rewrite route_net_of_eq in H.
  unfold Db.insert_order_items in H. destruct (CreateEnv.items_fails env); simpl in H.
  { left. injection H as <- <-. by repeat split. }
  unfold Db.insert_order_event in H. right.
  destruct (CreateEnv.event_fails env); simpl in H; injection H as <- <-;
    repeat split; try done.
  by rewrite app_nil_r.
Qed.

(** X6: the answers of the create route. The status is 200, 400 or 500,
    and it is 200 exactly when the body reports success and carries the
    order. A request answered 400 has written no order, no line item and
    no event; so has a request answered 500, unless the error is the
    failure of the line-item insert. *)
Theorem create_route_answers env body st :
  let resp := (CreateRoute.POST env body st).1 in
  let st' := (CreateRoute.POST env body st).2 in
  (Response.http_status resp = 200 ∨ Response.http_status resp = 400
   ∨ Response.http_status resp = 500)
  ∧ (Response.success resp = true ↔ Response.http_status resp = 200)
  ∧ (is_Some (Response.payload resp) ↔ Response.http_status resp = 200)
  ∧ (Response.http_status resp = 400 → same_orders st st')
  ∧ (Response.http_status resp = 500 →
     Response.error resp ≠ Some "Failed to create order items." →
     same_orders st st')
  ∧ order_sessions st ⊆ order_sessions st'
  ∧ orders st ⊆ orders st'.
Proof.
  destruct (CreateRoute.POST env body st) as [resp st'] eqn:H. simpl.
  apply POST_trace in H as (st1 & Hsame & Es & Hsub & _ & H).
  rewrite <- Es in Hsub.
  destruct H as [[(Hsucc & Hpay & Hst & Herr) ->]
                | (v & i & s & t & l & _ & _ & _ & Hnone & _ & _ & _ & H)].
  - pose proof Hsame as (_ & _ & Eo & _).
    split; [destruct Hst; auto|]. split; [rewrite Hsucc; split; [done|lia]|].
    split; [rewrite Hpay; split; [by intros [? ?]|lia]|].
    split; [done|]. split; [done|]. split; [done|]. by rewrite Eo.
  - destruct Hsame as (_ & _ & Eo & _). rewrite Eo in Hnone.
    simpl in H. destruct H as [[-> ->] | [-> ->]]; simpl.
    + split; [auto|]. split; [done|]. split; [split; [by intros [? ?]|done]|].
      split; [done|]. split; [done|]. split; [done|].
      rewrite Eo. by apply insert_subseteq.
    + split; [auto|]. split; [done|]. split; [split; [done|by eexists]|].
      split; [done|]. split; [done|]. split; [done|].
      rewrite Eo. by apply insert_subseteq.
Qed.

(** X7: what a request answered 200 leaves in the store. The order of the
    body is under a key that was free, in status preparing, for the vendor
    and with the code the body names, on the ticket the body names, and its
    total is the total of the cart at the prices of the catalog; its line
    items are the lines of the cart, in order; no other order carries its
    code. *)
Theorem create_route_accepted env body st resp st' created :
  references_ok st →
  CreateRoute.POST env body st = (resp, st') →
  Response.payload resp = Some created →
  let order := CreateRoute.Created.order created in
  let session := CreateRoute.Created.session created in
  ∃ row ticket vendorId items,
    IncomingBody.vendorId body = Some vendorId
    ∧ IncomingBody.items body = Some items
    ∧ orders st !! CreateRoute.OrderJson.id order = None
    ∧ orders st' !! CreateRoute.OrderJson.id order = Some row
    ∧ Order.session_id row = Some (CreateRoute.DbSession.id session)
    ∧ order_sessions st' !! CreateRoute.DbSession.id session = Some ticket
    ∧ Session.ticket_code ticket = CreateRoute.DbSession.ticket_code session
    ∧ Order.vendor_id row = Some vendorId
    ∧ CreateRoute.OrderJson.vendor_id order = Some vendorId
    ∧ Order.order_code row = CreateRoute.OrderJson.order_code order
    ∧ (∀ k r, orders st' !! k = Some r →
         Order.order_code r = CreateRoute.OrderJson.order_code order →
         k = CreateRoute.OrderJson.id order)
    ∧ Order.status row = preparing
    ∧ Order.total_cents row = Some (cart_total (menu_items st) items)
    ∧ CreateRoute.OrderJson.total_cents order = Order.total_cents row
    ∧ Forall2 (snapshot_of (menu_items st)) items
        (items_of st' (CreateRoute.OrderJson.id order))
    ∧ order_events st'
      = (order_events st
         ++ (if CreateEnv.event_fails env then []
             else [initial_event (CreateRoute.OrderJson.id order)]))%list.
Proof.
  intros Href H Hpay. apply POST_trace in H as (st1 & Hsame & Es & Hsub & _ & H).
  destruct H as [[(_ & Hnone & _) _]
                | (v & i & s & t & l & Hv & Hi & Hens & Hnone & Hcode & Ht & Hsnap & H)].
  { congruence. }
  pose proof Hsame as (Ev & Em & Eo & Ei & Ee).
  simpl in H. destruct H as [[-> _] | [-> ->]]; [done|]. simpl in Hpay.
  injection Hpay as <-. simpl.
  destruct (route_ensureSession_Ok_ticket _ _ _ _ _ Hens) as (ticket & Hticket & Hcode').
  assert (t = cart_total (menu_items st) i) as Htot.
  { rewrite Ht, <- (lines_total_with_order_id (CreateEnv.new_order_id env)).
    by apply snapshot_cart_total. }
  eexists _, ticket, v, i. rewrite Eo in Hnone.
  split; [done|]. split; [done|]. split; [done|].
  split; [by rewrite lookup_insert_eq|]. simpl.
  split; [done|]. split; [done|]. split; [done|]. split; [done|].
  split; [done|]. split; [done|]. split.
  { intros k r Hk Hc. destruct (decide (k = CreateEnv.new_order_id env)) as [|Hne]; [done|].
    rewrite lookup_insert_ne in Hk by done.
    by destruct (order_code_taken_false _ _ _ _ Hcode Hk). }
  split; [done|]. split; [by rewrite Htot|]. split; [done|].
  split; [|by rewrite Ee].
  unfold items_of. simpl. rewrite Ei.
  rewrite items_of_fresh; [done|done|done|apply with_order_id_rows].
Qed.

(** ** Reading orders and tickets back *)

Lemma NoDup_all_equal {A : Type} (l : list A) a :
  NoDup l → (∀ x, x ∈ l → x = a) → a ∈ l → l = [a].
Proof.
  intros Hnd Hall Hin. destruct l as [|x l]; [by apply elem_of_nil in Hin|].
  assert (x = a) as -> by (apply Hall; left).
  destruct l as [|y l]; [done|].
  assert (y = a) as -> by (apply Hall; right; left).
  apply NoDup_cons in Hnd as [Hnot _]. destruct Hnot. left.
Qed.

Lemma single_unique {A : Type} (P : string * A → Prop) `{∀ x, Decision (P x)}
    (m : gmap string A) k r :
  m !! k = Some r → P (k, r) →
  (∀ k' r', m !! k' = Some r' → P (k', r') → k' = k) →
  DbJoin.single (filter P (map_to_list m)) = Some (k, r).
Proof.
  intros Hk HP Huniq.
  rewrite (NoDup_all_equal (filter P (map_to_list m)) (k, r)); [done| | |].
  - apply NoDup_filter, NoDup_map_to_list.
  - intros [k' r'] [HP' Hin]%list_elem_of_filter.
    apply elem_of_map_to_list in Hin.
    assert (k' = k) as -> by (by eapply Huniq). congruence.
  - apply list_elem_of_filter. split; [done|]. by apply elem_of_map_to_list.
Qed.

Lemma single_Some_elem {A : Type} (l : list A) x :
  DbJoin.single l = Some x → l = [x].
Proof. destruct l as [|y [|z l]]; simpl; congruence. Qed.

Lemma filter_map_to_list_insert {A : Type} (P : string * A → Prop)
    `{∀ x, Decision (P x)} (m : gmap string A) k r :
  m !! k = None →
  filter P (map_to_list (<[k := r]> m))
  ≡ₚ ((if decide (P (k, r)) then [(k, r)] else []) ++ filter P (map_to_list m))%list.
Proof.
  intros Hk. rewrite map_to_list_insert by done. rewrite filter_cons.
  by destruct (decide (P (k, r))).
Qed.

Lemma items_of_app_other st rows id :
  Forall (λ it, OrderItem.order_id it ≠ id) rows →
  filter (λ it, OrderItem.order_id it = id) (order_items st ++ rows)%list
  = items_of st id.
Proof.
  intros Hrows. rewrite filter_app, (filter_none _ rows), app_nil_r; [done|].
  intros it Hin. by apply (proj1 (Forall_forall _ _) Hrows).
Qed.

(** The store after an accepted cart, for the readers. *)
Lemma created_store_detail with_price st1 st' id row lines k r :
  orders st1 !! id = None →
  orders st' = <[id := row]> (orders st1) →
  vendors st' = vendors st1 →
  order_items st' = (order_items st1 ++ map (Orders.with_order_id id) lines)%list →
  orders st1 !! k = Some r →
  DbJoin.order_detail with_price st' (k, r) = DbJoin.order_detail with_price st1 (k, r).
Proof.
  intros Hnone Eo Ev Ei Hk. unfold DbJoin.order_detail, DbJoin.vendor_name,
    DbJoin.items_json. simpl. rewrite Ev, Ei. f_equal. f_equal.
  apply items_of_app_other. apply Forall_forall. intros it Hin.
  apply (proj1 (Forall_forall _ _) (with_order_id_rows id lines)) in Hin.
  rewrite Hin. intros ->. congruence.
Qed.

(** The store after an accepted cart, and how the new order reads. *)
Lemma getOrderByCode_after_createOrder_aux env input st res st' :
  references_ok st →
  Orders.createOrder env input st = (Ok res, st') →
  ∃ st1 session lines row,
    Orders.ensureSession env (CreateOrderInput.sessionId input) st = (Ok session, st1)
    ∧ same_orders st st1
    ∧ orders st1 !! CreateEnv.new_order_id env = None
    ∧ Order.session_id row = Some (DbOrderSession.id session)
    ∧ res = CreatedOrderResult.mk (CreateEnv.new_order_id env)
              (Orders.generateSimpleCode (CreateEnv.random_order env) "MS")
              (Some (CreateOrderInput.vendorId input)) (Order.total_cents row)
              (Some (DbOrderSession.id session)) (DbOrderSession.ticket_code session)
    ∧ st' = mkStore (order_sessions st1) (vendors st1) (menu_items st1)
              (<[CreateEnv.new_order_id env := row]> (orders st1))
              (order_items st1
               ++ map (Orders.with_order_id (CreateEnv.new_order_id env)) lines)
              (order_events st1
               ++ (if CreateEnv.event_fails env then []
                   else [OrderEvent.mk (CreateEnv.new_order_id env) None
                           preparing Actor.cashier]))
    ∧ OrdersRead.getOrderByCode false
        (Orders.generateSimpleCode (CreateEnv.random_order env) "MS") st'
      = Ok (DbJoin.order_detail true st' (CreateEnv.new_order_id env, row)).
Proof.
  intros Href H.
  apply createOrder_trace in H as (st1 & Hsame & Es & Hs & H).
  destruct H as [(e' & ? & _)
                | (s & t & l & Hens & Hnone & Hcode & _ & Ht & Hsnap & H)];
    [done|].
  simpl in H. destruct H as [(? & _) | ([= ->] & _ & ->)]; [done|].
  exists st1, s, l,
    (new_order (Orders.generateSimpleCode (CreateEnv.random_order env) "MS")
       (CreateOrderInput.vendorId input) (CreateOrderInput.taxRate input)
       (Some (show_payment (CreateOrderInput.paymentMethod input)))
       (CreateEnv.now env) (DbOrderSession.id s) t).
  split; [done|]. split; [done|]. split; [done|].
  split; [done|]. split; [done|]. split; [done|].
  unfold OrdersRead.getOrderByCode, DbJoin.select_order_detail,
    DbJoin.orders_with_code. simpl.
  rewrite (single_unique _ _ (CreateEnv.new_order_id env)
             (new_order (Orders.generateSimpleCode (CreateEnv.random_order env) "MS")
                (CreateOrderInput.vendorId input) (CreateOrderInput.taxRate input)
                (Some (show_payment (CreateOrderInput.paymentMethod input)))
                (CreateEnv.now env) (DbOrderSession.id s) t)); [done| |done|].
  - by rewrite lookup_insert_eq.
  - intros k r Hk Hc. destruct (decide (k = CreateEnv.new_order_id env)) as [|Hne]; [done|].
    rewrite lookup_insert_ne in Hk by done.
    by destruct (order_code_taken_false _ _ _ _ Hcode Hk).
Qed.

(** X8: an accepted cart can be read back by its code. After a successful
    [createOrder], [getOrderByCode] and the by-code route, asked for the code
    of the result, answer with the new order: its key, status preparing, the
    total of the result, the vendor by name, and one line for each line of
    the cart, in order, with the quantity of the cart and the name and unit
    price of the catalog. *)
Theorem getOrderByCode_after_createOrder env input st res st' :
  references_ok st →
  Orders.createOrder env input st = (Ok res, st') →
  ∃ d v,
    OrdersRead.getOrderByCode false (CreatedOrderResult.orderCode res) st' = Ok d
    ∧ ByCodeRoute.GET false (Some (CreatedOrderResult.orderCode res)) st'
      = Response.ok d
    ∧ OrderDetail.id d = CreatedOrderResult.orderId res
    ∧ OrderDetail.order_code d = CreatedOrderResult.orderCode res
    ∧ OrderDetail.status d = preparing
    ∧ OrderDetail.total_cents d = CreatedOrderResult.totalCents res
    ∧ OrderDetail.vendor_id d = Some (CreateOrderInput.vendorId input)
    ∧ vendors st !! CreateOrderInput.vendorId input = Some v
    ∧ OrderDetail.vendors d = Some (Vendor.name v)
    ∧ OrderDetail.order_items d
      = map (DbJoin.item_json true) (items_of st' (CreatedOrderResult.orderId res))
    ∧ Forall2 (snapshot_of (menu_items st)) (CreateOrderInput.items input)
        (items_of st' (CreatedOrderResult.orderId res)).
Proof.
  intros Href H.
  apply createOrder_trace in H as (st1 & (Ev & Em & Eo & Ei & Ee) & Es & Hs & H).
  destruct H as [(e' & ? & _)
                | (s & t & l & Hens & Hnone & Hcode & (v & Hv & _) & Ht & Hsnap & H)];
    [done|].
  simpl in H. destruct H as [(? & _) | ([= ->] & _ & ->)]; [done|]. simpl.
  set (row := new_order _ _ _ _ _ _ _).
  set (code := Orders.generateSimpleCode _ _) in *.
  set (id := CreateEnv.new_order_id env) in *.
  set (st' := mkStore _ _ _ _ _ _).
  assert (DbJoin.select_order_detail false code st'
          = Some (DbJoin.order_detail true st' (id, row))) as Hsel.
  { unfold DbJoin.select_order_detail, DbJoin.orders_with_code. simpl.
    rewrite (single_unique _ _ id row); [done| |done|].
    - by rewrite lookup_insert_eq.
    - intros k r Hk Hc. destruct (decide (k = id)) as [|Hne]; [done|].
      rewrite lookup_insert_ne in Hk by done.
      by destruct (order_code_taken_false _ _ _ _ Hcode Hk). }
  assert (items_of st' id = map (Orders.with_order_id id) l) as Hitems.
  { unfold items_of, st'. simpl. rewrite Ei. rewrite Eo in Hnone.
    apply items_of_fresh; [done|done|apply with_order_id_rows]. }
  exists (DbJoin.order_detail true st' (id, row)), v.
  split; [unfold OrdersRead.getOrderByCode; by rewrite Hsel|].
  split.
  { unfold ByCodeRoute.GET.
    change (default EmptyString (Some code)) with code. rewrite Hsel.
    by unfold code. }
  simpl.
  split; [done|]. split; [done|]. split; [done|]. split; [done|]. split; [done|].
  split; [done|]. split; [by rewrite Ev, Hv|]. split; [done|]. by rewrite Hitems.
Qed.

Lemma map_ext_Forall {A B : Type} (f g : A → B) (l : list A) :
  Forall (λ x, f x = g x) l → map f l = map g l.
Proof. induction 1; simpl; congruence. Qed.

Lemma orders_of_session_detail with_price st1 st' id row lines sid :
  orders st1 !! id = None →
  orders st' = <[id := row]> (orders st1) →
  vendors st' = vendors st1 →
  order_items st' = (order_items st1 ++ map (Orders.with_order_id id) lines)%list →
  Order.session_id row = Some sid →
  map (DbJoin.order_detail with_price st') (DbJoin.orders_of_session sid st')
  ≡ₚ DbJoin.order_detail with_price st' (id, row)
     :: map (DbJoin.order_detail with_price st1) (DbJoin.orders_of_session sid st1).
Proof.
  intros Hnone Eo Ev Ei Hsid. unfold DbJoin.orders_of_session. rewrite Eo.
  rewrite filter_map_to_list_insert by done.
  rewrite decide_True by done. simpl. constructor.
  rewrite (map_ext_Forall _ (DbJoin.order_detail with_price st1)); [done|].
  apply Forall_forall. intros [k r] [_ Hin]%list_elem_of_filter.
  apply elem_of_map_to_list in Hin. by eapply created_store_detail.
Qed.

(** X9: the ticket gains exactly the new order. After a successful
    [createOrder] on a store that respects its foreign keys and the
    uniqueness of ticket codes, [getSessionByTicketCode], asked for the
    ticket code of the result, answers with the ticket of the result, and
    its orders are the new order, as [getOrderByCode] reads it, and the
    orders the ticket had before (none when the call made the ticket). *)
Theorem getSessionByTicketCode_after_createOrder env input st res st' :
  references_ok st → sessions_ok st → ticket_codes_unique st →
  Orders.createOrder env input st = (Ok res, st') →
  ∃ d new,
    OrdersRead.getSessionByTicketCode false (CreatedOrderResult.ticketCode res) st'
    = Ok d
    ∧ CreatedOrderResult.sessionId res = Some (SessionDetail.id d)
    ∧ SessionDetail.ticket_code d = CreatedOrderResult.ticketCode res
    ∧ OrdersRead.getOrderByCode false (CreatedOrderResult.orderCode res) st' = Ok new
    ∧ SessionDetail.orders d
      ≡ₚ new :: match OrdersRead.getSessionByTicketCode false
                        (CreatedOrderResult.ticketCode res) st with
                | Ok d0 => SessionDetail.orders d0
                | Throw _ => []
                end.
Proof.
  intros Href Hsess Huniq H.
  destruct (getOrderByCode_after_createOrder_aux _ _ _ _ _ Href H)
    as (st1 & s & l & row & Hens & Hsame & Hnone & Hrow & Hres & Hst' & Hget).
  subst res. simpl in *.
  pose proof Hsame as (Ev & Em & Eo & Ei & Ee).
  assert (orders st' = <[CreateEnv.new_order_id env := row]> (orders st1)) as Eo'
    by (by rewrite Hst').
  assert (vendors st' = vendors st1) as Ev' by (by rewrite Hst').
  assert (order_items st'
          = (order_items st1
             ++ map (Orders.with_order_id (CreateEnv.new_order_id env)) l)%list) as Ei'
    by (by rewrite Hst').
  assert (order_sessions st' = order_sessions st1) as Es' by (by rewrite Hst').
  pose proof (orders_of_session_detail true st1 st' _ row l (DbOrderSession.id s)
                Hnone Eo' Ev' Ei' Hrow) as Hperm.
  apply ensureSession_cases in Hens.
  destruct (truthy (CreateOrderInput.sessionId input)) eqn:Htruthy.
  - destruct Hens as [-> Hsel]. unfold Db.select_session in Hsel.
    destruct (CreateEnv.session_fails env); [done|].
    destruct (order_sessions st !! _) as [srow|] eqn:Hsrow; [|done].
    simpl in Hsel. injection Hsel as ->. simpl in *.
    set (sid := default EmptyString (CreateOrderInput.sessionId input)) in *.
    assert (∀ st0, order_sessions st0 = order_sessions st →
              DbJoin.single (DbJoin.sessions_with_code (Session.ticket_code srow) st0)
              = Some (sid, srow)) as Hsingle.
    { intros st0 E. unfold DbJoin.sessions_with_code. rewrite E.
      apply (single_unique _ _ sid srow); [done|done|].
      intros k r Hk Hc. by eapply Huniq. }
    eexists _, _. unfold OrdersRead.getSessionByTicketCode,
      DbJoin.select_session_detail.
    rewrite (Hsingle st') by done. rewrite (Hsingle st) by done. simpl.
    split; [reflexivity|]. split; [done|]. split; [done|]. split; [exact Hget|].
    exact Hperm.
  - simpl in Hens.
    destruct (CreateEnv.session_fails env); simpl in Hens; [by destruct Hens|].
    case_bool_decide as Hfresh; simpl in Hens; [by destruct Hens|].
    destruct (Db.ticket_code_taken _ _) eqn:Htaken; [by destruct Hens|].
    destruct Hens as [[= ->] Est1]. simpl in *.
    set (code := Orders.generateSimpleCode (CreateEnv.random_ticket env) "WL") in *.
    set (sid := CreateEnv.new_session_id env) in *.
    set (srow := Session.mk code SessionStatus.open (CreateEnv.now env) None) in *.
    assert (order_sessions st !! sid = None) as Hsnone.
    { destruct (order_sessions st !! sid) eqn:E; [|done]. destruct Hfresh. by eexists. }
    assert (DbJoin.single (DbJoin.sessions_with_code code st') = Some (sid, srow))
      as Hsingle.
    { unfold DbJoin.sessions_with_code. rewrite Es', Est1. simpl.
      apply (single_unique _ _ sid srow);
        [rewrite lookup_insert_eq; reflexivity|reflexivity|].
      intros k r Hk Hc. destruct (decide (k = sid)) as [|Hne]; [done|].
      rewrite lookup_insert_ne in Hk by congruence.
      by destruct (ticket_code_taken_false _ _ _ _ Htaken Hk). }
    assert (DbJoin.sessions_with_code code st = []) as Hnil.
    { unfold DbJoin.sessions_with_code. apply filter_none.
      intros [k r] Hin Hc. apply elem_of_map_to_list in Hin.
      by destruct (ticket_code_taken_false _ _ _ _ Htaken Hin). }
    assert (DbJoin.orders_of_session sid st1 = []) as Hold.
    { unfold DbJoin.orders_of_session. rewrite Eo. apply filter_none.
      intros [k r] Hin Hc. apply elem_of_map_to_list in Hin.
      destruct (Hsess k r sid Hin Hc) as [? ?]. congruence. }
    eexists _, _. unfold OrdersRead.getSessionByTicketCode,
      DbJoin.select_session_detail.
    rewrite Hsingle, Hnil. simpl.
    split; [reflexivity|]. split; [done|]. split; [done|]. split; [exact Hget|].
    rewrite Hold in Hperm. exact Hperm.
Qed.

(** ** The lifecycle *)

(** The two ways a call of [updateOrderStatus] ends: the store is what it
    was, or a legal move was written. *)
Lemma updateOrderStatus_trace env input st :
  let res := Orders.updateOrderStatus env input st in
  (res.2 = st
   ∧ (is_Ok res.1 = true →
      ∃ cur, Orders.load_current env input st = Some cur
             ∧ DbOrderMinimal.status cur = UpdateOrderStatusInput.toStatus input
             ∧ res.1 = Ok cur))
  ∨ ∃ cur,
      Orders.load_current env input st = Some cur
      ∧ legal (DbOrderMinimal.status cur) (UpdateOrderStatusInput.toStatus input)
      ∧ UpdateEnv.update_fails env = false
      ∧ res.1 = Ok (DbOrderMinimal.mk (DbOrderMinimal.id cur)
                      (UpdateOrderStatusInput.toStatus input))
      ∧ res.2
        = mkStore (order_sessions st) (vendors st) (menu_items st)
            (alter (Order.set_status (UpdateOrderStatusInput.toStatus input))
                   (DbOrderMinimal.id cur) (orders st))
            (order_items st)
            (order_events st
             ++ (if UpdateEnv.event_fails env then []
                 else [OrderEvent.mk (DbOrderMinimal.id cur)
                         (Some (DbOrderMinimal.status cur))
                         (UpdateOrderStatusInput.toStatus input)
                         (UpdateOrderStatusInput.actor input)])).
Proof.
  unfold Orders.updateOrderStatus.
  destruct (negb _ && negb _); [by left|]. run.
  destruct (Orders.load_current env input st) as [cur|] eqn:E; [|by left].
  case_bool_decide as Hsame; [left; split; [done|]; intros _; by exists cur|].
  destruct (Orders.canTransition _ _) eqn:Hcan; simpl; [|by left].
  apply canTransition_legal in Hcan.
  unfold Db.update_order. destruct (UpdateEnv.update_fails env); [by left|]. simpl.
  right. exists cur. split; [done|]. split; [done|]. split; [done|].
  unfold Db.insert_order_event.
  destruct (UpdateEnv.event_fails env); simpl; [by rewrite app_nil_r|done].
Qed.

Lemma timed_canTransition_legal from to :
  OrdersWithTiming.canTransition from to = true ↔ legal from to.
Proof. apply canTransition_legal. Qed.

Lemma timed_updateOrderStatus_trace env input st :
  let res := OrdersWithTiming.updateOrderStatus env input st in
  res.2 = st
  ∨ ∃ cur,
      OrdersWithTiming.load_current env input st = Some cur
      ∧ legal (DbOrderStatusRow.status cur) (UpdateOrderStatusInput.toStatus input)
      ∧ res.2
        = mkStore (order_sessions st) (vendors st) (menu_items st)
            (alter (Updates.apply
                      (OrdersWithTiming.updates_for cur
                         (UpdateOrderStatusInput.toStatus input)
                         (nullish (UpdateOrderStatusInput.at_ input)
                                  (UpdateEnv.now env))))
                   (DbOrderStatusRow.id cur) (orders st))
            (order_items st)
            (order_events st
             ++ (if UpdateEnv.event_fails env then []
                 else [OrderEvent.mk (DbOrderStatusRow.id cur)
                         (Some (DbOrderStatusRow.status cur))
                         (UpdateOrderStatusInput.toStatus input)
                         (UpdateOrderStatusInput.actor input)])).
Proof.
  unfold OrdersWithTiming.updateOrderStatus.
  destruct (negb _ && negb _); [by left|]. run.
  destruct (OrdersWithTiming.load_current env input st) as [cur|] eqn:E; [|by left].
  case_bool_decide as Hsame; [by left|].
  destruct (OrdersWithTiming.canTransition _ _) eqn:Hcan; simpl; [|by left].
  apply timed_canTransition_legal in Hcan.
  unfold Db.update_order. destruct (UpdateEnv.update_fails env); [by left|]. simpl.
  right. exists cur. split; [done|]. split; [done|].
  unfold Db.insert_order_event.
  destruct (UpdateEnv.event_fails env); simpl; [by rewrite app_nil_r|done].
Qed.

Lemma same_sale_refl o : same_sale o o.
Proof. by repeat split. Qed.

Lemma same_sale_trans o1 o2 o3 : same_sale o1 o2 → same_sale o2 o3 → same_sale o1 o3.
Proof. unfold same_sale. intros H1 H2. destruct_and!. repeat split; congruence. Qed.

Lemma legal_rank from to : legal from to → rank from ≤ rank to.
Proof. intros [[-> ->] | [-> ->]]; simpl; lia. Qed.

Lemma moved_forward_refl st : moved_forward st st.
Proof.
  repeat split; try done. intros id. destruct (orders st !! id); [|done].
  split; [apply same_sale_refl|]. split; [apply keeps_stamps_refl|lia].
Qed.

Lemma moved_forward_trans st1 st2 st3 :
  moved_forward st1 st2 → moved_forward st2 st3 → moved_forward st1 st3.
Proof.
  intros (A1 & B1 & C1 & D1 & E1) (A2 & B2 & C2 & D2 & E2).
  split; [congruence|]. split; [congruence|]. split; [congruence|].
  split; [congruence|]. intros id. specialize (E1 id). specialize (E2 id).
  destruct (orders st1 !! id), (orders st2 !! id), (orders st3 !! id); try done.
  destruct E1 as (S1 & K1 & R1), E2 as (S2 & K2 & R2).
  split; [by eapply same_sale_trans|]. split; [by eapply keeps_stamps_trans|lia].
Qed.

Lemma moved_forward_alter st id f events :
  (∀ o, orders st !! id = Some o →
        same_sale o (f o) ∧ keeps_stamps o (f o)
        ∧ rank (Order.status o) ≤ rank (Order.status (f o))) →
  moved_forward st
    (mkStore (order_sessions st) (vendors st) (menu_items st)
       (alter f id (orders st)) (order_items st) events).
Proof.
  intros Hf. repeat split; try done. simpl. intros k.
  destruct (decide (id = k)) as [<- | Hne].
  - rewrite lookup_alter_eq. destruct (orders st !! id) as [o|]; simpl; [|done].
    by apply Hf.
  - rewrite lookup_alter_ne by done. destruct (orders st !! k); [|done].
    split; [apply same_sale_refl|]. split; [apply keeps_stamps_refl|lia].
Qed.

Lemma updateOrderStatus_moved_forward env input st :
  moved_forward st (Orders.updateOrderStatus env input st).2.
Proof.
  destruct (updateOrderStatus_trace env input st)
    as [[-> _] | (cur & Hcur & Hlegal & _ & _ & ->)]; [apply moved_forward_refl|].
  apply moved_forward_alter. intros o Ho.
  apply load_current_row in Hcur as (r & Hr & Hst). rewrite Ho in Hr.
  injection Hr as <-. split; [by repeat split|]. split; [by repeat split|].
  simpl. rewrite <- Hst. by apply legal_rank.
Qed.

Lemma timed_updateOrderStatus_moved_forward env input st :
  moved_forward st (OrdersWithTiming.updateOrderStatus env input st).2.
Proof.
  pose proof (λ id o, timed_update_keeps_stamps env input st id o) as Hkeep.
  destruct (timed_updateOrderStatus_trace env input st)
    as [-> | (cur & Hcur & Hlegal & E)]; [apply moved_forward_refl|].
  rewrite E in Hkeep |- *. simpl in Hkeep.
  apply moved_forward_alter. intros o Ho.
  destruct (Hkeep _ _ Ho) as (o' & Ho' & Hk).
  rewrite lookup_alter_eq, Ho in Ho'. simpl in Ho'. injection Ho' as <-.
  apply timed_load_current_row in Hcur as (r & Hr & Hst & _). rewrite Ho in Hr.
  injection Hr as <-. split; [by repeat split|]. split; [done|].
  simpl. rewrite <- Hst. by apply legal_rank.
Qed.

(** X10: the lifecycle only moves forward. Under any history of calls of
    [updateOrderStatus], of either revision, with any inputs, clocks and
    failures of the store, no order appears or disappears, every order
    keeps what was sold (code, vendor, ticket, amounts, payment, creation
    time) and the timestamps it had, and its status is the one it had or a
    later one in preparing, ready, collected; so a collected order stays
    collected. Tickets, catalog and line items are untouched. *)
Theorem status_only_moves_forward calls st :
  moved_forward st (run_status_updates calls st)
  ∧ moved_forward st (OrdersWithTiming.run_updates calls st)
  ∧ ∀ id o, orders st !! id = Some o → Order.status o = collected →
      ∃ o1 o2,
        orders (run_status_updates calls st) !! id = Some o1
        ∧ orders (OrdersWithTiming.run_updates calls st) !! id = Some o2
        ∧ Order.status o1 = collected ∧ Order.status o2 = collected.
Proof.
  assert (H1 : ∀ st, moved_forward st (run_status_updates calls st)).
  { induction calls as [|[env input] calls IH]; intros st0;
      [apply moved_forward_refl|].
    simpl. eapply moved_forward_trans; [apply updateOrderStatus_moved_forward|apply IH]. }
  assert (H2 : ∀ st, moved_forward st (OrdersWithTiming.run_updates calls st)).
  { clear H1. induction calls as [|[env input] calls IH]; intros st0;
      [apply moved_forward_refl|].
    simpl. eapply moved_forward_trans;
      [apply timed_updateOrderStatus_moved_forward|apply IH]. }
  specialize (H1 st). specialize (H2 st).
  split; [done|]. split; [done|]. intros id o Ho Hc.
  destruct H1 as (_ & _ & _ & _ & H1), H2 as (_ & _ & _ & _ & H2).
  specialize (H1 id). specialize (H2 id). rewrite Ho in H1, H2.
  destruct (orders (run_status_updates calls st) !! id) as [o1|]; [|done].
  destruct (orders (OrdersWithTiming.run_updates calls st) !! id) as [o2|]; [|done].
  exists o1, o2. split; [done|]. split; [done|].
  destruct H1 as (_ & _ & R1), H2 as (_ & _ & R2). rewrite Hc in R1, R2.
  split; [by destruct (Order.status o1)|by destruct (Order.status o2)].
Qed.

(** X11: the event log of the lifecycle. A call of [updateOrderStatus]
    leaves the log as it was or appends one event; the event names an order
    of the store, its status before the call, the status it has after the
    call, which is a legal move from the former, and the actor of the call.
    A call that changes an order appends the event, unless the insert of
    the event fails: then the status has moved and the log does not show
    it. *)
Theorem updateOrderStatus_event_log env input st :
  let st' := (Orders.updateOrderStatus env input st).2 in
  let to := UpdateOrderStatusInput.toStatus input in
  (order_events st' = order_events st
   ∨ ∃ id o,
       orders st !! id = Some o
       ∧ orders st' !! id = Some (Order.set_status to o)
       ∧ legal (Order.status o) to
       ∧ order_events st'
         = (order_events st
            ++ [OrderEvent.mk id (Some (Order.status o)) to
                  (UpdateOrderStatusInput.actor input)])%list)
  ∧ (orders st' ≠ orders st →
     if UpdateEnv.event_fails env
     then order_events st' = order_events st
     else length (order_events st') = S (length (order_events st))).
Proof.
  destruct (updateOrderStatus_trace env input st)
    as [[-> _] | (cur & Hcur & Hlegal & _ & _ & ->)]; simpl.
  { split; [by left|done]. }
  apply load_current_row in Hcur as (r & Hr & Hst). rewrite Hst in *.
  destruct (UpdateEnv.event_fails env).
  - split; [left; by rewrite app_nil_r|]. intros _. by rewrite app_nil_r.
  - split.
    + right. exists (DbOrderMinimal.id cur), r. split; [done|].
      split; [by rewrite lookup_alter_eq, Hr|]. done.
    + intros _. rewrite length_app. simpl. lia.
Qed.

(** A call that names an order of the store, step by step. *)
Lemma updateOrderStatus_run env input st cur :
  identifies input →
  Orders.load_current env input st = Some cur →
  Orders.updateOrderStatus env input st
  = let to := UpdateOrderStatusInput.toStatus input in
    if bool_decide (DbOrderMinimal.status cur = to) then (Ok cur, st)
    else if negb (Orders.canTransition (DbOrderMinimal.status cur) to)
    then (Throw (Orders.invalid_transition (DbOrderMinimal.status cur) to), st)
    else if UpdateEnv.update_fails env
    then (Throw (Error "Failed to update order status."), st)
    else (Ok (DbOrderMinimal.mk (DbOrderMinimal.id cur) to),
          mkStore (order_sessions st) (vendors st) (menu_items st)
            (alter (Order.set_status to) (DbOrderMinimal.id cur) (orders st))
            (order_items st)
            (order_events st
             ++ (if UpdateEnv.event_fails env then []
                 else [OrderEvent.mk (DbOrderMinimal.id cur)
                         (Some (DbOrderMinimal.status cur)) to
                         (UpdateOrderStatusInput.actor input)]))).
Proof.
  intros Hid Hload. unfold Orders.updateOrderStatus.
  rewrite identifies_guard by done. run. rewrite Hload.
  case_bool_decide; [done|]. destruct (negb _); [done|]. simpl.
  unfold Db.update_order. destruct (UpdateEnv.update_fails env); [done|]. simpl.
  unfold Db.insert_order_event.
  destruct (UpdateEnv.event_fails env); simpl; [by rewrite app_nil_r|done].
Qed.

Lemma select_order_by_code_unique st k r :
  orders st !! k = Some r →
  (∀ k' r', orders st !! k' = Some r' →
            Order.order_code r' = Order.order_code r → k' = k) →
  Db.select_order_by_code false (Order.order_code r) st = Some (k, r).
Proof.
  intros Hk Huniq. unfold Db.select_order_by_code.
  destruct (list_find _ _) as [[i [k' r']]|] eqn:E.
  - apply list_find_Some in E as (Hi & Hc & _). simpl in *.
    apply list_elem_of_lookup_2, elem_of_map_to_list in Hi.
    assert (k' = k) as -> by (by eapply Huniq). congruence.
  - assert (is_Some (list_find (λ kr : string * Order.row,
                                  Order.order_code kr.2 = Order.order_code r)
                               (map_to_list (orders st)))) as [? Hs].
    { eapply (list_find_elem_of _ _ (k, r)); [by apply elem_of_map_to_list|done]. }
    congruence.
Qed.

(** X12: a new order walks the lifecycle. After a successful [createOrder],
    a request for the new order, by its key or by its code, moves it to
    ready and then to collected when the store answers; before it is ready,
    a request to collect it throws the invalid transition and writes
    nothing. *)
Theorem new_order_lifecycle env input st res st' uenv actor :
  Orders.createOrder env input st = (Ok res, st') →
  truthy_string (CreatedOrderResult.orderId res) = true →
  UpdateEnv.select_fails uenv = false →
  UpdateEnv.update_fails uenv = false →
  let id := CreatedOrderResult.orderId res in
  let by_id to := UpdateOrderStatusInput.mk (Some id) None to actor None in
  let by_code to :=
    UpdateOrderStatusInput.mk None (Some (CreatedOrderResult.orderCode res)) to
      actor None in
  ∀ req, req = by_id ∨ req = by_code →
    Orders.updateOrderStatus uenv (req collected) st'
    = (Throw (Orders.invalid_transition preparing collected), st')
    ∧ (Orders.updateOrderStatus uenv (req ready) st').1
      = Ok (DbOrderMinimal.mk id ready)
    ∧ (Orders.updateOrderStatus uenv (req collected)
         (Orders.updateOrderStatus uenv (req ready) st').2).1
      = Ok (DbOrderMinimal.mk id collected).
Proof.
  intros H Hid Hsel Hupd id by_id by_code req Hreq.
  apply createOrder_trace in H as (st1 & _ & _ & _ & H).
  destruct H as [(e' & ? & _) | (s & t & l & _ & Hnone & Hcode & _ & _ & _ & H)];
    [done|].
  simpl in H. destruct H as [(? & _) | ([= ->] & _ & ->)]; [done|].
  simpl in id, by_code, Hid. subst id.
  set (id := CreateEnv.new_order_id env) in *.
  set (code := Orders.generateSimpleCode (CreateEnv.random_order env) "MS") in *.
  set (row := new_order code _ _ _ _ _ _).
  set (st' := mkStore _ _ _ _ _ _).
  assert (Hrow : orders st' !! id = Some row) by apply lookup_insert_eq.
  assert (Huniq : ∀ k' r', orders st' !! k' = Some r' →
                           Order.order_code r' = code → k' = id).
  { intros k r Hk Hc. destruct (decide (k = id)) as [|Hne]; [done|].
    unfold st' in Hk. simpl in Hk. rewrite lookup_insert_ne in Hk by congruence.
    by destruct (order_code_taken_false _ _ _ _ Hcode Hk). }
  assert (Hident : ∀ to, identifies (req to)).
  { intros to. destruct Hreq as [-> | ->]; [by left|by right]. }
  assert (Hto : ∀ to, UpdateOrderStatusInput.toStatus (req to) = to).
  { intros to. by destruct Hreq as [-> | ->]. }
  assert (Hload : ∀ to st2 r2, orders st2 !! id = Some r2 →
            Order.order_code r2 = code →
            (∀ k' r', orders st2 !! k' = Some r' → Order.order_code r' = code → k' = id) →
            Orders.load_current uenv (req to) st2
            = Some (DbOrderMinimal.mk id (Order.status r2))).
  { intros to st2 r2 Hr2 Hc2 Hu2. destruct Hreq as [-> | ->].
    - by apply load_current_by_id.
    - unfold Orders.load_current. simpl. rewrite Hsel, <- Hc2.
      rewrite (select_order_by_code_unique st2 id r2); [done|done|].
      intros k' r' Hk' Hc'. eapply Hu2; [done|congruence]. }
  rewrite !(updateOrderStatus_run uenv _ st' (DbOrderMinimal.mk id preparing))
    by (done || by apply (Hload _ st' row)).
  rewrite !Hto. simpl. rewrite Hupd. simpl. split; [done|]. split; [done|].
  set (st2 := mkStore _ _ _ _ _ _).
  assert (Hrow2 : orders st2 !! id = Some (Order.set_status ready row)).
  { unfold st2. simpl. by rewrite lookup_alter_eq, lookup_insert_eq. }
  rewrite (updateOrderStatus_run uenv _ st2 (DbOrderMinimal.mk id ready)).
  - rewrite Hto. simpl. by rewrite Hupd.
  - done.
  - apply (Hload _ st2 (Order.set_status ready row)); [done|done|].
    intros k r Hk Hc. destruct (decide (k = id)) as [|Hne]; [done|].
    unfold st2 in Hk. simpl in Hk. rewrite lookup_alter_ne in Hk by congruence.
    by apply (Huniq k r).
Qed.

(** X13: the answers of the update-status route. Without an order id and an
    order code the route answers 400 and writes nothing. Otherwise it runs
    [updateOrderStatus] with the actor of the body, vendor when the body has
    none, and the store is the store after that call; the answer is 200 with
    the order when the call returns, and 500 with the message of the error
    when it throws: an unknown order and a move the lifecycle forbids are
    both answered 500. *)
Theorem update_status_route_answers env body st :
  let input :=
    UpdateOrderStatusInput.mk (UpdateStatusBody.orderId body)
      (UpdateStatusBody.orderCode body) (UpdateStatusBody.toStatus body)
      (default Actor.vendor (UpdateStatusBody.actor body)) None in
  let resp := (UpdateStatusRoute.POST env body st).1 in
  let st' := (UpdateStatusRoute.POST env body st).2 in
  (¬ identifies input →
   resp = Response.fail 400 "orderId or orderCode is required" ∧ st' = st)
  ∧ (identifies input →
     st' = (Orders.updateOrderStatus env input st).2
     ∧ (∀ order, (Orders.updateOrderStatus env input st).1 = Ok order →
                 resp = Response.ok order)
     ∧ (Orders.load_current env input st = None →
        resp = Response.fail 500 "Order not found." ∧ st' = st)
     ∧ (∀ cur, Orders.load_current env input st = Some cur →
          DbOrderMinimal.status cur ≠ UpdateStatusBody.toStatus body →
          ¬ legal (DbOrderMinimal.status cur) (UpdateStatusBody.toStatus body) →
          resp = Response.fail 500
                   ("Invalid status transition "
                    +:+ show_status (DbOrderMinimal.status cur) +:+ " → "
                    +:+ show_status (UpdateStatusBody.toStatus body))
          ∧ st' = st)
     ∧ (Response.http_status resp = 200 ∨ Response.http_status resp = 500)).
Proof.
  intros input. unfold UpdateStatusRoute.POST. fold input. split.
  - intros Hno. unfold identifies in Hno. simpl in Hno.
    destruct (truthy (UpdateStatusBody.orderId body)); [tauto|].
    destruct (truthy (UpdateStatusBody.orderCode body)); [tauto|]. done.
  - intros Hid. pose proof (identifies_guard _ Hid) as Hg. simpl in Hg. rewrite Hg.
    change (UpdateOrderStatusInput.mk _ _ _ _ _) with input.
    split; [by destruct (Orders.updateOrderStatus env input st) as [[?|?] ?]|].
    split.
    { intros order Ho. destruct (Orders.updateOrderStatus env input st) as [[?|?] ?];
        simpl in *; congruence. }
    split.
    { intros Hnone. unfold Orders.updateOrderStatus. fold input in Hg.
      change (negb (truthy (UpdateOrderStatusInput.orderId input))
              && negb (truthy (UpdateOrderStatusInput.orderCode input)))
        with (negb (truthy (UpdateStatusBody.orderId body))
              && negb (truthy (UpdateStatusBody.orderCode body))).
      rewrite Hg. run. by rewrite Hnone. }
    split.
    { intros cur Hcur Hne Hnl. rewrite (updateOrderStatus_run env input st cur) by done.
      simpl. rewrite bool_decide_eq_false_2 by done.
      destruct (Orders.canTransition _ _) eqn:Hcan; [by apply canTransition_legal in Hcan|].
      done. }
    destruct (Orders.updateOrderStatus env input st) as [[?|?] ?]; simpl; auto.
Qed.

(** ** The ticket route *)

Lemma insert_session_Some fails id now code status st d st' :
  Db.insert_session fails id now code status st = (Some d, st') →
  order_sessions st !! id = None
  ∧ Db.ticket_code_taken code st = false
  ∧ d = Db.session_of id (Session.mk code (default SessionStatus.open status) now None)
  ∧ st' = mkStore (<[id := Session.mk code (default SessionStatus.open status) now None]>
                     (order_sessions st))
            (vendors st) (menu_items st) (orders st) (order_items st) (order_events st).
Proof.
  unfold Db.insert_session. destruct fails; simpl; [done|].
  case_bool_decide as Hf; simpl; [done|].
  destruct (Db.ticket_code_taken code st); [done|]. intros [= <- <-].
  repeat split. destruct (order_sessions st !! id) eqn:E; [|done].
  destruct Hf. by eexists.
Qed.

Lemma retry_loop_trace env left i code st :
  SessionsStart.retry_loop env left i code st
  = (Ok (Response.fail 500 "Failed to create session after retries"), st)
  ∨ ∃ j c,
      (i ≤ j < i + left)%nat
      ∧ ((j = i ∧ c = code)
         ∨ ((i < j)%nat
            ∧ c = SessionsStart.generateTicketCode (SessionsStart.random env j)))
      ∧ order_sessions st !! SessionsStart.new_id env j = None
      ∧ Db.ticket_code_taken c st = false
      ∧ SessionsStart.retry_loop env left i code st
        = (Ok (Response.ok
                 (SessionsStart.SessionJson.mk (SessionsStart.new_id env j) c
                    (SessionsStart.now env) SessionStatus.open None)),
           mkStore (<[SessionsStart.new_id env j :=
                        Session.mk c SessionStatus.open (SessionsStart.now env) None]>
                      (order_sessions st))
             (vendors st) (menu_items st) (orders st) (order_items st)
             (order_events st)).
Proof.
  revert i code. induction left as [|left IH]; intros i code; [by left|].
  simpl. run.
  destruct (Db.insert_session _ _ _ _ _ _) as [[d|] st1] eqn:E.
  - apply insert_session_Some in E as (Hnone & Htaken & -> & ->). simpl.
    right. exists i, code. split; [lia|]. split; [by left|]. split; [done|].
    split; [done|]. by rewrite lookup_insert_eq.
  - apply insert_session_None in E as ->. simpl.
    destruct (IH (S i) (SessionsStart.generateTicketCode (SessionsStart.random env (S i))))
      as [-> | (j & c & Hj & Hc & Hnone & Htaken & ->)]; [by left|].
    right. exists j, c. split; [lia|]. split; [|done].
    right. destruct Hc as [[-> ->] | [Hlt ->]]; (split; [lia|done]).
Qed.

Lemma sessions_start_trace env st :
  (SessionsStart.POST env st).2 = st
  ∨ ∃ sid row,
      order_sessions st !! sid = None
      ∧ Db.ticket_code_taken (Session.ticket_code row) st = false
      ∧ (SessionsStart.POST env st).2
        = mkStore (<[sid := row]> (order_sessions st)) (vendors st) (menu_items st)
            (orders st) (order_items st) (order_events st).
Proof.
  unfold SessionsStart.POST, SessionsStart.handler.
  destruct (retry_loop_trace env 5 0
              (SessionsStart.generateTicketCode (SessionsStart.random env 0%nat)) st)
    as [-> | (j & c & Hj & Hc & Hnone & Htaken & ->)]; simpl; [by left|].
  right. by eexists _, (Session.mk c SessionStatus.open (SessionsStart.now env) None).
Qed.

(** X14: the ticket route writes one ticket or nothing. A request to start a
    session touches no order, line item, event or catalog row. It answers
    500 after five refused inserts and then the store is what it was; or it
    answers 200 with a ticket that is new in the store: its key was free,
    no ticket had its code, it is open, created now and without a total,
    and its code is the one drawn at one of the at most five attempts. The
    route never answers with the error of its catch branch. *)
Theorem sessions_start_writes_one_ticket env st :
  let resp := (SessionsStart.POST env st).1 in
  let st' := (SessionsStart.POST env st).2 in
  same_orders st st'
  ∧ ((resp = Response.fail 500 "Failed to create session after retries" ∧ st' = st)
     ∨ ∃ json j,
         resp = Response.ok json
         ∧ (j < 5)%nat
         ∧ SessionsStart.SessionJson.id json = SessionsStart.new_id env j
         ∧ SessionsStart.SessionJson.ticket_code json
           = SessionsStart.generateTicketCode (SessionsStart.random env j)
         ∧ SessionsStart.SessionJson.status json = SessionStatus.open
         ∧ SessionsStart.SessionJson.created_at json = SessionsStart.now env
         ∧ SessionsStart.SessionJson.total_cents json = None
         ∧ order_sessions st !! SessionsStart.SessionJson.id json = None
         ∧ (∀ k s, order_sessions st !! k = Some s →
              Session.ticket_code s ≠ SessionsStart.SessionJson.ticket_code json)
         ∧ order_sessions st'
           = <[SessionsStart.SessionJson.id json :=
                 Session.mk (SessionsStart.SessionJson.ticket_code json)
                   SessionStatus.open (SessionsStart.now env) None]>
               (order_sessions st)).
Proof.
  unfold SessionsStart.POST, SessionsStart.handler.
  destruct (retry_loop_trace env 5 0
              (SessionsStart.generateTicketCode (SessionsStart.random env 0%nat)) st)
    as [-> | (j & c & Hj & Hc & Hnone & Htaken & ->)]; simpl.
  { split; [done|]. by left. }
  split; [done|]. right. eexists _, j. split; [done|]. simpl.
  assert (c = SessionsStart.generateTicketCode (SessionsStart.random env j)) as Ec.
  { destruct Hc as [[-> ->] | [_ ->]]; done. }
  split; [lia|]. split; [done|]. split; [done|]. split; [done|]. split; [done|].
  split; [done|]. split; [done|]. split; [|done].
  intros k s Hk. by eapply ticket_code_taken_false.
Qed.

(** ** The store stays consistent *)

Lemma consistent_insert_session st sid row :
  consistent st →
  order_sessions st !! sid = None →
  Db.ticket_code_taken (Session.ticket_code row) st = false →
  consistent (mkStore (<[sid := row]> (order_sessions st)) (vendors st)
                (menu_items st) (orders st) (order_items st) (order_events st)).
Proof.
  intros (Href & Hsess & Hoc & Htc & Hev) Hnone Htaken.
  split; [done|]. split; [|split; [done|split; [|done]]].
  - intros k r s Hk Hs. simpl in *. destruct (Hsess k r s Hk Hs) as [x Hx].
    destruct (decide (sid = s)) as [-> | Hne]; [congruence|].
    rewrite lookup_insert_ne by done. by eexists.
  - intros k1 k2 r1 r2. simpl.
    destruct (decide (sid = k1)) as [<- | H1], (decide (sid = k2)) as [<- | H2];
      rewrite ?lookup_insert_eq, ?lookup_insert_ne by done; try done.
    + intros [= <-] Hk2 Hc. by destruct (ticket_code_taken_false _ _ _ _ Htaken Hk2).
    + intros Hk1 [= <-] Hc. by destruct (ticket_code_taken_false _ _ _ _ Htaken Hk1).
    + apply Htc.
Qed.

Lemma consistent_new_order st id row rows evs :
  consistent st →
  orders st !! id = None →
  Db.order_code_taken (Order.order_code row) st = false →
  (∀ sid, Order.session_id row = Some sid → is_Some (order_sessions st !! sid)) →
  Forall (λ it, OrderItem.order_id it = id) rows →
  Forall (λ e, legal_event e ∧ OrderEvent.order_id e = id) evs →
  consistent (mkStore (order_sessions st) (vendors st) (menu_items st)
                (<[id := row]> (orders st)) (order_items st ++ rows)
                (order_events st ++ evs)).
Proof.
  intros (Href & Hsess & Hoc & Htc & Hev) Hnone Htaken Hsid Hrows Hevs.
  assert (∀ k, is_Some (orders st !! k) → is_Some (<[id := row]> (orders st) !! k))
    as Hmono.
  { intros k [x Hx]. destruct (decide (id = k)) as [<- | Hne]; [congruence|].
    rewrite lookup_insert_ne by done. by eexists. }
  split; [|split; [|split; [|split; [done|]]]].
  - intros it. simpl. rewrite elem_of_app. intros [Hin | Hin].
    + by apply Hmono, Href.
    + apply (proj1 (Forall_forall _ _) Hrows) in Hin. rewrite Hin.
      rewrite lookup_insert_eq. by eexists.
  - intros k r s. simpl. destruct (decide (id = k)) as [<- | Hne].
    + rewrite lookup_insert_eq. intros [= <-]. apply Hsid.
    + rewrite lookup_insert_ne by done. apply Hsess.
  - intros k1 k2 r1 r2. simpl.
    destruct (decide (id = k1)) as [<- | H1], (decide (id = k2)) as [<- | H2];
      rewrite ?lookup_insert_eq, ?lookup_insert_ne by done; try done.
    + intros [= <-] Hk2 Hc. by destruct (order_code_taken_false _ _ _ _ Htaken Hk2).
    + intros Hk1 [= <-] Hc. by destruct (order_code_taken_false _ _ _ _ Htaken Hk1).
    + apply Hoc.
  - simpl. apply Forall_app. split.
    + eapply Forall_impl; [exact Hev|]. intros e [? ?]. split; [done|]. by apply Hmono.
    + eapply Forall_impl; [exact Hevs|]. intros e [? ->]. split; [done|].
      rewrite lookup_insert_eq. by eexists.
Qed.

Lemma consistent_moved_forward st st' evs :
  consistent st →
  moved_forward st st' →
  order_events st' = (order_events st ++ evs)%list →
  Forall (λ e, legal_event e ∧ is_Some (orders st !! OrderEvent.order_id e)) evs →
  consistent st'.
Proof.
  intros (Href & Hsess & Hoc & Htc & Hev) (Es & _ & _ & Ei & Ho) Ee Hevs.
  assert (∀ k, is_Some (orders st !! k) → is_Some (orders st' !! k)) as Hmono.
  { intros k [x Hx]. specialize (Ho k). rewrite Hx in Ho.
    destruct (orders st' !! k); [by eexists|done]. }
  assert (∀ k r', orders st' !! k = Some r' →
            ∃ r, orders st !! k = Some r ∧ same_sale r r') as Hback.
  { intros k r' Hk. specialize (Ho k). rewrite Hk in Ho.
    destruct (orders st !! k) as [r|]; [|done]. exists r. split; [done|apply Ho]. }
  split; [|split; [|split; [|split]]].
  - intros it. rewrite Ei. intros Hin. by apply Hmono, Href.
  - intros k r' s Hk Hs. destruct (Hback _ _ Hk) as (r & Hr & Hsale).
    rewrite Es. apply (Hsess k r s Hr). destruct Hsale as (_ & _ & E & _). congruence.
  - intros k1 k2 r1 r2 H1 H2 Hc.
    destruct (Hback _ _ H1) as (r1' & Hr1 & (E1 & _)).
    destruct (Hback _ _ H2) as (r2' & Hr2 & (E2 & _)).
    apply (Hoc k1 k2 r1' r2' Hr1 Hr2). congruence.
  - intros k1 k2 r1 r2. rewrite Es. apply Htc.
  - rewrite Ee. apply Forall_app. split.
    + eapply Forall_impl; [exact Hev|]. intros e [? ?]. split; [done|]. by apply Hmono.
    + eapply Forall_impl; [exact Hevs|]. intros e [? ?]. split; [done|]. by apply Hmono.
Qed.

Lemma ensureSession_consistent env sid st r st1 :
  consistent st →
  Orders.ensureSession env sid st = (r, st1) →
  consistent st1.
Proof.
  intros Hc H. apply ensureSession_cases in H. destruct (truthy sid).
  - by destruct H as [-> _].
  - simpl in H. destruct (CreateEnv.session_fails env); simpl in H;
      [by destruct H as [-> _]|].
    case_bool_decide as Hf; simpl in H; [by destruct H as [-> _]|].
    destruct (Db.ticket_code_taken _ _) eqn:Ht; [by destruct H as [-> _]|].
    destruct H as [_ ->]. apply consistent_insert_session; [done| |done].
    destruct (order_sessions st !! _) eqn:E; [|done]. destruct Hf. by eexists.
Qed.

Lemma route_ensureSession_consistent env sid st r st1 :
  consistent st →
  CreateRoute.ensureSession env sid st = (r, st1) →
  consistent st1.
Proof.
  intros Hc H. apply route_ensureSession_cases in H. destruct (truthy sid).
  - by destruct H as [-> _].
  - simpl in H. destruct (CreateEnv.session_fails env); simpl in H;
      [by destruct H as [-> _]|].
    case_bool_decide as Hf; simpl in H; [by destruct H as [-> _]|].
    destruct (Db.ticket_code_taken _ _) eqn:Ht; [by destruct H as [-> _]|].
    destruct H as [_ ->]. apply consistent_insert_session; [done| |done].
    destruct (order_sessions st !! _) eqn:E; [|done]. destruct Hf. by eexists.
Qed.

Lemma initial_event_ok id (fails : bool) :
  Forall (λ e, legal_event e ∧ OrderEvent.order_id e = id)
    (if fails then [] else [OrderEvent.mk id None preparing Actor.cashier]).
Proof. destruct fails; constructor; [by split|constructor]. Qed.

(** X15: every operation keeps the store consistent. On a store that
    respects the foreign keys of line items and orders and the uniqueness of
    order codes and ticket codes, and whose log holds only first events and
    legal moves of orders of the store, the store after [createOrder], after
    a request to the create route, after [updateOrderStatus] of either
    revision and after a request to the ticket route is such a store again,
    whatever the inputs and however the call ends. *)
Theorem operations_keep_store_consistent st :
  consistent st →
  (∀ env input, consistent (Orders.createOrder env input st).2)
  ∧ (∀ env body, consistent (CreateRoute.POST env body st).2)
  ∧ (∀ env input, consistent (Orders.updateOrderStatus env input st).2)
  ∧ (∀ env input, consistent (OrdersWithTiming.updateOrderStatus env input st).2)
  ∧ (∀ env, consistent (SessionsStart.POST env st).2).
Proof.
  intros Hc. split; [|split; [|split; [|split]]].
  - intros env input.
    destruct (Orders.createOrder env input st) as [r st'] eqn:H. simpl.
    apply createOrder_trace in H as (st1 & Hsame & Es & Hs & H).
    assert (consistent st1) as Hc1.
    { destruct Hs as [[_ ->] | (_ & rs & Hs)]; [done|].
      by eapply ensureSession_consistent. }
    destruct H as [(e & _ & _ & ->)
                  | (s & t & l & Hens & Hnone & Hcode & _ & _ & _ & H)]; [done|].
    destruct (ensureSession_Ok_ticket _ _ _ _ _ Hens) as (ticket & Hticket & _).
    simpl in H. destruct H as [(_ & _ & ->) | (_ & _ & ->)].
    + rewrite <- (app_nil_r (order_items st1)), <- (app_nil_r (order_events st1)).
      apply consistent_new_order; try done.
      intros sid [= <-]. by eexists.
    + apply consistent_new_order; try done.
      * intros sid [= <-]. by eexists.
      * apply with_order_id_rows.
      * apply initial_event_ok.
  - intros env body.
    destruct (CreateRoute.POST env body st) as [r st'] eqn:H. simpl.
    apply POST_trace in H as (st1 & Hsame & Es & Hsub & Hs & H).
    assert (consistent st1) as Hc1.
    { destruct Hs as [-> | (rs & Hs)]; [done|].
      by eapply route_ensureSession_consistent. }
    destruct H as [[_ ->]
                  | (v & i & s & t & l & _ & _ & Hens & Hnone & Hcode & _ & _ & H)];
      [done|].
    destruct (route_ensureSession_Ok_ticket _ _ _ _ _ Hens) as (ticket & Hticket & _).
    simpl in H. destruct H as [(_ & ->) | (_ & ->)].
    + rewrite <- (app_nil_r (order_items st1)), <- (app_nil_r (order_events st1)).
      apply consistent_new_order; try done.
      intros sid [= <-]. by eexists.
    + apply consistent_new_order; try done.
      * intros sid [= <-]. by eexists.
      * apply with_order_id_rows.
      * apply initial_event_ok.
  - intros env input.
    pose proof (updateOrderStatus_moved_forward env input st) as Hm.
    destruct (updateOrderStatus_trace env input st)
      as [[E _] | (cur & Hcur & Hlegal & _ & _ & E)].
    { by rewrite E. }
    eapply consistent_moved_forward; [done|done|by rewrite E|].
    apply load_current_row in Hcur as (r & Hr & _).
    destruct (UpdateEnv.event_fails env); [constructor|].
    constructor; [split; [exact Hlegal|by eexists]|constructor].
  - intros env input.
    pose proof (timed_updateOrderStatus_moved_forward env input st) as Hm.
    destruct (timed_updateOrderStatus_trace env input st)
      as [E | (cur & Hcur & Hlegal & E)].
    { by rewrite E. }
    eapply consistent_moved_forward; [done|done|by rewrite E|].
    apply timed_load_current_row in Hcur as (r & Hr & _).
    destruct (UpdateEnv.event_fails env); [constructor|].
    constructor; [split; [exact Hlegal|by eexists]|constructor].
  - intros env.
    destruct (sessions_start_trace env st) as [-> | (sid & row & Hnone & Htaken & ->)];
      [done|].
    by apply consistent_insert_session.
Qed.

(** ** The board of a vendor *)

Lemma created_asc_total a b :
  DbJoin.created_asc a b = true ∨ DbJoin.created_asc b a = true.
Proof.
  unfold DbJoin.created_asc.
  destruct (Order.created_at a.2) as [x|], (Order.created_at b.2) as [y|]; auto.
  destruct (decide (x ≤ y)).
  - left. by apply bool_decide_eq_true.
  - right. apply bool_decide_eq_true. lia.
Qed.

Lemma created_asc_trans a b c :
  DbJoin.created_asc a b = true → DbJoin.created_asc b c = true →
  DbJoin.created_asc a c = true.
Proof.
  unfold DbJoin.created_asc.
  destruct (Order.created_at a.2) as [x|], (Order.created_at b.2) as [y|],
    (Order.created_at c.2) as [z|]; try done.
  rewrite !bool_decide_eq_true. lia.
Qed.

Lemma created_asc_oldest_first a b :
  DbJoin.created_asc a b = true →
  oldest_first (Order.created_at a.2) (Order.created_at b.2).
Proof.
  unfold DbJoin.created_asc, oldest_first.
  destruct (Order.created_at a.2) as [x|], (Order.created_at b.2) as [y|]; try done.
  by rewrite bool_decide_eq_true.
Qed.

Lemma NoDup_fst_filter {A B : Type} (P : A * B → Prop) `{∀ x, Decision (P x)}
    (l : list (A * B)) :
  NoDup (map fst l) → NoDup (map fst (filter P l)).
Proof.
  induction l as [|x l IH]; simpl; [done|].
  intros [Hnot Hnd]%NoDup_cons. rewrite filter_cons.
  destruct (decide (P x)); simpl; [|by apply IH].
  apply NoDup_cons. split; [|by apply IH].
  intros Hin. apply Hnot. apply list_elem_of_fmap in Hin as (y & -> & Hy).
  apply list_elem_of_filter in Hy as [_ Hy]. apply list_elem_of_fmap. by exists y.
Qed.

Lemma active_status s : s ∈ [preparing; ready] ↔ s ≠ collected.
Proof.
  rewrite !elem_of_cons, elem_of_nil. destruct s; split; try done; intuition congruence.
Qed.

Lemma listVendorActiveOrders_aux vendorId st :
  ∃ l,
    OrdersRead.listVendorActiveOrders false vendorId st = Ok l
    ∧ ∀ v, v ∈ l ↔
        ∃ k r, orders st !! k = Some r
               ∧ Order.vendor_id r = Some vendorId
               ∧ Order.status r ≠ collected
               ∧ v = VendorOrder.mk k (Order.order_code r) (Order.status r)
                       (Order.created_at r) (Order.total_cents r)
                       (map (DbJoin.item_json false) (items_of st k)).
Proof.
  eexists. split; [reflexivity|].
  set (sorted := stable_sort DbJoin.created_asc (DbJoin.active_of_vendor vendorId st)).
  assert (sorted ≡ₚ DbJoin.active_of_vendor vendorId st) as Hperm
    by apply stable_sort_Permutation.
  intros v. rewrite list_elem_of_fmap. split.
  - intros ([k r] & -> & Hin). rewrite Hperm in Hin.
    apply list_elem_of_filter in Hin as [[Hv Hs] Hin]. simpl in *.
    apply elem_of_map_to_list in Hin. apply active_status in Hs.
    exists k, r. by repeat split.
  - intros (k & r & Hk & Hv & Hs & ->). exists (k, r). split; [done|].
    rewrite Hperm. apply list_elem_of_filter. split.
    + split; [done|]. by apply active_status.
    + by apply elem_of_map_to_list.
Qed.

(** X16: the board of a vendor. [listVendorActiveOrders] throws when the load
    fails; otherwise it returns exactly the orders of the store that belong
    to the vendor and are not collected, each once, oldest first (an order
    without a creation time last), each with its key, code, status, total
    and its line items without prices. The vendor-active route answers 400
    without a vendor id, 200 with that list, and 500 when the load fails. *)
Theorem listVendorActiveOrders_spec vendorId st :
  OrdersRead.listVendorActiveOrders true vendorId st
  = Throw (Error "Failed to load vendor orders.")
  ∧ ∃ l,
      OrdersRead.listVendorActiveOrders false vendorId st = Ok l
      ∧ (∀ v, v ∈ l ↔
           ∃ k r, orders st !! k = Some r
                  ∧ Order.vendor_id r = Some vendorId
                  ∧ Order.status r ≠ collected
                  ∧ v = VendorOrder.mk k (Order.order_code r) (Order.status r)
                          (Order.created_at r) (Order.total_cents r)
                          (map (DbJoin.item_json false) (items_of st k)))
      ∧ NoDup (map VendorOrder.id l)
      ∧ StronglySorted
          (λ a b, oldest_first (VendorOrder.created_at a) (VendorOrder.created_at b)) l
      ∧ Forall (λ v, Forall (λ it, ItemJson.unit_price_cents it = None)
                       (VendorOrder.order_items v)) l
      ∧ (truthy_string vendorId = true →
         VendorActiveRoute.GET false (Some vendorId) st = Response.ok l
         ∧ VendorActiveRoute.GET true (Some vendorId) st
           = Response.fail 500 "Failed to load vendor orders.")
      ∧ (∀ fails,
           VendorActiveRoute.GET fails None st = Response.fail 400 "Missing vendorId"
           ∧ VendorActiveRoute.GET fails (Some EmptyString) st
             = Response.fail 400 "Missing vendorId").
Proof.
  split; [done|]. destruct (listVendorActiveOrders_aux vendorId st) as (l & Hl & Hmem).
  exists l. split; [done|]. split; [done|].
  assert (Hroute : truthy_string vendorId = true →
            VendorActiveRoute.GET false (Some vendorId) st = Response.ok l
            ∧ VendorActiveRoute.GET true (Some vendorId) st
              = Response.fail 500 "Failed to load vendor orders.").
  { intros Ht. unfold VendorActiveRoute.GET, truthy. rewrite Ht.
    change (default EmptyString (Some vendorId)) with vendorId.
    split; [by rewrite Hl|done]. }
  cut (NoDup (map VendorOrder.id l)
       ∧ StronglySorted
           (λ a b, oldest_first (VendorOrder.created_at a) (VendorOrder.created_at b)) l
       ∧ Forall (λ v, Forall (λ it, ItemJson.unit_price_cents it = None)
                        (VendorOrder.order_items v)) l).
  { intros (H1 & H2 & H3). by repeat (split; [done|]). }
  clear Hroute. injection Hl as <-.
  set (sorted := stable_sort DbJoin.created_asc (DbJoin.active_of_vendor vendorId st)).
  assert (sorted ≡ₚ DbJoin.active_of_vendor vendorId st) as Hperm
    by apply stable_sort_Permutation.
  split; [|split].
  - rewrite map_map. simpl. change (map (λ x : string * Order.row, x.1) sorted)
      with (map fst sorted).
    assert (map fst sorted ≡ₚ map fst (DbJoin.active_of_vendor vendorId st)) as ->
      by (by rewrite Hperm).
    apply NoDup_fst_filter. apply NoDup_fst_map_to_list.
  - change (map (DbJoin.vendor_order st) sorted) with (DbJoin.vendor_order st <$> sorted).
    eapply (StronglySorted_fmap _ (λ a b, DbJoin.created_asc a b = true)).
    + intros a b. apply created_asc_oldest_first.
    + apply stable_sort_sorted; [apply created_asc_total|apply created_asc_trans].
  - apply Forall_forall. intros v Hin. apply list_elem_of_fmap in Hin as (kr & -> & _).
    simpl. unfold DbJoin.items_json. apply Forall_forall.
    intros it Hit. by apply list_elem_of_fmap in Hit as (x & -> & _).
Qed.

Lemma updateOrderStatus_stored env input st d :
  (Orders.updateOrderStatus env input st).1 = Ok d →
  ∃ r, orders (Orders.updateOrderStatus env input st).2 !! DbOrderMinimal.id d = Some r
       ∧ Order.status r = DbOrderMinimal.status d.
Proof.
  intros Hok.
  destruct (updateOrderStatus_trace env input st)
    as [[E Hnoop] | (cur & Hcur & Hlegal & _ & Hres & E)].
  - rewrite E. rewrite Hok in Hnoop. destruct Hnoop as (cur & Hcur & _ & [= ->]); [done|].
    apply load_current_row in Hcur as (r & Hr & Hst). by exists r.
  - rewrite E. simpl. rewrite Hok in Hres. injection Hres as ->. simpl.
    apply load_current_row in Hcur as (r & Hr & Hst).
    exists (Order.set_status (UpdateOrderStatusInput.toStatus input) r).
    split; [by rewrite lookup_alter_eq, Hr|done].
Qed.

(** X17: the board follows the lifecycle. The status [updateOrderStatus]
    returns is the status the store holds for that order after the call. So
    once a call has returned collected for an order, the order is on the
    board of no vendor, and when it has returned ready the order is on the
    board of its vendor as ready. An order accepted by [createOrder] is on
    the board of its vendor as preparing. *)
Theorem board_follows_lifecycle :
  (∀ env input st d,
     (Orders.updateOrderStatus env input st).1 = Ok d →
     let st' := (Orders.updateOrderStatus env input st).2 in
     (∃ r, orders st' !! DbOrderMinimal.id d = Some r
           ∧ Order.status r = DbOrderMinimal.status d)
     ∧ ∀ vendorId l,
         OrdersRead.listVendorActiveOrders false vendorId st' = Ok l →
         (DbOrderMinimal.status d = collected →
          DbOrderMinimal.id d ∉ map VendorOrder.id l)
         ∧ (DbOrderMinimal.status d ≠ collected →
            (∃ r, orders st' !! DbOrderMinimal.id d = Some r
                  ∧ Order.vendor_id r = Some vendorId) →
            ∃ v, v ∈ l ∧ VendorOrder.id v = DbOrderMinimal.id d
                 ∧ VendorOrder.status v = DbOrderMinimal.status d))
  ∧ (∀ env input st res st' l,
       Orders.createOrder env input st = (Ok res, st') →
       OrdersRead.listVendorActiveOrders false (CreateOrderInput.vendorId input) st'
       = Ok l →
       ∃ v, v ∈ l ∧ VendorOrder.id v = CreatedOrderResult.orderId res
            ∧ VendorOrder.order_code v = CreatedOrderResult.orderCode res
            ∧ VendorOrder.status v = preparing
            ∧ VendorOrder.total_cents v = CreatedOrderResult.totalCents res).
Proof.
  split.
  - intros env input st d Hok st'.
    destruct (updateOrderStatus_stored _ _ _ _ Hok) as (r & Hr & Hst).
    fold st' in Hr. split; [by exists r|]. intros vendorId l Hl.
    destruct (listVendorActiveOrders_aux vendorId st') as (l' & Hl' & Hmem).
    rewrite Hl in Hl'. injection Hl' as <-. split.
    + intros Hc Hin. apply list_elem_of_fmap in Hin as (v & Hid & Hv).
      apply Hmem in Hv as (k & r' & Hk & _ & Hs & ->). simpl in Hid. subst k.
      rewrite Hr in Hk. injection Hk as <-. congruence.
    + intros Hnc (r' & Hr' & Hv). rewrite Hr in Hr'. injection Hr' as <-.
      exists (VendorOrder.mk (DbOrderMinimal.id d) (Order.order_code r)
                (Order.status r) (Order.created_at r) (Order.total_cents r)
                (map (DbJoin.item_json false) (items_of st' (DbOrderMinimal.id d)))).
      split; [|done]. apply Hmem. exists (DbOrderMinimal.id d), r.
      split; [done|]. split; [done|]. split; [congruence|done].
  - intros env input st res st' l H Hl.
    destruct (listVendorActiveOrders_aux (CreateOrderInput.vendorId input) st')
      as (l' & Hl' & Hmem).
    rewrite Hl in Hl'. injection Hl' as <-.
    apply createOrder_trace in H as (st1 & _ & _ & _ & H).
    destruct H as [(e' & ? & _) | (s & t & lines & _ & _ & _ & _ & _ & _ & H)]; [done|].
    simpl in H. destruct H as [(? & _) | ([= ->] & _ & ->)]; [done|].
    set (st' := mkStore _ _ _ _ _ _) in *.
    set (row := new_order _ _ _ _ _ _ _) in *.
    exists (VendorOrder.mk (CreateEnv.new_order_id env) (Order.order_code row)
              (Order.status row) (Order.created_at row) (Order.total_cents row)
              (map (DbJoin.item_json false) (items_of st' (CreateEnv.new_order_id env)))).
    split; [|done]. apply Hmem. exists (CreateEnv.new_order_id env), row.
    split; [apply lookup_insert_eq|]. done.
Qed.

(** ** The status page *)

(** X18: how the status route resolves a code. Without a code it answers
    400. With a code, on a store where ticket codes and order codes are
    unique: when a ticket carries the code the answer is that ticket with
    its orders, whose line items come without prices, whether or not an
    order carries the same code; when no ticket carries the code, or the
    ticket query fails, and an order carries it, the answer is that order;
    when neither is found, or both queries fail, the answer is 404, never
    500. *)
Theorem status_by_code_resolution st code :
  ticket_codes_unique st →
  order_codes_unique st →
  truthy_string code = true →
  (∀ sf ofail, StatusByCodeRoute.GET sf ofail None st = Response.fail 400 "Missing code"
            ∧ StatusByCodeRoute.GET sf ofail (Some EmptyString) st
              = Response.fail 400 "Missing code")
  ∧ (∀ ofail k s,
       order_sessions st !! k = Some s → Session.ticket_code s = code →
       ∃ d, StatusByCodeRoute.GET false ofail (Some code) st
            = Response.ok (StatusByCodeRoute.session d)
         ∧ SessionDetail.id d = k
         ∧ SessionDetail.ticket_code d = code
         ∧ SessionDetail.status d = Session.status s
         ∧ SessionDetail.orders d
           = map (DbJoin.order_detail false st) (DbJoin.orders_of_session k st)
         ∧ Forall (λ o, Forall (λ it, ItemJson.unit_price_cents it = None)
                          (OrderDetail.order_items o)) (SessionDetail.orders d))
  ∧ (∀ sf k r,
       (sf = true ∨ ∀ k s, order_sessions st !! k = Some s → Session.ticket_code s ≠ code) →
       orders st !! k = Some r → Order.order_code r = code →
       StatusByCodeRoute.GET sf false (Some code) st
       = Response.ok (StatusByCodeRoute.order (DbJoin.order_detail true st (k, r))))
  ∧ (∀ sf ofail,
       (sf = true ∨ ∀ k s, order_sessions st !! k = Some s → Session.ticket_code s ≠ code) →
       (ofail = true ∨ ∀ k r, orders st !! k = Some r → Order.order_code r ≠ code) →
       StatusByCodeRoute.GET sf ofail (Some code) st
       = Response.fail 404 "No ticket or order found for this code.").
Proof.
  intros Htc Hoc Hcode.
  assert (Hnoticket : ∀ sf with_price,
            (sf = true ∨ ∀ k s, order_sessions st !! k = Some s →
                                Session.ticket_code s ≠ code) →
            DbJoin.select_session_detail sf with_price code st = None).
  { intros sf wp [-> | Hno]; [done|]. unfold DbJoin.select_session_detail.
    destruct sf; [done|]. unfold DbJoin.sessions_with_code.
    rewrite filter_none; [done|]. intros [k s] Hin Hc.
    apply elem_of_map_to_list in Hin. by eapply Hno. }
  split; [done|]. split; [|split].
  - intros ofail k s Hk Hc. unfold StatusByCodeRoute.GET. simpl. rewrite Hcode. simpl.
    unfold DbJoin.select_session_detail, DbJoin.sessions_with_code.
    rewrite (single_unique _ _ k s); [|done|done|].
    2:{ intros k' s' Hk' Hc'. eapply Htc; [done|done|]. simpl in *. congruence. }
    simpl. eexists. split; [reflexivity|]. simpl. rewrite Hc.
    split; [done|]. split; [done|]. split; [done|]. split; [done|].
    apply Forall_forall. intros o Hin.
    apply list_elem_of_fmap in Hin as (kr & -> & _). simpl.
    apply Forall_forall. intros it Hit.
    by apply list_elem_of_fmap in Hit as (x & -> & _).
  - intros sf k r Hno Hk Hc. unfold StatusByCodeRoute.GET. simpl. rewrite Hcode. simpl.
    rewrite Hnoticket by done.
    unfold DbJoin.select_order_detail, DbJoin.orders_with_code.
    rewrite (single_unique _ _ k r); [done|done|done|].
    intros k' r' Hk' Hc'. eapply Hoc; [done|done|]. simpl in *. congruence.
  - intros sf ofail Hno Hnoorder. unfold StatusByCodeRoute.GET. simpl. rewrite Hcode. simpl.
    rewrite Hnoticket by done.
    assert (DbJoin.select_order_detail ofail code st = None) as ->; [|done].
    destruct Hnoorder as [-> | Hnoorder]; [done|].
    unfold DbJoin.select_order_detail. destruct ofail; [done|].
    unfold DbJoin.orders_with_code.
    rewrite filter_none; [done|]. intros [k r] Hin Hc.
    apply elem_of_map_to_list in Hin. by eapply Hnoorder.
Qed.

(** ** The codes *)

(** X19: the codes [generateSimpleCode] can give. For a draw of
    [Math.random()], which is a float, at least 0 and below 1, the code is
    the prefix, a dash and the floor of 1000 plus 9000 times the draw as
    binary64 arithmetic evaluates it, an integer from 1000 to 9999, the
    same in the two copies of the function and in [generateTicketCode] of
    the ticket route; it is never the empty string; and two draws give the
    same code exactly when they give the same integer, so a prefix has at
    most 9000 codes. *)
Theorem generateSimpleCode_codes prefix (u u' : Qc) :
  fl u = u → (0 ≤ u)%Qc → (u < 1)%Qc →
  let n := Math_floor (fadd (of_int 1000) (fmul u (of_int 9000))) in
  let n' := Math_floor (fadd (of_int 1000) (fmul u' (of_int 9000))) in
  1000 ≤ n ≤ 9999
  ∧ Orders.generateSimpleCode u prefix = prefix +:+ "-" +:+ pretty n
  ∧ CreateRoute.generateSimpleCode u prefix = Orders.generateSimpleCode u prefix
  ∧ SessionsStart.generateTicketCode u = Orders.generateSimpleCode u "WL"
  ∧ truthy_string (Orders.generateSimpleCode u prefix) = true
  ∧ (Orders.generateSimpleCode u prefix = Orders.generateSimpleCode u' prefix
     ↔ n = n').
Proof.
  intros Hfl H0 H1 n n'. split; [by apply floor_of_draw|].
  split; [done|]. split; [done|]. split; [done|]. split.
  - unfold Orders.generateSimpleCode. destruct prefix; reflexivity.
  - unfold Orders.generateSimpleCode, show_int. fold n n'. split.
    + intros E. apply (inj (String.app prefix)) in E.
      apply (inj (String.app "-")) in E. by apply (inj pretty) in E.
    + by intros ->.
Qed.

(** ** The rest of the summary *)

Lemma totals_fold acc os :
  let acc' := foldl AdminDashboard.totals_step acc os in
  AdminDashboard.activeOrders acc'
  = AdminDashboard.activeOrders acc + Z.of_nat (length (filter active os))
  ∧ AdminDashboard.taxCentsFromDb acc'
    = AdminDashboard.taxCentsFromDb acc + tax_total os
  ∧ (AdminDashboard.anyNonZeroTax acc' = true
     ↔ AdminDashboard.anyNonZeroTax acc = true ∨ Exists taxed os).
Proof.
  revert acc. induction os as [|o os IH]; intros acc; simpl.
  - unfold tax_total. simpl. split; [lia|]. split; [lia|].
    rewrite Exists_nil. tauto.
  - destruct (IH (AdminDashboard.totals_step acc o)) as (-> & -> & ->).
    rewrite filter_cons, Exists_cons. unfold tax_total, taxed, active. simpl.
    unfold nullish. split; [|split].
    + case_bool_decide; destruct (decide _); simpl; try done; lia.
    + lia.
    + case_bool_decide; tauto.
Qed.

Lemma Exists_Permutation {A : Type} (P : A → Prop) (l1 l2 : list A) :
  l1 ≡ₚ l2 → Exists P l1 → Exists P l2.
Proof.
  intros Hp. rewrite !Exists_exists. intros (x & Hx & HP). exists x.
  split; [by rewrite <- Hp|done].
Qed.

(** The summary, once the orders are loaded: the fields of step 3 and of
    steps 5 and 6. *)
Lemma getAdminSummary_Ok_rest env date st s :
  AdminDashboard.getAdminSummary env date st = Ok s →
  let safeOrders := stable_sort Db.created_desc (day_orders env date st) in
  let acc := foldl AdminDashboard.totals_step
               (AdminDashboard.mkTotals 0 0 false 0 []) safeOrders in
  AdminSummary.activeOrders s = AdminDashboard.activeOrders acc
  ∧ AdminSummary.taxToday s
    = (if AdminDashboard.anyNonZeroTax acc
          && bool_decide (0 < AdminDashboard.taxCentsFromDb acc)
       then fdiv (of_int (AdminDashboard.taxCentsFromDb acc)) (of_int 100)
       else fsub (fl (AdminSummary.revenueToday s))
                 (fdiv (fl (AdminSummary.revenueToday s))
                       (fadd 1 (fdiv AdminDashboard.DEFAULT_VAT_RATE (of_int 100)))))
  ∧ AdminSummary.latestOrders s = map AdminDashboard.to_latest (take 40 safeOrders)
  ∧ AdminSummary.topItem s
    = (if bool_decide (0 < length (map fst safeOrders))%nat then
         match Db.select_order_items (AdminDashboard.items_fails env)
                 (map fst safeOrders) st with
         | None => None
         | Some items =>
             let best := foldl AdminDashboard.best_step (None, 0)
                           (foldl AdminDashboard.item_step [] items) in
             if truthy best.1
             then Some (TopItem.mk (default EmptyString best.1) best.2)
             else None
         end
       else None).
Proof.
  unfold AdminDashboard.getAdminSummary.
  destruct (AdminDashboard.getDayBounds env date) as [start end_] eqn:Hb.
  destruct (AdminDashboard.orders_fails env) eqn:Hf.
  { unfold Db.select_orders_created_between. done. }
  pose proof (select_orders_day env date st Hf) as Hsel.
  unfold day_orders in Hsel |- *. rewrite Hb, Hf in Hsel. cbn [fst snd] in Hsel.
  rewrite Hsel, Hb. cbn [fst snd].
  intros [= <-]. simpl. split; [done|]. split; [done|]. split; [done|].
  case_bool_decide; [|done].
  destruct (Db.select_order_items _ _ _); [|done].
  by destruct (foldl AdminDashboard.best_step _ _).
Qed.

(** X20: the counts and the tax of the summary. The summary counts the
    orders of the day window and, as active, those that are not collected.
    Its tax is the sum of the tax the orders carry, divided by 100 in
    binary64 arithmetic, when some order carries a positive tax and the sum
    is positive; otherwise it is the VAT included in the revenue at
    16 percent, whatever rate the orders were sold at: the revenue minus
    the revenue over 1.16 in binary64 arithmetic, which is 0 for no revenue
    and for a positive revenue lies within [2 * Number.EPSILON] times the
    revenue of 4/29 of it. The summary route answers 200 with the
    summary. *)
Theorem summary_counts_and_tax env date st s :
  AdminDashboard.getAdminSummary env date st = Ok s →
  let os := day_orders env date st in
  let revenue := AdminSummary.revenueToday s in
  AdminSummaryRoute.GET env date st = Response.ok s
  ∧ AdminSummary.ordersToday s = Z.of_nat (length os)
  ∧ AdminSummary.activeOrders s = Z.of_nat (length (filter active os))
  ∧ 0 ≤ AdminSummary.activeOrders s ≤ AdminSummary.ordersToday s
  ∧ (Exists taxed os → 0 < tax_total os →
     AdminSummary.taxToday s = fdiv (of_int (tax_total os)) (of_int 100))
  ∧ (¬ (Exists taxed os ∧ 0 < tax_total os) →
     AdminSummary.taxToday s
     = fsub (fl revenue) (fdiv (fl revenue) (fadd 1 (fdiv (of_int 16) (of_int 100))))
     ∧ (cents_total os = 0 → AdminSummary.taxToday s = of_int 0)
     ∧ (0 < cents_total os →
        (revenue * (Q2Qc (4 # 29) - 2 * Number_EPSILON) <= AdminSummary.taxToday s)%Qc
        ∧ (AdminSummary.taxToday s
           <= revenue * (Q2Qc (4 # 29) + 2 * Number_EPSILON))%Qc)).
Proof.
  intros H os revenue.
  pose proof (getAdminSummary_Ok_rest _ _ _ _ H) as (Ha & Ht & _).
  pose proof (getAdminSummary_Ok_inv _ _ _ _ H) as (_ & so & -> & Hn & Hrev & _).
  set (sorted := stable_sort Db.created_desc (day_orders env date st)) in *.
  assert (sorted ≡ₚ os) as Hperm by apply stable_sort_Permutation.
  destruct (totals_fold (AdminDashboard.mkTotals 0 0 false 0 []) sorted)
    as (Hact & Htax & Hany).
  simpl in Hact, Htax, Hany. rewrite Hact in Ha. rewrite Htax, Z.add_0_l in Ht.
  rewrite totals_totalCents in Hrev. simpl in Hrev.
  rewrite (cents_total_Permutation _ _ Hperm) in Hrev. fold revenue in Hrev, Ht.
  assert (tax_total sorted = tax_total os) as Etax.
  { unfold tax_total. apply sum_Z_Permutation. by rewrite Hperm. }
  assert (length (filter active sorted) = length (filter active os)) as Eact
    by (by rewrite Hperm).
  assert (length sorted = length os) as Elen by (by rewrite Hperm).
  rewrite Etax in Ht. rewrite Eact in Ha. rewrite Elen in Hn.
  split; [unfold AdminSummaryRoute.GET; by rewrite H|].
  split; [done|]. split; [by rewrite Ha|]. split.
  { rewrite Ha, Hn. pose proof (length_filter active os). lia. }
  split.
  - intros Hex Hpos. rewrite Ht.
    assert (AdminDashboard.anyNonZeroTax
              (foldl AdminDashboard.totals_step
                 (AdminDashboard.mkTotals 0 0 false 0 []) sorted) = true) as ->.
    { apply Hany. right. by eapply Exists_Permutation. }
    by rewrite bool_decide_eq_true_2.
  - intros Hno.
    assert (AdminSummary.taxToday s
            = fsub (fl revenue)
                (fdiv (fl revenue) (fadd 1 (fdiv (of_int 16) (of_int 100))))) as Etoday.
    { rewrite Ht. destruct (AdminDashboard.anyNonZeroTax _) eqn:Eany; [|done].
      case_bool_decide as Hpos; [|done].
      destruct Hno. split; [|done].
      destruct (proj1 Hany eq_refl) as [?|Hex]; [done|].
      eapply Exists_Permutation; [|done]. done. }
    split; [done|]. rewrite Etoday, Hrev. split.
    + intros ->. apply (bool_decide_unpack _). by vm_compute.
    + intros Hpos. apply vat_part_bounds. lia.
Qed.

Lemma created_desc_total a b :
  Db.created_desc a b = true ∨ Db.created_desc b a = true.
Proof.
  unfold Db.created_desc. rewrite !bool_decide_eq_true. lia.
Qed.

Lemma created_desc_trans a b c :
  Db.created_desc a b = true → Db.created_desc b c = true →
  Db.created_desc a c = true.
Proof. unfold Db.created_desc. rewrite !bool_decide_eq_true. lia. Qed.

(** X21: the latest orders of the summary. The list holds at most 40
    entries, all of them orders of the day window, each once, newest first;
    when the day has more than 40 orders the ones left out are not newer
    than any that is listed. Each entry has the key, code and status of its
    order, its total in kwacha, and no table number. *)
Theorem latestOrders_newest_first env date st s :
  AdminDashboard.getAdminSummary env date st = Ok s →
  let os := day_orders env date st in
  let latest := AdminSummary.latestOrders s in
  length latest = Nat.min 40 (length os)
  ∧ (∀ o, o ∈ latest →
       ∃ k r, orders st !! k = Some r ∧ (k, r) ∈ os
              ∧ o = LatestOrder.mk k (Order.order_code r) None
                      (show_status (Order.status r))
                      (of_int (default 0%Z (Order.total_cents r)) / of_int 100)%Qc
                      (Order.created_at r)
              ∧ is_Some (Order.created_at r))
  ∧ NoDup (map LatestOrder.id latest)
  ∧ StronglySorted (λ a b, created_ms b ≤ created_ms a) latest
  ∧ (∀ kr, kr ∈ os →
       AdminDashboard.to_latest kr ∈ latest
       ∨ ∀ o, o ∈ latest → default 0 (Order.created_at kr.2) ≤ created_ms o).
Proof.
  intros H os latest.
  pose proof (getAdminSummary_Ok_rest _ _ _ _ H) as (_ & _ & Hl & _).
  fold latest in Hl. fold os in Hl.
  set (sorted := stable_sort Db.created_desc os) in *.
  assert (sorted ≡ₚ os) as Hperm by apply stable_sort_Permutation.
  assert (StronglySorted (λ a b, Db.created_desc a b = true) sorted) as Hsorted.
  { apply stable_sort_sorted; [apply created_desc_total|apply created_desc_trans]. }
  rewrite <- (take_drop 40 sorted) in Hsorted.
  apply StronglySorted_app in Hsorted as (Hcross & Htake & _).
  rewrite Hl. split; [|split; [|split; [|split]]].
  - by rewrite length_map, length_take, Hperm.
  - intros o Hin. apply list_elem_of_fmap in Hin as ([k r] & -> & Hin).
    apply subseteq_take in Hin. rewrite Hperm in Hin.
    pose proof Hin as Hin'. unfold os, day_orders in Hin'.
    apply list_elem_of_filter in Hin' as [Hday Hmap].
    apply elem_of_map_to_list in Hmap. exists k, r.
    split; [done|]. split; [done|]. split; [done|].
    unfold Db.created_between in Hday. simpl in Hday.
    by destruct (Order.created_at r).
  - rewrite map_map. simpl.
    change (map (λ x : string * Order.row, x.1) (take 40 sorted))
      with (map fst (take 40 sorted)).
    assert (NoDup (map fst sorted)) as Hnd.
    { assert (map fst sorted ≡ₚ map fst os) as -> by (by rewrite Hperm).
      apply NoDup_fst_filter, NoDup_fst_map_to_list. }
    rewrite <- (take_drop 40 sorted), map_app in Hnd.
    by apply NoDup_app in Hnd as (? & _).
  - change (map AdminDashboard.to_latest (take 40 sorted))
      with (AdminDashboard.to_latest <$> take 40 sorted).
    eapply (StronglySorted_fmap _ (λ a b, Db.created_desc a b = true)); [|done].
    intros a b. unfold Db.created_desc, created_ms. simpl.
    by rewrite bool_decide_eq_true.
  - intros kr Hin. rewrite <- Hperm, <- (take_drop 40 sorted) in Hin.
    apply elem_of_app in Hin as [Hin | Hin].
    + left. apply list_elem_of_fmap. by exists kr.
    + right. intros o Ho. apply list_elem_of_fmap in Ho as (x & -> & Hx).
      specialize (Hcross x kr Hx Hin). unfold Db.created_desc in Hcross.
      apply bool_decide_eq_true in Hcross. done.
Qed.

(** ** The best seller *)

Lemma JsMap_get_set {V : Type} (m : list (string * V)) k v k' :
  JsMap.get (JsMap.set m k v) k' = if decide (k = k') then Some v else JsMap.get m k'.
Proof.
  induction m as [|[k0 v0] m IH]; simpl.
  - rewrite JsMap_get_cons. by destruct (decide (k = k')).
  - destruct (decide (k0 = k)) as [-> | Hne].
    + rewrite !JsMap_get_cons. by destruct (decide (k = k')).
    + rewrite !JsMap_get_cons, IH.
      destruct (decide (k0 = k')) as [<- | ?]; [|done].
      by rewrite decide_False by congruence.
Qed.

Lemma JsMap_set_keys {V : Type} (m : list (string * V)) k v n :
  n ∈ map fst (JsMap.set m k v) ↔ n = k ∨ n ∈ map fst m.
Proof.
  induction m as [|[k0 v0] m IH]; simpl.
  - rewrite list_elem_of_singleton, elem_of_nil. tauto.
  - destruct (decide (k0 = k)) as [-> | Hne]; simpl; rewrite !elem_of_cons.
    + tauto.
    + rewrite IH. tauto.
Qed.

Lemma JsMap_set_NoDup {V : Type} (m : list (string * V)) k v :
  NoDup (map fst m) → NoDup (map fst (JsMap.set m k v)).
Proof.
  induction m as [|[k0 v0] m IH]; simpl.
  - intros _. apply NoDup_singleton.
  - intros [Hnot Hnd]%NoDup_cons. destruct (decide (k0 = k)) as [-> | Hne]; simpl.
    + by apply NoDup_cons.
    + apply NoDup_cons. split; [|by apply IH].
      rewrite JsMap_set_keys. intros [? | ?]; [congruence|done].
Qed.

Lemma JsMap_get_elem {V : Type} (m : list (string * V)) k v :
  JsMap.get m k = Some v → (k, v) ∈ m.
Proof.
  induction m as [|[k0 v0] m IH]; [done|]. rewrite JsMap_get_cons.
  destruct (decide (k0 = k)) as [-> | Hne].
  - intros [= ->]. left.
  - intros H. right. by apply IH.
Qed.

Lemma JsMap_elem_get {V : Type} (m : list (string * V)) k v :
  NoDup (map fst m) → (k, v) ∈ m → JsMap.get m k = Some v.
Proof.
  induction m as [|[k0 v0] m IH]; simpl; [by intros _ ?%elem_of_nil|].
  intros [Hnot Hnd]%NoDup_cons. rewrite JsMap_get_cons, elem_of_cons.
  intros [[= -> ->] | Hin].
  - by rewrite decide_True.
  - destruct (decide (k0 = k)) as [-> | Hne]; [|by apply IH].
    destruct Hnot. apply list_elem_of_fmap. by exists (k, v).
Qed.

Lemma item_totals_fold m items name :
  default 0 (JsMap.get (foldl AdminDashboard.item_step m items) name)
  = default 0 (JsMap.get m name) + sold items name.
Proof.
  revert m. induction items as [|it items IH]; intros m; simpl.
  - unfold sold. simpl. lia.
  - rewrite IH. unfold AdminDashboard.item_step at 1. fold (item_name it).
    rewrite JsMap_get_set. unfold sold. rewrite filter_cons.
    destruct (decide (item_name it = name)) as [-> | Hne]; simpl; unfold nullish; lia.
Qed.

Lemma item_totals_keys m items n :
  n ∈ map fst (foldl AdminDashboard.item_step m items) →
  n ∈ map fst m ∨ ∃ it, it ∈ items ∧ item_name it = n.
Proof.
  revert m. induction items as [|it items IH]; intros m; simpl; [auto|].
  intros Hin. apply IH in Hin as [Hin | (it' & Hit & Hn)].
  - unfold AdminDashboard.item_step in Hin. fold (item_name it) in Hin.
    apply JsMap_set_keys in Hin as [-> | Hin]; [|by left].
    right. exists it. split; [left|done].
  - right. exists it'. split; [by right|done].
Qed.

Lemma item_totals_NoDup m items :
  NoDup (map fst m) → NoDup (map fst (foldl AdminDashboard.item_step m items)).
Proof.
  revert m. induction items as [|it items IH]; intros m Hnd; simpl; [done|].
  apply IH. by apply JsMap_set_NoDup.
Qed.

Lemma best_fold (l : list (string * Z)) b q :
  q ≤ (foldl AdminDashboard.best_step (b, q) l).2
  ∧ (∀ n x, (n, x) ∈ l → x ≤ (foldl AdminDashboard.best_step (b, q) l).2)
  ∧ (foldl AdminDashboard.best_step (b, q) l = (b, q)
     ∨ ∃ n, (foldl AdminDashboard.best_step (b, q) l).1 = Some n
            ∧ (n, (foldl AdminDashboard.best_step (b, q) l).2) ∈ l
            ∧ q < (foldl AdminDashboard.best_step (b, q) l).2).
Proof.
  revert b q. induction l as [|[n x] l IH]; intros b q; simpl.
  - split; [lia|]. split; [by intros ? ? ?%elem_of_nil|by left].
  - unfold AdminDashboard.best_step at 2 4 6 8 10 12. simpl. case_bool_decide as Hlt.
    + destruct (IH (Some n) x) as (Hq & Hall & Hbest).
      split; [lia|]. split.
      * intros n' x' [[= -> ->] | Hin]%elem_of_cons; [exact Hq|by eapply Hall].
      * right. destruct Hbest as [E | (n' & Hn' & Hin & Hx)].
        -- exists n. rewrite E. simpl. split; [done|]. split; [left|lia].
        -- exists n'. split; [done|]. split; [by right|lia].
    + destruct (IH b q) as (Hq & Hall & Hbest).
      split; [done|]. split.
      * intros n' x' [[= -> ->] | Hin]%elem_of_cons; [lia|by eapply Hall].
      * destruct Hbest as [E | (n' & Hn' & Hin & Hx)]; [by left|].
        right. exists n'. split; [done|]. split; [by right|done].
Qed.

Lemma item_name_truthy it : truthy_string (item_name it) = true.
Proof.
  unfold item_name, or_else. destruct (OrderItem.name_snapshot it) as [s|]; [|done].
  by destruct (truthy_string s) eqn:E.
Qed.

Lemma filter_ext_elem {A : Type} (P Q : A → Prop) `{∀ x, Decision (P x)}
    `{∀ x, Decision (Q x)} (l : list A) :
  (∀ x, x ∈ l → (P x ↔ Q x)) → filter P l = filter Q l.
Proof.
  induction l as [|x l IH]; intros Hext; [done|]. rewrite !filter_cons.
  rewrite IH by (intros y Hy; apply Hext; by right).
  destruct (decide (P x)) as [HP | HP], (decide (Q x)) as [HQ | HQ]; try done.
  - destruct HQ. apply Hext; [left|done].
  - destruct HP. apply Hext; [left|done].
Qed.

(** X22: the top item of the summary. When the line items load, the top item
    is a name that the line items of the day's orders carry (a line without
    a name counts as Unknown item), its quantity is the sum of the
    quantities of the lines with that name and is positive, and no name
    adds up to more; the summary has no top item exactly when no name adds
    up to more than 0. *)
Theorem topItem_is_best_seller env date st s :
  AdminDashboard.getAdminSummary env date st = Ok s →
  AdminDashboard.items_fails env = false →
  let items := items_in st (day_orders env date st) in
  match AdminSummary.topItem s with
  | Some t =>
      0 < TopItem.quantity t
      ∧ TopItem.quantity t = sold items (TopItem.name t)
      ∧ (∃ it, it ∈ items ∧ item_name it = TopItem.name t)
      ∧ ∀ name, sold items name ≤ TopItem.quantity t
  | None => ∀ name, sold items name ≤ 0
  end.
Proof.
  intros H Hf items.
  pose proof (getAdminSummary_Ok_rest _ _ _ _ H) as (_ & _ & _ & ->).
  set (sorted := stable_sort Db.created_desc (day_orders env date st)).
  assert (sorted ≡ₚ day_orders env date st) as Hperm by apply stable_sort_Permutation.
  assert (Db.select_order_items (AdminDashboard.items_fails env) (map fst sorted) st
          = Some items) as ->.
  { unfold Db.select_order_items. rewrite Hf. f_equal. unfold items, items_in.
    apply filter_ext_elem. intros it _. by rewrite Hperm. }
  case_bool_decide as Hlen.
  2:{ assert (items = []) as ->; [|done].
      unfold items, items_in. apply filter_none. intros it _.
      assert (map fst (day_orders env date st) = []) as ->; [|by intros ?%elem_of_nil].
      apply nil_length_inv. rewrite <- Hperm. lia. }
  set (totals := foldl AdminDashboard.item_step [] items).
  assert (NoDup (map fst totals)) as Hnd by (apply item_totals_NoDup; constructor).
  assert (∀ name, default 0 (JsMap.get totals name) = sold items name) as Htot.
  { intros name. unfold totals. by rewrite item_totals_fold. }
  destruct (best_fold totals None 0) as (Hq & Hall & Hbest). cbv zeta.
  fold totals.
  set (best := foldl AdminDashboard.best_step (None, 0) totals) in *.
  assert (∀ name, sold items name ≤ best.2) as Hmax.
  { intros name. rewrite <- Htot.
    destruct (JsMap.get totals name) as [x|] eqn:E; simpl; [|done].
    apply (Hall name). by apply JsMap_get_elem. }
  destruct Hbest as [E | (n & Hn & Hin & Hpos)].
  { rewrite E in Hmax |- *. done. }
  rewrite Hn. cbn [truthy default].
  assert (∃ it, it ∈ items ∧ item_name it = n) as (it & Hit & Hname).
  { destruct (item_totals_keys [] items n) as [Hk | Hk]; [|by apply elem_of_nil in Hk|done].
    apply list_elem_of_fmap. by exists (n, best.2). }
  assert (truthy_string n = true) as ->
    by (rewrite <- Hname; apply item_name_truthy).
  cbn [TopItem.quantity TopItem.name]. unfold id.
  split; [done|]. split.
  { rewrite <- (Htot n). by rewrite (JsMap_elem_get totals n best.2). }
  split; [by exists it|done].
Qed.

(** ** The cashier page *)

Lemma cart_ok_alter f i cart :
  (∀ c, 1 ≤ Cashier.CartItem.quantity c → 1 ≤ Cashier.CartItem.quantity (f c)) →
  cart_ok cart → cart_ok (alter f i cart).
Proof. intros Hf Hok. apply Forall_alter; [done|]. intros c _. apply Hf. Qed.

Lemma cart_ok_insert i c cart :
  1 ≤ Cashier.CartItem.quantity c → cart_ok cart → cart_ok (<[i := c]> cart).
Proof. intros Hc Hok. by apply Forall_insert. Qed.

Lemma cart_ok_delete i cart : cart_ok cart → cart_ok (delete i cart).
Proof. intros Hok. by apply Forall_delete. Qed.

Lemma cart_ok_snoc c cart :
  1 ≤ Cashier.CartItem.quantity c → cart_ok cart → cart_ok (cart ++ [c]).
Proof. intros Hc Hok. apply Forall_app. split; [done|]. by constructor. Qed.

Lemma at_index_elem {A : Type} (l : list A) index x :
  Cashier.at_index l index = Some x → x ∈ l.
Proof.
  unfold Cashier.at_index. case_bool_decide; [|done].
  apply list_elem_of_lookup_2.
Qed.

Lemma addMenuItemToCart_cart_ok toLowerCase item s :
  cart_ok (Cashier.cart s) →
  cart_ok (Cashier.cart (Cashier.addMenuItemToCart toLowerCase item s)).
Proof.
  intros Hok. unfold Cashier.addMenuItemToCart.
  destruct (negb _); [done|].
  destruct (Cashier.shouldPromptForOption _ _); [done|].
  destruct (list_find _ _) as [[i existing]|]; simpl.
  - apply cart_ok_alter; [|done]. intros c Hc. simpl. lia.
  - by apply cart_ok_snoc.
Qed.

Lemma handleOptionSelect_cart_ok option s :
  cart_ok (Cashier.cart s) →
  cart_ok (Cashier.cart (Cashier.handleOptionSelect option s)).
Proof.
  intros Hok. unfold Cashier.handleOptionSelect.
  destruct (Cashier.optionTargetItem s); [|done].
  destruct (negb _); [done|]. simpl. by apply cart_ok_snoc.
Qed.

Lemma changeCartQuantity_cart_ok index delta s :
  cart_ok (Cashier.cart s) →
  cart_ok (Cashier.cart (Cashier.changeCartQuantity index delta s)).
Proof.
  intros Hok. unfold Cashier.changeCartQuantity.
  destruct (Cashier.at_index _ _) as [item|] eqn:E; [|done].
  case_bool_decide as Hq; simpl.
  - by apply cart_ok_delete.
  - apply cart_ok_insert; [simpl; lia|done].
Qed.

Lemma updateCartNotes_cart_ok index notes s :
  cart_ok (Cashier.cart s) →
  cart_ok (Cashier.cart (Cashier.updateCartNotes index notes s)).
Proof.
  intros Hok. unfold Cashier.updateCartNotes.
  destruct (Cashier.at_index _ _) as [item|] eqn:E; [|done]. simpl.
  apply cart_ok_insert; [|done]. simpl.
  apply at_index_elem in E. by apply (proj1 (Forall_forall _ _) Hok).
Qed.

Lemma handleSubmitTicket_cart world s db :
  Cashier.cart (Cashier.handleSubmitTicket world s db).1 = Cashier.cart s
  ∨ Cashier.cart (Cashier.handleSubmitTicket world s db).1 = [].
Proof.
  unfold Cashier.handleSubmitTicket. case_bool_decide; [by left|].
  destruct (Cashier.request_loop _ _ _ _ _ _ _ _ _) as [[e| |sid tc news] db'];
    simpl; auto.
Qed.

Lemma step_cart_ok toLowerCase sd a :
  cart_ok (Cashier.cart sd.1) → cart_ok (Cashier.cart (Cashier.step toLowerCase sd a).1).
Proof.
  intros Hok. destruct a; simpl; try done.
  - by apply addMenuItemToCart_cart_ok.
  - by apply handleOptionSelect_cart_ok.
  - by apply changeCartQuantity_cart_ok.
  - by apply updateCartNotes_cart_ok.
  - constructor.
  - destruct (handleSubmitTicket_cart world sd.1 sd.2) as [-> | ->]; [done|constructor].
Qed.

(** X23: the cart holds positive quantities. From a cart whose lines all
    have a quantity of at least 1, the empty cart of the first render in
    particular, whatever the cashier does (open a vendor, add an item, pick
    an option, change a quantity by any amount, edit a note, pick a payment
    method, start a new ticket, submit), every line of the cart has a
    quantity of at least 1. *)
Theorem cart_quantities_stay_positive toLowerCase actions s db :
  cart_ok (Cashier.cart s) →
  cart_ok (Cashier.cart (Cashier.run toLowerCase actions (s, db)).1).
Proof.
  unfold Cashier.run.
  change s with (s, db).1 at 1. generalize (s, db). clear s db.
  induction actions as [|a actions IH]; intros sd Hok; simpl; [done|].
  apply IH. by apply step_cart_ok.
Qed.

(** *** The grouping by vendor *)

#[local] Arguments sum_Z : simpl never.
#[local] Arguments lines_cents : simpl never.

Lemma group_fold m pre l :
  NoDup (map fst m) →
  (∀ v, JsMap.get m v = nonempty (lines_of_vendor v pre)) →
  NoDup (map fst (foldl Cashier.group_step m l))
  ∧ ∀ v, JsMap.get (foldl Cashier.group_step m l) v
         = nonempty (lines_of_vendor v (pre ++ l)).
Proof.
  revert m pre. induction l as [|c l IH]; intros m pre Hnd Hget; simpl.
  - by rewrite app_nil_r.
  - replace (pre ++ c :: l)%list with ((pre ++ [c]) ++ l)%list
      by (by rewrite <- app_assoc).
    apply IH.
    + by apply JsMap_set_NoDup.
    + intros v. unfold Cashier.group_step. rewrite JsMap_get_set.
      unfold lines_of_vendor. rewrite filter_app, filter_cons, filter_nil.
      destruct (decide (Cashier.CartItem.vendorId c = v)) as [-> | Hne].
      * rewrite Hget. unfold lines_of_vendor.
        destruct (filter _ pre) as [|x xs]; simpl; [done|].
        by destruct (xs ++ [c])%list eqn:E; [destruct xs|].
      * rewrite app_nil_r. apply Hget.
Qed.

Lemma group_by_vendor_spec cart :
  NoDup (map fst (Cashier.group_by_vendor cart))
  ∧ ∀ v items, (v, items) ∈ Cashier.group_by_vendor cart
               ↔ items = lines_of_vendor v cart ∧ items ≠ [].
Proof.
  destruct (group_fold [] [] cart) as [Hnd Hget]; [constructor|done|].
  simpl in Hget. fold (Cashier.group_by_vendor cart) in Hnd, Hget.
  split; [done|]. intros v items. split.
  - intros Hin. apply JsMap_elem_get in Hin; [|done]. rewrite Hget in Hin.
    destruct (lines_of_vendor v cart) as [|x xs]; simpl in Hin; [done|].
    by injection Hin as <-.
  - intros [-> Hne]. apply JsMap_get_elem. rewrite Hget.
    by destruct (lines_of_vendor v cart).
Qed.

Lemma sum_Z_cons x l : sum_Z (x :: l) = x + sum_Z l.
Proof. done. Qed.

Lemma sum_Z_nil : sum_Z [] = 0.
Proof. done. Qed.

Lemma lines_cents_nil : lines_cents [] = 0.
Proof. done. Qed.

Lemma lines_cents_cons c items :
  lines_cents (c :: items)
  = Cashier.CartItem.quantity c * Cashier.CartItem.price_cents c + lines_cents items.
Proof. done. Qed.

Lemma lines_cents_snoc items c :
  lines_cents (items ++ [c])
  = lines_cents items + Cashier.CartItem.quantity c * Cashier.CartItem.price_cents c.
Proof.
  unfold lines_cents. rewrite map_app, sum_Z_app. simpl.
  rewrite sum_Z_cons, sum_Z_nil. lia.
Qed.

Lemma group_cents_set m k items c :
  default [] (JsMap.get m k) = items →
  sum_Z (map (λ e : string * list Cashier.CartItem.t, lines_cents e.2)
             (JsMap.set m k (items ++ [c])%list))
  = sum_Z (map (λ e : string * list Cashier.CartItem.t, lines_cents e.2) m)
    + Cashier.CartItem.quantity c * Cashier.CartItem.price_cents c.
Proof.
  revert items. induction m as [|[k0 v0] m IH]; intros items.
  - intros <-. simpl. rewrite sum_Z_cons, !sum_Z_nil.
    rewrite (lines_cents_cons c []), lines_cents_nil. lia.
  - rewrite JsMap_get_cons. simpl. destruct (decide (k0 = k)) as [-> | Hne]; simpl.
    + intros <-. rewrite !sum_Z_cons, lines_cents_snoc. lia.
    + intros E. rewrite !sum_Z_cons, (IH items E). lia.
Qed.

Lemma group_cents cart :
  sum_Z (map (λ e : string * list Cashier.CartItem.t, lines_cents e.2)
             (Cashier.group_by_vendor cart))
  = lines_cents cart.
Proof.
  unfold Cashier.group_by_vendor.
  assert (∀ m, sum_Z (map (λ e : string * list Cashier.CartItem.t, lines_cents e.2)
                          (foldl Cashier.group_step m cart))
               = sum_Z (map (λ e : string * list Cashier.CartItem.t, lines_cents e.2) m)
                 + lines_cents cart) as H.
  { induction cart as [|c cart IH]; intros m; simpl.
    - rewrite lines_cents_nil. lia.
    - rewrite IH. unfold Cashier.group_step. rewrite (group_cents_set _ _ _ _ eq_refl).
      rewrite lines_cents_cons. lia. }
  rewrite H. simpl. rewrite sum_Z_nil. lia.
Qed.

Lemma cartTotalCents_lines cart : Cashier.cartTotalCents cart = lines_cents cart.
Proof.
  unfold Cashier.cartTotalCents.
  assert (∀ acc, foldl (λ sum item, sum + Cashier.CartItem.quantity item
                                          * Cashier.CartItem.price_cents item) acc cart
                 = acc + lines_cents cart) as H.
  { induction cart as [|c cart IH]; intros acc; simpl.
    - rewrite lines_cents_nil. lia.
    - rewrite IH, lines_cents_cons. lia. }
  by rewrite H.
Qed.

(** *** One request of a submit *)

Lemma POST_only_adds env body st :
  order_sessions st ⊆ order_sessions (CreateRoute.POST env body st).2
  ∧ orders st ⊆ orders (CreateRoute.POST env body st).2
  ∧ menu_items (CreateRoute.POST env body st).2 = menu_items st
  ∧ vendors (CreateRoute.POST env body st).2 = vendors st.
Proof.
  destruct (CreateRoute.POST env body st) as [resp st'] eqn:H. simpl.
  apply POST_trace in H as (st1 & (Ev & Em & Eo & _) & Es & Hsub & _ & H).
  rewrite <- Es in Hsub. split; [done|].
  destruct H as [[_ ->] | (v & i & s & t & l & _ & _ & _ & Hnone & _ & _ & _ & H)].
  { by rewrite Eo. }
  rewrite Eo in Hnone.
  simpl in H. destruct H as [[_ ->] | [_ ->]]; simpl; rewrite Eo;
    (split; [by apply insert_subseteq|done]).
Qed.

(** What an accepted request has done, for the loop of the page. *)
Lemma POST_ok_effect env body st resp st' created :
  CreateRoute.POST env body st = (resp, st') →
  Response.payload resp = Some created →
  let k := CreateRoute.DbSession.id (CreateRoute.Created.session created) in
  let id := CreateRoute.OrderJson.id (CreateRoute.Created.order created) in
  Response.success resp = true
  ∧ ∃ vendorId items row ticket,
      IncomingBody.vendorId body = Some vendorId
      ∧ IncomingBody.items body = Some items
      ∧ NoDup (map CreateOrderItemInput.menuItemId items)
      ∧ orders st !! id = None
      ∧ orders st' = <[id := row]> (orders st)
      ∧ Order.session_id row = Some k
      ∧ Order.status row = preparing
      ∧ Order.order_code row
        = CreateRoute.OrderJson.order_code (CreateRoute.Created.order created)
      ∧ Order.total_cents row
        = CreateRoute.OrderJson.total_cents (CreateRoute.Created.order created)
      ∧ Order.total_cents row = Some (cart_total (menu_items st) items)
      ∧ (IncomingBody.taxRate body = None →
         Order.net_cents row = Order.total_cents row
         ∧ Order.tax_cents row = Some 0)
      ∧ CreateRoute.OrderJson.vendor_id (CreateRoute.Created.order created)
        = Some vendorId
      ∧ order_sessions st' !! k = Some ticket
      ∧ Session.ticket_code ticket
        = CreateRoute.DbSession.ticket_code (CreateRoute.Created.session created)
      ∧ (if truthy (IncomingBody.sessionId body)
         then IncomingBody.sessionId body = Some k
              ∧ order_sessions st' = order_sessions st
         else k = CreateEnv.new_session_id env
              ∧ order_sessions st !! k = None
              ∧ order_sessions st' = <[k := ticket]> (order_sessions st)
              ∧ truthy_string (Session.ticket_code ticket) = true).
Proof.
  intros H Hpay k id.
  assert (NoDup (map CreateOrderItemInput.menuItemId
                   (default [] (IncomingBody.items body)))) as Hnd.
  { destruct (POST_Ok_inv _ _ _ _ _ _ H Hpay)
      as (v & i & s & st1 & m & t & l & _ & -> & _ & Hsel & Hlen & _). simpl.
    destruct (decide (NoDup (map CreateOrderItemInput.menuItemId i))) as [|Hno]; [done|].
    destruct (select_menu_items_duplicate _ _ _ _ Hno Hsel). by rewrite length_map. }
  apply POST_trace in H as (st1 & Hsame & Es & Hsub & _ & H).
  destruct H as [[(_ & Hnone & _) _]
                | (v & i & s & t & l & Hv & Hi & Hens & Hnone & Hcode & Ht & Hsnap & H)].
  { congruence. }
  pose proof Hsame as (Ev & Em & Eo & Ei & Ee).
  simpl in H. destruct H as [[-> _] | [-> ->]]; [done|]. simpl in Hpay.
  injection Hpay as <-. subst k id. simpl. split; [done|].
  destruct (route_ensureSession_Ok_ticket _ _ _ _ _ Hens) as (ticket & Hticket & Hcode').
  rewrite Hi in Hnd. simpl in Hnd. rewrite Eo in *.
  eexists v, i, _, ticket.
  split; [done|]. split; [done|]. split; [done|]. split; [done|].
  split; [reflexivity|]. simpl.
  split; [done|]. split; [done|]. split; [done|]. split; [done|]. split.
  { f_equal. rewrite Ht, <- (lines_total_with_order_id (CreateEnv.new_order_id env)).
    by apply snapshot_cart_total. }
  split.
  { intros ->. simpl. rewrite net_of_nonpositive.
    - split; [done|]. f_equal. lia.
    - rewrite of_int_0. intros Hlt. by apply Qclt_not_eq in Hlt. }
  split; [done|]. split; [done|]. split; [done|].
  apply route_ensureSession_cases in Hens.
  destruct (truthy (IncomingBody.sessionId body)) eqn:Htruthy.
  - destruct Hens as [-> Hsel]. unfold Db.select_session in Hsel.
    destruct (CreateEnv.session_fails env); [done|].
    destruct (IncomingBody.sessionId body) as [sid|]; [|done]. simpl in Hsel.
    destruct (order_sessions st !! sid); [|done]. simpl in Hsel.
    injection Hsel as ->. done.
  - simpl in Hens.
    destruct (CreateEnv.session_fails env); simpl in Hens; [by destruct Hens|].
    case_bool_decide as Hfresh; simpl in Hens; [by destruct Hens|].
    destruct (Db.ticket_code_taken _ _); [by destruct Hens|].
    destruct Hens as [[= ->] ->]. simpl in *.
    rewrite lookup_insert_eq in Hticket. injection Hticket as <-.
    split; [done|]. split.
    { destruct (order_sessions st !! _) eqn:E; [|done]. destruct Hfresh. by eexists. }
    split; [done|]. done.
Qed.

(** *** The loop over the vendors *)

Lemma request_loop_grows world vs pm entries i sid tc acc db :
  order_sessions db
  ⊆ order_sessions (Cashier.request_loop world vs pm i entries sid tc acc db).2
  ∧ orders db ⊆ orders (Cashier.request_loop world vs pm i entries sid tc acc db).2
  ∧ menu_items (Cashier.request_loop world vs pm i entries sid tc acc db).2
    = menu_items db.
Proof.
  revert i sid tc acc db. induction entries as [|[v items] rest IH];
    intros i sid tc acc db; simpl; [done|].
  pose proof (POST_only_adds (Cashier.server (world i))
                (Cashier.payload pm sid v items) db) as (Hs & Ho & Hm & _).
  destruct (Cashier.network (world i)); simpl; [|done|done].
  destruct (CreateRoute.POST _ _ _) as [json db1]. simpl in *.
  destruct (if Response.success json then _ else _) as [created|]; [|done].
  match goal with
  | |- context [Cashier.request_loop _ _ _ ?i' rest ?s ?t ?a ?d] =>
      destruct (IH i' s t a d) as (Hs' & Ho' & Hm')
  end.
  split; [by etrans|]. split; [by etrans|]. congruence.
Qed.

Lemma request_loop_completed world vs pm entries i sid tc acc db sid' tc' acc' db' :
  (∀ j, truthy_string (CreateEnv.new_session_id (Cashier.server (world j))) = true) →
  (sid = None ∧ tc = None) ∨ (truthy sid = true ∧ truthy tc = true) →
  Cashier.request_loop world vs pm i entries sid tc acc db
  = (Cashier.completed sid' tc' acc', db') →
  ∃ news,
    acc' = (acc ++ news)%list
    ∧ Forall2 (order_of_group (menu_items db)) entries news
    ∧ NoDup (map Cashier.SessionOrderSummary.orderId news)
    ∧ ((entries = [] ∧ sid' = sid ∧ tc' = tc ∧ db' = db)
       ∨ ∃ k, sid' = Some k
           ∧ truthy_string k = true
           ∧ truthy tc' = true
           ∧ (truthy sid = true → sid = Some k)
           ∧ is_Some (order_sessions db' !! k)
           ∧ (∀ k', is_Some (order_sessions db' !! k') →
                    is_Some (order_sessions db !! k') ∨ k' = k)
           ∧ Forall (order_on_ticket db db' k) news).
Proof.
  intros Hids. revert i sid tc acc db.
  induction entries as [|[v items] rest IH]; intros i sid tc acc db Hpage; simpl.
  { intros [= <- <- <- <-]. exists []. rewrite app_nil_r.
    split; [done|]. split; [constructor|]. split; [constructor|]. by left. }
  pose proof (POST_only_adds (Cashier.server (world i))
                (Cashier.payload pm sid v items) db) as (Hs1 & Ho1 & Hm1 & _).
  destruct (Cashier.network (world i)); [|done|done].
  destruct (CreateRoute.POST _ _ _) as [json db1] eqn:Hpost. simpl in Hs1, Ho1, Hm1.
  destruct (Response.success json) eqn:Hsucc; [|done].
  destruct (Response.payload json) as [created|] eqn:Hpay; [|done].
  destruct (POST_ok_effect _ _ _ _ _ _ Hpost Hpay)
    as (_ & v0 & items0 & row & ticket & Hv & Hi & Hnd & Hnone & Eo & Hsess & Hstat
        & Hcode & Htot & Htot' & Htax & Hvid & Hticket & Htcode & Hcase).
  destruct (Htax eq_refl) as [Hnet Htax0].
  simpl in Hv, Hi, Hcase. injection Hv as <-. injection Hi as <-.
  set (k := CreateRoute.DbSession.id (CreateRoute.Created.session created)) in *.
  set (code := CreateRoute.DbSession.ticket_code (CreateRoute.Created.session created))
    in *.
  set (o := Cashier.SessionOrderSummary.mk _ _ _ _ _).
  assert (truthy_string k = true
          ∧ (truthy sid = true → sid = Some k)
          ∧ (∀ k', is_Some (order_sessions db1 !! k') →
                   is_Some (order_sessions db !! k') ∨ k' = k)) as (Hk & Hsame & Hkeys).
  { destruct (truthy sid) eqn:Htruthy.
    - destruct Hcase as [-> ->]. split; [exact Htruthy|]. split; [done|]. auto.
    - destruct Hcase as (-> & _ & -> & _). split; [apply Hids|]. split; [done|].
      intros k'. destruct (decide (CreateEnv.new_session_id (Cashier.server (world i)) = k'))
        as [<- | Hne]; [auto|].
      rewrite lookup_insert_ne by done. auto. }
  assert ((if truthy_string k && truthy_string code then Some k else sid) = Some k) as ->.
  { rewrite Hk. simpl. destruct (truthy_string code) eqn:Ec; [done|].
    destruct Hpage as [[-> _] | [Ht _]]; [|by apply Hsame].
    simpl in Hcase. destruct Hcase as (_ & _ & _ & Hc).
    rewrite Htcode in Hc. congruence. }
  assert (truthy (if truthy_string k && truthy_string code then Some code else tc) = true)
    as Htc.
  { rewrite Hk. simpl. destruct (truthy_string code) eqn:Ec; [done|].
    destruct Hpage as [[-> _] | [_ Ht]]; [|done].
    simpl in Hcase. destruct Hcase as (_ & _ & _ & Hc).
    rewrite Htcode in Hc. congruence. }
  intros Hloop.
  pose proof (request_loop_grows world vs pm rest (S i) (Some k)
                (if truthy_string k && truthy_string code then Some code else tc)
                (acc ++ [o])%list db1) as (Hs2 & Ho2 & Hm2).
  rewrite Hloop in Hs2, Ho2, Hm2. simpl in Hs2, Ho2, Hm2.
  apply IH in Hloop as (news & -> & Hgroups & Hnd' & Hrest); [|by right].
  exists (o :: news). split; [by rewrite <- app_assoc|].
  assert (order_on_ticket db db' k o) as Ho.
  { split; [done|]. exists row. split; [|done].
    eapply lookup_weaken; [|exact Ho2]. rewrite Eo. apply lookup_insert_eq. }
  assert (Forall (λ o', orders db1 !! Cashier.SessionOrderSummary.orderId o' = None) news
          ∧ Forall (order_on_ticket db db' k) news
          ∧ is_Some (order_sessions db' !! k)
          ∧ truthy tc' = true ∧ sid' = Some k
          ∧ (∀ k', is_Some (order_sessions db' !! k') →
                   is_Some (order_sessions db !! k') ∨ k' = k))
    as (Hfresh & Hon & Hin & Htc' & Hsid' & Hkeys').
  { destruct Hrest as [(-> & -> & -> & ->) | (k2 & -> & Hk2 & Htc2 & Hsame2 & Hin2 & Hkeys2 & Hon2)].
    - inversion Hgroups; subst. split; [constructor|]. split; [constructor|].
      split; [by eexists|]. split; [done|]. split; [done|]. exact Hkeys.
    - assert (k2 = k) as -> by (by injection (Hsame2 Hk) as ->).
      split; [|split; [|split; [done|split; [done|split; [done|]]]]].
      + eapply Forall_impl; [exact Hon2|]. by intros o' [? _].
      + eapply Forall_impl; [exact Hon2|]. intros o' [Hn Hrow]. split; [|done].
        by eapply lookup_weaken_None.
      + intros k' Hk'. destruct (Hkeys2 k' Hk') as [H1 | ->]; [|by right].
        by apply Hkeys. }
  split.
  { constructor; [|by rewrite <- Hm1].
    split; [done|]. split; [simpl; by rewrite <- Htot|].
    rewrite map_map in Hnd. done. }
  split.
  { simpl. apply NoDup_cons. split; [|done].
    intros Hin'. apply list_elem_of_fmap in Hin' as (o' & Hid & Ho').
    apply (proj1 (Forall_forall _ _) Hfresh) in Ho'. rewrite <- Hid in Ho'.
    unfold o in Ho'. simpl in Ho'. rewrite Eo, lookup_insert_eq in Ho'. done. }
  right. exists k. split; [done|]. split; [done|]. split; [done|].
  split; [done|]. split; [done|]. split; [done|]. by constructor.
Qed.

Lemma request_loop_orders world vs pm entries i sid tc acc db sid' tc' acc' db' :
  Cashier.request_loop world vs pm i entries sid tc acc db
  = (Cashier.completed sid' tc' acc', db') →
  ∃ news, acc' = (acc ++ news)%list
          ∧ Forall2 (order_of_group (menu_items db)) entries news.
Proof.
  revert i sid tc acc db.
  induction entries as [|[v items] rest IH]; intros i sid tc acc db; simpl.
  { intros [= <- <- <- <-]. exists []. by rewrite app_nil_r. }
  pose proof (POST_only_adds (Cashier.server (world i))
                (Cashier.payload pm sid v items) db) as (_ & _ & Hm1 & _).
  destruct (Cashier.network (world i)); [|done|done].
  destruct (CreateRoute.POST _ _ _) as [json db1] eqn:Hpost. simpl in Hm1.
  destruct (Response.success json) eqn:Hsucc; [|done].
  destruct (Response.payload json) as [created|] eqn:Hpay; [|done].
  destruct (POST_ok_effect _ _ _ _ _ _ Hpost Hpay)
    as (_ & v0 & items0 & row & ticket & Hv & Hi & Hnd & _ & _ & _ & _
        & _ & Htot & Htot' & _ & Hvid & _).
  simpl in Hv, Hi. injection Hv as <-. injection Hi as <-.
  intros Hloop. apply IH in Hloop as (news & -> & Hgroups).
  eexists (_ :: news). split; [by rewrite <- app_assoc|].
  constructor; [|by rewrite <- Hm1].
  split; [done|]. split; [simpl; by rewrite <- Htot|].
  rewrite map_map in Hnd. done.
Qed.

(** How a submit ends: the page keeps what it had and shows an error, or
    the loop over the vendors has run to its end. *)
Lemma handleSubmitTicket_cases world s db :
  let s' := (Cashier.handleSubmitTicket world s db).1 in
  let db' := (Cashier.handleSubmitTicket world s db).2 in
  (Cashier.error s' ≠ None
   ∧ Cashier.cart s' = Cashier.cart s
   ∧ Cashier.currentSession s' = Cashier.currentSession s
   ∧ Cashier.sessionOrders s' = Cashier.sessionOrders s
   ∧ Cashier.printTicket s' = Cashier.printTicket s
   ∧ Cashier.printOpen s' = Cashier.printOpen s)
  ∨ (Cashier.error s' = None
     ∧ Cashier.cart s ≠ []
     ∧ Cashier.cart s' = []
     ∧ ∃ sid tc news,
         Cashier.request_loop world (Cashier.vendors s) (Cashier.paymentMethod s) 0
           (Cashier.group_by_vendor (Cashier.cart s))
           (Cashier.SessionInfo.id <$> Cashier.currentSession s)
           (Cashier.SessionInfo.ticketCode <$> Cashier.currentSession s) [] db
         = (Cashier.completed sid tc news, db')
         ∧ Cashier.sessionOrders s' = (Cashier.sessionOrders s ++ news)%list
         ∧ (truthy sid = true → truthy tc = true →
            Cashier.currentSession s'
            = Some (Cashier.SessionInfo.mk (default EmptyString sid)
                      (default EmptyString tc))
            ∧ Cashier.printTicket s'
              = Some (Cashier.PrintTicketData.mk (default EmptyString tc) news)
            ∧ Cashier.printOpen s' = true)).
Proof.
  unfold Cashier.handleSubmitTicket. case_bool_decide as Hlen.
  { left. by repeat split. }
  destruct (Cashier.request_loop _ _ _ _ _ _ _ _ _) as [[e| |sid tc news] db'] eqn:Hloop;
    simpl; [left; by repeat split..|].
  right. split.
  { by destruct (truthy sid && truthy tc). }
  split; [by intros E; rewrite E in Hlen|]. split; [done|].
  exists sid, tc, news. split; [done|]. split.
  { by destruct (truthy sid && truthy tc). }
  intros -> ->. done.
Qed.

Lemma group_by_vendor_nonempty cart :
  cart ≠ [] → Cashier.group_by_vendor cart ≠ [].
Proof.
  destruct cart as [|c cart]; [done|]. intros _ E.
  destruct (group_by_vendor_spec (c :: cart)) as [_ Hspec].
  assert ((Cashier.CartItem.vendorId c, lines_of_vendor (Cashier.CartItem.vendorId c) (c :: cart))
          ∈ Cashier.group_by_vendor (c :: cart)) as Hin.
  { apply Hspec. split; [done|]. unfold lines_of_vendor. rewrite filter_cons.
    by rewrite decide_True. }
  rewrite E in Hin. by apply elem_of_nil in Hin.
Qed.

(** X24: a submit puts one order per vendor on one ticket. When the submit
    of a cart ends without an error, on a page whose ticket, if it has one,
    has a key and a code, and with a store that gives its tickets keys that
    are not empty: the cart is empty; the page has a ticket, the one it had
    if it had one; the store has at most that one ticket more; the page
    has gained one order summary for each vendor of the cart, in the order
    of their first lines, and the print ticket shows these; their orders
    are new in the store, distinct, preparing, all on that ticket, with the
    code and the total the page shows, and without tax. *)
Theorem submit_puts_orders_on_one_ticket world s db :
  (∀ j, truthy_string (CreateEnv.new_session_id (Cashier.server (world j))) = true) →
  page_session_ok s →
  let s' := (Cashier.handleSubmitTicket world s db).1 in
  let db' := (Cashier.handleSubmitTicket world s db).2 in
  Cashier.error s' = None →
  ∃ info news,
    Cashier.cart s' = []
    ∧ Cashier.currentSession s' = Some info
    ∧ (∀ old, Cashier.currentSession s = Some old →
              Cashier.SessionInfo.id info = Cashier.SessionInfo.id old)
    ∧ is_Some (order_sessions db' !! Cashier.SessionInfo.id info)
    ∧ (∀ k, is_Some (order_sessions db' !! k) →
            is_Some (order_sessions db !! k) ∨ k = Cashier.SessionInfo.id info)
    ∧ Cashier.sessionOrders s' = (Cashier.sessionOrders s ++ news)%list
    ∧ Cashier.printTicket s'
      = Some (Cashier.PrintTicketData.mk (Cashier.SessionInfo.ticketCode info) news)
    ∧ Cashier.printOpen s' = true
    ∧ map Cashier.SessionOrderSummary.vendorId news
      = map (λ e, Some e.1) (Cashier.group_by_vendor (Cashier.cart s))
    ∧ NoDup (map fst (Cashier.group_by_vendor (Cashier.cart s)))
    ∧ NoDup (map Cashier.SessionOrderSummary.orderId news)
    ∧ Forall (order_on_ticket db db' (Cashier.SessionInfo.id info)) news.
Proof.
  intros Hids Hpage s' db' Herr.
  destruct (handleSubmitTicket_cases world s db)
    as [(Hne & _) | (_ & Hcart & Hcart' & sid & tc & news & Hloop & Horders & Hsess)];
    [done|].
  fold s' in Hcart', Horders, Hsess. fold db' in Hloop.
  apply request_loop_completed in Hloop
    as (news' & Enews & Hgroups & Hnd & Hrest); [|done|].
  2:{ unfold page_session_ok in Hpage.
      destruct (Cashier.currentSession s) as [info|]; [right|left]; done. }
  simpl in Enews. subst news'.
  destruct Hrest as [(E & _) | (k & -> & Hk & Htc & Hsame & Hin & Hkeys & Hon)].
  { by apply group_by_vendor_nonempty in Hcart. }
  destruct (Hsess Hk Htc) as (Hcur & Hprint & Hopen). simpl in Hcur, Hprint.
  eexists _, news. split; [done|]. split; [exact Hcur|]. simpl.
  split.
  { intros old Hold. rewrite Hold in Hsame. simpl in Hsame.
    unfold page_session_ok in Hpage. rewrite Hold in Hpage.
    destruct Hpage as [Hid _]. by injection (Hsame Hid) as ->. }
  split; [done|]. split; [done|]. split; [done|]. split; [done|]. split; [done|].
  split.
  { clear -Hgroups. induction Hgroups as [|e o es os (Hv & _) _ IH]; simpl; [done|].
    by rewrite Hv, IH. }
  split; [apply group_by_vendor_spec|]. split; [done|]. done.
Qed.

Lemma cart_total_lines catalog items :
  prices_agree catalog items →
  cart_total catalog (map Cashier.to_line items) = lines_cents items.
Proof.
  unfold prices_agree, cart_total.
  induction 1 as [|c items (m & Hm & Hp) _ IH]; [done|].
  simpl. rewrite sum_Z_cons, lines_cents_cons, IH, Hm. simpl. rewrite Hp. lia.
Qed.

(** X25: the ticket costs what the cart showed. When the cart shows the
    prices of the catalog and its submit ends without an error, the totals
    of the order summaries the page has gained, which the print ticket adds
    up, sum to the ticket total the page showed for the cart. *)
Theorem ticket_total_is_cart_total world s db :
  prices_agree (menu_items db) (Cashier.cart s) →
  let s' := (Cashier.handleSubmitTicket world s db).1 in
  Cashier.error s' = None →
  ∃ news,
    Cashier.sessionOrders s' = (Cashier.sessionOrders s ++ news)%list
    ∧ sum_Z (map (λ o, default 0 (Cashier.SessionOrderSummary.totalCents o)) news)
      = Cashier.cartTotalCents (Cashier.cart s).
Proof.
  intros Hprices s' Herr.
  destruct (handleSubmitTicket_cases world s db)
    as [(Hne & _) | (_ & Hcart & Hcart' & sid & tc & news & Hloop & Horders & Hsess)];
    [done|].
  apply request_loop_orders in Hloop as (news' & Enews & Hgroups).
  simpl in Enews. subst news'. exists news. split; [done|].
  rewrite cartTotalCents_lines, <- group_cents.
  destruct (group_by_vendor_spec (Cashier.cart s)) as [_ Hspec].
  assert (Forall (λ e : string * list Cashier.CartItem.t,
                    prices_agree (menu_items db) e.2)
                 (Cashier.group_by_vendor (Cashier.cart s))) as Hagree.
  { apply Forall_forall. intros [v items] Hin. apply Hspec in Hin as [-> _]. simpl.
    unfold prices_agree, lines_of_vendor in *. apply Forall_forall. intros c Hc.
    apply list_elem_of_filter in Hc as [_ Hc].
    by apply (proj1 (Forall_forall _ _) Hprices). }
  clear -Hgroups Hagree.
  induction Hgroups as [|e o es os (_ & Ht & _) _ IH]; [done|].
  apply Forall_cons in Hagree as [He Hes]. simpl.
  rewrite !sum_Z_cons, IH by done. rewrite Ht. simpl.
  by rewrite cart_total_lines.
Qed.

(** X26: a failed submit keeps the cart and may leave orders behind. When a
    submit ends with an error, the cart, the ticket of the page, its order
    summaries and its print ticket are what they were before the submit;
    the store has every ticket and order it had, and it may hold more: the
    orders of the vendors whose requests were accepted before the failure
    are not withdrawn. *)
Theorem submit_failure_keeps_cart world s db :
  let s' := (Cashier.handleSubmitTicket world s db).1 in
  let db' := (Cashier.handleSubmitTicket world s db).2 in
  Cashier.error s' ≠ None →
  Cashier.cart s' = Cashier.cart s
  ∧ Cashier.currentSession s' = Cashier.currentSession s
  ∧ Cashier.sessionOrders s' = Cashier.sessionOrders s
  ∧ Cashier.printTicket s' = Cashier.printTicket s
  ∧ order_sessions db ⊆ order_sessions db'
  ∧ orders db ⊆ orders db'
  ∧ menu_items db' = menu_items db.
Proof.
  intros s' db' Herr.
  assert (order_sessions db ⊆ order_sessions db' ∧ orders db ⊆ orders db'
          ∧ menu_items db' = menu_items db) as Hgrow.
  { unfold db', Cashier.handleSubmitTicket. case_bool_decide; [done|].
    pose proof (request_loop_grows world (Cashier.vendors s) (Cashier.paymentMethod s)
                  (Cashier.group_by_vendor (Cashier.cart s)) 0
                  (Cashier.SessionInfo.id <$> Cashier.currentSession s)
                  (Cashier.SessionInfo.ticketCode <$> Cashier.currentSession s) [] db)
      as Hg.
    by destruct (Cashier.request_loop _ _ _ _ _ _ _ _ _) as [[e| |sid tc news] db1]. }
  destruct (handleSubmitTicket_cases world s db)
    as [(_ & Hc & Hs & Ho & Hp & _) | (Hnone & _)]; [|done].
  by repeat split; try apply Hgrow.
Qed.

Lemma NoDup_map_filter_places {A B : Type} (f : A → B) (P : A → Prop)
    `{∀ x, Decision (P x)} (l : list A) i j a b :
  NoDup (map f (filter P l)) →
  l !! i = Some a → l !! j = Some b → P a → P b → f a = f b → i = j.
Proof.
  revert i j. induction l as [|x l IH]; intros i j Hnd Hi Hj Ha Hb Hf; [done|].
  rewrite filter_cons in Hnd.
  assert (∀ k y, l !! k = Some y → P y → f y ∈ map f (filter P l)) as Hin.
  { intros k y Hk Hy. apply list_elem_of_fmap. exists y. split; [done|].
    apply list_elem_of_filter. split; [done|]. by eapply list_elem_of_lookup_2. }
  destruct i as [|i], j as [|j]; simpl in Hi, Hj; [done| | |].
  - injection Hi as ->. rewrite decide_True in Hnd by done.
    simpl in Hnd. apply NoDup_cons in Hnd as [Hnot _].
    destruct Hnot. rewrite Hf. by eapply Hin.
  - injection Hj as ->. rewrite decide_True in Hnd by done.
    simpl in Hnd. apply NoDup_cons in Hnd as [Hnot _].
    destruct Hnot. rewrite <- Hf. by eapply Hin.
  - f_equal. apply IH; try done.
    destruct (decide (P x)); [|done]. simpl in Hnd. by apply NoDup_cons in Hnd as [_ ?].
Qed.

(** X27: a cart that names an item of a vendor on two lines cannot be
    submitted. The page merges a tap on an item into a line only when that
    line has no note, and a pick of an option always adds a line, so a cart
    can hold two lines for one item of one vendor. For such a cart every
    submit ends with an error, whatever the store holds and answers, and the
    cart stays as it is. *)
Theorem duplicate_lines_block_submit world s db i j a b :
  Cashier.cart s !! i = Some a →
  Cashier.cart s !! j = Some b →
  i ≠ j →
  Cashier.CartItem.vendorId a = Cashier.CartItem.vendorId b →
  Cashier.CartItem.menuItemId a = Cashier.CartItem.menuItemId b →
  let s' := (Cashier.handleSubmitTicket world s db).1 in
  Cashier.error s' ≠ None ∧ Cashier.cart s' = Cashier.cart s.
Proof.
  intros Hi Hj Hij Hv Hm s'.
  destruct (handleSubmitTicket_cases world s db)
    as [(Hne & Hc & _) | (_ & Hcart & Hcart' & sid & tc & news & Hloop & _)]; [done|].
  apply request_loop_orders in Hloop as (news' & _ & Hgroups).
  destruct (group_by_vendor_spec (Cashier.cart s)) as [_ Hspec].
  set (v := Cashier.CartItem.vendorId a) in *.
  assert ((v, lines_of_vendor v (Cashier.cart s))
          ∈ Cashier.group_by_vendor (Cashier.cart s)) as Hin.
  { apply Hspec. split; [done|]. intros E.
    assert (a ∈ lines_of_vendor v (Cashier.cart s)) as Ha.
    { apply list_elem_of_filter. split; [done|]. by eapply list_elem_of_lookup_2. }
    rewrite E in Ha. by apply elem_of_nil in Ha. }
  assert (NoDup (map Cashier.CartItem.menuItemId (lines_of_vendor v (Cashier.cart s))))
    as Hnd.
  { apply list_elem_of_lookup in Hin as [n Hn].
    destruct (Forall2_lookup_l _ _ _ _ _ Hgroups Hn) as (o & _ & (_ & _ & Hnd)). done. }
  destruct Hij. eapply (NoDup_map_filter_places _ _ _ i j a b Hnd); done.
Qed.

(** ** The board of the vendor page *)

(** A call that names its order by key returns that key with the target
    status, and a call that throws has written nothing. *)
Lemma updateOrderStatus_by_id env orderId to actor at_ st :
  let res :=
    Orders.updateOrderStatus env
      (UpdateOrderStatusInput.mk (Some orderId) None to actor at_) st in
  match res.1 with
  | Ok d => DbOrderMinimal.id d = orderId ∧ DbOrderMinimal.status d = to
  | Throw _ => res.2 = st
  end.
Proof.
  set (input := UpdateOrderStatusInput.mk (Some orderId) None to actor at_).
  cbv zeta.
  assert (Hid : ∀ cur, Orders.load_current env input st = Some cur →
                       truthy_string orderId = true →
                       DbOrderMinimal.id cur = orderId).
  { intros cur. unfold Orders.load_current, Db.select_order_by_id. simpl.
    intros Hc Ht. rewrite Ht in Hc.
    destruct (UpdateEnv.select_fails env); [done|].
    destruct (orders st !! orderId); simpl in Hc; [|done]. by injection Hc as <-. }
  destruct (truthy_string orderId) eqn:Ht.
  - destruct (updateOrderStatus_trace env input st)
      as [[E Hnoop] | (cur & Hcur & _ & _ & Hres & _)].
    + destruct (Orders.updateOrderStatus env input st).1 as [d|e] eqn:E1; [|done].
      destruct Hnoop as (cur & Hcur & Hst & [= ->]); [done|].
      split; [by apply Hid|done].
    + rewrite Hres. simpl. split; [by apply Hid|done].
  - unfold Orders.updateOrderStatus. simpl. by rewrite Ht.
Qed.

(** What [refreshOrders] does to the page of a vendor. *)
Lemma refreshOrders_spec w s db v :
  VendorPage.vendor s = Some v →
  truthy_string (VendorPage.Vendor.id v) = true →
  let s' := VendorPage.refreshOrders w s db in
  VendorPage.vendor s' = VendorPage.vendor s
  ∧ VendorPage.updatingId s' = VendorPage.updatingId s
  ∧ VendorPage.error s' = VendorPage.error s
  ∧ (VendorPage.refresh_network w = Cashier.delivered →
     VendorPage.load_fails w = false →
     OrdersRead.listVendorActiveOrders false (VendorPage.Vendor.id v) db
     = Ok (VendorPage.orders s'))
  ∧ (VendorPage.refresh_network w ≠ Cashier.delivered
     ∨ VendorPage.load_fails w = true →
     VendorPage.orders s' = VendorPage.orders s).
Proof.
  intros Hv Ht s'. subst s'. unfold VendorPage.refreshOrders. rewrite Hv.
  unfold VendorActiveRoute.GET. simpl. rewrite Ht. simpl.
  destruct (VendorPage.refresh_network w);
    [|repeat split; (done || by intros [?|?]) ..].
  destruct (VendorPage.load_fails w).
  - simpl. repeat split; try done.
  - destruct (listVendorActiveOrders_aux (VendorPage.Vendor.id v) db) as (l & -> & _).
    simpl. repeat split; try done. by intros [?|?].
Qed.

(** X28: a press of a status button on the board of a vendor. The button is
    released and the vendor stays. When the page then shows no error, the
    store holds the order in the status of the button and is the store after
    that [updateOrderStatus]; when the refresh loads, the board is exactly
    the orders of the vendor in the store that are not collected, so a
    collected order has left it and an order of the vendor marked ready is in
    the ready column; when the refresh does not load, the board is the old
    one and no error is shown. When the page shows an error the board is the
    old one, and the store is what it was unless the response was lost. *)
Theorem vendor_page_status_change u w orderId next s db v :
  VendorPage.vendor s = Some v →
  truthy_string (VendorPage.Vendor.id v) = true →
  let s' := (VendorPage.handleStatusChange u w orderId next s db).1 in
  let db' := (VendorPage.handleStatusChange u w orderId next s db).2 in
  let after :=
    (Orders.updateOrderStatus (VendorPage.update_server u)
       (UpdateOrderStatusInput.mk (Some orderId) None next Actor.vendor None) db).2 in
  VendorPage.updatingId s' = None
  ∧ VendorPage.vendor s' = Some v
  ∧ (VendorPage.error s' = None →
     db' = after
     ∧ (∃ r, orders db' !! orderId = Some r ∧ Order.status r = next)
     ∧ (VendorPage.refresh_network w = Cashier.delivered →
        VendorPage.load_fails w = false →
        (∀ o, o ∈ VendorPage.orders s' ↔
           ∃ k r, orders db' !! k = Some r
                  ∧ Order.vendor_id r = Some (VendorPage.Vendor.id v)
                  ∧ Order.status r ≠ collected
                  ∧ o = VendorOrder.mk k (Order.order_code r) (Order.status r)
                          (Order.created_at r) (Order.total_cents r)
                          (map (DbJoin.item_json false) (items_of db' k)))
        ∧ (next = collected → orderId ∉ map VendorOrder.id (VendorPage.orders s'))
        ∧ (next ≠ collected →
           (∃ r, orders db' !! orderId = Some r
                 ∧ Order.vendor_id r = Some (VendorPage.Vendor.id v)) →
           ∃ o, o ∈ VendorPage.column next s' ∧ VendorOrder.id o = orderId))
     ∧ (VendorPage.refresh_network w ≠ Cashier.delivered
        ∨ VendorPage.load_fails w = true →
        VendorPage.orders s' = VendorPage.orders s))
  ∧ (VendorPage.error s' ≠ None →
     VendorPage.orders s' = VendorPage.orders s
     ∧ (db' = db
        ∨ (VendorPage.update_network u = Cashier.response_lost ∧ db' = after))).
Proof.
  intros Hv Ht s' db' after. subst s' db'.
  unfold VendorPage.handleStatusChange. rewrite Hv.
  set (s0 := VendorPage.setError None (VendorPage.setUpdatingId (Some orderId) s)).
  set (body := UpdateStatusBody.mk (Some orderId) None next (Some Actor.vendor)).
  assert (Hpost : UpdateStatusRoute.POST (VendorPage.update_server u) body db
                  = if negb (truthy_string orderId)
                    then (Response.fail 400 "orderId or orderCode is required", db)
                    else match (Orders.updateOrderStatus (VendorPage.update_server u)
                                  (UpdateOrderStatusInput.mk (Some orderId) None next
                                     Actor.vendor None) db).1 with
                         | Ok d => (Response.ok d, after)
                         | Throw e => (Response.fail 500 (UpdateStatusRoute.message e), db)
                         end).
  { unfold UpdateStatusRoute.POST. simpl. rewrite andb_true_r.
    destruct (negb _); [done|]. unfold nullish. simpl.
    pose proof (updateOrderStatus_by_id (VendorPage.update_server u) orderId next
                  Actor.vendor None db) as Hby.
    simpl in Hby. subst after.
    destruct (Orders.updateOrderStatus _ _ db) as [[d|e] st1]; simpl in *; [done|].
    by rewrite Hby. }
  pose proof (updateOrderStatus_by_id (VendorPage.update_server u) orderId next
                Actor.vendor None db) as Hby.
  simpl in Hby. fold after in Hby.
  destruct (VendorPage.update_network u) eqn:Hnet.
  - rewrite Hpost. destruct (negb (truthy_string orderId)).
    { simpl. repeat split; try done. by left. }
    destruct (Orders.updateOrderStatus _ _ db).1 as [d|e] eqn:Hres; simpl.
    + destruct Hby as [Hd Hs].
      destruct (refreshOrders_spec w s0 after v Hv Ht) as (H1 & H2 & H3 & H4 & H5).
      split; [done|]. split; [by rewrite H1|].
      split; [|intros Herr; by rewrite H3 in Herr].
      intros _. split; [done|].
      destruct (updateOrderStatus_stored _ _ _ _ Hres) as (r & Hr & Hst).
      fold after in Hr. rewrite Hd in Hr. rewrite Hs in Hst.
      split; [by exists r|]. split; [|exact H5].
      intros Hdel Hload. specialize (H4 Hdel Hload).
      destruct (listVendorActiveOrders_aux (VendorPage.Vendor.id v) after)
        as (l & Hl & Hmem).
      rewrite Hl in H4. injection H4 as H4. rewrite <- H4.
      split; [exact Hmem|]. split.
      * intros -> Hin. apply list_elem_of_fmap in Hin as (o & Ho & Hin).
        apply Hmem in Hin as (k & r' & Hk & _ & Hnc & ->). simpl in Ho. subst k.
        rewrite Hr in Hk. injection Hk as <-. done.
      * intros Hnc (r' & Hr' & Hvend). rewrite Hr in Hr'. injection Hr' as <-.
        exists (VendorOrder.mk orderId (Order.order_code r) (Order.status r)
                  (Order.created_at r) (Order.total_cents r)
                  (map (DbJoin.item_json false) (items_of after orderId))).
        split; [|done].
        unfold VendorPage.column. apply list_elem_of_filter. split; [done|].
        unfold VendorPage.setUpdatingId at 1. cbn [VendorPage.orders].
        rewrite <- H4. apply Hmem. exists orderId, r.
        split; [done|]. split; [done|]. split; [by rewrite Hst|done].
    + repeat split; try done. by left.
  - simpl. repeat split; try done. by left.
  - rewrite Hpost. simpl. repeat split; try done.
    destruct (negb (truthy_string orderId)); [by left|].
    destruct (Orders.updateOrderStatus _ _ db).1 as [d|e] eqn:Hres; simpl.
    + by right.
    + by left.
Qed.

(** ** The properties above, on the scenarios *)

(** The cart with item A on two lines is rejected and leaves no order. *)
Lemma createOrder_rejected_writes_no_order_witness :
  same_orders Scenario.store
    (Orders.createOrder Scenario.env Scenario.duplicate_cart Scenario.store).2.
Proof.
  apply (createOrder_rejected_writes_no_order Scenario.env Scenario.duplicate_cart
           Scenario.store (Error "Some menu items could not be found.")).
  - by vm_compute.
  - discriminate.
Defined.

(** With the insert of the line items failing, the cart of 2500 leaves
    order o1 with that total and no line item. *)
Lemma createOrder_items_failure_leaves_order_witness :
  ∃ row,
    orders (Orders.createOrder Examples.items_fail_env Scenario.cart
              Scenario.store).2 !! "o1" = Some row
    ∧ Order.total_cents row = Some 2500
    ∧ items_of (Orders.createOrder Examples.items_fail_env Scenario.cart
                  Scenario.store).2 "o1" = [].
Proof.
  destruct (createOrder_items_failure_leaves_order Examples.items_fail_env
              Scenario.cart Scenario.store
              (Orders.createOrder Examples.items_fail_env Scenario.cart
                 Scenario.store).2 scenario_references_ok)
    as (row & _ & Hrow & _ & Htotal & Hitems & _).
  - by vm_compute.
  - exists row. split; [|split].
    + rewrite Hrow. apply lookup_insert_eq.
    + rewrite Htotal. by vm_compute.
    + exact Hitems.
Defined.

(** A cart for a vendor the store does not have is rejected, and the
    ticket WL-5500 made for it stays. *)
Lemma createOrder_ticket_witness :
  (Orders.createOrder Scenario.env Examples.stranger_cart Scenario.store).1
  = Throw (Error "Vendor not found.")
  ∧ order_sessions
      (Orders.createOrder Scenario.env Examples.stranger_cart Scenario.store).2
    = <[ "s1" := Session.mk "WL-5500" SessionStatus.open 1000 None ]> ∅.
Proof.
  split; [by vm_compute|].
  pose proof (proj2 (createOrder_ticket Scenario.env Examples.stranger_cart
                       Scenario.store
                       (Orders.createOrder Scenario.env Examples.stranger_cart
                          Scenario.store).1
                       (Orders.createOrder Scenario.env Examples.stranger_cart
                          Scenario.store).2
                       (surjective_pairing _)) eq_refl) as H.
  assert (Hne : CreateOrderInput.items Examples.stranger_cart ≠ []) by done.
  specialize (H Hne). cbv zeta in H.
  assert (Hcond : CreateEnv.session_fails Scenario.env
                  || bool_decide (is_Some (order_sessions Scenario.store
                                             !! CreateEnv.new_session_id Scenario.env))
                  || Db.ticket_code_taken
                       (Orders.generateSimpleCode (CreateEnv.random_ticket Scenario.env)
                          "WL") Scenario.store = false) by (by vm_compute).
  rewrite Hcond in H. rewrite H.
  assert (Hcode : Orders.generateSimpleCode (CreateEnv.random_ticket Scenario.env) "WL"
                  = "WL-5500") by (by vm_compute).
  by rewrite Hcode.
Defined.

(** The cart of the scenario leaves order o1 for vendor v1 on ticket s1,
    with the total 2500. *)
Lemma createOrder_accepted_witness :
  ∃ row,
    orders Examples.after_cart !! "o1" = Some row
    ∧ Order.session_id row = Some "s1"
    ∧ Order.vendor_id row = Some "v1"
    ∧ Order.status row = preparing
    ∧ Order.total_cents row = Some 2500.
Proof.
  destruct (createOrder_accepted Scenario.env Scenario.cart Scenario.store
              Scenario.created Examples.after_cart)
    as (row & ticket & sid & _ & Hrow & Hsid & Hsession & _ & _ & Hvendor & _ & _
        & _ & _ & Hstatus & _ & _ & _ & _ & Htotal & _).
  - by vm_compute.
  - exists row. injection Hsid as <-.
    split; [exact Hrow|]. split; [exact Hsession|]. split; [exact Hvendor|].
    split; [exact Hstatus|]. rewrite Htotal. by vm_compute.
Defined.

(** The body with item A on two lines is answered 400 and leaves no
    order. *)
Lemma create_route_answers_witness :
  Response.http_status
    (CreateRoute.POST Scenario.env Scenario.duplicate_body Scenario.store).1 = 400
  ∧ same_orders Scenario.store
      (CreateRoute.POST Scenario.env Scenario.duplicate_body Scenario.store).2.
Proof.
  assert (H400 : Response.http_status
                   (CreateRoute.POST Scenario.env Scenario.duplicate_body
                      Scenario.store).1 = 400) by (by vm_compute).
  split; [exact H400|].
  destruct (create_route_answers Scenario.env Scenario.duplicate_body Scenario.store)
    as (_ & _ & _ & Hsame & _).
  by apply Hsame.
Defined.

(** A store without tickets, orders, line items and events is consistent. *)
Lemma fresh_store_consistent v m : consistent (mkStore ∅ v m ∅ [] []).
Proof.
  split; [intros it Hin; by apply elem_of_nil in Hin|].
  split; [intros k r sid Hk; simpl in Hk; by rewrite lookup_empty in Hk|].
  split; [intros k1 k2 r1 r2 Hk; simpl in Hk; by rewrite lookup_empty in Hk|].
  split; [intros k1 k2 r1 r2 Hk; simpl in Hk; by rewrite lookup_empty in Hk|].
  constructor.
Qed.

(** The body of the scenario is answered with order o1, which is in the
    store as preparing with the total 2500. *)
Lemma create_route_accepted_witness :
  ∃ created row,
    Response.payload
      (CreateRoute.POST Scenario.env Scenario.body Scenario.store).1 = Some created
    ∧ orders (CreateRoute.POST Scenario.env Scenario.body Scenario.store).2
        !! CreateRoute.OrderJson.id (CreateRoute.Created.order created) = Some row
    ∧ Order.status row = preparing
    ∧ Order.total_cents row = Some 2500.
Proof.
  destruct (Response.payload
              (CreateRoute.POST Scenario.env Scenario.body Scenario.store).1)
    as [created|] eqn:E; [|by vm_compute in E].
  destruct (create_route_accepted Scenario.env Scenario.body Scenario.store
              (CreateRoute.POST Scenario.env Scenario.body Scenario.store).1
              (CreateRoute.POST Scenario.env Scenario.body Scenario.store).2
              created scenario_references_ok (surjective_pairing _) E)
    as (row & ticket & vendorId & items & _ & Hitems & _ & Hrow & _ & _ & _ & _ & _
        & _ & _ & Hstatus & Htotal & _).
  exists created, row. split; [reflexivity|]. split; [exact Hrow|].
  split; [exact Hstatus|]. rewrite Htotal.
  simpl in Hitems. injection Hitems as <-. by vm_compute.
Defined.

(** The order of the scenario is read back by its code MS-3250: preparing,
    2500, from the Grill, with two lines. *)
Lemma getOrderByCode_after_createOrder_witness :
  ∃ d,
    OrdersRead.getOrderByCode false "MS-3250" Examples.after_cart = Ok d
    ∧ OrderDetail.id d = "o1"
    ∧ OrderDetail.status d = preparing
    ∧ OrderDetail.total_cents d = Some 2500
    ∧ OrderDetail.vendors d = Some "Grill"
    ∧ length (OrderDetail.order_items d) = 2%nat.
Proof.
  destruct (getOrderByCode_after_createOrder Scenario.env Scenario.cart
              Scenario.store Scenario.created Examples.after_cart
              scenario_references_ok)
    as (d & v & Hd & _ & Hid & _ & Hstatus & Htotal & _ & Hv & Hname & Hitems & Hsnap).
  - by vm_compute.
  - exists d. split; [exact Hd|]. split; [exact Hid|]. split; [exact Hstatus|].
    split; [exact Htotal|]. split.
    + rewrite Hname. vm_compute in Hv. by injection Hv as <-.
    + rewrite Hitems, length_map. apply Forall2_length in Hsnap.
      by rewrite <- Hsnap.
Defined.

(** The ticket WL-5500 that the call of the scenario made holds the one
    order MS-3250. *)
Lemma getSessionByTicketCode_after_createOrder_witness :
  ∃ d new,
    OrdersRead.getSessionByTicketCode false "WL-5500" Examples.after_cart = Ok d
    ∧ SessionDetail.id d = "s1"
    ∧ OrdersRead.getOrderByCode false "MS-3250" Examples.after_cart = Ok new
    ∧ SessionDetail.orders d = [new].
Proof.
  pose proof (fresh_store_consistent (vendors Scenario.store)
                (menu_items Scenario.store)) as (Href & Hsess & _ & Htick & _).
  destruct (getSessionByTicketCode_after_createOrder Scenario.env Scenario.cart
              Scenario.store Scenario.created Examples.after_cart Href Hsess Htick)
    as (d & new & Hd & Hid & _ & Hnew & Hperm).
  - by vm_compute.
  - exists d, new. split; [exact Hd|]. simpl in Hid. injection Hid as <-.
    split; [done|]. split; [exact Hnew|].
    apply Permutation_singleton_r. exact Hperm.
Defined.

(** Order o3 is collected; after a request to make it ready again and one
    to make it preparing it is collected, in both revisions. *)
Lemma status_only_moves_forward_witness :
  ∃ o1 o2,
    orders (run_status_updates
              [(Scenario.update_env, Scenario.update "o3" ready None);
               (Scenario.update_env, Scenario.update "o3" preparing None)]
              Scenario.lifecycle_store) !! "o3" = Some o1
    ∧ orders (OrdersWithTiming.run_updates
                [(Scenario.update_env, Scenario.update "o3" ready None);
                 (Scenario.update_env, Scenario.update "o3" preparing None)]
                Scenario.lifecycle_store) !! "o3" = Some o2
    ∧ Order.status o1 = collected ∧ Order.status o2 = collected.
Proof.
  destruct (status_only_moves_forward
              [(Scenario.update_env, Scenario.update "o3" ready None);
               (Scenario.update_env, Scenario.update "o3" preparing None)]
              Scenario.lifecycle_store) as (_ & _ & H).
  apply (H "o3" (Scenario.order "MS-3333" (Some "v1") 1000 collected 0 None
                   (Some 50) (Some 90))).
  - by vm_compute.
  - done.
Defined.

(** The move of order o1 to ready appends one event to the empty log. *)
Lemma updateOrderStatus_event_log_witness :
  length (order_events
            (Orders.updateOrderStatus Scenario.update_env
               (Scenario.update "o1" ready None) Scenario.lifecycle_store).2)
  = 1%nat.
Proof.
  destruct (updateOrderStatus_event_log Scenario.update_env
              (Scenario.update "o1" ready None) Scenario.lifecycle_store)
    as [_ H].
  cbv zeta in H. apply H. intros Heq.
  apply (f_equal (λ m : gmap string Order.row, Order.status <$> m !! "o1")) in Heq.
  by vm_compute in Heq.
Defined.

(** Order o1 of the scenario cannot be collected while it is preparing; it
    can be made ready, and then collected. *)
Lemma new_order_lifecycle_witness :
  Orders.updateOrderStatus Scenario.update_env
    (UpdateOrderStatusInput.mk (Some "o1") None collected Actor.vendor None)
    Examples.after_cart
  = (Throw (Orders.invalid_transition preparing collected), Examples.after_cart)
  ∧ (Orders.updateOrderStatus Scenario.update_env
       (UpdateOrderStatusInput.mk (Some "o1") None ready Actor.vendor None)
       Examples.after_cart).1
    = Ok (DbOrderMinimal.mk "o1" ready).
Proof.
  destruct (new_order_lifecycle Scenario.env Scenario.cart Scenario.store
              Scenario.created Examples.after_cart Scenario.update_env Actor.vendor)
    with (req := λ to, UpdateOrderStatusInput.mk (Some "o1") None to Actor.vendor None)
    as (H1 & H2 & _).
  - by vm_compute.
  - done.
  - done.
  - done.
  - by left.
  - split; [exact H1|exact H2].
Defined.

(** A request to collect order o1, which is preparing, is answered 500
    with the invalid transition and writes nothing. *)
Lemma update_status_route_answers_witness :
  UpdateStatusRoute.POST Scenario.update_env (Examples.move "o1" collected)
    Scenario.lifecycle_store
  = (Response.fail 500
       (UpdateStatusRoute.message (Orders.invalid_transition preparing collected)),
     Scenario.lifecycle_store).
Proof.
  destruct (update_status_route_answers Scenario.update_env
              (Examples.move "o1" collected) Scenario.lifecycle_store)
    as [_ H].
  destruct H as (_ & _ & _ & H & _); [by left|].
  destruct (H (DbOrderMinimal.mk "o1" preparing)) as [Hresp Hst].
  - by vm_compute.
  - done.
  - intros [[_ ?]|[? _]]; discriminate.
  - rewrite (surjective_pairing (UpdateStatusRoute.POST _ _ _)).
    by rewrite Hresp, Hst.
Defined.

(** With the code WL-5500 taken, the ticket route writes the ticket
    WL-7750 of its second draw, and no order. *)
Lemma sessions_start_writes_one_ticket_witness :
  same_orders Scenario.taken_store
    (SessionsStart.POST Scenario.start_env Scenario.taken_store).2
  ∧ ∃ json,
      (SessionsStart.POST Scenario.start_env Scenario.taken_store).1
      = Response.ok json
      ∧ SessionsStart.SessionJson.ticket_code json = "WL-7750"
      ∧ order_sessions (SessionsStart.POST Scenario.start_env Scenario.taken_store).2
          !! "s9"
        = Some (Session.mk "WL-7750" SessionStatus.open 2000 None).
Proof.
  destruct (sessions_start_writes_one_ticket Scenario.start_env Scenario.taken_store)
    as [Hsame [[Hfail _] | (json & j & Hresp & _ & Hid & _ & _ & _ & _ & _ & _ & Hst)]].
  - by vm_compute in Hfail.
  - split; [exact Hsame|]. exists json. split; [exact Hresp|].
    assert (Hcode : SessionsStart.SessionJson.ticket_code json = "WL-7750").
    { vm_compute in Hresp. by injection Hresp as <-. }
    split; [exact Hcode|].
    rewrite Hst, Hcode.
    assert (Hkey : SessionsStart.SessionJson.id json = "s9").
    { vm_compute in Hresp. by injection Hresp as <-. }
    rewrite Hkey. apply lookup_insert_eq.
Defined.

(** The store of the scenario is consistent after its cart was accepted. *)
Lemma operations_keep_store_consistent_witness : consistent Examples.after_cart.
Proof.
  apply (operations_keep_store_consistent Scenario.store
           (fresh_store_consistent _ _)).
Defined.

(** The board of vendor v1 holds the preparing and the ready order, and
    the route answers with it. *)
Lemma listVendorActiveOrders_spec_witness :
  ∃ l,
    VendorActiveRoute.GET false (Some "v1") Scenario.lifecycle_store = Response.ok l
    ∧ length l = 2%nat
    ∧ NoDup (map VendorOrder.id l).
Proof.
  destruct (listVendorActiveOrders_spec "v1" Scenario.lifecycle_store)
    as (_ & l & Hl & _ & Hnodup & _ & _ & Hroute & _).
  exists l. split; [by apply Hroute|]. split; [|exact Hnodup].
  vm_compute in Hl. by injection Hl as <-.
Defined.

(** Once order o2 is collected it is not on the board of vendor v1. *)
Lemma board_follows_lifecycle_witness :
  ∃ l,
    OrdersRead.listVendorActiveOrders false "v1"
      (Orders.updateOrderStatus Scenario.update_env
         (Scenario.update "o2" collected None) Scenario.lifecycle_store).2 = Ok l
    ∧ "o2" ∉ map VendorOrder.id l.
Proof.
  destruct (OrdersRead.listVendorActiveOrders false "v1" _) as [l|e] eqn:E;
    [|by vm_compute in E].
  exists l. split; [reflexivity|].
  destruct (proj1 board_follows_lifecycle Scenario.update_env
              (Scenario.update "o2" collected None) Scenario.lifecycle_store
              (DbOrderMinimal.mk "o2" collected)) as [_ H].
  - by vm_compute.
  - destruct (H "v1" l E) as [Hcollected _]. by apply Hcollected.
Defined.

(** The code WL-5500 is the code of ticket s0; the status route answers
    with that ticket. *)
Lemma status_by_code_resolution_witness :
  ∃ d, StatusByCodeRoute.GET false false (Some "WL-5500") Scenario.taken_store
       = Response.ok (StatusByCodeRoute.session d)
       ∧ SessionDetail.id d = "s0".
Proof.
  destruct (status_by_code_resolution Scenario.taken_store "WL-5500")
    as (_ & H & _).
  - intros k1 k2 r1 r2 H1 H2 _. simpl in H1, H2.
    apply lookup_singleton_Some in H1 as [<- _].
    by apply lookup_singleton_Some in H2 as [<- _].
  - intros k1 k2 r1 r2 H1 H2 _. simpl in H1, H2.
    apply lookup_singleton_Some in H1 as [<- _].
    by apply lookup_singleton_Some in H2 as [<- _].
  - done.
  - destruct (H false "s0" (Session.mk "WL-5500" SessionStatus.open 0 None))
      as (d & Hd & Hid & _); [by vm_compute|done|].
    exists d. split; [exact Hd|exact Hid].
Defined.

(** The draw 0.5 gives the integer 5500 and the code MS-5500. *)
Lemma generateSimpleCode_codes_witness :
  Orders.generateSimpleCode (Q2Qc (1 # 2)) "MS" = "MS-5500"
  ∧ CreateRoute.generateSimpleCode (Q2Qc (1 # 2)) "MS" = "MS-5500".
Proof.
  destruct (generateSimpleCode_codes "MS" (Q2Qc (1 # 2)) (Q2Qc (1 # 4)))
    as (_ & Hcode & Hroute & _).
  - apply (bool_decide_unpack _). by vm_compute.
  - by vm_compute.
  - by vm_compute.
  - rewrite Hroute, Hcode. split; by vm_compute.
Defined.

(** The day of the scenario has two orders, both active and neither with
    tax, and a revenue of 15: the tax of the summary is 2.068965517241379. *)
Lemma summary_counts_and_tax_witness :
  ∃ s, AdminDashboard.getAdminSummary (Scenario.day_env false false false) None
         Scenario.day_store = Ok s
       ∧ AdminSummary.ordersToday s = 2
       ∧ AdminSummary.activeOrders s = 2
       ∧ AdminSummary.revenueToday s = of_int 15
       ∧ AdminSummary.taxToday s = Q2Qc (1164724041561335 # 562949953421312)
       ∧ (of_int 15 * (Q2Qc (4 # 29) - 2 * Number_EPSILON)
          <= AdminSummary.taxToday s)%Qc
       ∧ (AdminSummary.taxToday s
          <= of_int 15 * (Q2Qc (4 # 29) + 2 * Number_EPSILON))%Qc.
Proof.
  eexists. split; [reflexivity|].
  destruct (summary_counts_and_tax (Scenario.day_env false false false) None
              Scenario.day_store _ eq_refl) as (_ & Hn & Ha & _ & _ & Htax).
  split; [rewrite Hn; by vm_compute|]. split; [rewrite Ha; by vm_compute|].
  split; [apply (bool_decide_unpack _); by vm_compute|].
  destruct Htax as (Etax & _ & Hbounds).
  { intros [_ H]. by vm_compute in H. }
  split; [rewrite Etax; apply (bool_decide_unpack _); by vm_compute|].
  destruct Hbounds as [Hlo Hhi]; [by vm_compute|].
  assert (Hrev : AdminSummary.revenueToday
                   (match AdminDashboard.getAdminSummary
                            (Scenario.day_env false false false) None
                            Scenario.day_store with
                    | Ok s => s
                    | Throw _ => zero_summary
                    end) = of_int 15)
    by (apply (bool_decide_unpack _); by vm_compute).
  split.
  - etrans; [|exact Hlo]. rewrite <- Hrev. apply Qcle_refl.
  - etrans; [exact Hhi|]. rewrite <- Hrev. apply Qcle_refl.
Defined.

(** The two orders of the day are listed, the newer first. *)
Lemma latestOrders_newest_first_witness :
  ∃ s, AdminDashboard.getAdminSummary (Scenario.day_env false false false) None
         Scenario.day_store = Ok s
       ∧ length (AdminSummary.latestOrders s) = 2%nat
       ∧ StronglySorted (λ a b, created_ms b ≤ created_ms a)
           (AdminSummary.latestOrders s).
Proof.
  eexists. split; [reflexivity|].
  destruct (latestOrders_newest_first (Scenario.day_env false false false) None
              Scenario.day_store _ eq_refl) as (Hlen & _ & _ & Hsorted & _).
  split; [rewrite Hlen; by vm_compute|exact Hsorted].
Defined.

(** The day of the scenario has a top item, and no name was sold more. *)
Lemma topItem_is_best_seller_witness :
  ∃ s t, AdminDashboard.getAdminSummary (Scenario.day_env false false false) None
           Scenario.day_store = Ok s
         ∧ AdminSummary.topItem s = Some t
         ∧ 0 < TopItem.quantity t
         ∧ ∀ name,
             sold (items_in Scenario.day_store
                     (day_orders (Scenario.day_env false false false) None
                        Scenario.day_store)) name
             ≤ TopItem.quantity t.
Proof.
  eexists.
  pose proof (topItem_is_best_seller (Scenario.day_env false false false) None
                Scenario.day_store _ eq_refl eq_refl) as H.
  cbv zeta in H.
  destruct (AdminSummary.topItem _) as [t|] eqn:E; [|by vm_compute in E].
  exists t. destruct H as (Hpos & _ & _ & Hmax).
  split; [reflexivity|]. split; [exact E|]. split; [exact Hpos|exact Hmax].
Defined.

(** On the page of the scenario: one burger less, a tap on the juice, and
    three fries less, which removes the line. *)
Lemma cart_quantities_stay_positive_witness :
  cart_ok
    (Cashier.cart
       (Cashier.run (λ s, s)
          [Cashier.tap_quantity 0 (-1);
           Cashier.tap_item (Cashier.MenuItem.mk "C" "Juice" None 300);
           Cashier.tap_quantity 2 (-3);
           Cashier.tap_submit Examples.stormy]
          (Examples.page, Examples.market)).1).
Proof.
  apply cart_quantities_stay_positive.
  repeat constructor; by vm_compute.
Defined.

(** The cart of the grill and the bar becomes two orders on one ticket. *)
Lemma submit_puts_orders_on_one_ticket_witness :
  ∃ info news,
    Cashier.cart
      (Cashier.handleSubmitTicket Examples.calm Examples.page Examples.market).1 = []
    ∧ Cashier.currentSession
        (Cashier.handleSubmitTicket Examples.calm Examples.page Examples.market).1
      = Some info
    ∧ Cashier.sessionOrders
        (Cashier.handleSubmitTicket Examples.calm Examples.page Examples.market).1
      = news
    ∧ length news = 2%nat
    ∧ Forall (order_on_ticket Examples.market
                (Cashier.handleSubmitTicket Examples.calm Examples.page
                   Examples.market).2
                (Cashier.SessionInfo.id info)) news.
Proof.
  destruct (submit_puts_orders_on_one_ticket Examples.calm Examples.page
              Examples.market)
    as (info & news & Hcart & Hinfo & _ & _ & _ & Hnews & _ & _ & Hvendors & _ & _ & Hon).
  - by intros [|j].
  - done.
  - by vm_compute.
  - exists info, news. split; [exact Hcart|]. split; [exact Hinfo|].
    split; [exact Hnews|]. split; [|exact Hon].
    apply (f_equal length) in Hvendors. rewrite !length_map in Hvendors.
    rewrite Hvendors. by vm_compute.
Defined.

(** The cart showed 2800, and the two orders add up to 2800. *)
Lemma ticket_total_is_cart_total_witness :
  ∃ news,
    Cashier.sessionOrders
      (Cashier.handleSubmitTicket Examples.calm Examples.page Examples.market).1
    = news
    ∧ sum_Z (map (λ o, default 0 (Cashier.SessionOrderSummary.totalCents o)) news)
      = 2800.
Proof.
  destruct (ticket_total_is_cart_total Examples.calm Examples.page Examples.market)
    as (news & Hnews & Hsum).
  - repeat constructor; eexists; by vm_compute.
  - by vm_compute.
  - exists news. split; [exact Hnews|]. rewrite Hsum. by vm_compute.
Defined.

(** The request for the bar is lost: the page keeps the cart, and the
    order of the grill is in the store. *)
Lemma submit_failure_keeps_cart_witness :
  Cashier.cart
    (Cashier.handleSubmitTicket Examples.stormy Examples.page Examples.market).1
  = Cashier.cart Examples.page
  ∧ Cashier.currentSession
      (Cashier.handleSubmitTicket Examples.stormy Examples.page Examples.market).1
    = None
  ∧ is_Some (orders (Cashier.handleSubmitTicket Examples.stormy Examples.page
                       Examples.market).2 !! "o1").
Proof.
  destruct (submit_failure_keeps_cart Examples.stormy Examples.page Examples.market)
    as (Hcart & Hsession & _).
  - by vm_compute.
  - split; [exact Hcart|]. split; [exact Hsession|].
    apply (bool_decide_unpack _). by vm_compute.
Defined.

(** The burger with an option is a second line for item A of the grill:
    the submit ends with an error. *)
Lemma duplicate_lines_block_submit_witness :
  Cashier.error
    (Cashier.handleSubmitTicket Examples.calm Examples.page_with_option
       Examples.market).1 ≠ None
  ∧ Cashier.cart
      (Cashier.handleSubmitTicket Examples.calm Examples.page_with_option
         Examples.market).1
    = Cashier.cart Examples.page_with_option.
Proof.
  apply (duplicate_lines_block_submit Examples.calm Examples.page_with_option
           Examples.market 0 3
           (Cashier.CartItem.mk "v1" "Grill" "A" "Burger" 2 EmptyString 1000)
           (Cashier.CartItem.mk "v1" "Grill" "A" "Burger" 1 "Option: Beef" 1000));
    done.
Defined.

(** The grill marks order o2 as collected: no error, and o2 has left the
    board. *)
Lemma vendor_page_status_change_witness :
  VendorPage.error
    (VendorPage.handleStatusChange Examples.press Examples.reload "o2" collected
       Examples.board Scenario.lifecycle_store).1 = None
  ∧ "o2" ∉ map VendorOrder.id
             (VendorPage.orders
                (VendorPage.handleStatusChange Examples.press Examples.reload "o2"
                   collected Examples.board Scenario.lifecycle_store).1).
Proof.
  assert (Herr : VendorPage.error
                   (VendorPage.handleStatusChange Examples.press Examples.reload "o2"
                      collected Examples.board Scenario.lifecycle_store).1 = None)
    by (by vm_compute).
  split; [exact Herr|].
  destruct (vendor_page_status_change Examples.press Examples.reload "o2" collected
              Examples.board Scenario.lifecycle_store
              (VendorPage.Vendor.mk "v1" "Grill" "grill") eq_refl eq_refl)
    as (_ & _ & H & _).
  destruct (H Herr) as (_ & _ & Hboard & _).
  destruct Hboard as (_ & Hgone & _); [done|done|]. by apply Hgone.
Defined.
